(* ===== verification/_CoqProject ===== *)
-Q . S2P
Prelude.v
Radix.v
Fe.v
FeBytes.v
FePow.v
Pocklington.v
Ge.v
Curve.v
GeBytes.v
Group.v
CurveAssoc.v
Points.v
Slide.v
Tables.v
Sc.v
ScBounds.v
ScProofs.v
TableProofs.v
ScalarMult.v
ScalarMultProofs.v
FromFe.v
FieldCorrect.v
ScCorrect.v
GeCorrect.v
ScalarMultCorrect.v
FromFeCorrect.v
Words.v
Keccak.v
KeccakSpec.v
KeccakSponge.v
KeccakCorrect.v
TreeHash.v
TreeProofs.v
TreeCorrect.v
IntUtil.v
Matrix.v
ChaCha.v
ChaChaProofs.v
ChaChaCorrect.v
Blake256.v
Blake256Spec.v
Blake256Proofs.v
Blake256Final.v
Blake256Hmac.v
Blake256Correct.v
Random.v
RandomProofs.v
RandomCorrect.v
Varint.v
CurveOrder.v
Crypto.v
CryptoProofs.v
RingProofs.v
KeyProofs.v
CryptoCorrect.v
AesTables.v
AesSpec.v
AesProofs.v
Oaes.v
OaesProofs.v
OaesMessage.v
OaesCorrect.v
Aesb.v
BitString.v
Groestl.v
GroestlSpec.v
GroestlProofs.v
GroestlCorrect.v
Jh.v
JhSpec.v
JhProofs.v
JhE8.v
JhCorrect.v
Skein.v
SkeinSpec.v
SkeinProofs.v
Base58.v
Base58Proofs.v
Base58Correct.v
