(* ===== verification/Prelude.v ===== *)
(** * Verification of the native cryptography of miningcore

    The mining pool calls native libraries for everything it hashes and for the
    Cryptonote keys and addresses it validates. This development models the C
    code of those libraries and proves what it computes. The subject of the
    files below is [src/Native/libcryptonote]: the elliptic-curve arithmetic of
    [crypto/crypto-ops.c] with its tables [crypto-ops-data.c]; the hashes, the
    Merkle tree and the ciphers beside it ([keccak.c], [hash.c], [tree-hash.c],
    [chacha.c], [blake256.c], [oaes_lib.c], [aesb.c], [common/int-util.h]); the
    random generator ([random.c]); and the code on top of them that makes and
    checks keys, signatures and addresses ([crypto/crypto.cpp],
    [common/varint.h], [common/base58.cpp]).

    ** Parts of the program and files of the development

    - machine integers, carries: [Prelude] (this file); byte strings, [load_3],
      [load_4]: [Radix];
    - field elements modulo 2^255 - 19, type [fe] of ten 32-bit limbs
      ([fe_*] of crypto-ops.c): [Fe] (addition, multiplication, squaring),
      [FeBytes] ([fe_tobytes] and the loads), [FePow] ([fe_invert],
      [fe_divpowm1]); [Pocklington] proves 2^255 - 19 prime, which the inverse
      and the square root need;
    - scalars modulo the order of the base point ([sc_*]): [Sc] holds the
      definitions, [ScBounds] the interval analysis of the straight-line code,
      [ScProofs] the value of each function;
    - points of the curve ([ge_*]): [Ge] holds the representations [ge_p2],
      [ge_p3], [ge_p1p1], [ge_precomp], [ge_cached] and the operations on them,
      [Curve] and [CurveAssoc] the group of the affine curve, [Points] the
      operations as operations of that group, [GeBytes] encoding and decoding;
      [Group] is the interface (a type class of abelian groups with multiples)
      between the curve and the scalar multiplications;
    - scalar multiplication: [Slide] is the signed sliding-window recoding,
      [Tables] the two tables of multiples of the base point, checked row by row
      in [TableCheck] and [TableProofs] (the certificate that the base point has
      order l is there too), [ScalarMult] every multiplication by a scalar with
      proofs in [ScalarMultProofs], [FromFe] the map from field elements to
      points with its assertions;
    - [Words]: bits and rotations of unsigned words, folds, arrays and blocks,
      shared by the files that follow;
    - Keccak ([keccak.c], [hash.c]): [Keccak] has the permutation, the hash with
      its guards, [cn_fast_hash]; [KeccakSpec] the steps of FIPS 202 and their
      equality with the code, [KeccakSponge] the sponge, the padding and the loop;
    - the Merkle tree of transaction hashes ([tree-hash.c]): [TreeHash] (the code
      and the abstract tree), [TreeProofs];
    - [IntUtil]: rotations, 128-bit product and quotient, byte swaps of
      [common/int-util.h];
    - [Matrix]: quarter rounds on sixteen words, for ChaCha and BLAKE;
    - ChaCha ([chacha.c]): [ChaCha], [ChaChaProofs];
    - BLAKE-256, BLAKE-224 and HMAC ([blake256.c], [hash-extra-blake.c]):
      [Blake256] has the code on the C [state], [Blake256Spec] the hash as a
      function of the message, [Blake256Proofs] the updates, [Blake256Final] the
      padding, [Blake256Hmac] the one-call functions and HMAC;
    - the random generator ([random.c], and [rand] of [crypto.h]): [Random] has
      the functions, the steps of a call and the step relation of threads that
      call under the mutex, [RandomProofs] the stream of bytes, [RandomLock] the
      invariant of the mutex and the bound on the steps;
    - variable-length integers ([common/varint.h]): [Varint];
    - keys and signatures ([crypto.cpp]): [Crypto] has every function of the
      file, [CurveOrder] the number of points of the curve, [CryptoProofs] the
      functions in terms of points and scalars, [KeyProofs], [SignatureProofs],
      [RingProofs] and [TxProofs] one kind of key or signature each;
    - OpenAES ([oaes_lib.c], [oaes_lib.h]): [AesTables] the tables, [Oaes] keys,
      contexts, blocks and messages, [AesSpec] the reference (FIPS 197),
      [AesProofs] the tables as arithmetic, [OaesProofs] blocks and key expansion,
      [OaesMessage] the loops over a message;
    - the table-driven AES rounds ([aesb.c]): [Aesb];
    - base 58 and addresses ([common/base58.cpp]): [Base58], [Base58Proofs].

    A file named [...Correct] holds the main theorems of its part.

    The functions call each other in that order: points use field elements,
    encodings use the inverse and the square root, scalar multiplications use
    points, the recodings and the tables. [cn_fast_hash] is the sponge of
    [keccak.c], the tree hashes with [cn_fast_hash], and so does
    [hash_to_scalar]; the generator runs the permutation of [keccak.c]; keys and
    signatures use scalars, points, hash and generator; addresses use [varint.h]
    and [cn_fast_hash].

    ** How the code is modelled

    An [int32_t] or [int64_t] is a [Z]; every C operation that could wrap is
    written with its wrap-around ([i32], [i64], [u8], ...), and the theorems
    prove, from bounds on the operands, that none does. A byte string is a
    [list Z] with [byte_ok]. A function that writes an out parameter returns the
    value; a return code or a failed [assert] is an [option]. Loops with a
    counter are [Fixpoint]s on the number of iterations left, the counts of the
    [for] statements. The loops whose end depends on the data have fuel: the
    number of input bytes for the blocks of [keccak] (a block has at least one),
    the number of whole blocks for [chacha] and [blake256_update], 28 for the
    loops of [tree-hash.c] (its assertions bound the count by 2^28); each is
    proved enough where the result is claimed, and [keccak_outcome] shows the one
    width for which no fuel is. A number takes at most ten bytes in [varint.h], a
    block of base 58 eleven symbols. The loop of [random.c] over read(2) takes
    its fuel from the hypothesis that interruptions end. The C [state] of BLAKE is a record with its bit lengths,
    counter words and buffer. Uninitialised stack memory is an argument of the
    model ([tmp] of [chacha], [buf0] of BLAKE, [k0] of [generate_ring_signature])
    and the theorems hold for each of its values. The static variables of
    [random.c] are a record passed through the functions; for calls of several
    threads they are the shared part of a step relation, one step for each
    access to [curstate] or [state]. Assertions are checked, as in the build
    (no [NDEBUG]); a failed one, like [local_abort] or an exception, is [None].
    An operation of OpenAES returns its code beside its result; the outcome of
    [calloc], the generator of [rand] and the system's read(2) are parameters.

    ** What the theorems show

    - [FieldCorrect]: no operation overflows on the documented operand ranges,
      products, sums, inverse and square root have the right value modulo
      2^255 - 19, encodings are canonical;
    - [ScCorrect]: every [sc_*] function writes the canonical representative
      modulo the group order for every input of the right length;
    - [GeCorrect]: the point operations refine the group law of the curve for
      all pairs of points, encoding is injective, decoding is its inverse and
      rejects everything else, [slide] keeps the value;
    - [ScalarMultCorrect]: the tables hold the multiples their comments state,
      every scalar multiplication computes its linear combination, table
      selection and recodings are correct; the [_p3] variants leave their result
      unwritten for zero scalars;
    - [FromFeCorrect]: the map from field elements never fails an assertion and
      reaches the curve;
    - [KeccakCorrect]: the permutation is that of FIPS 202, the hash the sponge
      for the widths whose rate is whole lanes; which widths abort, which one
      loops forever, and which ignore bytes of the message;
    - [TreeCorrect]: the power of two of [tree_hash_cnt], the balanced tree over
      the hashes in order, and its binding up to an explicit collision;
    - [ChaChaCorrect]: the cipher is the xor with a key stream of a 64-bit
      counter, its own inverse; the 128-bit helpers are exact;
    - [Blake256Correct]: the streaming state refines the hash of the whole
      message for every cut into nonempty pieces, an empty update loses data,
      HMAC is RFC 2104 but for long keys of the 224-bit variant;
    - [RandomCorrect]: the bytes of the generator and its assertions; calls under
      the mutex are equivalent to calls one after the other and all return;
      without it, [curstate] misses a race;
    - [CryptoCorrect]: signatures, ring signatures and transaction proofs are
      accepted when made as the code makes them, and the checks accept exactly
      what the equations say; derivations, one-time keys and key images; the
      curve has [8 l] points;
    - [OaesCorrect]: contexts are well typed, blocks are FIPS 197, messages and
      keys are read back, the outcomes of decryption, the bound of printing;
    - [Aesb]: the tables of [aesb.c] compute the same rounds;
    - [Varint], [Base58Correct]: integers, strings and addresses are read back,
      and nothing else is accepted but a tag that is cut off.

    ** Not modelled

    C# (the pool server) and the C++ code on boost and epee (serialisation, the
    ring confidential transactions, the Equihash verifier), of which only the
    three files above are modelled; vendored hash implementations
    ([libmultihash], [skein.c], [jh.c], [groestl.c]); [chacha8.c], the text of
    [chacha.c] with eight rounds, which is not part of the build; the slow hash,
    whose variants are selected by processor features and use inline assembly
    (its AES rounds are modelled); the branch of [random.c] for Windows; the
    clock that [oaes_get_seed] reads; [OAES_DEBUG] and ISAAC, which
    [oaes_config.h] leaves out. The probability of accepting a forged signature
    is not stated: the theorems say which equation a check tests. Constant-time
    behaviour is not modelled: the functions are pure. A big-endian machine is
    not modelled: words are read from bytes little-endian, as on the platforms
    of the build. *)

From Stdlib Require Import ZArith Lia List Znumtheory Zpow_facts.
From stdpp Require Import base list numbers.

#[global] Set Default Goal Selector "!".
#[export] Set Default Proof Using "Type".
Open Scope Z_scope.

(** ** Machine integers *)

(** The unsigned C types: reduction modulo [2^w]. *)
Definition u8 (x : Z) : Z := x mod 2 ^ 8.
Definition u32 (x : Z) : Z := x mod 2 ^ 32.
Definition u64 (x : Z) : Z := x mod 2 ^ 64.

(** The signed C types, two's complement with wrap-around. *)
Definition i8 (x : Z) : Z := (x + 2 ^ 7) mod 2 ^ 8 - 2 ^ 7.
Definition i32 (x : Z) : Z := (x + 2 ^ 31) mod 2 ^ 32 - 2 ^ 31.
Definition i64 (x : Z) : Z := (x + 2 ^ 63) mod 2 ^ 64 - 2 ^ 63.

Declare Scope cint_scope.
Delimit Scope cint_scope with cint.
Notation "a +₃₂ b" := (i32 (a + b)) (at level 50, left associativity) : cint_scope.
Notation "a -₃₂ b" := (i32 (a - b)) (at level 50, left associativity) : cint_scope.
Notation "a *₃₂ b" := (i32 (a * b)) (at level 40, left associativity) : cint_scope.
Notation "a +₆₄ b" := (i64 (a + b)) (at level 50, left associativity) : cint_scope.
Notation "a -₆₄ b" := (i64 (a - b)) (at level 50, left associativity) : cint_scope.
Notation "a *₆₄ b" := (i64 (a * b)) (at level 40, left associativity) : cint_scope.

(** Value-preserving conversions. *)
Lemma u8_id x : 0 <= x < 2 ^ 8 -> u8 x = x.
Proof. apply Z.mod_small. Qed.
Lemma u32_id x : 0 <= x < 2 ^ 32 -> u32 x = x.
Proof. apply Z.mod_small. Qed.
Lemma u64_id x : 0 <= x < 2 ^ 64 -> u64 x = x.
Proof. apply Z.mod_small. Qed.
Lemma i8_id x : - 2 ^ 7 <= x < 2 ^ 7 -> i8 x = x.
Proof. intros H. unfold i8. rewrite Z.mod_small; lia. Qed.
Lemma i32_id x : - 2 ^ 31 <= x < 2 ^ 31 -> i32 x = x.
Proof. intros H. unfold i32. rewrite Z.mod_small; lia. Qed.
Lemma i64_id x : - 2 ^ 63 <= x < 2 ^ 63 -> i64 x = x.
Proof. intros H. unfold i64. rewrite Z.mod_small; lia. Qed.

Lemma u8_range x : 0 <= u8 x < 2 ^ 8.
Proof. apply Z.mod_pos_bound. lia. Qed.
Lemma u32_range x : 0 <= u32 x < 2 ^ 32.
Proof. apply Z.mod_pos_bound. lia. Qed.
Lemma u64_range x : 0 <= u64 x < 2 ^ 64.
Proof. apply Z.mod_pos_bound. lia. Qed.
Lemma i32_range x : - 2 ^ 31 <= i32 x < 2 ^ 31.
Proof. unfold i32. pose proof (Z.mod_pos_bound (x + 2 ^ 31) (2 ^ 32)). lia. Qed.
Lemma i64_range x : - 2 ^ 63 <= i64 x < 2 ^ 63.
Proof. unfold i64. pose proof (Z.mod_pos_bound (x + 2 ^ 63) (2 ^ 64)). lia. Qed.

(** [i64] is a reduction modulo [2^64], so it is absorbed by an outer one. *)
Lemma i64_eqm x y : x mod 2 ^ 64 = y mod 2 ^ 64 -> i64 x = i64 y.
Proof.
  intros H. unfold i64. rewrite (Z.add_mod x), (Z.add_mod y), H by lia. done.
Qed.
Lemma i64_mod x : i64 x mod 2 ^ 64 = x mod 2 ^ 64.
Proof.
  unfold i64. rewrite Zminus_mod_idemp_l. f_equal. lia.
Qed.
Lemma i64_add_l x y : i64 (i64 x + y) = i64 (x + y).
Proof. apply i64_eqm. rewrite Z.add_mod, i64_mod, <- Z.add_mod by lia. done. Qed.
Lemma i64_add_r x y : i64 (x + i64 y) = i64 (x + y).
Proof. rewrite (Z.add_comm x), i64_add_l. f_equal. lia. Qed.
Lemma i64_sub_l x y : i64 (i64 x - y) = i64 (x - y).
Proof. apply i64_add_l. Qed.
Lemma i64_sub_r x y : i64 (x - i64 y) = i64 (x - y).
Proof.
  apply i64_eqm. rewrite Zminus_mod, i64_mod, <- Zminus_mod. done.
Qed.
Lemma i64_mul_l x y : i64 (i64 x * y) = i64 (x * y).
Proof. apply i64_eqm. rewrite Z.mul_mod, i64_mod, <- Z.mul_mod by lia. done. Qed.
Lemma i64_mul_r x y : i64 (x * i64 y) = i64 (x * y).
Proof. rewrite (Z.mul_comm x), i64_mul_l. f_equal. lia. Qed.
Lemma i64_i64 x : i64 (i64 x) = i64 x.
Proof. apply i64_eqm, i64_mod. Qed.

Create Rewrite HintDb cint.
#[export] Hint Rewrite i64_add_l i64_add_r i64_sub_l i64_sub_r
  i64_mul_l i64_mul_r i64_i64 : cint.

(** ** Magnitude bounds

    [abs_bound e] is a proof of [Z.abs e <= c] for a constant [c], read off the
    hypotheses [Z.abs x <= _] on the variables of [e]. *)
Lemma abs_add a b A B : Z.abs a <= A -> Z.abs b <= B -> Z.abs (a + b) <= A + B.
Proof. lia. Qed.
Lemma abs_sub a b A B : Z.abs a <= A -> Z.abs b <= B -> Z.abs (a - b) <= A + B.
Proof. lia. Qed.
Lemma abs_opp a A : Z.abs a <= A -> Z.abs (- a) <= A.
Proof. lia. Qed.
Lemma abs_mul a b A B : Z.abs a <= A -> Z.abs b <= B -> Z.abs (a * b) <= A * B.
Proof. intros. rewrite Z.abs_mul. apply Z.mul_le_mono_nonneg; lia. Qed.

Lemma abs_shiftr a k A : (0 <=? k) = true -> Z.abs a <= A -> Z.abs (Z.shiftr a k) <= A / 2 ^ k + 1.
Proof.
  intros Hk HA. apply Z.leb_le in Hk. rewrite Z.shiftr_div_pow2 by lia.
  assert (0 < 2 ^ k) by (apply Z.pow_pos_nonneg; lia).
  pose proof (Z.div_mod a (2 ^ k)). pose proof (Z.mod_pos_bound a (2 ^ k)).
  pose proof (Z.div_mod A (2 ^ k)). pose proof (Z.mod_pos_bound A (2 ^ k)).
  nia.
Qed.

Ltac abs_bound e :=
  lazymatch e with
  | ?a + ?b => let p := abs_bound a in let q := abs_bound b in constr:(abs_add _ _ _ _ p q)
  | ?a - ?b => let p := abs_bound a in let q := abs_bound b in constr:(abs_sub _ _ _ _ p q)
  | ?a * ?b => let p := abs_bound a in let q := abs_bound b in constr:(abs_mul _ _ _ _ p q)
  | - ?a => let p := abs_bound a in constr:(abs_opp _ _ p)
  | Z.shiftr ?a ?k => let p := abs_bound a in constr:(abs_shiftr _ k _ eq_refl p)
  | Z0 => constr:(Z.le_refl (Z.abs e))
  | Zpos _ => constr:(Z.le_refl (Z.abs e))
  | Zneg _ => constr:(Z.le_refl (Z.abs e))
  | Z.pow (Zpos _) (Zpos _) => constr:(Z.le_refl (Z.abs e))
  | _ => lazymatch goal with H : Z.abs e <= _ |- _ => H end
  end.

(** Closes [Z.abs e <= K] for a constant [K]. *)
Ltac abs_tac :=
  lazymatch goal with
  | |- Z.abs ?e <= _ =>
      let p := abs_bound e in
      refine (Z.le_trans _ _ _ p _); vm_compute; discriminate
  end.

Lemma abs_i32 x : Z.abs x <= 2147483647 -> i32 x = x.
Proof. intros. apply i32_id. lia. Qed.
Lemma abs_i64 x : Z.abs x <= 9223372036854775807 -> i64 x = x.
Proof. intros. apply i64_id. lia. Qed.

(** ** Carries

    The C statements
    [carry = (hi + (1 << (k-1))) >> k; hj += carry; hi -= carry << k;]
    move the rounded quotient of [hi] by [2^k] to the next limb; with the
    half left out the quotient is rounded down. *)
Definition carry_out (k hi : Z) : Z * Z :=
  let carry := Z.shiftr (i64 (hi + 2 ^ (k - 1))) k in
  (carry, i64 (hi - i64 (Z.shiftl carry k))).

Definition carry_rnd (k hi hj : Z) : Z * Z :=
  let '(carry, hi) := carry_out k hi in (hi, i64 (hj + carry)).

Definition carry_flr (k hi hj : Z) : Z * Z :=
  let carry := Z.shiftr hi k in
  (i64 (hi - i64 (Z.shiftl carry k)), i64 (hj + carry)).

(** Quotient of [x + m/2] by [m], with the bounds on it and on the remainder. *)
Lemma rounded_div x m A :
  0 < m -> m mod 2 = 0 -> Z.abs x <= A ->
  let c := (x + m / 2) / m in
  - (m / 2) <= x - c * m < m / 2 /\ Z.abs c <= (A + m / 2) / m.
Proof.
  intros Hm Heven HA c.
  pose proof (Z.div_mod (x + m / 2) m). pose proof (Z.mod_pos_bound (x + m / 2) m Hm).
  pose proof (Z.div_mod m 2). fold c in H.
  split; [nia|].
  assert (c <= (A + m / 2) / m) by (apply Z.div_le_mono; lia).
  assert (- c <= (A + m / 2) / m).
  { apply Z.div_le_lower_bound; [lia|]. nia. }
  lia.
Qed.

Lemma carry_out_spec k hi A :
  1 <= k <= 62 -> Z.abs hi <= A -> A + 2 ^ k <= 2 ^ 62 ->
  exists c, carry_out k hi = (c, hi - c * 2 ^ k) /\
    - 2 ^ (k - 1) <= hi - c * 2 ^ k < 2 ^ (k - 1) /\
    Z.abs c <= (A + 2 ^ (k - 1)) / 2 ^ k.
Proof.
  intros Hk HA HoA.
  assert (Hpow : 2 ^ k = 2 * 2 ^ (k - 1)).
  { rewrite <- Z.pow_succ_r by lia. f_equal. lia. }
  assert (0 < 2 ^ (k - 1)) by (apply Z.pow_pos_nonneg; lia).
  assert (Hhalf : 2 ^ k / 2 = 2 ^ (k - 1)) by (rewrite Hpow, Z.mul_comm; apply Z.div_mul; lia).
  destruct (rounded_div hi (2 ^ k) A) as [Hr Hc]; [lia| |assumption|].
  { rewrite Hpow, Z.mul_comm. apply Z.mod_mul. lia. }
  rewrite Hhalf in Hr, Hc.
  exists ((hi + 2 ^ (k - 1)) / 2 ^ k).
  set (c := (hi + 2 ^ (k - 1)) / 2 ^ k) in *.
  unfold carry_out. rewrite (i64_id (hi + _)) by lia.
  rewrite Z.shiftr_div_pow2 by lia. fold c.
  rewrite Z.shiftl_mul_pow2 by lia.
  rewrite (i64_id (c * _)) by lia. rewrite i64_id by lia. done.
Qed.

Lemma carry_rnd_spec k hi hj A B :
  1 <= k <= 62 -> Z.abs hi <= A -> Z.abs hj <= B ->
  A + 2 ^ k <= 2 ^ 62 -> B + (A + 2 ^ (k - 1)) / 2 ^ k < 2 ^ 63 ->
  exists c, carry_rnd k hi hj = (hi - c * 2 ^ k, hj + c) /\
    - 2 ^ (k - 1) <= hi - c * 2 ^ k < 2 ^ (k - 1) /\
    Z.abs c <= (A + 2 ^ (k - 1)) / 2 ^ k.
Proof.
  intros Hk HA HB HoA HoB.
  destruct (carry_out_spec k hi A) as (c & E & Hr & Hc); [done..|].
  exists c. unfold carry_rnd. rewrite E, i64_id by lia. done.
Qed.

Lemma carry_flr_spec k hi hj :
  0 <= k <= 62 -> - 2 ^ 63 <= hi < 2 ^ 63 - 2 ^ k -> - 2 ^ 63 <= hj + hi / 2 ^ k < 2 ^ 63 ->
  carry_flr k hi hj = (hi mod 2 ^ k, hj + hi / 2 ^ k).
Proof.
  intros Hk Hi Hj. unfold carry_flr.
  assert (0 < 2 ^ k) by (apply Z.pow_pos_nonneg; lia).
  pose proof (Z.div_mod hi (2 ^ k)). pose proof (Z.mod_pos_bound hi (2 ^ k)).
  assert (2 ^ k <= 2 ^ 62) by (apply Z.pow_le_mono_r; lia).
  rewrite Z.shiftr_div_pow2, Z.shiftl_mul_pow2 by lia.
  rewrite i64_sub_r. rewrite !i64_id by lia. f_equal. lia.
Qed.
