(* ===== verification/Radix.v ===== *)
(** * Positional notation: little-endian byte strings and limb vectors

    Byte strings are lists of [Z] in [0, 256); [le_val] is the integer they
    stand for. [load_3] and [load_4] (crypto-ops.c) read 3 or 4 bytes of one.
    [evaln] is the value of the first [n] limbs of a vector in a power-of-two
    radix. *)

From Stdlib Require Import ZArith Lia.
From stdpp Require Import base tactics list numbers.
From S2P Require Import Prelude.
Open Scope Z_scope.

(** ** Byte strings *)

Definition byte_ok (l : list Z) : Prop := Forall (fun b => 0 <= b < 2 ^ 8) l.

Fixpoint le_val (l : list Z) : Z :=
  match l with
  | [] => 0
  | b :: t => b + 2 ^ 8 * le_val t
  end.

Fixpoint le_bytes (n : nat) (z : Z) : list Z :=
  match n with
  | O => []
  | S n => z mod 2 ^ 8 :: le_bytes n (z / 2 ^ 8)
  end.

Lemma le_val_app l1 l2 : le_val (l1 ++ l2) = le_val l1 + 2 ^ (8 * Z.of_nat (length l1)) * le_val l2.
Proof.
  induction l1 as [|b l1 IH]; [cbn; lia|].
  cbn [app le_val length]. rewrite IH.
  replace (8 * Z.of_nat (S (length l1))) with (8 + 8 * Z.of_nat (length l1)) by lia.
  rewrite Z.pow_add_r by lia. ring.
Qed.

Lemma le_val_range l : byte_ok l -> 0 <= le_val l < 2 ^ (8 * Z.of_nat (length l)).
Proof.
  induction 1 as [|b l Hb Hl IH]; [cbn; lia|].
  cbn [le_val length].
  replace (8 * Z.of_nat (S (length l))) with (8 + 8 * Z.of_nat (length l)) by lia.
  rewrite Z.pow_add_r by lia. nia.
Qed.

Lemma length_le_bytes n z : length (le_bytes n z) = n.
Proof. revert z. induction n; intros; cbn; auto. Qed.

Lemma le_bytes_ok n z : byte_ok (le_bytes n z).
Proof.
  revert z. induction n; intros; cbn; constructor; [|apply IHn].
  apply Z.mod_pos_bound. lia.
Qed.

Lemma le_val_le_bytes n z : le_val (le_bytes n z) = z mod 2 ^ (8 * Z.of_nat n).
Proof.
  revert z. induction n as [|n IH]; intros z; [symmetry; apply Z.mod_1_r|].
  cbn [le_bytes le_val]. rewrite IH.
  replace (8 * Z.of_nat (S n)) with (8 + 8 * Z.of_nat n) by lia.
  rewrite Z.pow_add_r, Z.rem_mul_r by lia. done.
Qed.

Lemma le_bytes_le_val l : byte_ok l -> le_bytes (length l) (le_val l) = l.
Proof.
  induction 1 as [|b l Hb Hl IH]; [done|]. cbn [le_val length le_bytes].
  rewrite Z.mul_comm, Z_mod_plus_full, Z.div_add, (Z.mod_small b), (Z.div_small b) by lia.
  rewrite Z.add_0_l, IH. done.
Qed.

Lemma le_val_inj l1 l2 :
  byte_ok l1 -> byte_ok l2 -> length l1 = length l2 -> le_val l1 = le_val l2 -> l1 = l2.
Proof.
  intros H1 H2 Hl Hv. rewrite <- (le_bytes_le_val l1), <- (le_bytes_le_val l2) by done.
  rewrite Hl, Hv. done.
Qed.

Lemma byte_ok_drop n l : byte_ok l -> byte_ok (drop n l).
Proof. apply Forall_drop. Qed.

(** Dropping [j] bytes divides by [256^j]. *)
Lemma le_val_drop j l : byte_ok l -> le_val (drop j l) = le_val l / 2 ^ (8 * Z.of_nat j).
Proof.
  intros Hl. revert l Hl. induction j as [|j IH]; intros l Hl.
  { change (2 ^ (8 * Z.of_nat 0)) with 1. rewrite Z.div_1_r. done. }
  destruct Hl as [|b l Hb Hl].
  { cbn [drop le_val]. rewrite Z.div_0_l by lia. done. }
  cbn [drop le_val]. rewrite (IH l Hl).
  replace (8 * Z.of_nat (S j)) with (8 + 8 * Z.of_nat j) by lia.
  rewrite Z.pow_add_r, <- Z.div_div by lia. f_equal.
  rewrite Z.mul_comm, Z.div_add, Z.div_small by lia. done.
Qed.

(** ** Digit extraction *)

Lemma mod_split x a b : 0 <= a -> 0 <= b ->
  x mod 2 ^ a + 2 ^ a * ((x / 2 ^ a) mod 2 ^ b) = x mod 2 ^ (a + b).
Proof. intros. rewrite Z.pow_add_r, Z.rem_mul_r by lia. done. Qed.

Lemma div_mod_pow x a b : 0 <= a -> 0 <= b -> (x mod 2 ^ (a + b)) / 2 ^ a = (x / 2 ^ a) mod 2 ^ b.
Proof.
  intros. rewrite <- mod_split by lia. rewrite (Z.mul_comm (2 ^ a)), Z.div_add by lia.
  rewrite (Z.div_small (x mod _)); [lia|]. apply Z.mod_pos_bound. lia.
Qed.

Lemma mod_mod_pow x a b : 0 <= b <= a -> (x mod 2 ^ a) mod 2 ^ b = x mod 2 ^ b.
Proof.
  intros. replace a with (b + (a - b)) by lia. rewrite <- mod_split by lia.
  rewrite (Z.mul_comm (2 ^ b)), Z_mod_plus_full, Z.mod_mod by lia. done.
Qed.

Lemma div_div_pow x a b : 0 <= a -> 0 <= b -> x / 2 ^ a / 2 ^ b = x / 2 ^ (a + b).
Proof. intros. rewrite Z.div_div, Z.pow_add_r by lia. done. Qed.

Lemma land_shiftl a b m : 0 <= m -> 0 <= a < 2 ^ m -> Z.land a (Z.shiftl b m) = 0.
Proof.
  intros Hm Ha. apply Z.bits_inj'. intros i Hi. rewrite Z.land_spec, Z.bits_0.
  destruct (Z.lt_ge_cases i m).
  - rewrite Z.shiftl_spec_low by lia. apply andb_false_r.
  - rewrite <- (Z.mod_small a (2 ^ m)) by lia. rewrite Z.mod_pow2_bits_high by lia. done.
Qed.

Lemma lor_shiftl_add a b m : 0 <= m -> 0 <= a < 2 ^ m -> Z.lor a (Z.shiftl b m) = a + 2 ^ m * b.
Proof.
  intros Hm Ha. pose proof (Z.add_lor_land a (Z.shiftl b m)) as E.
  rewrite land_shiftl in E by lia. rewrite Z.shiftl_mul_pow2 in * by lia. lia.
Qed.

Lemma lxor_shiftl_add a b m : 0 <= m -> 0 <= a < 2 ^ m -> Z.lxor a (Z.shiftl b m) = a + 2 ^ m * b.
Proof.
  intros Hm Ha. rewrite Z.lxor_lor by (apply land_shiftl; lia). by apply lor_shiftl_add.
Qed.

(** A byte assembled from the top of one limb and the bottom of the next. *)
Lemma u8_or a b m : 0 <= m <= 8 -> 0 <= a < 2 ^ m ->
  u8 (Z.lor a (Z.shiftl b m)) = a + 2 ^ m * (b mod 2 ^ (8 - m)).
Proof.
  intros Hm Ha. rewrite lor_shiftl_add by lia. unfold u8.
  replace 8 with (m + (8 - m)) at 1 by lia. rewrite <- mod_split by lia.
  rewrite (Z.mul_comm _ b), Z_mod_plus_full, Z.div_add, (Z.mod_small a), (Z.div_small a) by lia.
  done.
Qed.

(** ** [load_3], [load_4]

    [nth i inp 0] is the read [inp[i]]; the callers pass buffers that are long
    enough, and their theorems say how long. *)

Definition load_3 (inp : list Z) : Z :=
  let result := nth 0 inp 0 in
  let result := Z.lor result (Z.shiftl (nth 1 inp 0) 8) in
  Z.lor result (Z.shiftl (nth 2 inp 0) 16).

Definition load_4 (inp : list Z) : Z :=
  let result := nth 0 inp 0 in
  let result := Z.lor result (Z.shiftl (nth 1 inp 0) 8) in
  let result := Z.lor result (Z.shiftl (nth 2 inp 0) 16) in
  Z.lor result (Z.shiftl (nth 3 inp 0) 24).

Lemma byte_ok_nth l i : byte_ok l -> 0 <= nth i l 0 < 2 ^ 8.
Proof.
  intros Hl. revert i. induction Hl; intros [|i]; cbn; auto; lia.
Qed.

Lemma load_3_val l : byte_ok l -> load_3 l = le_val l mod 2 ^ 24.
Proof.
  intros Hl. unfold load_3. cbv zeta.
  pose proof (byte_ok_nth l 0 Hl). pose proof (byte_ok_nth l 1 Hl).
  pose proof (byte_ok_nth l 2 Hl).
  rewrite (lor_shiftl_add _ _ 8), lor_shiftl_add by lia.
  destruct Hl as [|b0 l Hb0 Hl]; [done|].
  destruct Hl as [|b1 l Hb1 Hl]; [cbn [nth le_val] in *; rewrite Z.mod_small; lia|].
  destruct Hl as [|b2 l Hb2 Hl]; [cbn [nth le_val] in *; rewrite Z.mod_small; lia|].
  cbn [le_val nth] in *.
  apply (Z.mod_unique _ _ (le_val l)); lia.
Qed.

Lemma load_4_val l : byte_ok l -> load_4 l = le_val l mod 2 ^ 32.
Proof.
  intros Hl. change (load_4 l) with (Z.lor (load_3 l) (Z.shiftl (nth 3 l 0) 24)).
  rewrite load_3_val by done. pose proof (byte_ok_nth l 3 Hl).
  pose proof (Z.mod_pos_bound (le_val l) (2 ^ 24)).
  rewrite lor_shiftl_add by lia. change (2 ^ 32) with (2 ^ (24 + 8)).
  rewrite <- mod_split by lia. do 2 f_equal. change 24 with (8 * Z.of_nat 3).
  rewrite <- (le_val_drop 3) by done.
  destruct Hl as [|b0 l Hb0 Hl]; [done|]. destruct Hl as [|b1 l Hb1 Hl]; [done|].
  destruct Hl as [|b2 l Hb2 Hl]; [done|]. destruct Hl as [|b3 l Hb3 Hl]; [done|].
  cbn [le_val nth drop] in *.
  rewrite Z.mul_comm, Z_mod_plus_full, Z.mod_small by lia. done.
Qed.

Lemma load_3_drop j l : byte_ok l -> load_3 (drop j l) = (le_val l / 2 ^ (8 * Z.of_nat j)) mod 2 ^ 24.
Proof. intros. rewrite load_3_val, le_val_drop by auto using byte_ok_drop. done. Qed.
Lemma load_4_drop j l : byte_ok l -> load_4 (drop j l) = (le_val l / 2 ^ (8 * Z.of_nat j)) mod 2 ^ 32.
Proof. intros. rewrite load_4_val, le_val_drop by auto using byte_ok_drop. done. Qed.

(** ** Limb vectors in radix [2^r] *)

Fixpoint evaln (r : Z) (n : nat) (s : list Z) : Z :=
  match n with
  | O => 0
  | S n => evaln r n s + s !!! n * 2 ^ (r * Z.of_nat n)
  end.

Lemma evaln_S r n s w : r * Z.of_nat n = w -> evaln r (S n) s = evaln r n s + s !!! n * 2 ^ w.
Proof. intros <-. done. Qed.

Lemma evaln_insert_ge r n i v s : (n <= i)%nat -> evaln r n (<[i:=v]> s) = evaln r n s.
Proof.
  induction n as [|n IH]; intros; [done|]. cbn [evaln].
  rewrite IH, list_lookup_total_insert_ne by lia. done.
Qed.

Lemma evaln_insert_lt r n i v s : (i < n)%nat -> (i < length s)%nat ->
  evaln r n (<[i:=v]> s) = evaln r n s + (v - s !!! i) * 2 ^ (r * Z.of_nat i).
Proof.
  induction n as [|n IH]; intros Hi Hl; [lia|]. cbn [evaln].
  destruct (decide (i = n)) as [->|].
  - rewrite evaln_insert_ge, list_lookup_total_insert_eq by lia. ring.
  - rewrite IH, list_lookup_total_insert_ne by lia. ring.
Qed.

(** The digits of a number. *)
Lemma evaln_digits r n s N :
  0 <= r -> (forall i, (i < n)%nat -> s !!! i = (N / 2 ^ (r * Z.of_nat i)) mod 2 ^ r) ->
  evaln r n s = N mod 2 ^ (r * Z.of_nat n).
Proof.
  intros Hr. induction n as [|n IH]; intros H; [cbn; rewrite Z.mul_0_r; symmetry; apply Z.mod_1_r|].
  cbn [evaln]. rewrite IH, H by auto with lia.
  replace (r * Z.of_nat (S n)) with (r * Z.of_nat n + r) by lia.
  rewrite <- mod_split by lia. lia.
Qed.

(** ** The disjunction of a byte string

    [(((int) (s[0] | ... | s[n-1]) - 1) >> 8) + 1], the test of [fe_isnonzero]
    and [sc_isnonzero]. *)
Definition bytes_nonzero (s : list Z) : Z :=
  Z.shiftr (fold_left Z.lor s 0 - 1) 8 + 1.

Lemma lor_byte a b : 0 <= a < 2 ^ 8 -> 0 <= b < 2 ^ 8 -> 0 <= Z.lor a b < 2 ^ 8.
Proof.
  intros Ha Hb. split; [apply Z.lor_nonneg; lia|].
  destruct (Z.eq_dec (Z.lor a b) 0) as [->|]; [lia|].
  assert (0 <= Z.lor a b) by (apply Z.lor_nonneg; lia).
  apply Z.log2_lt_pow2; [lia|]. rewrite Z.log2_lor by lia.
  apply Z.max_lub_lt.
  - destruct (Z.eq_dec a 0) as [->|]; [cbn; lia|]. apply Z.log2_lt_pow2; lia.
  - destruct (Z.eq_dec b 0) as [->|]; [cbn; lia|]. apply Z.log2_lt_pow2; lia.
Qed.

Lemma fold_lor_spec s a : byte_ok s -> 0 <= a < 2 ^ 8 ->
  0 <= fold_left Z.lor s a < 2 ^ 8 /\ (fold_left Z.lor s a = 0 <-> a = 0 /\ le_val s = 0).
Proof.
  intros Hs. revert a. induction Hs as [|b s Hb Hs IH]; intros a Ha; cbn [fold_left le_val].
  { lia. }
  destruct (IH (Z.lor a b)) as [Hr He]; [by apply lor_byte|]. split; [exact Hr|].
  pose proof (le_val_range s Hs). rewrite He, Z.lor_eq_0_iff. lia.
Qed.

Lemma bytes_nonzero_spec s : byte_ok s ->
  bytes_nonzero s = if le_val s =? 0 then 0 else 1.
Proof.
  intros Hs. unfold bytes_nonzero.
  destruct (fold_lor_spec s 0 Hs) as [Hr He]; [lia|].
  rewrite Z.shiftr_div_pow2 by lia.
  destruct (Z.eqb_spec (le_val s) 0) as [E|E].
  - rewrite (proj2 He) by lia. reflexivity.
  - rewrite Z.div_small; lia.
Qed.

(** ** Packing limbs into bytes

    The bits [0..a) of a limb go to the byte it shares with the limb below,
    then come two full bytes, then the bits from [c = a + 16]. *)
Lemma limb_pieces x a b c : 0 <= a -> b = a + 8 -> c = a + 16 ->
  x = x mod 2 ^ a + 2 ^ a * u8 (Z.shiftr x a) + 2 ^ b * u8 (Z.shiftr x b)
      + 2 ^ c * Z.shiftr x c.
Proof.
  intros Ha -> ->. rewrite !Z.shiftr_div_pow2 by lia. unfold u8.
  pose proof (mod_split x a 8 ltac:(lia) ltac:(lia)).
  pose proof (mod_split x (a + 8) 8 ltac:(lia) ltac:(lia)) as E.
  replace (a + 8 + 8) with (a + 16) in E by lia.
  assert (2 ^ (a + 16) <> 0) by (apply Z.pow_nonzero; lia).
  pose proof (Z.div_mod x (2 ^ (a + 16))). lia.
Qed.

Lemma shiftr_range x n k : 0 <= x < 2 ^ n -> 0 <= k <= n -> 0 <= Z.shiftr x k < 2 ^ (n - k).
Proof.
  intros Hx Hk. rewrite Z.shiftr_div_pow2 by lia.
  split; [apply Z.div_pos; lia|]. apply Z.div_lt_upper_bound; [lia|].
  rewrite <- Z.pow_add_r by lia. replace (k + (n - k)) with n by lia. lia.
Qed.

(** Linear arithmetic with remainders and shifts as atoms. *)
Ltac pieces_lia :=
  repeat match goal with
  | |- context [?x mod ?m] => let v := fresh "v" in set (v := x mod m) in *; clearbody v
  | |- context [Z.shiftr ?x ?m] => let v := fresh "v" in set (v := Z.shiftr x m) in *; clearbody v
  end; lia.
