(* ===== verification/Fe.v ===== *)
(** * Field elements of curve25519 (src/Native/libcryptonote/crypto/crypto-ops.c)

    The type [fe] of ten signed 32-bit limbs in radix 2^25.5 and its additive
    and multiplicative operations, with the magnitude of every limb tracked:
    the theorems say that under the preconditions the comments of the code
    state no 32-bit or 64-bit operation wraps, and the value of the result. *)

From Stdlib Require Import ZArith Lia.
From stdpp Require Import base tactics.
From S2P Require Import Prelude.

Open Scope Z_scope.

(** ** Data: [typedef int32_t fe[10]] *)
Record fe := Fe { fe0 : Z; fe1 : Z; fe2 : Z; fe3 : Z; fe4 : Z;
                  fe5 : Z; fe6 : Z; fe7 : Z; fe8 : Z; fe9 : Z }.

(** The prime of the field and the integer a limb vector stands for. *)
Definition fe_p : Z := 2 ^ 255 - 19.
Definition fe_val (f : fe) : Z :=
  fe0 f + 2 ^ 26 * fe1 f + 2 ^ 51 * fe2 f + 2 ^ 77 * fe3 f + 2 ^ 102 * fe4 f
  + 2 ^ 128 * fe5 f + 2 ^ 153 * fe6 f + 2 ^ 179 * fe7 f + 2 ^ 204 * fe8 f
  + 2 ^ 230 * fe9 f.

(** Even limbs of magnitude at most [E], odd ones at most [O]. *)
Definition fe_bounded (E O : Z) (f : fe) : Prop :=
  Z.abs (fe0 f) <= E /\ Z.abs (fe1 f) <= O /\ Z.abs (fe2 f) <= E /\
  Z.abs (fe3 f) <= O /\ Z.abs (fe4 f) <= E /\ Z.abs (fe5 f) <= O /\
  Z.abs (fe6 f) <= E /\ Z.abs (fe7 f) <= O /\ Z.abs (fe8 f) <= E /\
  Z.abs (fe9 f) <= O.

(** The classes of limb sizes of the comments: 1.01*2^25 after a
    multiplication, 1.1*2^25 before and 1.1*2^26 after an addition, and
    1.65*2^26 before a multiplication. *)
Definition fe_small : fe -> Prop := fe_bounded 33889976 16944988.
Definition fe_tight : fe -> Prop := fe_bounded 36909875 18454937.
Definition fe_loose : fe -> Prop := fe_bounded 73819750 36909875.
Definition fe_wide : fe -> Prop := fe_bounded 110729625 55364812.

(** ** Operations *)

Definition fe_0 : fe := Fe 0 0 0 0 0 0 0 0 0 0.
Definition fe_1 : fe := Fe 1 0 0 0 0 0 0 0 0 0.
Definition fe_copy (f : fe) : fe :=
  let 'Fe f0 f1 f2 f3 f4 f5 f6 f7 f8 f9 := f in Fe f0 f1 f2 f3 f4 f5 f6 f7 f8 f9.

Section Operations.
Local Open Scope cint_scope.

(** [h = f + g] *)
Definition fe_add (f g : fe) : fe :=
  let 'Fe f0 f1 f2 f3 f4 f5 f6 f7 f8 f9 := f in
  let 'Fe g0 g1 g2 g3 g4 g5 g6 g7 g8 g9 := g in
  let h0 := f0 +₃₂ g0 in
  let h1 := f1 +₃₂ g1 in
  let h2 := f2 +₃₂ g2 in
  let h3 := f3 +₃₂ g3 in
  let h4 := f4 +₃₂ g4 in
  let h5 := f5 +₃₂ g5 in
  let h6 := f6 +₃₂ g6 in
  let h7 := f7 +₃₂ g7 in
  let h8 := f8 +₃₂ g8 in
  let h9 := f9 +₃₂ g9 in
  Fe h0 h1 h2 h3 h4 h5 h6 h7 h8 h9.

(** [h = f - g] *)
Definition fe_sub (f g : fe) : fe :=
  let 'Fe f0 f1 f2 f3 f4 f5 f6 f7 f8 f9 := f in
  let 'Fe g0 g1 g2 g3 g4 g5 g6 g7 g8 g9 := g in
  let h0 := f0 -₃₂ g0 in
  let h1 := f1 -₃₂ g1 in
  let h2 := f2 -₃₂ g2 in
  let h3 := f3 -₃₂ g3 in
  let h4 := f4 -₃₂ g4 in
  let h5 := f5 -₃₂ g5 in
  let h6 := f6 -₃₂ g6 in
  let h7 := f7 -₃₂ g7 in
  let h8 := f8 -₃₂ g8 in
  let h9 := f9 -₃₂ g9 in
  Fe h0 h1 h2 h3 h4 h5 h6 h7 h8 h9.

(** [h = - f] *)
Definition fe_neg (f : fe) : fe :=
  let 'Fe f0 f1 f2 f3 f4 f5 f6 f7 f8 f9 := f in
  let h0 := i32 (- f0) in
  let h1 := i32 (- f1) in
  let h2 := i32 (- f2) in
  let h3 := i32 (- f3) in
  let h4 := i32 (- f4) in
  let h5 := i32 (- f5) in
  let h6 := i32 (- f6) in
  let h7 := i32 (- f7) in
  let h8 := i32 (- f8) in
  let h9 := i32 (- f9) in
  Fe h0 h1 h2 h3 h4 h5 h6 h7 h8 h9.

(** The mask [b = -b] of an [unsigned int b], converted to [int32_t] by [&=]. *)
Definition fe_cmov (f g : fe) (b : Z) : fe :=
  let 'Fe f0 f1 f2 f3 f4 f5 f6 f7 f8 f9 := f in
  let 'Fe g0 g1 g2 g3 g4 g5 g6 g7 g8 g9 := g in
  let x0 := Z.lxor f0 g0 in
  let x1 := Z.lxor f1 g1 in
  let x2 := Z.lxor f2 g2 in
  let x3 := Z.lxor f3 g3 in
  let x4 := Z.lxor f4 g4 in
  let x5 := Z.lxor f5 g5 in
  let x6 := Z.lxor f6 g6 in
  let x7 := Z.lxor f7 g7 in
  let x8 := Z.lxor f8 g8 in
  let x9 := Z.lxor f9 g9 in
  let b := i32 (u32 (- b)) in
  let x0 := Z.land x0 b in
  let x1 := Z.land x1 b in
  let x2 := Z.land x2 b in
  let x3 := Z.land x3 b in
  let x4 := Z.land x4 b in
  let x5 := Z.land x5 b in
  let x6 := Z.land x6 b in
  let x7 := Z.land x7 b in
  let x8 := Z.land x8 b in
  let x9 := Z.land x9 b in
  Fe (Z.lxor f0 x0) (Z.lxor f1 x1) (Z.lxor f2 x2) (Z.lxor f3 x3) (Z.lxor f4 x4)
     (Z.lxor f5 x5) (Z.lxor f6 x6) (Z.lxor f7 x7) (Z.lxor f8 x8) (Z.lxor f9 x9).

(** The carry chain that ends [fe_mul], [fe_sq] and [fe_sq2], and the stores
    of the 64-bit limbs to the 32-bit array. *)
Definition fe_carry (h : fe) : fe :=
  let 'Fe h0 h1 h2 h3 h4 h5 h6 h7 h8 h9 := h in
  let '(h0, h1) := carry_rnd 26 h0 h1 in
  let '(h4, h5) := carry_rnd 26 h4 h5 in
  let '(h1, h2) := carry_rnd 25 h1 h2 in
  let '(h5, h6) := carry_rnd 25 h5 h6 in
  let '(h2, h3) := carry_rnd 26 h2 h3 in
  let '(h6, h7) := carry_rnd 26 h6 h7 in
  let '(h3, h4) := carry_rnd 25 h3 h4 in
  let '(h7, h8) := carry_rnd 25 h7 h8 in
  let '(h4, h5) := carry_rnd 26 h4 h5 in
  let '(h8, h9) := carry_rnd 26 h8 h9 in
  let '(carry9, h9) := carry_out 25 h9 in
  let h0 := h0 +₆₄ (carry9 *₆₄ 19) in
  let '(h0, h1) := carry_rnd 26 h0 h1 in
  Fe (i32 h0) (i32 h1) (i32 h2) (i32 h3) (i32 h4) (i32 h5) (i32 h6) (i32 h7) (i32 h8) (i32 h9).

(** The ten 64-bit sums of products of [fe_mul]. *)
Definition fe_mul_wide (f g : fe) : fe :=
  let 'Fe f0 f1 f2 f3 f4 f5 f6 f7 f8 f9 := f in
  let 'Fe g0 g1 g2 g3 g4 g5 g6 g7 g8 g9 := g in
  let g1_19 := 19 *₃₂ g1 in
  let g2_19 := 19 *₃₂ g2 in
  let g3_19 := 19 *₃₂ g3 in
  let g4_19 := 19 *₃₂ g4 in
  let g5_19 := 19 *₃₂ g5 in
  let g6_19 := 19 *₃₂ g6 in
  let g7_19 := 19 *₃₂ g7 in
  let g8_19 := 19 *₃₂ g8 in
  let g9_19 := 19 *₃₂ g9 in
  let f1_2 := 2 *₃₂ f1 in
  let f3_2 := 2 *₃₂ f3 in
  let f5_2 := 2 *₃₂ f5 in
  let f7_2 := 2 *₃₂ f7 in
  let f9_2 := 2 *₃₂ f9 in
  let f0g0 := f0 *₆₄ g0 in
  let f0g1 := f0 *₆₄ g1 in
  let f0g2 := f0 *₆₄ g2 in
  let f0g3 := f0 *₆₄ g3 in
  let f0g4 := f0 *₆₄ g4 in
  let f0g5 := f0 *₆₄ g5 in
  let f0g6 := f0 *₆₄ g6 in
  let f0g7 := f0 *₆₄ g7 in
  let f0g8 := f0 *₆₄ g8 in
  let f0g9 := f0 *₆₄ g9 in
  let f1g0 := f1 *₆₄ g0 in
  let f1g1_2 := f1_2 *₆₄ g1 in
  let f1g2 := f1 *₆₄ g2 in
  let f1g3_2 := f1_2 *₆₄ g3 in
  let f1g4 := f1 *₆₄ g4 in
  let f1g5_2 := f1_2 *₆₄ g5 in
  let f1g6 := f1 *₆₄ g6 in
  let f1g7_2 := f1_2 *₆₄ g7 in
  let f1g8 := f1 *₆₄ g8 in
  let f1g9_38 := f1_2 *₆₄ g9_19 in
  let f2g0 := f2 *₆₄ g0 in
  let f2g1 := f2 *₆₄ g1 in
  let f2g2 := f2 *₆₄ g2 in
  let f2g3 := f2 *₆₄ g3 in
  let f2g4 := f2 *₆₄ g4 in
  let f2g5 := f2 *₆₄ g5 in
  let f2g6 := f2 *₆₄ g6 in
  let f2g7 := f2 *₆₄ g7 in
  let f2g8_19 := f2 *₆₄ g8_19 in
  let f2g9_19 := f2 *₆₄ g9_19 in
  let f3g0 := f3 *₆₄ g0 in
  let f3g1_2 := f3_2 *₆₄ g1 in
  let f3g2 := f3 *₆₄ g2 in
  let f3g3_2 := f3_2 *₆₄ g3 in
  let f3g4 := f3 *₆₄ g4 in
  let f3g5_2 := f3_2 *₆₄ g5 in
  let f3g6 := f3 *₆₄ g6 in
  let f3g7_38 := f3_2 *₆₄ g7_19 in
  let f3g8_19 := f3 *₆₄ g8_19 in
  let f3g9_38 := f3_2 *₆₄ g9_19 in
  let f4g0 := f4 *₆₄ g0 in
  let f4g1 := f4 *₆₄ g1 in
  let f4g2 := f4 *₆₄ g2 in
  let f4g3 := f4 *₆₄ g3 in
  let f4g4 := f4 *₆₄ g4 in
  let f4g5 := f4 *₆₄ g5 in
  let f4g6_19 := f4 *₆₄ g6_19 in
  let f4g7_19 := f4 *₆₄ g7_19 in
  let f4g8_19 := f4 *₆₄ g8_19 in
  let f4g9_19 := f4 *₆₄ g9_19 in
  let f5g0 := f5 *₆₄ g0 in
  let f5g1_2 := f5_2 *₆₄ g1 in
  let f5g2 := f5 *₆₄ g2 in
  let f5g3_2 := f5_2 *₆₄ g3 in
  let f5g4 := f5 *₆₄ g4 in
  let f5g5_38 := f5_2 *₆₄ g5_19 in
  let f5g6_19 := f5 *₆₄ g6_19 in
  let f5g7_38 := f5_2 *₆₄ g7_19 in
  let f5g8_19 := f5 *₆₄ g8_19 in
  let f5g9_38 := f5_2 *₆₄ g9_19 in
  let f6g0 := f6 *₆₄ g0 in
  let f6g1 := f6 *₆₄ g1 in
  let f6g2 := f6 *₆₄ g2 in
  let f6g3 := f6 *₆₄ g3 in
  let f6g4_19 := f6 *₆₄ g4_19 in
  let f6g5_19 := f6 *₆₄ g5_19 in
  let f6g6_19 := f6 *₆₄ g6_19 in
  let f6g7_19 := f6 *₆₄ g7_19 in
  let f6g8_19 := f6 *₆₄ g8_19 in
  let f6g9_19 := f6 *₆₄ g9_19 in
  let f7g0 := f7 *₆₄ g0 in
  let f7g1_2 := f7_2 *₆₄ g1 in
  let f7g2 := f7 *₆₄ g2 in
  let f7g3_38 := f7_2 *₆₄ g3_19 in
  let f7g4_19 := f7 *₆₄ g4_19 in
  let f7g5_38 := f7_2 *₆₄ g5_19 in
  let f7g6_19 := f7 *₆₄ g6_19 in
  let f7g7_38 := f7_2 *₆₄ g7_19 in
  let f7g8_19 := f7 *₆₄ g8_19 in
  let f7g9_38 := f7_2 *₆₄ g9_19 in
  let f8g0 := f8 *₆₄ g0 in
  let f8g1 := f8 *₆₄ g1 in
  let f8g2_19 := f8 *₆₄ g2_19 in
  let f8g3_19 := f8 *₆₄ g3_19 in
  let f8g4_19 := f8 *₆₄ g4_19 in
  let f8g5_19 := f8 *₆₄ g5_19 in
  let f8g6_19 := f8 *₆₄ g6_19 in
  let f8g7_19 := f8 *₆₄ g7_19 in
  let f8g8_19 := f8 *₆₄ g8_19 in
  let f8g9_19 := f8 *₆₄ g9_19 in
  let f9g0 := f9 *₆₄ g0 in
  let f9g1_38 := f9_2 *₆₄ g1_19 in
  let f9g2_19 := f9 *₆₄ g2_19 in
  let f9g3_38 := f9_2 *₆₄ g3_19 in
  let f9g4_19 := f9 *₆₄ g4_19 in
  let f9g5_38 := f9_2 *₆₄ g5_19 in
  let f9g6_19 := f9 *₆₄ g6_19 in
  let f9g7_38 := f9_2 *₆₄ g7_19 in
  let f9g8_19 := f9 *₆₄ g8_19 in
  let f9g9_38 := f9_2 *₆₄ g9_19 in
  let h0 := f0g0 +₆₄ f1g9_38 +₆₄ f2g8_19 +₆₄ f3g7_38 +₆₄ f4g6_19 +₆₄ f5g5_38 +₆₄ f6g4_19 +₆₄ f7g3_38 +₆₄ f8g2_19 +₆₄ f9g1_38 in
  let h1 := f0g1 +₆₄ f1g0 +₆₄ f2g9_19 +₆₄ f3g8_19 +₆₄ f4g7_19 +₆₄ f5g6_19 +₆₄ f6g5_19 +₆₄ f7g4_19 +₆₄ f8g3_19 +₆₄ f9g2_19 in
  let h2 := f0g2 +₆₄ f1g1_2 +₆₄ f2g0 +₆₄ f3g9_38 +₆₄ f4g8_19 +₆₄ f5g7_38 +₆₄ f6g6_19 +₆₄ f7g5_38 +₆₄ f8g4_19 +₆₄ f9g3_38 in
  let h3 := f0g3 +₆₄ f1g2 +₆₄ f2g1 +₆₄ f3g0 +₆₄ f4g9_19 +₆₄ f5g8_19 +₆₄ f6g7_19 +₆₄ f7g6_19 +₆₄ f8g5_19 +₆₄ f9g4_19 in
  let h4 := f0g4 +₆₄ f1g3_2 +₆₄ f2g2 +₆₄ f3g1_2 +₆₄ f4g0 +₆₄ f5g9_38 +₆₄ f6g8_19 +₆₄ f7g7_38 +₆₄ f8g6_19 +₆₄ f9g5_38 in
  let h5 := f0g5 +₆₄ f1g4 +₆₄ f2g3 +₆₄ f3g2 +₆₄ f4g1 +₆₄ f5g0 +₆₄ f6g9_19 +₆₄ f7g8_19 +₆₄ f8g7_19 +₆₄ f9g6_19 in
  let h6 := f0g6 +₆₄ f1g5_2 +₆₄ f2g4 +₆₄ f3g3_2 +₆₄ f4g2 +₆₄ f5g1_2 +₆₄ f6g0 +₆₄ f7g9_38 +₆₄ f8g8_19 +₆₄ f9g7_38 in
  let h7 := f0g7 +₆₄ f1g6 +₆₄ f2g5 +₆₄ f3g4 +₆₄ f4g3 +₆₄ f5g2 +₆₄ f6g1 +₆₄ f7g0 +₆₄ f8g9_19 +₆₄ f9g8_19 in
  let h8 := f0g8 +₆₄ f1g7_2 +₆₄ f2g6 +₆₄ f3g5_2 +₆₄ f4g4 +₆₄ f5g3_2 +₆₄ f6g2 +₆₄ f7g1_2 +₆₄ f8g0 +₆₄ f9g9_38 in
  let h9 := f0g9 +₆₄ f1g8 +₆₄ f2g7 +₆₄ f3g6 +₆₄ f4g5 +₆₄ f5g4 +₆₄ f6g3 +₆₄ f7g2 +₆₄ f8g1 +₆₄ f9g0 in
  Fe h0 h1 h2 h3 h4 h5 h6 h7 h8 h9.

(** [h = f * g] *)
Definition fe_mul (f g : fe) : fe := fe_carry (fe_mul_wide f g).

(** The ten 64-bit sums of products of [fe_sq]. *)
Definition fe_sq_wide (f : fe) : fe :=
  let 'Fe f0 f1 f2 f3 f4 f5 f6 f7 f8 f9 := f in
  let f0_2 := 2 *₃₂ f0 in
  let f1_2 := 2 *₃₂ f1 in
  let f2_2 := 2 *₃₂ f2 in
  let f3_2 := 2 *₃₂ f3 in
  let f4_2 := 2 *₃₂ f4 in
  let f5_2 := 2 *₃₂ f5 in
  let f6_2 := 2 *₃₂ f6 in
  let f7_2 := 2 *₃₂ f7 in
  let f5_38 := 38 *₃₂ f5 in
  let f6_19 := 19 *₃₂ f6 in
  let f7_38 := 38 *₃₂ f7 in
  let f8_19 := 19 *₃₂ f8 in
  let f9_38 := 38 *₃₂ f9 in
  let f0f0 := f0 *₆₄ f0 in
  let f0f1_2 := f0_2 *₆₄ f1 in
  let f0f2_2 := f0_2 *₆₄ f2 in
  let f0f3_2 := f0_2 *₆₄ f3 in
  let f0f4_2 := f0_2 *₆₄ f4 in
  let f0f5_2 := f0_2 *₆₄ f5 in
  let f0f6_2 := f0_2 *₆₄ f6 in
  let f0f7_2 := f0_2 *₆₄ f7 in
  let f0f8_2 := f0_2 *₆₄ f8 in
  let f0f9_2 := f0_2 *₆₄ f9 in
  let f1f1_2 := f1_2 *₆₄ f1 in
  let f1f2_2 := f1_2 *₆₄ f2 in
  let f1f3_4 := f1_2 *₆₄ f3_2 in
  let f1f4_2 := f1_2 *₆₄ f4 in
  let f1f5_4 := f1_2 *₆₄ f5_2 in
  let f1f6_2 := f1_2 *₆₄ f6 in
  let f1f7_4 := f1_2 *₆₄ f7_2 in
  let f1f8_2 := f1_2 *₆₄ f8 in
  let f1f9_76 := f1_2 *₆₄ f9_38 in
  let f2f2 := f2 *₆₄ f2 in
  let f2f3_2 := f2_2 *₆₄ f3 in
  let f2f4_2 := f2_2 *₆₄ f4 in
  let f2f5_2 := f2_2 *₆₄ f5 in
  let f2f6_2 := f2_2 *₆₄ f6 in
  let f2f7_2 := f2_2 *₆₄ f7 in
  let f2f8_38 := f2_2 *₆₄ f8_19 in
  let f2f9_38 := f2 *₆₄ f9_38 in
  let f3f3_2 := f3_2 *₆₄ f3 in
  let f3f4_2 := f3_2 *₆₄ f4 in
  let f3f5_4 := f3_2 *₆₄ f5_2 in
  let f3f6_2 := f3_2 *₆₄ f6 in
  let f3f7_76 := f3_2 *₆₄ f7_38 in
  let f3f8_38 := f3_2 *₆₄ f8_19 in
  let f3f9_76 := f3_2 *₆₄ f9_38 in
  let f4f4 := f4 *₆₄ f4 in
  let f4f5_2 := f4_2 *₆₄ f5 in
  let f4f6_38 := f4_2 *₆₄ f6_19 in
  let f4f7_38 := f4 *₆₄ f7_38 in
  let f4f8_38 := f4_2 *₆₄ f8_19 in
  let f4f9_38 := f4 *₆₄ f9_38 in
  let f5f5_38 := f5 *₆₄ f5_38 in
  let f5f6_38 := f5_2 *₆₄ f6_19 in
  let f5f7_76 := f5_2 *₆₄ f7_38 in
  let f5f8_38 := f5_2 *₆₄ f8_19 in
  let f5f9_76 := f5_2 *₆₄ f9_38 in
  let f6f6_19 := f6 *₆₄ f6_19 in
  let f6f7_38 := f6 *₆₄ f7_38 in
  let f6f8_38 := f6_2 *₆₄ f8_19 in
  let f6f9_38 := f6 *₆₄ f9_38 in
  let f7f7_38 := f7 *₆₄ f7_38 in
  let f7f8_38 := f7_2 *₆₄ f8_19 in
  let f7f9_76 := f7_2 *₆₄ f9_38 in
  let f8f8_19 := f8 *₆₄ f8_19 in
  let f8f9_38 := f8 *₆₄ f9_38 in
  let f9f9_38 := f9 *₆₄ f9_38 in
  let h0 := f0f0 +₆₄ f1f9_76 +₆₄ f2f8_38 +₆₄ f3f7_76 +₆₄ f4f6_38 +₆₄ f5f5_38 in
  let h1 := f0f1_2 +₆₄ f2f9_38 +₆₄ f3f8_38 +₆₄ f4f7_38 +₆₄ f5f6_38 in
  let h2 := f0f2_2 +₆₄ f1f1_2 +₆₄ f3f9_76 +₆₄ f4f8_38 +₆₄ f5f7_76 +₆₄ f6f6_19 in
  let h3 := f0f3_2 +₆₄ f1f2_2 +₆₄ f4f9_38 +₆₄ f5f8_38 +₆₄ f6f7_38 in
  let h4 := f0f4_2 +₆₄ f1f3_4 +₆₄ f2f2 +₆₄ f5f9_76 +₆₄ f6f8_38 +₆₄ f7f7_38 in
  let h5 := f0f5_2 +₆₄ f1f4_2 +₆₄ f2f3_2 +₆₄ f6f9_38 +₆₄ f7f8_38 in
  let h6 := f0f6_2 +₆₄ f1f5_4 +₆₄ f2f4_2 +₆₄ f3f3_2 +₆₄ f7f9_76 +₆₄ f8f8_19 in
  let h7 := f0f7_2 +₆₄ f1f6_2 +₆₄ f2f5_2 +₆₄ f3f4_2 +₆₄ f8f9_38 in
  let h8 := f0f8_2 +₆₄ f1f7_4 +₆₄ f2f6_2 +₆₄ f3f5_4 +₆₄ f4f4 +₆₄ f9f9_38 in
  let h9 := f0f9_2 +₆₄ f1f8_2 +₆₄ f2f7_2 +₆₄ f3f6_2 +₆₄ f4f5_2 in
  Fe h0 h1 h2 h3 h4 h5 h6 h7 h8 h9.

(** [h = f * f] *)
Definition fe_sq (f : fe) : fe := fe_carry (fe_sq_wide f).

(** [h = 2 * f * f]: the sums of [fe_sq], doubled ([h0 += h0; ...]). *)
Definition fe_sq2 (f : fe) : fe :=
  let 'Fe h0 h1 h2 h3 h4 h5 h6 h7 h8 h9 := fe_sq_wide f in
  fe_carry (Fe (h0 +₆₄ h0) (h1 +₆₄ h1) (h2 +₆₄ h2) (h3 +₆₄ h3) (h4 +₆₄ h4) (h5 +₆₄ h5) (h6 +₆₄ h6) (h7 +₆₄ h7) (h8 +₆₄ h8) (h9 +₆₄ h9)).

End Operations.

(** ** Additive operations *)

(** Opens the bounds of [fe_bounded] hypotheses on destructed elements. *)
Ltac fe_open :=
  repeat match goal with
  | f : fe |- _ => destruct f
  | H : fe_small _ |- _ => unfold fe_small in H
  | H : fe_tight _ |- _ => unfold fe_tight in H
  | H : fe_loose _ |- _ => unfold fe_loose in H
  | H : fe_wide _ |- _ => unfold fe_wide in H
  | H : fe_bounded _ _ _ |- _ =>
      destruct H as (?&?&?&?&?&?&?&?&?&?); cbn [fe0 fe1 fe2 fe3 fe4 fe5 fe6 fe7 fe8 fe9] in *
  end.
Ltac fe_unfold := unfold fe_val, fe_small, fe_tight, fe_loose, fe_wide, fe_bounded;
  cbn [fe0 fe1 fe2 fe3 fe4 fe5 fe6 fe7 fe8 fe9].

(** A limb equation of [fe_bounded]: each limb by itself, by the bound of its
    expression. *)
Ltac fe_limbs := fe_unfold; repeat apply conj.

Lemma fe_bounded_weaken E O E' O' f :
  fe_bounded E O f -> E <= E' -> O <= O' -> fe_bounded E' O' f.
Proof. intros. fe_open. fe_limbs; eapply Z.le_trans; eassumption. Qed.

Lemma abs_i32_lt x B : Z.abs x <= B -> B < 2 ^ 31 -> i32 x = x.
Proof. intros. apply i32_id. lia. Qed.

(** Removes the 32-bit wraps by the bounds of their arguments. *)
Ltac i32_exact :=
  repeat match goal with
  | |- context [i32 ?e] =>
      let p := abs_bound e in rewrite (abs_i32_lt _ _ p) by assumption
  end.
Ltac abs_exact :=
  match goal with |- Z.abs ?e <= _ => let p := abs_bound e in exact p end.

Lemma fe_add_gen E O E' O' f g :
  fe_bounded E O f -> fe_bounded E' O' g -> E + E' < 2 ^ 31 -> O + O' < 2 ^ 31 ->
  fe_bounded (E + E') (O + O') (fe_add f g) /\ fe_val (fe_add f g) = fe_val f + fe_val g.
Proof.
  intros Hf Hg HE HO. fe_open. unfold fe_add. i32_exact.
  split; [fe_limbs; abs_exact | fe_unfold; ring].
Qed.

Lemma fe_sub_gen E O E' O' f g :
  fe_bounded E O f -> fe_bounded E' O' g -> E + E' < 2 ^ 31 -> O + O' < 2 ^ 31 ->
  fe_bounded (E + E') (O + O') (fe_sub f g) /\ fe_val (fe_sub f g) = fe_val f - fe_val g.
Proof.
  intros Hf Hg HE HO. fe_open. unfold fe_sub. i32_exact.
  split; [fe_limbs; abs_exact | fe_unfold; ring].
Qed.

Lemma fe_neg_gen E O f :
  fe_bounded E O f -> E < 2 ^ 31 -> O < 2 ^ 31 ->
  fe_bounded E O (fe_neg f) /\ fe_val (fe_neg f) = - fe_val f.
Proof.
  intros Hf HE HO. fe_open. unfold fe_neg. i32_exact.
  split; [fe_limbs; abs_exact | fe_unfold; ring].
Qed.

(** ** The field *)

(** Congruence modulo the prime. *)
Definition eqp (a b : Z) : Prop := a mod fe_p = b mod fe_p.
Declare Scope fe_scope.
Delimit Scope fe_scope with fe.
Infix "≡ₚ" := eqp (at level 70) : fe_scope.
Open Scope fe_scope.

#[export] Instance eqp_equiv : Equivalence eqp.
Proof.
  split; unfold eqp; [intros x | intros x y | intros x y z]; congruence.
Qed.
#[export] Instance eqp_add : Proper (eqp ==> eqp ==> eqp) Z.add.
Proof.
  intros a a' Ha b b' Hb. unfold eqp in *. rewrite Zplus_mod, Ha, Hb, <- Zplus_mod. done.
Qed.
#[export] Instance eqp_sub : Proper (eqp ==> eqp ==> eqp) Z.sub.
Proof.
  intros a a' Ha b b' Hb. unfold eqp in *. rewrite Zminus_mod, Ha, Hb, <- Zminus_mod. done.
Qed.
#[export] Instance eqp_mul : Proper (eqp ==> eqp ==> eqp) Z.mul.
Proof.
  intros a a' Ha b b' Hb. unfold eqp in *. rewrite Zmult_mod, Ha, Hb, <- Zmult_mod. done.
Qed.
#[export] Instance eqp_opp : Proper (eqp ==> eqp) Z.opp.
Proof.
  intros a a' Ha. rewrite <- (Z.sub_0_l a), <- (Z.sub_0_l a'), Ha. reflexivity.
Qed.

Lemma eqp_add_p a b k : a = b + k * fe_p -> a ≡ₚ b.
Proof. intros ->. unfold eqp. apply Z_mod_plus_full. Qed.

(** ** Multiplication *)

Definition fe_sums : fe -> Prop := fe_bounded 1700000000000000000 1000000000000000000.

Ltac i32_consts :=
  repeat match goal with
  | |- context [i32 ?e] =>
      let p := abs_bound e in
      rewrite (abs_i32 e) by (refine (Z.le_trans _ _ _ p _); vm_compute; discriminate)
  end.
Ltac i64_consts :=
  repeat match goal with
  | |- context [i64 ?e] =>
      let p := abs_bound e in
      rewrite (abs_i64 e) by (refine (Z.le_trans _ _ _ p _); vm_compute; discriminate)
  end.

(** The part of the product [fe_val f * fe_val g] of weight [2^255] and more,
    divided by [2^255]: folding it back with factor 19 subtracts
    [fe_mul_high f g * fe_p]. *)
Definition fe_mul_high (f g : fe) : Z :=
  (2 * fe1 f * fe9 g + fe2 f * fe8 g + 2 * fe3 f * fe7 g + fe4 f * fe6 g + 2 * fe5 f * fe5 g + fe6 f * fe4 g + 2 * fe7 f * fe3 g + fe8 f * fe2 g + 2 * fe9 f * fe1 g)
  + 2 ^ 26 * (fe2 f * fe9 g + fe3 f * fe8 g + fe4 f * fe7 g + fe5 f * fe6 g + fe6 f * fe5 g + fe7 f * fe4 g + fe8 f * fe3 g + fe9 f * fe2 g)
  + 2 ^ 51 * (2 * fe3 f * fe9 g + fe4 f * fe8 g + 2 * fe5 f * fe7 g + fe6 f * fe6 g + 2 * fe7 f * fe5 g + fe8 f * fe4 g + 2 * fe9 f * fe3 g)
  + 2 ^ 77 * (fe4 f * fe9 g + fe5 f * fe8 g + fe6 f * fe7 g + fe7 f * fe6 g + fe8 f * fe5 g + fe9 f * fe4 g)
  + 2 ^ 102 * (2 * fe5 f * fe9 g + fe6 f * fe8 g + 2 * fe7 f * fe7 g + fe8 f * fe6 g + 2 * fe9 f * fe5 g)
  + 2 ^ 128 * (fe6 f * fe9 g + fe7 f * fe8 g + fe8 f * fe7 g + fe9 f * fe6 g)
  + 2 ^ 153 * (2 * fe7 f * fe9 g + fe8 f * fe8 g + 2 * fe9 f * fe7 g)
  + 2 ^ 179 * (fe8 f * fe9 g + fe9 f * fe8 g)
  + 2 ^ 204 * (2 * fe9 f * fe9 g).

Ltac wide_tac :=
  cbv zeta; i32_consts; autorewrite with cint; i64_consts;
  split; [unfold fe_sums; fe_limbs; abs_tac | unfold fe_mul_high, fe_p; fe_unfold; ring].

Lemma fe_mul_wide_spec f g :
  fe_wide f -> fe_wide g ->
  fe_sums (fe_mul_wide f g) /\
  fe_val (fe_mul_wide f g) = fe_val f * fe_val g + (- fe_mul_high f g) * fe_p.
Proof. intros Hf Hg. fe_open. unfold fe_mul_wide. wide_tac. Qed.

Lemma fe_sq_wide_spec f :
  fe_wide f ->
  fe_sums (fe_sq_wide f) /\
  fe_val (fe_sq_wide f) = fe_val f * fe_val f + (- fe_mul_high f f) * fe_p.
Proof. intros Hf. fe_open. unfold fe_sq_wide. wide_tac. Qed.

(** One step of a carry chain: the carry [c], its magnitude, and the two limbs
    it leaves, the lower one under a new name. *)
Ltac carry_bounds Hr Hc x k :=
  let Hx := fresh "Hx" in
  assert (Hx : Z.abs x <= 2 ^ (k - 1)) by (clear - Hr; lia); clear Hr;
  let B := lazymatch type of Hc with _ <= ?B => eval vm_compute in B end in
  let C := lazymatch type of Hc with Z.abs ?c <= _ => c end in
  change (Z.abs C <= B) in Hc;
  let B := lazymatch type of Hx with _ <= ?B => eval vm_compute in B end in
  change (Z.abs x <= B) in Hx;
  cbv beta iota zeta.

Ltac carry_step :=
  let c := fresh "c" in let Ec := fresh "E" in let Hr := fresh "Hr" in
  let Hc := fresh "Hc" in let x := fresh "x" in let Ex := fresh "Ex" in
  match goal with
  | |- context [carry_rnd ?k ?a ?b] =>
      let pa := abs_bound a in
      let pb := abs_bound b in
      destruct (carry_rnd_spec k a b _ _ ltac:(lia) pa pb) as (c & Ec & Hr & Hc);
      [vm_compute; discriminate | vm_compute; reflexivity |];
      rewrite Ec; clear Ec;
      remember (a - c * 2 ^ k) as x eqn:Ex; carry_bounds Hr Hc x k
  | |- context [carry_out ?k ?a] =>
      let pa := abs_bound a in
      destruct (carry_out_spec k a _ ltac:(lia) pa) as (c & Ec & Hr & Hc);
      [vm_compute; discriminate |];
      rewrite Ec; clear Ec;
      remember (a - c * 2 ^ k) as x eqn:Ex; carry_bounds Hr Hc x k
  end.

Lemma fe_carry_spec h :
  fe_bounded 3400000000000000000 2000000000000000000 h ->
  fe_small (fe_carry h) /\ fe_val (fe_carry h) ≡ₚ fe_val h.
Proof.
  intros Hh. fe_open. unfold fe_carry.
  do 11 carry_step. i64_consts. carry_step. i32_consts.
  split; [fe_limbs; abs_tac|].
  apply (eqp_add_p _ _ (- c9)). unfold fe_p. fe_unfold. subst. ring.
Qed.

(** ** Contracts of the operations, in the form the clients use *)

Lemma fe_sums_carry h : fe_sums h -> fe_bounded 3400000000000000000 2000000000000000000 h.
Proof. intros H. eapply fe_bounded_weaken; [exact H | lia | lia]. Qed.

Lemma fe_mul_spec f g :
  fe_wide f -> fe_wide g ->
  fe_small (fe_mul f g) /\ fe_val (fe_mul f g) ≡ₚ fe_val f * fe_val g.
Proof.
  intros Hf Hg. destruct (fe_mul_wide_spec f g Hf Hg) as [Hb Hv].
  destruct (fe_carry_spec _ (fe_sums_carry _ Hb)) as [Hs Hc].
  split; [exact Hs|]. unfold fe_mul. rewrite Hc. eapply eqp_add_p, Hv.
Qed.

Lemma fe_sq_spec f :
  fe_wide f -> fe_small (fe_sq f) /\ fe_val (fe_sq f) ≡ₚ fe_val f * fe_val f.
Proof.
  intros Hf. destruct (fe_sq_wide_spec f Hf) as [Hb Hv].
  destruct (fe_carry_spec _ (fe_sums_carry _ Hb)) as [Hs Hc].
  split; [exact Hs|]. unfold fe_sq. rewrite Hc. eapply eqp_add_p, Hv.
Qed.

Lemma fe_sq2_spec f :
  fe_wide f -> fe_small (fe_sq2 f) /\ fe_val (fe_sq2 f) ≡ₚ 2 * fe_val f * fe_val f.
Proof.
  intros Hf. destruct (fe_sq_wide_spec f Hf) as [Hb Hv].
  unfold fe_sq2. destruct (fe_sq_wide f) as [h0 h1 h2 h3 h4 h5 h6 h7 h8 h9].
  unfold fe_sums in Hb. destruct Hb as (?&?&?&?&?&?&?&?&?&?).
  cbn [fe0 fe1 fe2 fe3 fe4 fe5 fe6 fe7 fe8 fe9] in *. i64_consts.
  edestruct fe_carry_spec as [Hs Hc]; [|split; [exact Hs | rewrite Hc]].
  - fe_limbs; abs_tac.
  - apply (eqp_add_p _ _ (- (2 * fe_mul_high f f))).
    transitivity (2 * fe_val (Fe h0 h1 h2 h3 h4 h5 h6 h7 h8 h9)).
    { fe_unfold. ring. }
    rewrite Hv. generalize (fe_val f) (fe_mul_high f f) fe_p. intros. ring.
Qed.

Lemma fe_cmov_spec f g b : fe_cmov f g b = f /\ b = 0 \/ fe_cmov f g b = g /\ b = 1 \/ (b <> 0 /\ b <> 1).
Proof.
  destruct (Z.eq_dec b 0) as [->|]; [left | destruct (Z.eq_dec b 1) as [->|]; [right; left | lia]];
    destruct f, g; unfold fe_cmov; (split; [|done]);
    change (i32 (u32 (- 0))) with 0; change (i32 (u32 (- 1))) with (-1);
    cbv zeta; rewrite ?Z.land_0_r, ?Z.land_m1_r, ?Z.lxor_0_r; [done|];
    rewrite <- !Z.lxor_assoc, !Z.lxor_nilpotent, !Z.lxor_0_l; done.
Qed.

(** Bounds, for the hint database [fe]. *)
Create HintDb fe discriminated.

Lemma fe_small_tight f : fe_small f -> fe_tight f.
Proof. intros H. eapply fe_bounded_weaken; [exact H | lia | lia]. Qed.
Lemma fe_tight_loose f : fe_tight f -> fe_loose f.
Proof. intros H. eapply fe_bounded_weaken; [exact H | lia | lia]. Qed.
Lemma fe_loose_wide f : fe_loose f -> fe_wide f.
Proof. intros H. eapply fe_bounded_weaken; [exact H | lia | lia]. Qed.
Lemma fe_small_loose f : fe_small f -> fe_loose f.
Proof. intros H. apply fe_tight_loose, fe_small_tight, H. Qed.
Lemma fe_small_wide f : fe_small f -> fe_wide f.
Proof. intros H. apply fe_loose_wide, fe_small_loose, H. Qed.

Lemma fe_mul_small f g : fe_wide f -> fe_wide g -> fe_small (fe_mul f g).
Proof. intros. apply fe_mul_spec; assumption. Qed.
Lemma fe_sq_small f : fe_wide f -> fe_small (fe_sq f).
Proof. intros. apply fe_sq_spec; assumption. Qed.
Lemma fe_sq2_small f : fe_wide f -> fe_small (fe_sq2 f).
Proof. intros. apply fe_sq2_spec; assumption. Qed.

Ltac sum_bound gen :=
  intros; eapply fe_bounded_weaken; [eapply gen; [eassumption | eassumption | lia | lia] | lia | lia].

(** The precondition the comments of [fe_add] and [fe_sub] state. *)
Lemma fe_add_loose f g : fe_tight f -> fe_tight g -> fe_loose (fe_add f g).
Proof. sum_bound fe_add_gen. Qed.
Lemma fe_sub_loose f g : fe_tight f -> fe_tight g -> fe_loose (fe_sub f g).
Proof. sum_bound fe_sub_gen. Qed.
(** What the doubling and addition formulas need beyond it. *)
Lemma fe_add_wide f g : fe_loose f -> fe_small g -> fe_wide (fe_add f g).
Proof. sum_bound fe_add_gen. Qed.
Lemma fe_add_wide_r f g : fe_small f -> fe_loose g -> fe_wide (fe_add f g).
Proof. sum_bound fe_add_gen. Qed.
Lemma fe_sub_wide f g : fe_loose f -> fe_small g -> fe_wide (fe_sub f g).
Proof. sum_bound fe_sub_gen. Qed.
Lemma fe_sub_wide_r f g : fe_small f -> fe_loose g -> fe_wide (fe_sub f g).
Proof. sum_bound fe_sub_gen. Qed.
Lemma fe_neg_small f : fe_small f -> fe_small (fe_neg f).
Proof. intros. apply fe_neg_gen; [assumption | lia | lia]. Qed.
Lemma fe_neg_tight f : fe_tight f -> fe_tight (fe_neg f).
Proof. intros. apply fe_neg_gen; [assumption | lia | lia]. Qed.
Lemma fe_0_small : fe_small fe_0.
Proof. fe_limbs; vm_compute; discriminate. Qed.
Lemma fe_1_small : fe_small fe_1.
Proof. fe_limbs; vm_compute; discriminate. Qed.
Lemma fe_copy_eq f : fe_copy f = f.
Proof. destruct f; done. Qed.

#[export] Hint Resolve fe_small_tight fe_small_loose fe_tight_loose fe_small_wide fe_loose_wide
  fe_mul_small fe_sq_small fe_sq2_small fe_add_loose fe_sub_loose fe_add_wide fe_add_wide_r
  fe_sub_wide fe_sub_wide_r fe_neg_small fe_neg_tight fe_0_small fe_1_small : fe.
(** Bounds of expressions, by their structure; the hints are for variables and
    constants. *)
Ltac fe_bound :=
  first [assumption |
  lazymatch goal with
  | |- fe_small (fe_mul _ _) => apply fe_mul_small; fe_bound
  | |- fe_small (fe_sq _) => apply fe_sq_small; fe_bound
  | |- fe_small (fe_sq2 _) => apply fe_sq2_small; fe_bound
  | |- fe_small (fe_neg _) => apply fe_neg_small; fe_bound
  | |- fe_small (fe_add _ _) => fail
  | |- fe_small (fe_sub _ _) => fail
  | |- fe_tight ?e => first [assumption | apply fe_small_tight; fe_bound]
  | |- fe_loose (fe_add _ _) => apply fe_add_loose; fe_bound
  | |- fe_loose (fe_sub _ _) => apply fe_sub_loose; fe_bound
  | |- fe_loose ?e => first [assumption | apply fe_tight_loose; fe_bound]
  | |- fe_wide (fe_add _ _) =>
      first [ apply fe_loose_wide, fe_add_loose; fe_bound | apply fe_add_wide; fe_bound
            | apply fe_add_wide_r; fe_bound ]
  | |- fe_wide (fe_sub _ _) =>
      first [ apply fe_loose_wide, fe_sub_loose; fe_bound | apply fe_sub_wide; fe_bound
            | apply fe_sub_wide_r; fe_bound ]
  | |- fe_wide ?e => first [assumption | apply fe_loose_wide; fe_bound]
  | |- _ => solve [auto with fe]
  end].

(** Values: one rewriting rule per operation. *)
Lemma fe_mul_val f g : fe_wide f -> fe_wide g -> fe_val (fe_mul f g) ≡ₚ fe_val f * fe_val g.
Proof. intros. apply fe_mul_spec; assumption. Qed.
Lemma fe_sq_val f : fe_wide f -> fe_val (fe_sq f) ≡ₚ fe_val f * fe_val f.
Proof. intros. apply fe_sq_spec; assumption. Qed.
Lemma fe_sq2_val f : fe_wide f -> fe_val (fe_sq2 f) ≡ₚ 2 * fe_val f * fe_val f.
Proof. intros. apply fe_sq2_spec; assumption. Qed.
Lemma fe_add_val f g : fe_wide f -> fe_wide g -> fe_val (fe_add f g) = fe_val f + fe_val g.
Proof. intros. eapply fe_add_gen; [eassumption | eassumption | lia | lia]. Qed.
Lemma fe_sub_val f g : fe_wide f -> fe_wide g -> fe_val (fe_sub f g) = fe_val f - fe_val g.
Proof. intros. eapply fe_sub_gen; [eassumption | eassumption | lia | lia]. Qed.
Lemma fe_neg_val f : fe_wide f -> fe_val (fe_neg f) = - fe_val f.
Proof. intros. eapply fe_neg_gen; [eassumption | lia | lia]. Qed.
Lemma fe_0_val : fe_val fe_0 = 0.
Proof. reflexivity. Qed.
Lemma fe_1_val : fe_val fe_1 = 1.
Proof. reflexivity. Qed.

(** Replaces the value of a straight-line computation by the polynomial it
    computes. *)
Ltac fe_values :=
  repeat first
    [ rewrite fe_mul_val by fe_bound | rewrite fe_sq2_val by fe_bound
    | rewrite fe_sq_val by fe_bound | rewrite fe_add_val by fe_bound
    | rewrite fe_sub_val by fe_bound | rewrite fe_neg_val by fe_bound
    | rewrite fe_0_val | rewrite fe_1_val ].
Lemma eqp_eq a b : a = b -> a ≡ₚ b.
Proof. intros ->. reflexivity. Qed.
(** Ring identities on values: the values are made variables first, or the
    conversion test of [ring] would unfold them. *)
Ltac fe_generalize :=
  repeat match goal with |- context [fe_val ?x] => generalize (fe_val x); intro end.
Ltac eqp_ring := apply eqp_eq; fe_generalize; ring.

(** Bounds of constants, by evaluation. *)
Definition fe_boundedb (E O : Z) (f : fe) : bool :=
  (Z.abs (fe0 f) <=? E) && (Z.abs (fe1 f) <=? O) && (Z.abs (fe2 f) <=? E) &&
  (Z.abs (fe3 f) <=? O) && (Z.abs (fe4 f) <=? E) && (Z.abs (fe5 f) <=? O) &&
  (Z.abs (fe6 f) <=? E) && (Z.abs (fe7 f) <=? O) && (Z.abs (fe8 f) <=? E) &&
  (Z.abs (fe9 f) <=? O).
Lemma fe_bounded_check E O f : fe_boundedb E O f = true -> fe_bounded E O f.
Proof. unfold fe_boundedb, fe_bounded. rewrite !andb_true_iff, !Z.leb_le. tauto. Qed.
