(* ===== verification/FeBytes.v ===== *)
(** * Conversions of field elements (crypto-ops.c)

    [fe_tobytes] writes the canonical 32-byte form of a field element: the
    theorem is that it is the little-endian form of [fe_val f mod p], for every
    representation within the bounds its comment states. [fe_isnegative] and
    [fe_isnonzero] test it. *)

From Stdlib Require Import ZArith Lia.
From stdpp Require Import base tactics list.
From S2P Require Import Prelude Radix Fe.
Open Scope Z_scope.

Section Operations.
Local Open Scope cint_scope.

(** [carry = hi >> k; hj += carry; hi -= carry << k;] on 32-bit limbs. *)
Definition carry_flr32 (k hi hj : Z) : Z * Z :=
  let carry := Z.shiftr hi k in
  (hi -₃₂ i32 (Z.shiftl carry k), hj +₃₂ carry).

(** The quotient [q = floor(h/p)], by its approximation from the top limb. *)
Definition fe_tobytes_q (h : fe) : Z :=
  let 'Fe h0 h1 h2 h3 h4 h5 h6 h7 h8 h9 := h in
  let q := Z.shiftr (19 *₃₂ h9 +₃₂ 2 ^ 24) 25 in
  let q := Z.shiftr (h0 +₃₂ q) 26 in
  let q := Z.shiftr (h1 +₃₂ q) 25 in
  let q := Z.shiftr (h2 +₃₂ q) 26 in
  let q := Z.shiftr (h3 +₃₂ q) 25 in
  let q := Z.shiftr (h4 +₃₂ q) 26 in
  let q := Z.shiftr (h5 +₃₂ q) 25 in
  let q := Z.shiftr (h6 +₃₂ q) 26 in
  let q := Z.shiftr (h7 +₃₂ q) 25 in
  let q := Z.shiftr (h8 +₃₂ q) 26 in
  Z.shiftr (h9 +₃₂ q) 25.

(** [h0 += 19 * q] and the carries; [carry9] leaves the number. *)
Definition fe_tobytes_reduce (h : fe) : fe :=
  let q := fe_tobytes_q h in
  let 'Fe h0 h1 h2 h3 h4 h5 h6 h7 h8 h9 := h in
  let h0 := h0 +₃₂ (19 *₃₂ q) in
  let '(h0, h1) := carry_flr32 26 h0 h1 in
  let '(h1, h2) := carry_flr32 25 h1 h2 in
  let '(h2, h3) := carry_flr32 26 h2 h3 in
  let '(h3, h4) := carry_flr32 25 h3 h4 in
  let '(h4, h5) := carry_flr32 26 h4 h5 in
  let '(h5, h6) := carry_flr32 25 h5 h6 in
  let '(h6, h7) := carry_flr32 26 h6 h7 in
  let '(h7, h8) := carry_flr32 25 h7 h8 in
  let '(h8, h9) := carry_flr32 26 h8 h9 in
  let '(h9, _carry9) := carry_flr32 25 h9 0 in
  Fe h0 h1 h2 h3 h4 h5 h6 h7 h8 h9.

(** The stores to the [unsigned char] array, each truncated to a byte. *)
Definition fe_tobytes_pack (h : fe) : list Z :=
  let 'Fe h0 h1 h2 h3 h4 h5 h6 h7 h8 h9 := h in
  [ u8 (Z.shiftr h0 0); u8 (Z.shiftr h0 8);
    u8 (Z.shiftr h0 16); u8 (Z.lor (Z.shiftr h0 24) (Z.shiftl h1 2));
    u8 (Z.shiftr h1 6); u8 (Z.shiftr h1 14);
    u8 (Z.lor (Z.shiftr h1 22) (Z.shiftl h2 3)); u8 (Z.shiftr h2 5);
    u8 (Z.shiftr h2 13); u8 (Z.lor (Z.shiftr h2 21) (Z.shiftl h3 5));
    u8 (Z.shiftr h3 3); u8 (Z.shiftr h3 11);
    u8 (Z.lor (Z.shiftr h3 19) (Z.shiftl h4 6)); u8 (Z.shiftr h4 2);
    u8 (Z.shiftr h4 10); u8 (Z.shiftr h4 18);
    u8 (Z.shiftr h5 0); u8 (Z.shiftr h5 8);
    u8 (Z.shiftr h5 16); u8 (Z.lor (Z.shiftr h5 24) (Z.shiftl h6 1));
    u8 (Z.shiftr h6 7); u8 (Z.shiftr h6 15);
    u8 (Z.lor (Z.shiftr h6 23) (Z.shiftl h7 3)); u8 (Z.shiftr h7 5);
    u8 (Z.shiftr h7 13); u8 (Z.lor (Z.shiftr h7 21) (Z.shiftl h8 4));
    u8 (Z.shiftr h8 4); u8 (Z.shiftr h8 12);
    u8 (Z.lor (Z.shiftr h8 20) (Z.shiftl h9 6)); u8 (Z.shiftr h9 2);
    u8 (Z.shiftr h9 10); u8 (Z.shiftr h9 18) ].

Definition fe_tobytes (h : fe) : list Z := fe_tobytes_pack (fe_tobytes_reduce h).

Definition fe_isnegative (f : fe) : Z :=
  let s := fe_tobytes f in Z.land (nth 0 s 0) 1.

Definition fe_isnonzero (f : fe) : Z :=
  let s := fe_tobytes f in bytes_nonzero s.

End Operations.

(** ** The quotient *)

Lemma nested_floor h x m n : 0 < m -> 0 < n -> (h + x / m) / n = (h * m + x) / (m * n).
Proof. intros. rewrite <- Z.div_div, Z.div_add_l by lia. done. Qed.

(** The quotient estimate is exact: the argument of the comment of
    [fe_tobytes], on integers. *)
Lemma quotient_estimate H h9 t q :
  Z.abs h9 <= 55364812 -> Z.abs (H - 2 ^ 230 * h9) <= 2 ^ 231 ->
  t = (19 * h9 + 2 ^ 24) / 2 ^ 25 -> q = (H + t) / 2 ^ 255 ->
  0 <= H - q * fe_p < fe_p /\ Z.abs q <= 3.
Proof.
  intros H9 Hlow Ht Hq. unfold fe_p.
  pose proof (Z.div_mod (19 * h9 + 2 ^ 24) (2 ^ 25)).
  pose proof (Z.mod_pos_bound (19 * h9 + 2 ^ 24) (2 ^ 25)).
  pose proof (Z.div_mod (H + t) (2 ^ 255)). pose proof (Z.mod_pos_bound (H + t) (2 ^ 255)).
  rewrite <- Ht, <- Hq in *.
  assert (q = -2 \/ q = -1 \/ q = 0 \/ q = 1) as [-> | [-> | [-> | ->]]] by lia; lia.
Qed.

Lemma fe_tobytes_q_spec h :
  fe_wide h ->
  0 <= fe_val h - fe_tobytes_q h * fe_p < fe_p /\ Z.abs (fe_tobytes_q h) <= 3.
Proof.
  intros Hh. destruct h as [h0 h1 h2 h3 h4 h5 h6 h7 h8 h9]. fe_open.
  unfold fe_tobytes_q. cbv zeta. i32_consts. rewrite !Z.shiftr_div_pow2 by lia.
  apply (quotient_estimate _ h9 ((19 * h9 + 2 ^ 24) / 2 ^ 25)); [done | | done |].
  - replace (_ - _) with (h0 + 2 ^ 26 * h1 + 2 ^ 51 * h2 + 2 ^ 77 * h3 + 2 ^ 102 * h4
      + 2 ^ 128 * h5 + 2 ^ 153 * h6 + 2 ^ 179 * h7 + 2 ^ 204 * h8) by (fe_unfold; ring).
    abs_tac.
  - generalize ((19 * h9 + 2 ^ 24) / 2 ^ 25). intros t.
    rewrite (nested_floor h1), (nested_floor h2), (nested_floor h3), (nested_floor h4),
      (nested_floor h5), (nested_floor h6), (nested_floor h7), (nested_floor h8),
      (nested_floor h9) by (vm_compute; reflexivity). fe_unfold.
    apply (f_equal2 Z.div); [ring | reflexivity].
Qed.

(** ** The limbs of the canonical representative *)

Definition fe_digits (f : fe) : Prop :=
  0 <= fe0 f < 2 ^ 26 /\ 0 <= fe1 f < 2 ^ 25 /\ 0 <= fe2 f < 2 ^ 26 /\
  0 <= fe3 f < 2 ^ 25 /\ 0 <= fe4 f < 2 ^ 26 /\ 0 <= fe5 f < 2 ^ 25 /\
  0 <= fe6 f < 2 ^ 26 /\ 0 <= fe7 f < 2 ^ 25 /\ 0 <= fe8 f < 2 ^ 26 /\
  0 <= fe9 f < 2 ^ 25.

Lemma carry_flr32_spec k hi hj A B :
  1 <= k <= 30 -> Z.abs hi <= A -> Z.abs hj <= B -> A + 2 ^ k < 2 ^ 31 -> B + A + 1 < 2 ^ 31 ->
  exists c, carry_flr32 k hi hj = (hi - c * 2 ^ k, hj + c) /\
    0 <= hi - c * 2 ^ k < 2 ^ k /\ Z.abs c <= A / 2 ^ k + 1.
Proof.
  intros Hk HA HB HoA HoB. exists (hi / 2 ^ k). unfold carry_flr32.
  assert (2 <= 2 ^ k) by (change 2 with (2 ^ 1) at 1; apply Z.pow_le_mono_r; lia).
  pose proof (Z.div_mod hi (2 ^ k)). pose proof (Z.mod_pos_bound hi (2 ^ k)).
  assert (Hc : Z.abs (hi / 2 ^ k) <= A / 2 ^ k + 1).
  { rewrite <- Z.shiftr_div_pow2 by lia. apply abs_shiftr; [apply Z.leb_le; lia | done]. }
  assert (A / 2 ^ k <= A) by (apply Z.div_le_upper_bound; nia).
  rewrite Z.shiftr_div_pow2, Z.shiftl_mul_pow2 by lia.
  rewrite (i32_id (_ * _)), !i32_id by lia.
  split; [done | split; [lia | done]].
Qed.

Ltac carry32_step :=
  match goal with
  | |- context [carry_flr32 ?k ?a ?b] =>
      let c := fresh "c" in let Ec := fresh "E" in let Hr := fresh "Hr" in
      let Hc := fresh "Hc" in let x := fresh "x" in let Ex := fresh "Ex" in
      let pa := abs_bound a in
      let pb := abs_bound b in
      destruct (carry_flr32_spec k a b _ _ ltac:(lia) pa pb) as (c & Ec & Hr & Hc);
      [vm_compute; reflexivity | vm_compute; reflexivity |];
      rewrite Ec; clear Ec; remember (a - c * 2 ^ k) as x eqn:Ex;
      let B := lazymatch type of Hc with _ <= ?B => eval vm_compute in B end in
      change (Z.abs c <= B) in Hc; cbv beta iota zeta
  end.

Lemma fe_digits_range f : fe_digits f -> 0 <= fe_val f < 2 ^ 255.
Proof. unfold fe_digits, fe_val. destruct f. cbn. lia. Qed.

Lemma abs_0 : Z.abs 0 <= 0.
Proof. done. Qed.

Lemma fe_tobytes_reduce_spec h :
  fe_wide h ->
  fe_digits (fe_tobytes_reduce h) /\ fe_val (fe_tobytes_reduce h) = fe_val h mod fe_p.
Proof.
  intros Hh. destruct (fe_tobytes_q_spec h Hh) as [Hq Habs].
  unfold fe_tobytes_reduce. generalize dependent (fe_tobytes_q h). intros q Hq Habs.
  destruct h as [h0 h1 h2 h3 h4 h5 h6 h7 h8 h9]. fe_open.
  i32_consts. do 10 carry32_step.
  lazymatch goal with |- fe_digits ?g /\ _ => set (r := g) end.
  assert (Hd : fe_digits r) by (clear - Hr Hr0 Hr1 Hr2 Hr3 Hr4 Hr5 Hr6 Hr7 Hr8; unfold fe_digits; cbn; tauto).
  split; [exact Hd|]. apply fe_digits_range in Hd.
  set (H' := fe_val (Fe h0 h1 h2 h3 h4 h5 h6 h7 h8 h9)) in *.
  assert (Hv : fe_val r = H' + 19 * q - 2 ^ 255 * c8).
  { subst r H'. fe_unfold. subst. ring. }
  clearbody r H'. clear - Hv Hd Hq. unfold fe_p in *.
  apply (Z.mod_unique _ _ q); lia.
Qed.

(** ** The bytes *)

(** ** The bytes *)

Lemma fe_tobytes_pack_spec h : fe_digits h ->
  byte_ok (fe_tobytes_pack h) /\ le_val (fe_tobytes_pack h) = fe_val h.
Proof.
  intros Hd. destruct h as [h0 h1 h2 h3 h4 h5 h6 h7 h8 h9]. unfold fe_digits in Hd.
  cbn [fe0 fe1 fe2 fe3 fe4 fe5 fe6 fe7 fe8 fe9] in Hd.
  destruct Hd as (D0&D1&D2&D3&D4&D5&D6&D7&D8&D9).
  unfold fe_tobytes_pack. split; [repeat constructor; apply u8_range|].
  rewrite (u8_or _ h1), (u8_or _ h2), (u8_or _ h3), (u8_or _ h4), (u8_or _ h6),
    (u8_or _ h7), (u8_or _ h8), (u8_or _ h9)
    by first [lia | apply (shiftr_range _ 26); lia | apply (shiftr_range _ 25); lia].
  rewrite (u8_id (Z.shiftr h4 18)), (u8_id (Z.shiftr h9 18))
    by first [apply (shiftr_range _ 26); lia | pose proof (shiftr_range h9 25 18); lia].
  rewrite !Z.shiftr_0_r. change (u8 h0) with (h0 mod 2 ^ 8). change (u8 h5) with (h5 mod 2 ^ 8).
  change (8 - 1) with 7. change (8 - 2) with 6. change (8 - 3) with 5.
  change (8 - 4) with 4. change (8 - 5) with 3. change (8 - 6) with 2.
  pose proof (limb_pieces h0 8 16 24 ltac:(lia) eq_refl eq_refl).
  pose proof (limb_pieces h1 6 14 22 ltac:(lia) eq_refl eq_refl).
  pose proof (limb_pieces h2 5 13 21 ltac:(lia) eq_refl eq_refl).
  pose proof (limb_pieces h3 3 11 19 ltac:(lia) eq_refl eq_refl).
  pose proof (limb_pieces h4 2 10 18 ltac:(lia) eq_refl eq_refl).
  pose proof (limb_pieces h5 8 16 24 ltac:(lia) eq_refl eq_refl).
  pose proof (limb_pieces h6 7 15 23 ltac:(lia) eq_refl eq_refl).
  pose proof (limb_pieces h7 5 13 21 ltac:(lia) eq_refl eq_refl).
  pose proof (limb_pieces h8 4 12 20 ltac:(lia) eq_refl eq_refl).
  pose proof (limb_pieces h9 2 10 18 ltac:(lia) eq_refl eq_refl).
  cbn [le_val]. fe_unfold. pieces_lia.
Qed.

(** ** [fe_tobytes] and the tests *)

Lemma fe_tobytes_spec h : fe_wide h ->
  byte_ok (fe_tobytes h) /\ length (fe_tobytes h) = 32%nat /\
  le_val (fe_tobytes h) = fe_val h mod fe_p.
Proof.
  intros Hh. destruct (fe_tobytes_reduce_spec h Hh) as [Hd Hv].
  destruct (fe_tobytes_pack_spec _ Hd) as [Hb Hl]. unfold fe_tobytes.
  split; [exact Hb|]. split; [|congruence].
  destruct (fe_tobytes_reduce h). done.
Qed.

Lemma fe_isnegative_spec f : fe_wide f -> fe_isnegative f = (fe_val f mod fe_p) mod 2.
Proof.
  intros Hf. destruct (fe_tobytes_spec f Hf) as (Hb & Hl & Hv). unfold fe_isnegative.
  rewrite <- Hv. change 1 with (Z.ones 1). rewrite Z.land_ones by lia. change (2 ^ 1) with 2.
  destruct (fe_tobytes f) as [|b l]; [done|]. cbn [nth le_val].
  change (2 ^ 8) with (128 * 2). replace (b + 128 * 2 * le_val l) with (b + (128 * le_val l) * 2) by lia.
  rewrite Z_mod_plus_full. done.
Qed.

Lemma fe_isnonzero_spec f : fe_wide f ->
  fe_isnonzero f = if fe_val f mod fe_p =? 0 then 0 else 1.
Proof.
  intros Hf. destruct (fe_tobytes_spec f Hf) as (Hb & Hl & Hv).
  unfold fe_isnonzero. rewrite <- Hv. apply bytes_nonzero_spec, Hb.
Qed.

(** ** [fe_frombytes]

    The part of [ge_frombytes_vartime] and [ge_fromfe_frombytes_vartime]
    between the comments "From fe_frombytes.c" and "End fe_frombytes.c". *)

(** The loads; [top] is [h9], which the two functions read differently. *)
Definition fe_frombytes_load (s : list Z) (top : Z) : fe :=
  let h0 := load_4 s in
  let h1 := Z.shiftl (load_3 (drop 4 s)) 6 in
  let h2 := Z.shiftl (load_3 (drop 7 s)) 5 in
  let h3 := Z.shiftl (load_3 (drop 10 s)) 3 in
  let h4 := Z.shiftl (load_3 (drop 13 s)) 2 in
  let h5 := load_4 (drop 16 s) in
  let h6 := Z.shiftl (load_3 (drop 20 s)) 7 in
  let h7 := Z.shiftl (load_3 (drop 23 s)) 5 in
  let h8 := Z.shiftl (load_3 (drop 26 s)) 4 in
  Fe h0 h1 h2 h3 h4 h5 h6 h7 h8 top.

Definition fe_frombytes_255 (s : list Z) : fe :=
  fe_frombytes_load s (Z.shiftl (Z.land (load_3 (drop 29 s)) 8388607) 2).
Definition fe_frombytes_256 (s : list Z) : fe :=
  fe_frombytes_load s (Z.shiftl (load_3 (drop 29 s)) 2).

(** "Validate the number to be canonical": the test for values from [p] on. *)
Definition fe_noncanonical (h : fe) : bool :=
  let 'Fe h0 h1 h2 h3 h4 h5 h6 h7 h8 h9 := h in
  (h9 =? 33554428) && (h8 =? 268435440) && (h7 =? 536870880) && (h6 =? 2147483520) &&
  (h5 =? 4294967295) && (h4 =? 67108860) && (h3 =? 134217720) && (h2 =? 536870880) &&
  (h1 =? 1073741760) && (4294967277 <=? h0).

(** The carries, and the stores to 32-bit limbs. *)
Definition fe_frombytes_carry (h : fe) : fe :=
  let 'Fe h0 h1 h2 h3 h4 h5 h6 h7 h8 h9 := h in
  let '(carry9, h9) := carry_out 25 h9 in
  let h0 := i64 (h0 + i64 (carry9 * 19)) in
  let '(h1, h2) := carry_rnd 25 h1 h2 in
  let '(h3, h4) := carry_rnd 25 h3 h4 in
  let '(h5, h6) := carry_rnd 25 h5 h6 in
  let '(h7, h8) := carry_rnd 25 h7 h8 in
  let '(h0, h1) := carry_rnd 26 h0 h1 in
  let '(h2, h3) := carry_rnd 26 h2 h3 in
  let '(h4, h5) := carry_rnd 26 h4 h5 in
  let '(h6, h7) := carry_rnd 26 h6 h7 in
  let '(h8, h9) := carry_rnd 26 h8 h9 in
  Fe (i32 h0) (i32 h1) (i32 h2) (i32 h3) (i32 h4) (i32 h5) (i32 h6) (i32 h7) (i32 h8) (i32 h9).

Lemma shiftl_mul x k : 0 <= k -> Z.shiftl x k = 2 ^ k * x.
Proof. intros. rewrite Z.shiftl_mul_pow2 by lia. lia. Qed.

Lemma mod_cut x a b c : 0 <= a -> 0 <= b -> c = a + b ->
  x mod 2 ^ c = x mod 2 ^ a + 2 ^ a * ((x / 2 ^ a) mod 2 ^ b).
Proof. intros ? ? ->. symmetry. apply mod_split; assumption. Qed.

Section Load.
Variable s : list Z.
Hypothesis Hs : byte_ok s.

(** The loads cut the byte string at the bits 0, 32, 56, 80, 104, 128, 160,
    184, 208, 232. *)
Lemma load_cuts t : 0 <= t ->
  le_val s mod 2 ^ (232 + t) =
    load_4 s + 2 ^ 32 * load_3 (drop 4 s) + 2 ^ 56 * load_3 (drop 7 s)
    + 2 ^ 80 * load_3 (drop 10 s) + 2 ^ 104 * load_3 (drop 13 s) + 2 ^ 128 * load_4 (drop 16 s)
    + 2 ^ 160 * load_3 (drop 20 s) + 2 ^ 184 * load_3 (drop 23 s) + 2 ^ 208 * load_3 (drop 26 s)
    + 2 ^ 232 * ((le_val s / 2 ^ 232) mod 2 ^ t).
Proof using Hs.
  intros Ht. rewrite load_4_val, !load_3_drop, load_4_drop by done.
  pose proof (mod_split (le_val s) 232 t ltac:(lia) Ht) as Hsplit. rewrite <- Hsplit.
  pose proof (mod_cut (le_val s) 208 24 232 ltac:(lia) ltac:(lia) eq_refl).
  pose proof (mod_cut (le_val s) 184 24 208 ltac:(lia) ltac:(lia) eq_refl).
  pose proof (mod_cut (le_val s) 160 24 184 ltac:(lia) ltac:(lia) eq_refl).
  pose proof (mod_cut (le_val s) 128 32 160 ltac:(lia) ltac:(lia) eq_refl).
  pose proof (mod_cut (le_val s) 104 24 128 ltac:(lia) ltac:(lia) eq_refl).
  pose proof (mod_cut (le_val s) 80 24 104 ltac:(lia) ltac:(lia) eq_refl).
  pose proof (mod_cut (le_val s) 56 24 80 ltac:(lia) ltac:(lia) eq_refl).
  pose proof (mod_cut (le_val s) 32 24 56 ltac:(lia) ltac:(lia) eq_refl).
  clear Hsplit.
  change (8 * Z.of_nat 4) with 32.
  change (8 * Z.of_nat 7) with 56.
  change (8 * Z.of_nat 10) with 80.
  change (8 * Z.of_nat 13) with 104.
  change (8 * Z.of_nat 16) with 128.
  change (8 * Z.of_nat 20) with 160.
  change (8 * Z.of_nat 23) with 184.
  change (8 * Z.of_nat 26) with 208.
  pieces_lia.
Qed.

Lemma load_top t : 0 <= t <= 24 ->
  (le_val s / 2 ^ 232) mod 2 ^ t = load_3 (drop 29 s) mod 2 ^ t.
Proof using Hs. intros. rewrite load_3_drop, mod_mod_pow by (done || lia). done. Qed.

(** Every load is below its power of two. *)
Lemma load_3_range j : 0 <= load_3 (drop j s) < 2 ^ 24.
Proof using Hs. rewrite load_3_drop by done. apply Z.mod_pos_bound. lia. Qed.
Lemma load_4_range j : 0 <= load_4 (drop j s) < 2 ^ 32.
Proof using Hs. rewrite load_4_drop by done. apply Z.mod_pos_bound. lia. Qed.

Lemma fe_frombytes_load_val top t :
  top = 2 ^ 2 * (load_3 (drop 29 s) mod 2 ^ t) -> 0 <= t <= 24 ->
  fe_val (fe_frombytes_load s top) = le_val s mod 2 ^ (232 + t).
Proof using Hs.
  intros -> Ht. rewrite load_cuts, load_top by lia. unfold fe_frombytes_load. fe_unfold.
  rewrite !shiftl_mul by lia. ring.
Qed.

Lemma mask_23 x : Z.land x 8388607 = x mod 2 ^ 23.
Proof. change 8388607 with (Z.ones 23). apply Z.land_ones. lia. Qed.

Lemma fe_frombytes_255_val : fe_val (fe_frombytes_255 s) = le_val s mod 2 ^ 255.
Proof using Hs.
  apply (fe_frombytes_load_val _ 23); [|lia]. rewrite shiftl_mul, mask_23 by lia. done.
Qed.

Lemma fe_frombytes_256_val : fe_val (fe_frombytes_256 s) = le_val s mod 2 ^ 256.
Proof using Hs.
  apply (fe_frombytes_load_val _ 24); [|lia].
  rewrite shiftl_mul, Z.mod_small by (lia || apply load_3_range). done.
Qed.

Lemma fe_noncanonical_255 :
  fe_noncanonical (fe_frombytes_255 s) = (fe_p <=? le_val s mod 2 ^ 255).
Proof using Hs.
  change 255 with (232 + 23). rewrite (load_cuts 23), load_top by lia.
  unfold fe_frombytes_255, fe_frombytes_load, fe_noncanonical.
  rewrite mask_23, !shiftl_mul by lia. unfold fe_p.
  pose proof (load_4_range 0). change (drop 0 s) with s in *. pose proof (load_3_range 4).
  pose proof (load_3_range 7). pose proof (load_3_range 10). pose proof (load_3_range 13).
  pose proof (load_4_range 16). pose proof (load_3_range 20). pose proof (load_3_range 23).
  pose proof (load_3_range 26). pose proof (Z.mod_pos_bound (load_3 (drop 29 s)) (2 ^ 23)).
  repeat match goal with
  | |- context [load_3 ?x mod ?m] =>
      let v := fresh "v" in set (v := load_3 x mod m) in *; clearbody v
  | |- context [load_3 ?x] => let v := fresh "v" in set (v := load_3 x) in *; clearbody v
  | |- context [load_4 ?x] => let v := fresh "v" in set (v := load_4 x) in *; clearbody v
  end.
  apply eq_true_iff_eq. rewrite !andb_true_iff, !Z.eqb_eq, !Z.leb_le. lia.
Qed.

(** The bounds of the loaded limbs. *)
Lemma fe_frombytes_load_range top :
  let h := fe_frombytes_load s top in
  Z.abs (fe0 h) <= 2 ^ 32 /\ Z.abs (fe1 h) <= 2 ^ 30 /\ Z.abs (fe2 h) <= 2 ^ 29 /\
  Z.abs (fe3 h) <= 2 ^ 27 /\ Z.abs (fe4 h) <= 2 ^ 26 /\ Z.abs (fe5 h) <= 2 ^ 32 /\
  Z.abs (fe6 h) <= 2 ^ 31 /\ Z.abs (fe7 h) <= 2 ^ 29 /\ Z.abs (fe8 h) <= 2 ^ 28.
Proof using Hs.
  unfold fe_frombytes_load. cbn [fe0 fe1 fe2 fe3 fe4 fe5 fe6 fe7 fe8]. rewrite !shiftl_mul by lia.
  pose proof (load_4_range 0). change (drop 0 s) with s in *. pose proof (load_3_range 4).
  pose proof (load_3_range 7). pose proof (load_3_range 10). pose proof (load_3_range 13).
  pose proof (load_4_range 16). pose proof (load_3_range 20). pose proof (load_3_range 23).
  pose proof (load_3_range 26). lia.
Qed.

Lemma fe_frombytes_carry_spec top : Z.abs top <= 2 ^ 26 ->
  fe_small (fe_frombytes_carry (fe_frombytes_load s top)) /\
  fe_val (fe_frombytes_carry (fe_frombytes_load s top)) ≡ₚ fe_val (fe_frombytes_load s top).
Proof using Hs.
  intros Htop. pose proof (fe_frombytes_load_range top) as Hr.
  assert (fe9 (fe_frombytes_load s top) = top) as E by done. revert Hr E.
  generalize (fe_frombytes_load s top). intros [h0 h1 h2 h3 h4 h5 h6 h7 h8 h9].
  cbn [fe0 fe1 fe2 fe3 fe4 fe5 fe6 fe7 fe8 fe9]. intros (?&?&?&?&?&?&?&?&?) ->.
  unfold fe_frombytes_carry.
  repeat carry_step. i64_consts. repeat carry_step. i32_consts.
  split; [fe_limbs; abs_tac|].
  apply (eqp_add_p _ _ (- c6)). unfold fe_p. fe_unfold. subst. ring.
Qed.

Lemma fe_frombytes_255_spec :
  fe_small (fe_frombytes_carry (fe_frombytes_255 s)) /\
  fe_val (fe_frombytes_carry (fe_frombytes_255 s)) ≡ₚ le_val s mod 2 ^ 255.
Proof using Hs.
  rewrite <- fe_frombytes_255_val. apply fe_frombytes_carry_spec.
  rewrite mask_23, shiftl_mul by lia. pose proof (Z.mod_pos_bound (load_3 (drop 29 s)) (2 ^ 23)). lia.
Qed.

Lemma fe_frombytes_256_spec :
  fe_small (fe_frombytes_carry (fe_frombytes_256 s)) /\
  fe_val (fe_frombytes_carry (fe_frombytes_256 s)) ≡ₚ le_val s mod 2 ^ 256.
Proof using Hs.
  rewrite <- fe_frombytes_256_val. apply fe_frombytes_carry_spec.
  rewrite shiftl_mul by lia. pose proof (load_3_range 29). lia.
Qed.

End Load.
