(* ===== verification/FePow.v ===== *)
(** * Exponentiations in the field (crypto-ops.c)

    [fe_invert] and [fe_divpowm1] are fixed addition chains of squarings and
    multiplications. The theorems give the exponent each one computes: an
    exponent is attached to every intermediate by the predicate [pow_of], so the
    proof of a chain is one step per line of the code. *)

From Stdlib Require Import ZArith Lia.
From stdpp Require Import base tactics.
From S2P Require Import Prelude Fe.
Open Scope Z_scope.

(** ** Operations *)

(** [for (i = 0; i < n; ++i) fe_sq(t, t);] *)
Fixpoint fe_sqn (n : nat) (t : fe) : fe :=
  match n with
  | O => t
  | S n => fe_sqn n (fe_sq t)
  end.

Definition fe_invert (z : fe) : fe :=
  let t0 := fe_sq z in
  let t1 := fe_sq t0 in
  let t1 := fe_sq t1 in
  let t1 := fe_mul z t1 in
  let t0 := fe_mul t0 t1 in
  let t2 := fe_sq t0 in
  let t1 := fe_mul t1 t2 in
  let t2 := fe_sq t1 in
  let t2 := fe_sqn 4 t2 in
  let t1 := fe_mul t2 t1 in
  let t2 := fe_sq t1 in
  let t2 := fe_sqn 9 t2 in
  let t2 := fe_mul t2 t1 in
  let t3 := fe_sq t2 in
  let t3 := fe_sqn 19 t3 in
  let t2 := fe_mul t3 t2 in
  let t2 := fe_sq t2 in
  let t2 := fe_sqn 9 t2 in
  let t1 := fe_mul t2 t1 in
  let t2 := fe_sq t1 in
  let t2 := fe_sqn 49 t2 in
  let t2 := fe_mul t2 t1 in
  let t3 := fe_sq t2 in
  let t3 := fe_sqn 99 t3 in
  let t2 := fe_mul t3 t2 in
  let t2 := fe_sq t2 in
  let t2 := fe_sqn 49 t2 in
  let t1 := fe_mul t2 t1 in
  let t1 := fe_sq t1 in
  let t1 := fe_sqn 4 t1 in
  fe_mul t1 t0.

(** The part of [fe_divpowm1] "From fe_pow22523.c". *)
Definition fe_pow22523 (uv7 : fe) : fe :=
  let t0 := fe_sq uv7 in
  let t1 := fe_sq t0 in
  let t1 := fe_sq t1 in
  let t1 := fe_mul uv7 t1 in
  let t0 := fe_mul t0 t1 in
  let t0 := fe_sq t0 in
  let t0 := fe_mul t1 t0 in
  let t1 := fe_sq t0 in
  let t1 := fe_sqn 4 t1 in
  let t0 := fe_mul t1 t0 in
  let t1 := fe_sq t0 in
  let t1 := fe_sqn 9 t1 in
  let t1 := fe_mul t1 t0 in
  let t2 := fe_sq t1 in
  let t2 := fe_sqn 19 t2 in
  let t1 := fe_mul t2 t1 in
  let t1 := fe_sqn 10 t1 in
  let t0 := fe_mul t1 t0 in
  let t1 := fe_sq t0 in
  let t1 := fe_sqn 49 t1 in
  let t1 := fe_mul t1 t0 in
  let t2 := fe_sq t1 in
  let t2 := fe_sqn 99 t2 in
  let t1 := fe_mul t2 t1 in
  let t1 := fe_sqn 50 t1 in
  let t0 := fe_mul t1 t0 in
  let t0 := fe_sq t0 in
  let t0 := fe_sq t0 in
  fe_mul t0 uv7.

Definition fe_divpowm1 (u v : fe) : fe :=
  let v3 := fe_sq v in
  let v3 := fe_mul v3 v in
  let uv7 := fe_sq v3 in
  let uv7 := fe_mul uv7 v in
  let uv7 := fe_mul uv7 u in
  let t0 := fe_pow22523 uv7 in
  let t0 := fe_mul t0 v3 in
  fe_mul t0 u.

(** ** Powers *)

(** [f] represents [z^e]; it is small unless it is [z] itself. *)
Definition pow_of (z e : Z) (f : fe) : Prop :=
  fe_wide f /\ (1 < e -> fe_small f) /\ fe_val f ≡ₚ z ^ e.

Lemma pow_base z : fe_wide z -> pow_of (fe_val z) 1 z.
Proof. intros. split; [done | split; [lia |]]. rewrite Z.pow_1_r. reflexivity. Qed.

Lemma pow_mul z a b f g :
  pow_of z a f -> pow_of z b g -> (1 <=? a) && (1 <=? b) = true -> pow_of z (a + b) (fe_mul f g).
Proof.
  intros (Hf & _ & Ef) (Hg & _ & Eg) [Ha%Z.leb_le Hb%Z.leb_le]%andb_true_iff.
  split; [fe_bound | split; [fe_bound |]].
  rewrite fe_mul_val, Ef, Eg, Z.pow_add_r by (done || lia). reflexivity.
Qed.

Lemma pow_sq z a f : pow_of z a f -> (1 <=? a) = true -> pow_of z (a + a) (fe_sq f).
Proof.
  intros (Hf & _ & Ef) Ha%Z.leb_le. split; [fe_bound | split; [fe_bound |]].
  rewrite fe_sq_val, Ef, Z.pow_add_r by (done || lia). reflexivity.
Qed.

Lemma pow_sqn n z a f :
  pow_of z a f -> (1 <=? a) = true -> pow_of z (2 ^ Z.of_nat n * a) (fe_sqn n f).
Proof.
  revert a f. induction n as [|n IH]; intros a f Hf Ha; [by rewrite Z.mul_1_l|].
  cbn [fe_sqn]. replace (2 ^ Z.of_nat (S n) * a) with (2 ^ Z.of_nat n * (a + a)).
  - apply IH; [by apply pow_sq|]. apply Z.leb_le in Ha. apply Z.leb_le. lia.
  - rewrite Nat2Z.inj_succ, Z.pow_succ_r by lia. ring.
Qed.

Lemma pow_let z k n e (b : fe -> fe) :
  pow_of z k e -> (forall x, pow_of z k x -> pow_of z n (b x)) -> pow_of z n (let x := e in b x).
Proof. auto. Qed.

(** One line of an addition chain. *)
Ltac pow_val e :=
  lazymatch e with
  | fe_mul ?f ?g => let p := pow_val f in let q := pow_val g in
      constr:(pow_mul _ _ _ f g p q eq_refl)
  | fe_sq ?f => let p := pow_val f in constr:(pow_sq _ _ f p eq_refl)
  | fe_sqn ?n ?f => let p := pow_val f in constr:(pow_sqn n _ _ f p eq_refl)
  | _ => lazymatch goal with H : pow_of _ _ e |- _ => H end
  end.
Ltac pow_step :=
  lazymatch goal with
  | |- pow_of ?z ?n (let x := ?e in @?b x) =>
      let p := pow_val e in
      let k := lazymatch type of p with pow_of _ ?k _ => eval vm_compute in k end in
      apply (pow_let z k n e b p); cbv beta; intros ? ?
  | |- pow_of ?z ?n ?e => let p := pow_val e in
      let k := lazymatch type of p with pow_of _ ?k _ => k end in
      change n with k; exact p
  end.

Lemma fe_invert_pow z : fe_wide z -> pow_of (fe_val z) (fe_p - 2) (fe_invert z).
Proof. intros Hz%pow_base. unfold fe_invert. repeat pow_step. Qed.

Lemma fe_pow22523_pow z : fe_wide z -> pow_of (fe_val z) (2 ^ 252 - 3) (fe_pow22523 z).
Proof. intros Hz%pow_base. unfold fe_pow22523. repeat pow_step. Qed.

Lemma pow_of_small z e f : pow_of z e f -> 1 < e -> fe_small f.
Proof. intros (_ & H & _). exact H. Qed.
Lemma pow_of_val z e f : pow_of z e f -> fe_val f ≡ₚ z ^ e.
Proof. intros (_ & _ & H). exact H. Qed.

#[export] Instance eqp_pow e : Proper (eqp ==> eqp) (fun a => Z.pow a e).
Proof.
  intros a b Hab. destruct (Z.lt_ge_cases e 0) as [He|He].
  - rewrite !Z.pow_neg_r by done. reflexivity.
  - revert e He. apply natlike_ind; [reflexivity|]. intros e He IH.
    rewrite !Z.pow_succ_r, IH, Hab by done. reflexivity.
Qed.

Lemma fe_invert_spec z : fe_wide z ->
  fe_small (fe_invert z) /\ fe_val (fe_invert z) ≡ₚ fe_val z ^ (fe_p - 2).
Proof.
  intros Hz%fe_invert_pow. split; [|by apply pow_of_val].
  eapply pow_of_small; [exact Hz | reflexivity].
Qed.

(** [u * v^3 * (u * v^7)^((p-5)/8)]. *)
Lemma fe_divpowm1_spec u v : fe_wide u -> fe_wide v ->
  fe_small (fe_divpowm1 u v) /\
  fe_val (fe_divpowm1 u v)
    ≡ₚ fe_val u * fe_val v ^ 3 * (fe_val u * fe_val v ^ 7) ^ ((fe_p - 5) / 8).
Proof.
  intros Hu Hv. unfold fe_divpowm1. cbv zeta.
  set (v3 := fe_mul (fe_sq v) v).
  assert (H3 : fe_small v3) by (unfold v3; fe_bound).
  assert (E3 : fe_val v3 ≡ₚ fe_val v ^ 3) by (unfold v3; fe_values; eqp_ring).
  clearbody v3. set (uv7 := fe_mul (fe_mul (fe_sq v3) v) u).
  assert (H7 : fe_small uv7) by (unfold uv7; fe_bound).
  assert (E7 : fe_val uv7 ≡ₚ fe_val u * fe_val v ^ 7) by (unfold uv7; fe_values; rewrite E3; eqp_ring).
  clearbody uv7. pose proof (fe_pow22523_pow uv7 ltac:(fe_bound)) as Hp.
  assert (fe_small (fe_pow22523 uv7)) by (eapply pow_of_small; [exact Hp | reflexivity]).
  split; [fe_bound|]. fe_values. rewrite (pow_of_val _ _ _ Hp), E3.
  change ((fe_p - 5) / 8) with (2 ^ 252 - 3).
  rewrite (eqp_pow (2 ^ 252 - 3) _ _ E7).
  generalize ((fe_val u * fe_val v ^ 7) ^ (2 ^ 252 - 3)). intros w. eqp_ring.
Qed.
