(* ===== verification/Pocklington.v ===== *)
(** * Fermat's little theorem and Pocklington's criterion

    Number theory the field of crypto-ops.c rests on, on the Standard Library's
    integers: [fermat_little], [pow_inverse] and the primality criterion
    [pocklington], with executable checks. *)

From Stdlib Require Import Bool ZArith Zwf Lia Znumtheory Zpow_facts List Permutation.
From S2P Require Import Prelude.
Import ListNotations.
Open Scope Z_scope.

(** ** Fermat's little theorem *)

Definition zprod (l : list Z) : Z := fold_right Z.mul 1 l.

Lemma zprod_perm l1 l2 : Permutation l1 l2 -> zprod l1 = zprod l2.
Proof. induction 1; cbn [zprod fold_right] in *; unfold zprod in *; lia. Qed.

Definition residues (n : nat) : list Z := map Z.of_nat (seq 1 n).

Lemma residues_in n x : In x (residues n) <-> 1 <= x <= Z.of_nat n.
Proof.
  unfold residues. rewrite in_map_iff. split.
  - intros (i & <- & Hi%in_seq). lia.
  - intros Hx. exists (Z.to_nat x). split; [lia|]. apply in_seq. lia.
Qed.

Lemma residues_nodup n : NoDup (residues n).
Proof.
  unfold residues. apply Finite.Injective_map_NoDup; [|apply seq_NoDup].
  intros x y E. lia.
Qed.

Lemma mod_eq_divide m x y : 0 < m -> x mod m = y mod m -> (m | x - y).
Proof.
  intros Hm E. apply Z.mod_divide; [lia|]. rewrite Zminus_mod, E, Z.sub_diag. apply Z.mod_0_l. lia.
Qed.

Lemma divide_mod_eq m x y : 0 < m -> (m | x - y) -> x mod m = y mod m.
Proof.
  intros Hm [k Hk]. replace x with (y + k * m) by lia. apply Z_mod_plus_full.
Qed.

Section Fermat.
Variables r a : Z.
Hypothesis Hr : Z.prime r.
Hypothesis Ha : ~ (r | a).

(** Multiplication by [a] permutes the nonzero residues. *)
Lemma mul_residues_perm :
  Permutation (map (fun i => (a * i) mod r) (residues (Z.to_nat (r - 1))))
    (residues (Z.to_nat (r - 1))).
Proof using Hr Ha.
  pose proof (Z.prime_ge_2 r Hr) as H2. apply Permutation_map_same_l.
  - apply Finite.Injective_map_NoDup_in; [|apply residues_nodup].
    intros x y Hx%residues_in Hy%residues_in E%(mod_eq_divide r _ _ ltac:(lia)).
    replace (a * x - a * y) with (a * (x - y)) in E by ring.
    apply (Z.divide_prime_mul _ _ _ Hr) in E as [E|E]; [contradiction|].
    destruct E as [k Hk]. assert (k = 0) by nia. lia.
  - intros y Hy. apply in_map_iff in Hy as (x & <- & Hx%residues_in). apply residues_in.
    pose proof (Z.mod_pos_bound (a * x) r ltac:(lia)).
    assert ((a * x) mod r <> 0); [|lia]. intros E%Z.mod_divide; [|lia].
    apply (Z.divide_prime_mul _ _ _ Hr) in E as [E|E]; [contradiction|].
    apply Z.divide_pos_le in E; lia.
Qed.

Lemma zprod_mul_mod l :
  zprod (map (fun i => (a * i) mod r) l) mod r = (a ^ Z.of_nat (length l) * zprod l) mod r.
Proof using Hr.
  pose proof (Z.prime_ge_2 r Hr). induction l as [|x l IH]; [reflexivity|].
  cbn [map zprod fold_right length]. fold (zprod l) (zprod (map (fun i => (a * i) mod r) l)).
  rewrite Z.mul_mod, IH, Z.mod_mod, <- Z.mul_mod by lia.
  rewrite Nat2Z.inj_succ, Z.pow_succ_r by lia. f_equal. ring.
Qed.

Lemma zprod_residues n : Z.of_nat n < r -> ~ (r | zprod (residues n)).
Proof using Hr.
  intros Hn D0. assert (E : exists x, In x (residues n) /\ (r | x)).
  { revert D0. generalize (residues n). intros l. induction l as [|x l IH]; cbn [zprod fold_right].
    - intros D%Z.divide_1_r_nonneg; [|pose proof (Z.prime_ge_2 r Hr); lia].
      pose proof (Z.prime_ge_2 r Hr); lia.
    - intros [D|D]%(Z.divide_prime_mul _ _ _ Hr).
      + exists x. split; [now left | assumption].
      + destruct (IH D) as (y & Hy & Hd). exists y. split; [now right | assumption]. }
  destruct E as (x & Hx%residues_in & D). apply Z.divide_pos_le in D; lia.
Qed.

Theorem fermat_little : a ^ (r - 1) mod r = 1.
Proof using Hr Ha.
  pose proof (Z.prime_ge_2 r Hr). set (l := residues (Z.to_nat (r - 1))).
  pose proof (zprod_mul_mod l) as E. unfold l in E at 1. rewrite (zprod_perm _ _ mul_residues_perm) in E.
  fold l in E. assert (El : Z.of_nat (length l) = r - 1).
  { unfold l, residues. rewrite length_map, length_seq. lia. }
  rewrite El in E. apply mod_eq_divide in E; [|lia].
  replace (zprod l - a ^ (r - 1) * zprod l) with ((1 - a ^ (r - 1)) * zprod l) in E by ring.
  apply (Z.divide_prime_mul _ _ _ Hr) in E as [E|E].
  - etransitivity; [|apply (Z.mod_1_l r); lia]. symmetry. apply divide_mod_eq; [lia | exact E].
  - exfalso. eapply zprod_residues; [|exact E]. lia.
Qed.

End Fermat.

(** ** Exponents *)

Lemma pow_1_mod a r x k : 1 < r -> 0 <= x -> 0 <= k -> a ^ x mod r = 1 -> a ^ (x * k) mod r = 1.
Proof.
  intros Hr Hx Hk E. rewrite Z.pow_mul_r, Zpower_mod, E, Z.pow_1_l by lia. apply Z.mod_1_l. lia.
Qed.

Lemma pow_mod_exp a r x y : 1 < r -> 0 <= x -> 0 < y ->
  a ^ x mod r = 1 -> a ^ y mod r = 1 -> a ^ (x mod y) mod r = 1.
Proof.
  intros Hr Hx Hy Ex Ey. pose proof (Z.mod_pos_bound x y Hy).
  rewrite (Z.div_mod x y) in Ex by lia. rewrite Z.pow_add_r in Ex by (try apply Z.mul_nonneg_nonneg; try apply Z.div_pos; lia).
  rewrite Z.mul_mod, (pow_1_mod a r y) in Ex by (try apply Z.div_pos; lia).
  rewrite Z.mul_1_l, Z.mod_mod in Ex by lia. exact Ex.
Qed.

Lemma pow_gcd_mod a r x y : 1 < r -> 0 <= x -> 0 <= y ->
  a ^ x mod r = 1 -> a ^ y mod r = 1 -> a ^ Z.gcd x y mod r = 1.
Proof.
  intros Hr. revert x. pattern y. apply (well_founded_induction (Zwf_well_founded 0)).
  clear y. intros y IH x Hx Hy Ex Ey.
  destruct (Z.eq_dec y 0) as [->|]; [rewrite Z.gcd_0_r_nonneg by lia; exact Ex|].
  rewrite Z.gcd_comm, <- Z.gcd_mod by lia. rewrite Z.gcd_comm. pose proof (Z.mod_pos_bound x y).
  apply IH; [unfold Zwf; lia | lia | lia | assumption |].
  apply pow_mod_exp; lia || assumption.
Qed.

(** ** Small primes, by trial division *)

Fixpoint no_divisor (n : Z) (fuel : nat) (d : Z) : bool :=
  match fuel with
  | O => false
  | S fuel => if n <? d * d then true else negb (n mod d =? 0) && no_divisor n fuel (d + 1)
  end.

Definition small_prime (n : Z) : bool := (1 <? n) && no_divisor n (Z.to_nat (Z.sqrt n) + 1) 2.

Lemma no_divisor_spec n fuel d : no_divisor n fuel d = true -> 0 < d ->
  forall x, d <= x -> x * x <= n -> ~ (x | n).
Proof.
  revert d. induction fuel as [|fuel IH]; intros d E Hd x Hx Hxn D; [discriminate|].
  cbn [no_divisor] in E. destruct (Z.ltb_spec n (d * d)); [nia|].
  apply andb_true_iff in E as [E1 E2]. destruct (Z.eq_dec x d) as [->|].
  - apply Z.mod_divide in D; [|lia]. rewrite D in E1. discriminate.
  - apply (IH (d + 1) E2 ltac:(lia) x ltac:(lia) Hxn D).
Qed.

Lemma prime_or_divisor m : 1 < m -> Z.prime m \/ exists k, 1 < k < m /\ (k | m).
Proof.
  intros Hm. destruct (Znumtheory.prime_dec m) as [P|P].
  - left. now apply Znumtheory.prime_alt.
  - right. now apply Znumtheory.not_prime_divide.
Qed.

Lemma prime_divisor m : 1 < m -> exists x, Z.prime x /\ (x | m).
Proof.
  pattern m. apply (well_founded_induction (Zwf_well_founded 0)).
  clear m. intros m IH Hm. destruct (prime_or_divisor m Hm) as [Pm|(k & Hk & D)].
  - exists m. split; [assumption | apply Z.divide_refl].
  - destruct (IH k) as (x & Px & Dx); [unfold Zwf; lia | lia |].
    exists x. split; [assumption | eapply Z.divide_trans; eassumption].
Qed.

(** A number with no prime divisor up to its square root is prime. *)
Lemma prime_no_small_divisor n : 1 < n ->
  (forall x, Z.prime x -> x * x <= n -> ~ (x | n)) -> Z.prime n.
Proof.
  intros Hn H. destruct (prime_or_divisor n Hn) as [|(k & Hk & [j Hj])]; [assumption | exfalso].
  assert (Hj1 : 1 < j) by nia.
  assert (E : forall m, 1 < m -> m * m <= n -> (m | n) -> False).
  { intros m Hm Hmn D. destruct (prime_divisor m Hm) as (x & Px & Dx).
    pose proof (Z.divide_pos_le x m ltac:(lia) Dx). pose proof (Z.prime_ge_2 x Px).
    apply (H x Px); [nia|]. eapply Z.divide_trans; eassumption. }
  destruct (Z.le_ge_cases k j) as [L|L].
  - apply (E k); [lia | nia|]. exists j. assumption.
  - apply (E j); [lia | nia|]. exists k. lia.
Qed.

Lemma small_prime_prime n : small_prime n = true -> Z.prime n.
Proof.
  unfold small_prime. intros [Hn%Z.ltb_lt E]%andb_true_iff.
  apply prime_no_small_divisor; [assumption|]. intros x Px Hx.
  pose proof (Z.prime_ge_2 x Px). eapply no_divisor_spec; [exact E | lia | lia | exact Hx].
Qed.

(** ** Pocklington's criterion *)

(** [(n - 1)] has the fully factored divisor [F = product of fs]; the base [a]
    has order divisible by [F] modulo every divisor of [n]. *)
Definition pocklington_check (n a : Z) (fs : list Z) : bool :=
  let F := zprod fs in
  (1 <? n) && (0 <? F) && ((n - 1) mod F =? 0) && (n <? F * F) &&
  (Zpow_mod a (n - 1) n =? 1) &&
  forallb (fun q => Z.gcd (Zpow_mod a ((n - 1) / q) n - 1) n =? 1) fs.

Lemma prime_divides_zprod x fs : Z.prime x -> Forall Z.prime fs -> (x | zprod fs) -> In x fs.
Proof.
  intros Px. induction 1 as [|q fs Pq Hfs IH]; cbn [zprod fold_right]; intros D.
  - apply Z.divide_1_r_nonneg in D; pose proof (Z.prime_ge_2 x Px); lia.
  - apply (Z.divide_prime_mul _ _ _ Px) in D as [D|D]; [left | right; now apply IH].
    symmetry. now apply Z.divide_prime_prime.
Qed.

Section Criterion.
Variables (n a : Z) (fs : list Z).
Hypothesis Hfs : Forall Z.prime fs.
Hypothesis Hn : 1 < n.
Hypothesis HF : (zprod fs | n - 1).
Hypothesis HF0 : 0 < zprod fs.
Hypothesis Ha : a ^ (n - 1) mod n = 1.
Hypothesis Hq : forall q, In q fs -> Z.gcd (a ^ ((n - 1) / q) mod n - 1) n = 1.

Lemma mod_divisor x r : 1 < r -> (r | n) -> x mod n = 1 -> x mod r = 1.
Proof using Hn.
  clear - Hn. intros Hr D E. etransitivity; [|apply (Z.mod_1_l r); lia]. apply divide_mod_eq; [lia|].
  apply (Z.divide_trans _ n); [assumption|]. apply mod_eq_divide; [lia|].
  rewrite E, Z.mod_1_l; lia.
Qed.

(** The factored part divides [r - 1] for every prime divisor [r]. *)
Lemma criterion_divides r : Z.prime r -> (r | n) -> (zprod fs | r - 1).
Proof using All.
  intros Pr Dr. pose proof (Z.prime_ge_2 r Pr) as Hr2.
  assert (Ear : a ^ (n - 1) mod r = 1) by (apply mod_divisor; [lia | assumption..]).
  assert (Hra : ~ (r | a)).
  { intros [k Hk]. rewrite Hk, Zpower_mod, Z.mod_mul, Z.pow_0_l, Z.mod_0_l in Ear by lia. lia. }
  set (h := Z.gcd (n - 1) (r - 1)).
  assert (Eh : a ^ h mod r = 1).
  { apply pow_gcd_mod; [lia | lia | lia | assumption |]. now apply fermat_little. }
  destruct (Z.gcd_divide_l (n - 1) (r - 1)) as [g Hg]. fold h in Hg.
  assert (Hh : 0 < h). { pose proof (Z.gcd_nonneg (n - 1) (r - 1)) as Hh. fold h in Hh.
    destruct (Z.eq_dec h 0) as [E0|]; [rewrite E0, Z.mul_0_r in Hg; lia | lia]. }
  assert (Hg0 : 0 < g) by (apply (Z.mul_pos_cancel_r g h); lia).
  apply (Z.divide_trans _ h); [|apply Z.gcd_divide_r].
  apply (Z.gauss _ g); [rewrite <- Hg; assumption|].
  destruct (Z.eq_dec (Z.gcd (zprod fs) g) 1) as [|Hgcd]; [assumption | exfalso].
  assert (H1 : 1 < Z.gcd (zprod fs) g).
  { pose proof (Z.gcd_nonneg (zprod fs) g).
    assert (Z.gcd (zprod fs) g <> 0); [|lia]. intros [E _]%Z.gcd_eq_0. lia. }
  destruct (prime_divisor _ H1) as (q & Pq & Dq).
  assert (Dqf : In q fs).
  { apply prime_divides_zprod; [assumption..|]. eapply Z.divide_trans; [exact Dq | apply Z.gcd_divide_l]. }
  assert (Dqg : (q | g)) by (eapply Z.divide_trans; [exact Dq | apply Z.gcd_divide_r]).
  destruct Dqg as [k Hk]. pose proof (Z.prime_ge_2 q Pq).
  assert (Ek : (n - 1) / q = h * k).
  { symmetry. apply Z.div_unique_exact; [lia|]. rewrite Hg, Hk. ring. }
  assert (E1 : a ^ ((n - 1) / q) mod r = 1).
  { rewrite Ek. apply pow_1_mod; [lia | lia | nia | assumption]. }
  specialize (Hq q Dqf).
  assert (D1 : (r | a ^ ((n - 1) / q) mod n - 1)).
  { apply mod_eq_divide; [lia|]. rewrite (Z.mod_1_l r) by lia. etransitivity; [|exact E1].
    apply divide_mod_eq; [lia|]. apply (Z.divide_trans _ n); [assumption|].
    apply mod_eq_divide; [lia|]. apply Z.mod_mod. lia. }
  pose proof (Z.gcd_greatest _ _ _ D1 Dr) as D2. rewrite Hq in D2.
  apply Z.divide_pos_le in D2; lia.
Qed.

Theorem pocklington : n < zprod fs * zprod fs -> Z.prime n.
Proof using All.
  intros Hsq. apply prime_no_small_divisor; [assumption|]. intros r Pr Hr Dr.
  pose proof (criterion_divides r Pr Dr) as D. pose proof (Z.prime_ge_2 r Pr).
  apply Z.divide_pos_le in D; nia.
Qed.

End Criterion.

Lemma pocklington_check_prime n a fs :
  pocklington_check n a fs = true -> Forall Z.prime fs -> Z.prime n.
Proof.
  unfold pocklington_check. rewrite !andb_true_iff, !Z.ltb_lt, !Z.eqb_eq, forallb_forall.
  intros [[[[[Hn HF0] HF] Hsq] Ha] Hq] Hfs. rewrite Zpow_mod_correct in Ha by lia.
  apply (pocklington n a fs); try assumption.
  - apply Z.mod_divide; [lia | assumption].
  - intros q Iq. specialize (Hq q Iq). rewrite Zpow_mod_correct in Hq by lia. lia.
Qed.

(** ** The field prime *)

Lemma prime_51 : Z.prime 1919519569386763.
Proof.
  apply (pocklington_check_prime _ 2 [8574133; 127]); [vm_compute; reflexivity|].
  repeat constructor; apply small_prime_prime; vm_compute; reflexivity.
Qed.

Lemma prime_116 : Z.prime 75445702479781427272750846543864801.
Proof.
  apply (pocklington_check_prime _ 7 [1919519569386763; 75707]); [vm_compute; reflexivity|].
  constructor; [apply prime_51|].
  repeat constructor; apply small_prime_prime; vm_compute; reflexivity.
Qed.

Lemma prime_236 :
  Z.prime 74058212732561358302231226437062788676166966415465897661863160754340907.
Proof.
  apply (pocklington_check_prime _ 2 [75445702479781427272750846543864801; 353]);
    [vm_compute; reflexivity|].
  constructor; [apply prime_116|].
  repeat constructor; apply small_prime_prime; vm_compute; reflexivity.
Qed.

Lemma prime_25519 : Z.prime (2 ^ 255 - 19).
Proof.
  apply (pocklington_check_prime _ 2
    [74058212732561358302231226437062788676166966415465897661863160754340907]).
  - vm_compute. reflexivity.
  - constructor; [apply prime_236 | constructor].
Qed.
