(* ===== verification/Ge.v ===== *)
(** * Points of the curve (crypto-ops.c, [ge_*])

    The five representations of a point and the operations on them. The
    theorems relate each representation to an affine point [(x, y)] of the
    twisted Edwards curve [- x^2 + y^2 = 1 + d x^2 y^2]: every operation of the
    code computes the coordinates the addition law prescribes, whatever
    multiple of them the representation holds, and keeps the limbs within the
    bounds the field operations need. *)

From Stdlib Require Import ZArith Lia.
From stdpp Require Import base tactics list.
From S2P Require Import Prelude Radix Fe FeBytes FePow.
Open Scope Z_scope.

(** ** Data (crypto-ops.h) *)

Record ge_p2 := GeP2 { p2_X : fe; p2_Y : fe; p2_Z : fe }.
Record ge_p3 := GeP3 { p3_X : fe; p3_Y : fe; p3_Z : fe; p3_T : fe }.
Record ge_p1p1 := GeP1P1 { p1_X : fe; p1_Y : fe; p1_Z : fe; p1_T : fe }.
Record ge_precomp := GePrecomp { pre_yplusx : fe; pre_yminusx : fe; pre_xy2d : fe }.
Record ge_cached := GeCached { ca_YplusX : fe; ca_YminusX : fe; ca_Z : fe; ca_T2d : fe }.

(** ** Constants (crypto-ops-data.c) *)

Definition fe_d : fe := Fe (-10913610) 13857413 (-15372611) 6949391 114729 (-8787816) (-6275908) (-3247719) (-18696448) (-12055116).
Definition fe_sqrtm1 : fe := Fe (-32595792) (-7943725) 9377950 3500415 12389472 (-272473) (-25146209) (-2005654) 326686 11406482.
Definition fe_d2 : fe := Fe (-21827239) (-5839606) (-30745221) 13898782 229458 15978800 (-12551817) (-6495438) 29715968 9444199.
Definition fe_ma2 : fe := Fe (-12721188) (-3529) 0 0 0 0 0 0 0 0.
Definition fe_ma : fe := Fe (-486662) 0 0 0 0 0 0 0 0 0.
Definition fe_fffb1 : fe := Fe (-31702527) (-2466483) (-26106795) (-12203692) (-12169197) (-321052) 14850977 (-10296299) (-16929438) (-407568).
Definition fe_fffb2 : fe := Fe 8166131 (-6741800) (-17040804) 3154616 21461005 1466302 (-30876704) (-6368709) 10503587 (-13363080).
Definition fe_fffb3 : fe := Fe (-13620103) 14639558 4532995 7679154 16815101 (-15883539) (-22863840) (-14813421) 13716513 (-6477756).
Definition fe_fffb4 : fe := Fe (-21786234) (-12173074) 21573800 4524538 (-4645904) 16204591 8012863 (-8444712) 3212926 6885324.
Definition ge_p3_identity : ge_p3 := GeP3 fe_0 (Fe 1 0 0 0 0 0 0 0 0 0) (Fe 1 0 0 0 0 0 0 0 0 0) fe_0.

(** ** Operations *)

(** [r = p + q] *)
Definition ge_add (p : ge_p3) (q : ge_cached) : ge_p1p1 :=
  let rX := fe_add (p3_Y p) (p3_X p) in
  let rY := fe_sub (p3_Y p) (p3_X p) in
  let rZ := fe_mul rX (ca_YplusX q) in
  let rY := fe_mul rY (ca_YminusX q) in
  let rT := fe_mul (ca_T2d q) (p3_T p) in
  let rX := fe_mul (p3_Z p) (ca_Z q) in
  let t0 := fe_add rX rX in
  let rX := fe_sub rZ rY in
  let rY := fe_add rZ rY in
  let rZ := fe_add t0 rT in
  let rT := fe_sub t0 rT in
  GeP1P1 rX rY rZ rT.

(** [r = p - q] *)
Definition ge_sub (p : ge_p3) (q : ge_cached) : ge_p1p1 :=
  let rX := fe_add (p3_Y p) (p3_X p) in
  let rY := fe_sub (p3_Y p) (p3_X p) in
  let rZ := fe_mul rX (ca_YminusX q) in
  let rY := fe_mul rY (ca_YplusX q) in
  let rT := fe_mul (ca_T2d q) (p3_T p) in
  let rX := fe_mul (p3_Z p) (ca_Z q) in
  let t0 := fe_add rX rX in
  let rX := fe_sub rZ rY in
  let rY := fe_add rZ rY in
  let rZ := fe_sub t0 rT in
  let rT := fe_add t0 rT in
  GeP1P1 rX rY rZ rT.

(** [r = p + q] and [r = p - q], [q] a table entry *)
Definition ge_madd (p : ge_p3) (q : ge_precomp) : ge_p1p1 :=
  let rX := fe_add (p3_Y p) (p3_X p) in
  let rY := fe_sub (p3_Y p) (p3_X p) in
  let rZ := fe_mul rX (pre_yplusx q) in
  let rY := fe_mul rY (pre_yminusx q) in
  let rT := fe_mul (pre_xy2d q) (p3_T p) in
  let t0 := fe_add (p3_Z p) (p3_Z p) in
  let rX := fe_sub rZ rY in
  let rY := fe_add rZ rY in
  let rZ := fe_add t0 rT in
  let rT := fe_sub t0 rT in
  GeP1P1 rX rY rZ rT.

Definition ge_msub (p : ge_p3) (q : ge_precomp) : ge_p1p1 :=
  let rX := fe_add (p3_Y p) (p3_X p) in
  let rY := fe_sub (p3_Y p) (p3_X p) in
  let rZ := fe_mul rX (pre_yminusx q) in
  let rY := fe_mul rY (pre_yplusx q) in
  let rT := fe_mul (pre_xy2d q) (p3_T p) in
  let t0 := fe_add (p3_Z p) (p3_Z p) in
  let rX := fe_sub rZ rY in
  let rY := fe_add rZ rY in
  let rZ := fe_sub t0 rT in
  let rT := fe_add t0 rT in
  GeP1P1 rX rY rZ rT.

(** Conversions *)
Definition ge_p1p1_to_p2 (p : ge_p1p1) : ge_p2 :=
  let rX := fe_mul (p1_X p) (p1_T p) in
  let rY := fe_mul (p1_Y p) (p1_Z p) in
  let rZ := fe_mul (p1_Z p) (p1_T p) in
  GeP2 rX rY rZ.

Definition ge_p1p1_to_p3 (p : ge_p1p1) : ge_p3 :=
  let rX := fe_mul (p1_X p) (p1_T p) in
  let rY := fe_mul (p1_Y p) (p1_Z p) in
  let rZ := fe_mul (p1_Z p) (p1_T p) in
  let rT := fe_mul (p1_X p) (p1_Y p) in
  GeP3 rX rY rZ rT.

Definition ge_p3_to_cached (p : ge_p3) : ge_cached :=
  let rYplusX := fe_add (p3_Y p) (p3_X p) in
  let rYminusX := fe_sub (p3_Y p) (p3_X p) in
  let rZ := fe_copy (p3_Z p) in
  let rT2d := fe_mul (p3_T p) fe_d2 in
  GeCached rYplusX rYminusX rZ rT2d.

Definition ge_p3_to_p2 (p : ge_p3) : ge_p2 :=
  GeP2 (fe_copy (p3_X p)) (fe_copy (p3_Y p)) (fe_copy (p3_Z p)).

(** Neutral elements *)
Definition ge_p2_0 : ge_p2 := GeP2 fe_0 fe_1 fe_1.
Definition ge_p3_0 : ge_p3 := GeP3 fe_0 fe_1 fe_1 fe_0.
Definition ge_precomp_0 : ge_precomp := GePrecomp fe_1 fe_1 fe_0.
Definition ge_cached_0 : ge_cached := GeCached fe_1 fe_1 fe_1 fe_0.

(** [r = 2 * p] *)
Definition ge_p2_dbl (p : ge_p2) : ge_p1p1 :=
  let rX := fe_sq (p2_X p) in
  let rZ := fe_sq (p2_Y p) in
  let rT := fe_sq2 (p2_Z p) in
  let rY := fe_add (p2_X p) (p2_Y p) in
  let t0 := fe_sq rY in
  let rY := fe_add rZ rX in
  let rZ := fe_sub rZ rX in
  let rX := fe_sub t0 rY in
  let rT := fe_sub rT rZ in
  GeP1P1 rX rY rZ rT.

Definition ge_p3_dbl (p : ge_p3) : ge_p1p1 := ge_p2_dbl (ge_p3_to_p2 p).

Definition ge_mul8 (t : ge_p2) : ge_p1p1 :=
  let r := ge_p2_dbl t in
  let u := ge_p1p1_to_p2 r in
  let r := ge_p2_dbl u in
  let u := ge_p1p1_to_p2 r in
  ge_p2_dbl u.

(** [s[31] ^= fe_isnegative(x) << 7] *)
Definition xor_sign (s : list Z) (n : Z) : list Z :=
  <[31%nat := u8 (Z.lxor (nth 31 s 0) (Z.shiftl n 7))]> s.

Definition ge_tobytes (h : ge_p2) : list Z :=
  let recip := fe_invert (p2_Z h) in
  let x := fe_mul (p2_X h) recip in
  let y := fe_mul (p2_Y h) recip in
  let s := fe_tobytes y in
  xor_sign s (fe_isnegative x).

Definition ge_p3_tobytes (h : ge_p3) : list Z :=
  let recip := fe_invert (p3_Z h) in
  let x := fe_mul (p3_X h) recip in
  let y := fe_mul (p3_Y h) recip in
  let s := fe_tobytes y in
  xor_sign s (fe_isnegative x).

(** The end of [ge_frombytes_vartime]: the sign of [x], with [top] the bit
    [s[31] >> 7], and the product [T]. [None] is the return value -1; the point
    is then not used. *)
Definition ge_frombytes_sign (hX hY hZ : fe) (top : Z) : option ge_p3 :=
  if negb (fe_isnegative hX =? top) then
    if fe_isnonzero hX =? 0 then None
    else
      let hX := fe_neg hX in
      Some (GeP3 hX hY hZ (fe_mul hX hY))
  else Some (GeP3 hX hY hZ (fe_mul hX hY)).

Definition ge_frombytes_vartime (s : list Z) : option ge_p3 :=
  if fe_noncanonical (fe_frombytes_255 s) then None else
  let hY := fe_frombytes_carry (fe_frombytes_255 s) in
  let hZ := fe_1 in
  let u := fe_sq hY in
  let v := fe_mul u fe_d in
  let u := fe_sub u hZ in
  let v := fe_add v hZ in
  let hX := fe_divpowm1 u v in
  let vxx := fe_sq hX in
  let vxx := fe_mul vxx v in
  let check := fe_sub vxx u in
  let top := Z.shiftr (nth 31 s 0) 7 in
  if negb (fe_isnonzero check =? 0) then
    let check := fe_add vxx u in
    if negb (fe_isnonzero check =? 0) then None
    else
      let hX := fe_mul hX fe_sqrtm1 in
      ge_frombytes_sign hX hY hZ top
  else ge_frombytes_sign hX hY hZ top.

(** The map from field elements to points. [None] is a failed [assert]; the
    checks are the ones of a build without [NDEBUG]. *)
Definition ge_fromfe_check (r : ge_p2) : bool :=
  let check_iz := fe_invert (p2_Z r) in
  let check_x := fe_mul (p2_X r) check_iz in
  let check_y := fe_mul (p2_Y r) check_iz in
  let check_x := fe_sq check_x in
  let check_y := fe_sq check_y in
  let check_v := fe_mul check_x check_y in
  let check_v := fe_mul fe_d check_v in
  let check_v := fe_add check_v check_x in
  let check_v := fe_sub check_v check_y in
  let check_x := fe_1 in
  let check_v := fe_add check_v check_x in
  fe_isnonzero check_v =? 0.

Definition ge_fromfe_setsign (rX z w : fe) (sign : Z) : option ge_p2 :=
  let finish (rX : fe) :=
    let rZ := fe_add z w in
    let rY := fe_sub z w in
    let rX := fe_mul rX rZ in
    let r := GeP2 rX rY rZ in
    if ge_fromfe_check r then Some r else None in
  if fe_isnegative rX =? sign then finish rX
  else if fe_isnonzero rX =? 0 then None
  else finish (fe_neg rX).

Definition ge_fromfe_frombytes_vartime (s : list Z) : option ge_p2 :=
  let u := fe_frombytes_carry (fe_frombytes_256 s) in
  let v := fe_sq2 u in
  let w := fe_1 in
  let w := fe_add v w in
  let x := fe_sq w in
  let y := fe_mul fe_ma2 v in
  let x := fe_add x y in
  let rX := fe_divpowm1 w x in
  let y := fe_sq rX in
  let x := fe_mul y x in
  let y := fe_sub w x in
  let z := fe_copy fe_ma in
  let positive (rX : fe) :=
    let rX := fe_mul rX u in
    let z := fe_mul z v in
    ge_fromfe_setsign rX z w 0 in
  if fe_isnonzero y =? 0 then positive (fe_mul rX fe_fffb2)
  else
    let y := fe_add w x in
    if fe_isnonzero y =? 0 then positive (fe_mul rX fe_fffb1)
    else
      let x := fe_mul x fe_sqrtm1 in
      let y := fe_sub w x in
      if fe_isnonzero y =? 0 then ge_fromfe_setsign (fe_mul rX fe_fffb4) z w 1
      else if fe_isnonzero (fe_add w x) =? 0 then ge_fromfe_setsign (fe_mul rX fe_fffb3) z w 1
      else None.

(** ** The constants *)

(** [d = -121665/121666], its double, and a square root of -1. *)
Definition ed_d : Z := fe_val fe_d mod fe_p.

Lemma fe_d_val : fe_val fe_d ≡ₚ ed_d.
Proof. reflexivity. Qed.
Lemma ed_d_def : ed_d * 121666 ≡ₚ - 121665.
Proof. reflexivity. Qed.
Lemma fe_d2_val : fe_val fe_d2 ≡ₚ 2 * ed_d.
Proof. reflexivity. Qed.
Lemma fe_sqrtm1_sq : fe_val fe_sqrtm1 * fe_val fe_sqrtm1 ≡ₚ - 1.
Proof. reflexivity. Qed.
Lemma fe_ma_val : fe_val fe_ma = - 486662.
Proof. reflexivity. Qed.
Lemma fe_ma2_val : fe_val fe_ma2 = - 486662 * 486662.
Proof. reflexivity. Qed.

Ltac const_small := apply fe_bounded_check; reflexivity.
Lemma fe_d_small : fe_small fe_d. Proof. const_small. Qed.
Lemma fe_d2_small : fe_small fe_d2. Proof. const_small. Qed.
Lemma fe_sqrtm1_small : fe_small fe_sqrtm1. Proof. const_small. Qed.
Lemma fe_ma_small : fe_small fe_ma. Proof. const_small. Qed.
Lemma fe_ma2_small : fe_small fe_ma2. Proof. const_small. Qed.
Lemma fe_fffb1_small : fe_small fe_fffb1. Proof. const_small. Qed.
Lemma fe_fffb2_small : fe_small fe_fffb2. Proof. const_small. Qed.
Lemma fe_fffb3_small : fe_small fe_fffb3. Proof. const_small. Qed.
Lemma fe_fffb4_small : fe_small fe_fffb4. Proof. const_small. Qed.
#[export] Hint Resolve fe_d_small fe_d2_small fe_sqrtm1_small fe_ma_small fe_ma2_small
  fe_fffb1_small fe_fffb2_small fe_fffb3_small fe_fffb4_small : fe.

(** ** Affine points *)

(** Units modulo the prime; what the proofs need of "nonzero". *)
Definition unit_p (z : Z) : Prop := exists i, z * i ≡ₚ 1.

Lemma unit_1 : unit_p 1.
Proof. exists 1. reflexivity. Qed.
Lemma unit_mul a b : unit_p a -> unit_p b -> unit_p (a * b).
Proof.
  intros [i Hi] [j Hj]. exists (i * j).
  replace (a * b * (i * j)) with (a * i * (b * j)) by ring. rewrite Hi, Hj. reflexivity.
Qed.
#[export] Instance unit_proper : Proper (eqp ==> iff) unit_p.
Proof. intros a b E. split; intros [i Hi]; exists i; [rewrite <- E | rewrite E]; exact Hi. Qed.
Lemma unit_cancel a b z : unit_p z -> a * z ≡ₚ b * z -> a ≡ₚ b.
Proof.
  intros [i Hi] E. rewrite <- (Z.mul_1_r a), <- (Z.mul_1_r b), <- Hi, !Z.mul_assoc, E. reflexivity.
Qed.
#[export] Hint Resolve unit_1 unit_mul : fe.

Definition ed_curve (x y : Z) : Prop := - (x * x) + y * y ≡ₚ 1 + ed_d * (x * x) * (y * y).

(** [(x3, y3)] is the sum of [(x1, y1)] and [(x2, y2)]. *)
Record ed_sum (x1 y1 x2 y2 x3 y3 : Z) : Prop := {
  ed_x : x3 * (1 + ed_d * (x1 * x2 * y1 * y2)) ≡ₚ x1 * y2 + y1 * x2;
  ed_y : y3 * (1 - ed_d * (x1 * x2 * y1 * y2)) ≡ₚ y1 * y2 + x1 * x2;
  ed_ux : unit_p (1 + ed_d * (x1 * x2 * y1 * y2));
  ed_uy : unit_p (1 - ed_d * (x1 * x2 * y1 * y2)) }.

(** ** Representations *)

(** [Y] and [Z] may be unreduced sums, as [ge_fromfe_frombytes_vartime] leaves
    them. *)
Definition p2_ok (p : ge_p2) : Prop := fe_small (p2_X p) /\ fe_loose (p2_Y p) /\ fe_loose (p2_Z p).
Definition p3_ok (p : ge_p3) : Prop :=
  fe_small (p3_X p) /\ fe_small (p3_Y p) /\ fe_small (p3_Z p) /\ fe_small (p3_T p).
Definition p1_ok (p : ge_p1p1) : Prop :=
  fe_wide (p1_X p) /\ fe_wide (p1_Y p) /\ fe_wide (p1_Z p) /\ fe_wide (p1_T p).
Definition pre_ok (q : ge_precomp) : Prop :=
  fe_small (pre_yplusx q) /\ fe_small (pre_yminusx q) /\ fe_small (pre_xy2d q).
Definition ca_ok (q : ge_cached) : Prop :=
  fe_loose (ca_YplusX q) /\ fe_loose (ca_YminusX q) /\ fe_small (ca_Z q) /\ fe_small (ca_T2d q).

(** The point a representation stands for: [x = X/Z], [y = Y/Z] and so on. *)
Definition p2_rep (p : ge_p2) (x y : Z) : Prop :=
  p2_ok p /\ unit_p (fe_val (p2_Z p)) /\
  fe_val (p2_X p) ≡ₚ x * fe_val (p2_Z p) /\ fe_val (p2_Y p) ≡ₚ y * fe_val (p2_Z p).
Definition p3_rep (p : ge_p3) (x y : Z) : Prop :=
  p3_ok p /\ unit_p (fe_val (p3_Z p)) /\
  fe_val (p3_X p) ≡ₚ x * fe_val (p3_Z p) /\ fe_val (p3_Y p) ≡ₚ y * fe_val (p3_Z p) /\
  fe_val (p3_T p) ≡ₚ x * y * fe_val (p3_Z p).
Definition p1_rep (p : ge_p1p1) (x y : Z) : Prop :=
  p1_ok p /\ unit_p (fe_val (p1_Z p)) /\ unit_p (fe_val (p1_T p)) /\
  fe_val (p1_X p) ≡ₚ x * fe_val (p1_Z p) /\ fe_val (p1_Y p) ≡ₚ y * fe_val (p1_T p).
Definition pre_rep (q : ge_precomp) (x y : Z) : Prop :=
  pre_ok q /\ fe_val (pre_yplusx q) ≡ₚ y + x /\ fe_val (pre_yminusx q) ≡ₚ y - x /\
  fe_val (pre_xy2d q) ≡ₚ 2 * ed_d * (x * y).
Definition ca_rep (q : ge_cached) (x y : Z) : Prop :=
  ca_ok q /\ unit_p (fe_val (ca_Z q)) /\
  fe_val (ca_YplusX q) ≡ₚ (y + x) * fe_val (ca_Z q) /\
  fe_val (ca_YminusX q) ≡ₚ (y - x) * fe_val (ca_Z q) /\
  fe_val (ca_T2d q) ≡ₚ 2 * ed_d * (x * y) * fe_val (ca_Z q).

(** The four coordinates of a sum, up to a common factor [m]. *)
Definition p1_sum (m : Z) (r : ge_p1p1) (x1 y1 x2 y2 : Z) : Prop :=
  fe_val (p1_X r) ≡ₚ m * (x1 * y2 + y1 * x2) /\
  fe_val (p1_Y r) ≡ₚ m * (y1 * y2 + x1 * x2) /\
  fe_val (p1_Z r) ≡ₚ m * (1 + ed_d * (x1 * x2 * y1 * y2)) /\
  fe_val (p1_T r) ≡ₚ m * (1 - ed_d * (x1 * x2 * y1 * y2)).

Lemma p1_sum_rep m r x1 y1 x2 y2 x3 y3 :
  p1_ok r -> unit_p m -> p1_sum m r x1 y1 x2 y2 -> ed_sum x1 y1 x2 y2 x3 y3 -> p1_rep r x3 y3.
Proof.
  intros Hr Hm (EX & EY & EZ & ET) [Hx Hy Ux Uy].
  split; [done|]. rewrite EX, EY, EZ, ET, <- Hx, <- Hy.
  split; [auto with fe|]. split; [auto with fe|]. split; apply eqp_eq; ring.
Qed.

Lemma unit_2 : unit_p 2.
Proof. exists ((fe_p + 1) / 2). reflexivity. Qed.
#[export] Hint Resolve unit_2 : fe.

(** Replaces the coordinates of a point by multiples of its [Z]. *)
Ltac coords := repeat match goal with H : fe_val _ ≡ₚ _ |- _ => rewrite H; clear H end.

Lemma ge_add_sum p q x1 y1 x2 y2 : p3_rep p x1 y1 -> ca_rep q x2 y2 ->
  p1_ok (ge_add p q) /\
  p1_sum (2 * fe_val (p3_Z p) * fe_val (ca_Z q)) (ge_add p q) x1 y1 x2 y2.
Proof.
  intros ((?&?&?&?) & U1 & EX & EY & ET) ((?&?&?&?) & U2 & EP & EM & E2).
  destruct p as [X Y Z T], q as [P M W D]. unfold ge_add, p1_ok, p1_sum.
  cbn [p3_X p3_Y p3_Z p3_T ca_YplusX ca_YminusX ca_Z ca_T2d p1_X p1_Y p1_Z p1_T] in *. cbv zeta.
  split; split_and!; [fe_bound..| | | |];
    fe_values; rewrite ?EX, ?EY, ?ET, ?EP, ?EM, ?E2; eqp_ring.

Qed.

Lemma ge_sub_sum p q x1 y1 x2 y2 : p3_rep p x1 y1 -> ca_rep q x2 y2 ->
  p1_ok (ge_sub p q) /\
  p1_sum (2 * fe_val (p3_Z p) * fe_val (ca_Z q)) (ge_sub p q) x1 y1 (- x2) y2.
Proof.
  intros ((?&?&?&?) & U1 & EX & EY & ET) ((?&?&?&?) & U2 & EP & EM & E2).
  destruct p as [X Y Z T], q as [P M W D]. unfold ge_sub, p1_ok, p1_sum.
  cbn [p3_X p3_Y p3_Z p3_T ca_YplusX ca_YminusX ca_Z ca_T2d p1_X p1_Y p1_Z p1_T] in *. cbv zeta.
  split; split_and!; [fe_bound..| | | |];
    fe_values; rewrite ?EX, ?EY, ?ET, ?EP, ?EM, ?E2; eqp_ring.
Qed.

Lemma ge_madd_sum p q x1 y1 x2 y2 : p3_rep p x1 y1 -> pre_rep q x2 y2 ->
  p1_ok (ge_madd p q) /\ p1_sum (2 * fe_val (p3_Z p)) (ge_madd p q) x1 y1 x2 y2.
Proof.
  intros ((?&?&?&?) & U1 & EX & EY & ET) ((?&?&?) & EP & EM & E2).
  destruct p as [X Y Z T], q as [P M D]. unfold ge_madd, p1_ok, p1_sum.
  cbn [p3_X p3_Y p3_Z p3_T pre_yplusx pre_yminusx pre_xy2d p1_X p1_Y p1_Z p1_T] in *. cbv zeta.
  split; split_and!; [fe_bound..| | | |];
    fe_values; rewrite ?EX, ?EY, ?ET, ?EP, ?EM, ?E2; eqp_ring.
Qed.

Lemma ge_msub_sum p q x1 y1 x2 y2 : p3_rep p x1 y1 -> pre_rep q x2 y2 ->
  p1_ok (ge_msub p q) /\ p1_sum (2 * fe_val (p3_Z p)) (ge_msub p q) x1 y1 (- x2) y2.
Proof.
  intros ((?&?&?&?) & U1 & EX & EY & ET) ((?&?&?) & EP & EM & E2).
  destruct p as [X Y Z T], q as [P M D]. unfold ge_msub, p1_ok, p1_sum.
  cbn [p3_X p3_Y p3_Z p3_T pre_yplusx pre_yminusx pre_xy2d p1_X p1_Y p1_Z p1_T] in *. cbv zeta.
  split; split_and!; [fe_bound..| | | |];
    fe_values; rewrite ?EX, ?EY, ?ET, ?EP, ?EM, ?E2; eqp_ring.
Qed.

(** Doubling uses the equation of the curve. *)
Lemma ge_p2_dbl_sum p x y : p2_rep p x y -> ed_curve x y ->
  p1_ok (ge_p2_dbl p) /\ p1_sum (fe_val (p2_Z p) * fe_val (p2_Z p)) (ge_p2_dbl p) x y x y.
Proof.
  intros ((?&?&?) & U & EX & EY) C. destruct p as [X Y Z]. unfold ge_p2_dbl, p1_ok, p1_sum.
  cbn [p2_X p2_Y p2_Z p1_X p1_Y p1_Z p1_T] in *. cbv zeta.
  replace (1 + ed_d * (x * x * y * y)) with (1 + ed_d * (x * x) * (y * y)) by ring.
  replace (1 - ed_d * (x * x * y * y)) with (2 - (1 + ed_d * (x * x) * (y * y))) by ring.
  unfold ed_curve in C. rewrite <- C.
  split; split_and!; [fe_bound..| | | |]; fe_values; rewrite ?EX, ?EY; eqp_ring.
Qed.

(** ** The operations on points *)

Lemma ge_add_rep p q x1 y1 x2 y2 x3 y3 :
  p3_rep p x1 y1 -> ca_rep q x2 y2 -> ed_sum x1 y1 x2 y2 x3 y3 -> p1_rep (ge_add p q) x3 y3.
Proof.
  intros Hp Hq Hs. destruct (ge_add_sum _ _ _ _ _ _ Hp Hq).
  eapply p1_sum_rep; [done | | done..]. destruct Hp as (_ & ? & _), Hq as (_ & ? & _). auto with fe.
Qed.

Lemma ge_sub_rep p q x1 y1 x2 y2 x3 y3 :
  p3_rep p x1 y1 -> ca_rep q x2 y2 -> ed_sum x1 y1 (- x2) y2 x3 y3 -> p1_rep (ge_sub p q) x3 y3.
Proof.
  intros Hp Hq Hs. destruct (ge_sub_sum _ _ _ _ _ _ Hp Hq).
  eapply p1_sum_rep; [done | | done..]. destruct Hp as (_ & ? & _), Hq as (_ & ? & _). auto with fe.
Qed.

Lemma ge_madd_rep p q x1 y1 x2 y2 x3 y3 :
  p3_rep p x1 y1 -> pre_rep q x2 y2 -> ed_sum x1 y1 x2 y2 x3 y3 -> p1_rep (ge_madd p q) x3 y3.
Proof.
  intros Hp Hq Hs. destruct (ge_madd_sum _ _ _ _ _ _ Hp Hq).
  eapply p1_sum_rep; [done | | done..]. destruct Hp as (_ & ? & _). auto with fe.
Qed.

Lemma ge_msub_rep p q x1 y1 x2 y2 x3 y3 :
  p3_rep p x1 y1 -> pre_rep q x2 y2 -> ed_sum x1 y1 (- x2) y2 x3 y3 -> p1_rep (ge_msub p q) x3 y3.
Proof.
  intros Hp Hq Hs. destruct (ge_msub_sum _ _ _ _ _ _ Hp Hq).
  eapply p1_sum_rep; [done | | done..]. destruct Hp as (_ & ? & _). auto with fe.
Qed.

Lemma ge_p2_dbl_rep p x y x3 y3 :
  p2_rep p x y -> ed_curve x y -> ed_sum x y x y x3 y3 -> p1_rep (ge_p2_dbl p) x3 y3.
Proof.
  intros Hp Hc Hs. destruct (ge_p2_dbl_sum _ _ _ Hp Hc).
  eapply p1_sum_rep; [done | | done..]. destruct Hp as (_ & ? & _). auto with fe.
Qed.

Lemma ge_p1p1_to_p2_rep r x y : p1_rep r x y -> p2_rep (ge_p1p1_to_p2 r) x y.
Proof.
  intros ((?&?&?&?) & UZ & UT & EX & EY). destruct r as [X Y Z T].
  unfold ge_p1p1_to_p2, p2_rep, p2_ok. cbn [p1_X p1_Y p1_Z p1_T p2_X p2_Y p2_Z] in *. cbv zeta.
  split_and!; [fe_bound.. | | |]; fe_values; rewrite ?EX, ?EY; [auto with fe | eqp_ring..].
Qed.

Lemma ge_p1p1_to_p3_rep r x y : p1_rep r x y -> p3_rep (ge_p1p1_to_p3 r) x y.
Proof.
  intros ((?&?&?&?) & UZ & UT & EX & EY). destruct r as [X Y Z T].
  unfold ge_p1p1_to_p3, p3_rep, p3_ok.
  cbn [p1_X p1_Y p1_Z p1_T p3_X p3_Y p3_Z p3_T] in *. cbv zeta.
  split_and!; [fe_bound.. | | | |]; fe_values; rewrite ?EX, ?EY; [auto with fe | eqp_ring..].
Qed.

Lemma ge_p3_to_cached_rep p x y : p3_rep p x y -> ca_rep (ge_p3_to_cached p) x y.
Proof.
  intros ((?&?&?&?) & U & EX & EY & ET). destruct p as [X Y Z T].
  unfold ge_p3_to_cached, ca_rep, ca_ok.
  cbn [p3_X p3_Y p3_Z p3_T ca_YplusX ca_YminusX ca_Z ca_T2d] in *. cbv zeta. rewrite fe_copy_eq.
  split_and!; [fe_bound.. | done | | |]; fe_values; rewrite ?EX, ?EY, ?ET, ?fe_d2_val; eqp_ring.
Qed.

Lemma ge_p3_to_p2_rep p x y : p3_rep p x y -> p2_rep (ge_p3_to_p2 p) x y.
Proof.
  intros ((?&?&?&?) & U & EX & EY & ET). unfold ge_p3_to_p2, p2_rep, p2_ok.
  cbn [p2_X p2_Y p2_Z]. rewrite !fe_copy_eq. split; [split_and!; fe_bound | auto].
Qed.

Lemma ge_p3_dbl_rep p x y x3 y3 :
  p3_rep p x y -> ed_curve x y -> ed_sum x y x y x3 y3 -> p1_rep (ge_p3_dbl p) x3 y3.
Proof. intros Hp. apply ge_p2_dbl_rep, ge_p3_to_p2_rep, Hp. Qed.

Lemma ge_p2_0_rep : p2_rep ge_p2_0 0 1.
Proof. split; [split_and!; fe_bound|]. split; [exact unit_1 | split; reflexivity]. Qed.
Lemma ge_p3_0_rep : p3_rep ge_p3_0 0 1.
Proof.
  split; [split_and!; fe_bound|]. split; [exact unit_1 | split_and!; reflexivity].
Qed.
Lemma ge_precomp_0_rep : pre_rep ge_precomp_0 0 1.
Proof. split; [split_and!; fe_bound|]. split_and!; reflexivity. Qed.
Lemma ge_cached_0_rep : ca_rep ge_cached_0 0 1.
Proof.
  split; [split_and!; fe_bound|]. split; [exact unit_1 | split_and!; reflexivity].
Qed.
