(* ===== verification/Curve.v ===== *)
(** * The group law of the curve

    [2^255 - 19] is prime, so residues are units unless they are 0, [d] is not
    a square, and the addition law of the curve has no exceptions: [ed_add] is
    total on the points of the curve and stays on it. With this the theorems of
    Ge.v about sums become theorems about [ed_add]. *)

From Stdlib Require Import ZArith Lia.
From stdpp Require Import base tactics list.
From S2P Require Import Prelude Radix Fe FeBytes FePow Pocklington Ge.
Open Scope Z_scope.

(** ** The field *)

Lemma fe_p_prime : Z.prime fe_p.
Proof. exact prime_25519. Qed.

#[export] Instance eqp_dec : RelDecision eqp.
Proof. intros a b. unfold eqp. apply _. Defined.

Definition zero_p (z : Z) : Prop := z ≡ₚ 0.
#[export] Instance zero_dec z : Decision (zero_p z).
Proof. unfold zero_p. apply _. Defined.

Lemma zero_divide z : zero_p z <-> (fe_p | z).
Proof.
  unfold zero_p, eqp. change (0 mod fe_p) with 0. rewrite Z.mod_divide by done. done.
Qed.

Definition fe_inv (z : Z) : Z := z ^ (fe_p - 2).

Lemma fe_inv_r z : ~ zero_p z -> z * fe_inv z ≡ₚ 1.
Proof.
  intros Hz. unfold fe_inv. rewrite <- Z.pow_succ_r by done.
  change (Z.succ (fe_p - 2)) with (fe_p - 1). unfold eqp. change (1 mod fe_p) with 1.
  apply fermat_little; [exact fe_p_prime | by rewrite <- zero_divide].
Qed.

Lemma unit_nonzero z : unit_p z <-> ~ zero_p z.
Proof.
  split.
  - intros [i Hi] Hz. unfold zero_p in Hz. rewrite Hz in Hi. discriminate Hi.
  - intros Hz. exists (fe_inv z). apply fe_inv_r, Hz.
Qed.

(** Two inverses agree. *)
Lemma fe_inv_unit z : unit_p z -> z * fe_inv z ≡ₚ 1.
Proof. intros Hz. apply fe_inv_r, unit_nonzero, Hz. Qed.

Lemma zero_mul a b : zero_p (a * b) -> zero_p a \/ zero_p b.
Proof. rewrite !zero_divide. apply Z.divide_prime_mul, fe_p_prime. Qed.

Lemma unit_mul_l a b : unit_p (a * b) -> unit_p a.
Proof. intros [i Hi]. exists (b * i). rewrite Z.mul_assoc. exact Hi. Qed.

(** ** [d] is not a square *)

(** Reduction by [2^255 = 19], cheaper than a division. *)
Definition fold_p (x : Z) : Z := Z.land x (Z.ones 255) + 19 * Z.shiftr x 255.

Lemma fold_p_eq x : fold_p x ≡ₚ x.
Proof.
  unfold fold_p. rewrite Z.land_ones, Z.shiftr_div_pow2 by done.
  apply (eqp_add_p _ _ (- (x / 2 ^ 255))). pose proof (Z.div_mod x (2 ^ 255)). unfold fe_p. lia.
Qed.

Fixpoint sqn_p (n : nat) (x : Z) : Z :=
  match n with
  | O => x
  | S n => sqn_p n (fold_p (fold_p (x * x)))
  end.

Lemma sqn_p_eq n x : sqn_p n x ≡ₚ x ^ (2 ^ Z.of_nat n).
Proof.
  revert x. induction n as [|n IH]; intros x; [rewrite Z.pow_1_r; reflexivity|].
  cbn [sqn_p]. rewrite IH, Nat2Z.inj_succ, Z.pow_succ_r, Z.pow_mul_r by lia.
  apply eqp_pow. rewrite !fold_p_eq, Z.pow_2_r. reflexivity.
Qed.

(** [a = 121665 * 121666] is [- d] times a square. *)
Lemma euler_check : sqn_p 254 (121665 * 121666) ≡ₚ - (121665 * 121666) ^ 10.
Proof. vm_compute. reflexivity. Qed.

Lemma square_order v : ~ zero_p v -> v ^ (2 ^ 255) ≡ₚ v ^ 20.
Proof.
  intros Hv. change (2 ^ 255) with (fe_p - 1 + 20). rewrite Z.pow_add_r by done.
  assert (E : v ^ (fe_p - 1) ≡ₚ 1).
  { apply fermat_little; [exact fe_p_prime | by rewrite <- zero_divide]. }
  rewrite E, Z.mul_1_l. reflexivity.
Qed.

(** What Euler's criterion says of a square. *)
Lemma square_pow a v : v * v ≡ₚ a -> ~ zero_p v -> a ^ (2 ^ Z.of_nat 254) ≡ₚ a ^ 10.
Proof.
  intros Ev Hv.
  transitivity ((v * v) ^ (2 ^ Z.of_nat 254)); [apply eqp_pow; symmetry; exact Ev|].
  transitivity ((v * v) ^ 10); [|apply eqp_pow; exact Ev].
  rewrite <- Z.pow_2_r, <- !Z.pow_mul_r by done. exact (square_order v Hv).
Qed.

Lemma ed_d_nonsquare s : ~ ed_d ≡ₚ s * s.
Proof.
  intros E. set (i := fe_val fe_sqrtm1). set (v := i * s * 121666). set (a := 121665 * 121666).
  assert (Ev : v * v ≡ₚ a).
  { unfold v, a. replace (i * s * 121666 * (i * s * 121666)) with (i * i * (s * s) * 121666 * 121666) by ring.
    rewrite <- E, (fe_sqrtm1_sq : i * i ≡ₚ - 1).
    replace (-1 * ed_d * 121666 * 121666) with (- (ed_d * 121666) * 121666) by ring.
    rewrite ed_d_def. reflexivity. }
  assert (Hv : ~ zero_p v).
  { intros Z0. unfold zero_p in Z0. rewrite Z0 in Ev. discriminate Ev. }
  pose proof euler_check as H. rewrite sqn_p_eq in H. fold a in H.
  rewrite (square_pow a v Ev Hv) in H. revert H. vm_compute. discriminate.
Qed.

(** ** Completeness *)

(** Adds a multiple of a known congruence; a congruence that follows from
    others is a chain of these, closed by [ring]. *)
Lemma eqp_step c a b x y : a ≡ₚ b -> x ≡ₚ y + c * (a - b) -> x ≡ₚ y.
Proof.
  intros E ->. rewrite E, Z.sub_diag, Z.mul_0_r, Z.add_0_r. reflexivity.
Qed.

(** If [k = e] with [e = 1] or [e = -1], [d] is the quotient of two squares. *)
Lemma square_of_exception i x1 y1 x2 y2 e f :
  i * i ≡ₚ - 1 -> ed_curve x1 y1 -> ed_curve x2 y2 -> e * e ≡ₚ 1 -> f * f ≡ₚ 1 ->
  ed_d * (x1 * x2 * y1 * y2) ≡ₚ e ->
  ed_d * (x1 * y1 * (i * x2 + f * y2) * (x1 * y1 * (i * x2 + f * y2)))
    ≡ₚ (i * x1 + f * e * y1) * (i * x1 + f * e * y1).
Proof.
  intros II C1 C2 EE FF K. unfold ed_curve in *. generalize dependent ed_d. intros d C1 C2 K.
  apply (eqp_step (d * (x1 * x1) * (y1 * y1) * (x2 * x2) - x1 * x1) _ _ _ _ II).
  apply (eqp_step (d * (x1 * x1) * (y1 * y1) * (y2 * y2) - e * e * (y1 * y1)) _ _ _ _ FF).
  apply (eqp_step (2 * i * f * x1 * y1) _ _ _ _ K).
  apply (eqp_step (d * (x1 * x1) * (y1 * y1)) _ _ _ _ C2).
  apply (eqp_step (- (y1 * y1)) _ _ _ _ EE).
  apply (eqp_step (- 1) _ _ _ _ C1).
  apply (eqp_step (d * (x1 * x2 * y1 * y2) + e) _ _ _ _ K).
  apply (eqp_step 1 _ _ _ _ EE). apply eqp_eq. ring.
Qed.

Lemma unit_eqp_1 e : e * e ≡ₚ 1 -> unit_p e.
Proof. intros E. exists e. exact E. Qed.

(** The products of coordinates in the addition law are never 1 or -1. *)
Lemma ed_no_exception x1 y1 x2 y2 e :
  ed_curve x1 y1 -> ed_curve x2 y2 -> e * e ≡ₚ 1 -> ~ ed_d * (x1 * x2 * y1 * y2) ≡ₚ e.
Proof.
  intros C1 C2 EE K. set (i := fe_val fe_sqrtm1). pose proof (fe_sqrtm1_sq : i * i ≡ₚ - 1) as II.
  assert (U : unit_p (ed_d * (x1 * x2 * y1 * y2))) by (rewrite K; by apply unit_eqp_1).
  assert (W : forall f, f * f ≡ₚ 1 -> zero_p (i * x2 + f * y2)).
  { intros f FF. destruct (decide (zero_p (i * x2 + f * y2))) as [|N]; [done | exfalso].
    pose proof (square_of_exception i x1 y1 x2 y2 e f II C1 C2 EE FF K) as Q.
    assert (Uw : unit_p (x1 * y1 * (i * x2 + f * y2))).
    { apply unit_mul; [|by apply unit_nonzero].
      apply (unit_mul_l _ (ed_d * x2 * y2)).
      replace (x1 * y1 * (ed_d * x2 * y2)) with (ed_d * (x1 * x2 * y1 * y2)) by ring. done. }
    destruct Uw as [j Hj]. apply (ed_d_nonsquare ((i * x1 + f * e * y1) * j)).
    replace ((i * x1 + f * e * y1) * j * ((i * x1 + f * e * y1) * j))
      with ((i * x1 + f * e * y1) * (i * x1 + f * e * y1) * (j * j)) by ring.
    rewrite <- Q. set (w := x1 * y1 * (i * x2 + f * y2)) in *.
    replace (ed_d * (w * w) * (j * j)) with (ed_d * (w * j) * (w * j)) by ring.
    rewrite Hj. apply eqp_eq. ring. }
  pose proof (W 1 ltac:(reflexivity)) as W1. pose proof (W (-1) ltac:(reflexivity)) as W2.
  unfold zero_p in *.
  assert (Y : zero_p (2 * y2)).
  { unfold zero_p. apply (eqp_step 1 _ _ _ _ W1), (eqp_step (-1) _ _ _ _ W2), eqp_eq. ring. }
  apply zero_mul in Y as [Y|Y]; [discriminate Y|].
  apply unit_nonzero in U. apply U. unfold zero_p in *. rewrite Y. apply eqp_eq. ring.
Qed.

Lemma ed_units x1 y1 x2 y2 : ed_curve x1 y1 -> ed_curve x2 y2 ->
  unit_p (1 + ed_d * (x1 * x2 * y1 * y2)) /\ unit_p (1 - ed_d * (x1 * x2 * y1 * y2)).
Proof.
  intros C1 C2. split; apply unit_nonzero; unfold zero_p; intros Hz.
  - apply (ed_no_exception x1 y1 x2 y2 (-1) C1 C2 ltac:(reflexivity)).
    apply (eqp_step 1 _ _ _ _ Hz), eqp_eq. ring.
  - apply (ed_no_exception x1 y1 x2 y2 1 C1 C2 ltac:(reflexivity)).
    apply (eqp_step (-1) _ _ _ _ Hz), eqp_eq. ring.
Qed.

(** ** The addition law *)

(** Affine points, as residues. *)
Record ed_point := EdPoint { ed_px : Z; ed_py : Z }.

Definition on_curve (P : ed_point) : Prop := ed_curve (ed_px P) (ed_py P).
Definition ed_eq (P Q : ed_point) : Prop := ed_px P ≡ₚ ed_px Q /\ ed_py P ≡ₚ ed_py Q.

Definition ed_zero : ed_point := EdPoint 0 1.
Definition ed_opp (P : ed_point) : ed_point := EdPoint (- ed_px P) (ed_py P).
Definition ed_add (P Q : ed_point) : ed_point :=
  let k := ed_d * (ed_px P * ed_px Q * ed_py P * ed_py Q) in
  EdPoint ((ed_px P * ed_py Q + ed_py P * ed_px Q) * fe_inv (1 + k))
          ((ed_py P * ed_py Q + ed_px P * ed_px Q) * fe_inv (1 - k)).

Lemma ed_add_sum P Q : on_curve P -> on_curve Q ->
  ed_sum (ed_px P) (ed_py P) (ed_px Q) (ed_py Q) (ed_px (ed_add P Q)) (ed_py (ed_add P Q)).
Proof.
  intros HP HQ. destruct (ed_units _ _ _ _ HP HQ) as [Ux Uy]. unfold ed_add. cbv zeta.
  cbn [ed_px ed_py]. split; [| | done | done].
  - pose proof (fe_inv_unit _ Ux) as E. rewrite (Z.mul_comm _ (fe_inv _)), Z.mul_comm, Z.mul_assoc, E.
    apply eqp_eq. ring.
  - pose proof (fe_inv_unit _ Uy) as E. rewrite (Z.mul_comm _ (fe_inv _)), Z.mul_comm, Z.mul_assoc, E.
    apply eqp_eq. ring.
Qed.

(** The sum is determined by [ed_sum]. *)
Lemma ed_sum_unique x1 y1 x2 y2 x3 y3 x4 y4 :
  ed_sum x1 y1 x2 y2 x3 y3 -> ed_sum x1 y1 x2 y2 x4 y4 -> x3 ≡ₚ x4 /\ y3 ≡ₚ y4.
Proof.
  intros [Hx3 Hy3 Ux Uy] [Hx4 Hy4 _ _].
  split; [apply (unit_cancel _ _ _ Ux); by rewrite Hx3, Hx4 | apply (unit_cancel _ _ _ Uy); by rewrite Hy3, Hy4].
Qed.

(** The curve is closed under addition. *)
Lemma ed_closed_poly d x1 y1 x2 y2 :
  let k := d * (x1 * x2 * y1 * y2) in
  let A := x1 * y2 + y1 * x2 in
  let B := y1 * y2 + x1 * x2 in
  - (x1 * x1) + y1 * y1 ≡ₚ 1 + d * (x1 * x1) * (y1 * y1) ->
  - (x2 * x2) + y2 * y2 ≡ₚ 1 + d * (x2 * x2) * (y2 * y2) ->
  - (A * A) * ((1 - k) * (1 - k)) + B * B * ((1 + k) * (1 + k))
    ≡ₚ (1 + k) * (1 - k) * ((1 + k) * (1 - k)) + d * (A * A) * (B * B).
Proof.
  intros k A B C1 C2.
  set (u1 := - (x1 * x1) + y1 * y1 - 1). set (v1 := d * (x1 * x1) * (y1 * y1)).
  set (u2 := - (x2 * x2) + y2 * y2 - 1). set (v2 := d * (x2 * x2) * (y2 * y2)).
  apply (eqp_step ((1 + u2) * (1 + v1 * v2) - v2 * (2 + u1 + v1)) _ _ _ _ C1).
  apply (eqp_step ((1 + v1) * (1 + v1 * v2) - v1 * (2 + u2 + v2)) _ _ _ _ C2).
  apply eqp_eq. unfold A, B, k, u1, u2, v1, v2. ring.
Qed.

Lemma ed_sum_curve x1 y1 x2 y2 x3 y3 :
  ed_curve x1 y1 -> ed_curve x2 y2 -> ed_sum x1 y1 x2 y2 x3 y3 -> ed_curve x3 y3.
Proof.
  intros C1 C2 [Hx Hy Ux Uy]. pose proof (ed_closed_poly _ _ _ _ _ C1 C2) as P. cbv zeta in P.
  unfold ed_curve in *. set (k := ed_d * (x1 * x2 * y1 * y2)) in *.
  rewrite <- Hx, <- Hy in P.
  apply (unit_cancel _ _ ((1 + k) * (1 - k) * ((1 + k) * (1 - k)))); [auto with fe|].
  transitivity (- (x3 * (1 + k) * (x3 * (1 + k))) * ((1 - k) * (1 - k))
    + y3 * (1 - k) * (y3 * (1 - k)) * ((1 + k) * (1 + k))); [apply eqp_eq; ring|].
  rewrite P. apply eqp_eq. ring.
Qed.

Lemma ed_add_on_curve P Q : on_curve P -> on_curve Q -> on_curve (ed_add P Q).
Proof. intros HP HQ. eapply ed_sum_curve; [exact HP | exact HQ | by apply ed_add_sum]. Qed.

Lemma ed_zero_on_curve : on_curve ed_zero.
Proof. reflexivity. Qed.

Lemma ed_opp_on_curve P : on_curve P -> on_curve (ed_opp P).
Proof.
  intros H. unfold on_curve, ed_curve, ed_opp in *. cbn [ed_px ed_py].
  rewrite Z.mul_opp_opp. exact H.
Qed.

(** ** [ed_add] respects equality of points *)

#[export] Instance ed_eq_equiv : Equivalence ed_eq.
Proof.
  split.
  - intros P. split; reflexivity.
  - intros P Q [Hx Hy]. split; symmetry; assumption.
  - intros P Q R [Hx Hy] [Hx' Hy']. split; etransitivity; eassumption.
Qed.
#[export] Instance ed_curve_proper : Proper (eqp ==> eqp ==> iff) ed_curve.
Proof.
  intros x x' Hx y y' Hy. unfold ed_curve. rewrite Hx, Hy. reflexivity.
Qed.
#[export] Instance on_curve_proper : Proper (ed_eq ==> iff) on_curve.
Proof. intros P Q [Hx Hy]. unfold on_curve. rewrite Hx, Hy. reflexivity. Qed.
#[export] Instance fe_inv_proper : Proper (eqp ==> eqp) fe_inv.
Proof. intros x y E. unfold fe_inv. by apply eqp_pow. Qed.
#[export] Instance ed_add_proper : Proper (ed_eq ==> ed_eq ==> ed_eq) ed_add.
Proof.
  intros P P' [Px Py] Q Q' [Qx Qy]. unfold ed_add, ed_eq. cbv zeta. cbn [ed_px ed_py].
  split; rewrite Px, Py, Qx, Qy; reflexivity.
Qed.
#[export] Instance ed_opp_proper : Proper (ed_eq ==> ed_eq) ed_opp.
Proof. intros P Q [Hx Hy]. unfold ed_opp, ed_eq. cbn [ed_px ed_py]. rewrite Hx, Hy. split; reflexivity. Qed.

(** ** Group laws but associativity *)

Lemma ed_add_comm P Q : ed_eq (ed_add P Q) (ed_add Q P).
Proof.
  destruct P as [x1 y1], Q as [x2 y2]. unfold ed_eq, ed_add. cbv zeta. cbn [ed_px ed_py].
  replace (ed_d * (x2 * x1 * y2 * y1)) with (ed_d * (x1 * x2 * y1 * y2)) by ring.
  split; apply eqp_eq; ring.
Qed.

Lemma ed_sum_add P Q R :
  on_curve P -> on_curve Q ->
  ed_sum (ed_px P) (ed_py P) (ed_px Q) (ed_py Q) (ed_px R) (ed_py R) -> ed_eq (ed_add P Q) R.
Proof. intros HP HQ HS. eapply ed_sum_unique; [by apply ed_add_sum | exact HS]. Qed.

Lemma ed_add_0_l P : on_curve P -> ed_eq (ed_add ed_zero P) P.
Proof.
  intros HP. apply ed_sum_add; [apply ed_zero_on_curve | done |].
  unfold ed_zero. cbn [ed_px ed_py].
  replace (ed_d * (0 * ed_px P * 1 * ed_py P)) with 0 by ring.
  split; [apply eqp_eq; ring | apply eqp_eq; ring | apply unit_1 | apply unit_1].
Qed.

Lemma ed_add_opp_r P : on_curve P -> ed_eq (ed_add P (ed_opp P)) ed_zero.
Proof.
  intros HP. apply ed_sum_add; [done | by apply ed_opp_on_curve |].
  unfold ed_opp, ed_zero, on_curve in *. cbn [ed_px ed_py].
  destruct P as [x y]. cbn [ed_px ed_py] in *. pose proof HP as C. unfold ed_curve in C.
  destruct (ed_units x y (- x) y HP) as [U1 U2]; [by apply (ed_opp_on_curve (EdPoint x y))|].
  split; [apply eqp_eq; ring | | done | done].
  apply (eqp_step (-1) _ _ _ _ C), eqp_eq. ring.
Qed.
