(* ===== verification/GeBytes.v ===== *)
(** * Points and byte strings (crypto-ops.c)

    [ge_tobytes], [ge_p3_tobytes] and [ge_frombytes_vartime]: the encoding of a
    point is the canonical [y] with the parity of [x] in the top bit; decoding
    accepts exactly the strings that encode a point of the curve and returns a
    representation of that point. *)

From Stdlib Require Import ZArith Lia.
From stdpp Require Import base tactics list.
From S2P Require Import Prelude Radix Fe FeBytes FePow Pocklington Ge Curve.
Open Scope Z_scope.

(** ** Specification *)

(** The 32 bytes of an affine point. *)
Definition ed_encode (x y : Z) : list Z :=
  le_bytes 32 (y mod fe_p + 2 ^ 255 * ((x mod fe_p) mod 2)).

(** ** The sign bit *)

Lemma xor_sign_spec s n : byte_ok s -> length s = 32%nat -> le_val s < 2 ^ 255 ->
  n = 0 \/ n = 1 -> xor_sign s n = le_bytes 32 (le_val s + 2 ^ 255 * n).
Proof.
  intros Hs Hl Hlt Hn. unfold xor_sign.
  destruct s as [|b l _] using rev_ind; [discriminate|].
  rewrite length_app in Hl. cbn [length] in Hl. assert (Ll : length l = 31%nat) by lia.
  apply Forall_app in Hs as [Hs Hb]. apply (proj1 (Forall_singleton _ _)) in Hb.
  rewrite le_val_app, Ll in *. cbn [le_val] in *. change (2 ^ (8 * Z.of_nat 31)) with (2 ^ 248) in *.
  rewrite Z.mul_0_r, Z.add_0_r in *. pose proof (le_val_range l Hs) as Hr. rewrite Ll in Hr.
  change (2 ^ (8 * Z.of_nat 31)) with (2 ^ 248) in Hr.
  assert (Hb7 : 0 <= b < 2 ^ 7) by lia.
  rewrite app_nth2 by lia. rewrite Ll. cbn [Nat.sub nth].
  rewrite lxor_shiftl_add, u8_id by lia.
  rewrite <- Ll at 1. rewrite insert_app_r_alt, Nat.sub_diag by lia. cbn [insert list_insert].
  rewrite <- (le_bytes_le_val (l ++ [_])).
  - rewrite length_app, Ll, le_val_app, Ll. cbn [length Nat.add le_val]. f_equal.
    change (2 ^ (8 * Z.of_nat 31)) with (2 ^ 248). lia.
  - apply Forall_app. split; [done|]. repeat constructor; lia.
Qed.

(** ** Encoding *)

(** [X/Z] by the inverse the code computes. *)
Lemma fe_div_spec X Z x : fe_loose X -> fe_loose Z -> unit_p (fe_val Z) ->
  fe_val X ≡ₚ x * fe_val Z ->
  fe_small (fe_mul X (fe_invert Z)) /\ fe_val (fe_mul X (fe_invert Z)) ≡ₚ x.
Proof.
  intros HX HZ U E. destruct (fe_invert_spec Z) as [Hi Vi]; [fe_bound|].
  split; [fe_bound|]. rewrite fe_mul_val by fe_bound. rewrite E, Vi.
  rewrite <- Z.mul_assoc. change (fe_val Z ^ (fe_p - 2)) with (fe_inv (fe_val Z)).
  rewrite fe_inv_unit by done. rewrite Z.mul_1_r. reflexivity.
Qed.

Lemma mod_2_cases x : x mod 2 = 0 \/ x mod 2 = 1.
Proof. pose proof (Z.mod_pos_bound x 2). lia. Qed.

Lemma ge_encode_spec X Y Z x y : fe_loose X -> fe_loose Y -> fe_loose Z -> unit_p (fe_val Z) ->
  fe_val X ≡ₚ x * fe_val Z -> fe_val Y ≡ₚ y * fe_val Z ->
  xor_sign (fe_tobytes (fe_mul Y (fe_invert Z))) (fe_isnegative (fe_mul X (fe_invert Z)))
  = ed_encode x y.
Proof.
  intros HX HY HZ U EX EY. destruct (fe_div_spec X Z x HX HZ U EX) as [Hx Vx].
  destruct (fe_div_spec Y Z y HY HZ U EY) as [Hy Vy]. unfold eqp in Vx, Vy.
  destruct (fe_tobytes_spec (fe_mul Y (fe_invert Z))) as (Hb & Hl & Hv); [fe_bound|].
  rewrite fe_isnegative_spec, Vx by fe_bound. rewrite Vy in Hv. unfold ed_encode. rewrite <- Hv.
  apply xor_sign_spec; [done | done | | apply mod_2_cases].
  rewrite Hv. pose proof (Z.mod_pos_bound y fe_p). unfold fe_p in *. lia.
Qed.

Lemma ge_tobytes_spec h x y : p2_rep h x y -> ge_tobytes h = ed_encode x y.
Proof. intros ((?&?&?) & U & EX & EY). apply ge_encode_spec; solve [done | fe_bound]. Qed.

Lemma ge_p3_tobytes_spec h x y : p3_rep h x y -> ge_p3_tobytes h = ed_encode x y.
Proof. intros ((?&?&?&?) & U & EX & EY & _). apply ge_encode_spec; solve [done | fe_bound]. Qed.

(** ** Decoding *)

(** The parity of a residue changes with its sign. *)
Lemma neg_parity x : ~ zero_p x -> ((- x) mod fe_p) mod 2 = 1 - (x mod fe_p) mod 2.
Proof.
  intros Hx. unfold zero_p, eqp in Hx. change (0 mod fe_p) with 0 in Hx.
  rewrite Z.mod_opp_l_nz by (done || exact Hx).
  pose proof (Z.mod_pos_bound x fe_p ltac:(done)). 
  pose proof (Z.div_mod (fe_p - x mod fe_p) 2). pose proof (Z.mod_pos_bound (fe_p - x mod fe_p) 2).
  pose proof (Z.div_mod (x mod fe_p) 2). pose proof (Z.mod_pos_bound (x mod fe_p) 2).
  unfold fe_p in *. lia.
Qed.

Lemma fe_isnonzero_zero f : fe_wide f -> (fe_isnonzero f =? 0) = bool_decide (zero_p (fe_val f)).
Proof.
  intros Hf. rewrite fe_isnonzero_spec by done. unfold zero_p, eqp. change (0 mod fe_p) with 0.
  destruct (Z.eqb_spec (fe_val f mod fe_p) 0); case_bool_decide; done.
Qed.

(** The sign is set, or there is no point: [x = 0] with the sign bit. *)
Lemma ge_frombytes_sign_spec X Y x y top :
  fe_small X -> fe_small Y -> fe_val X ≡ₚ x -> fe_val Y ≡ₚ y -> top = 0 \/ top = 1 ->
  match ge_frombytes_sign X Y fe_1 top with
  | Some h => exists x', (x' = x \/ x' = - x) /\ (x' mod fe_p) mod 2 = top /\ p3_rep h x' y
  | None => zero_p x /\ top = 1
  end.
Proof.
  intros HX HY EX EY Ht. unfold ge_frombytes_sign.
  rewrite fe_isnegative_spec, fe_isnonzero_zero by fe_bound.
  rewrite (bool_decide_ext _ (zero_p x)) by (unfold zero_p; rewrite EX; done).
  replace (fe_val X mod fe_p) with (x mod fe_p) by (symmetry; exact EX).
  assert (R : forall X' x', fe_small X' -> fe_val X' ≡ₚ x' -> p3_rep (GeP3 X' Y fe_1 (fe_mul X' Y)) x' y).
  { intros X' x' HX' EX'. unfold p3_rep, p3_ok. cbn [p3_X p3_Y p3_Z p3_T].
    split_and!; [fe_bound.. | exact unit_1 | | |]; fe_values; rewrite ?EX', ?EY; apply eqp_eq; ring. }
  destruct (Z.eqb_spec ((x mod fe_p) mod 2) top) as [E|E]; cbn [negb].
  - exists x. auto.
  - case_bool_decide as Hz.
    + split; [done|]. unfold zero_p, eqp in Hz. rewrite Hz in E. change (0 mod fe_p mod 2) with 0 in E. lia.
    + exists (- x). split; [auto|]. split.
      * rewrite neg_parity by done. pose proof (mod_2_cases (x mod fe_p)). lia.
      * apply R; [fe_bound|]. fe_values. rewrite EX. reflexivity.
Qed.

(** The candidate root: [v X^2 = u (u v^7)^((p-1)/4)]. *)
Definition root_m : Z := (fe_p - 5) / 8.

Lemma root_m_pos : 0 <= root_m.
Proof. vm_compute. discriminate. Qed.

Lemma root_square u v :
  let X := u * v ^ 3 * (u * v ^ 7) ^ root_m in
  X * X * v ≡ₚ u * (u * v ^ 7) ^ (2 * root_m + 1).
Proof.
  cbv zeta. apply eqp_eq. pose proof root_m_pos.
  rewrite Z.pow_add_r, (Z.mul_comm 2), Z.pow_mul_r, Z.pow_1_r by lia.
  generalize ((u * v ^ 7) ^ root_m). intros w. ring.
Qed.

(** If [u/v] is a square the power is 1 or -1. *)
Lemma root_sign u v x : x * x * v ≡ₚ u -> ~ zero_p (x * v) ->
  (u * v ^ 7) ^ (2 * root_m + 1) ≡ₚ 1 \/ (u * v ^ 7) ^ (2 * root_m + 1) ≡ₚ - 1.
Proof.
  intros E N. set (w := x * v ^ 4).
  assert (Ew : u * v ^ 7 ≡ₚ w * w) by (rewrite <- E; apply eqp_eq; unfold w; ring).
  assert (Nw : ~ zero_p w).
  { intros Hw. apply N. unfold w in Hw.
    replace (x * v ^ 4) with (x * v * (v * v * v)) in Hw by ring.
    apply zero_mul in Hw as [Hw|Hw]; [done|]. unfold zero_p in *.
    assert (zero_p v) as Hv by (apply zero_mul in Hw as [Hw|Hw]; [apply zero_mul in Hw as [Hw|Hw]|]; done).
    unfold zero_p in Hv. rewrite Hv. apply eqp_eq. ring. }
  rewrite (eqp_pow _ _ _ Ew). set (e := (w * w) ^ (2 * root_m + 1)).
  assert (E2 : e * e ≡ₚ 1).
  { unfold e. pose proof root_m_pos.
    rewrite <- Z.pow_2_r, <- Z.pow_mul_r, <- (Z.pow_2_r w), <- Z.pow_mul_r by lia.
    change (2 * ((2 * root_m + 1) * 2)) with (fe_p - 1).
    apply fermat_little; [exact fe_p_prime | by rewrite <- zero_divide]. }
  assert (Z0 : zero_p ((e - 1) * (e + 1))).
  { unfold zero_p. apply (eqp_step 1 _ _ _ _ E2), eqp_eq. ring. }
  apply zero_mul in Z0 as [Z0|Z0]; unfold zero_p in Z0; [left | right].
  - apply (eqp_step 1 _ _ _ _ Z0), eqp_eq. ring.
  - apply (eqp_step 1 _ _ _ _ Z0), eqp_eq. ring.
Qed.

(** The equation of the curve solved for [x^2]. *)
Definition ed_u (y : Z) : Z := y * y - 1.
Definition ed_v (y : Z) : Z := ed_d * (y * y) + 1.

Lemma ed_curve_uv x y : ed_curve x y <-> x * x * ed_v y ≡ₚ ed_u y.
Proof.
  unfold ed_curve, ed_u, ed_v. split; intros C.
  - apply (eqp_step (-1) _ _ _ _ C), eqp_eq. ring.
  - apply (eqp_step (-1) _ _ _ _ C), eqp_eq. ring.
Qed.

Lemma ed_v_nonzero y : ~ zero_p (ed_v y).
Proof.
  unfold zero_p, ed_v. intros E. set (i := fe_val fe_sqrtm1).
  pose proof (fe_sqrtm1_sq : i * i ≡ₚ - 1) as II.
  assert (U : unit_p y).
  { exists (- (ed_d * y)). apply (eqp_step (-1) _ _ _ _ E), eqp_eq. ring. }
  destruct U as [j Hj]. apply (ed_d_nonsquare (i * j)).
  replace (i * j * (i * j)) with (i * i * (j * j)) by ring. rewrite II.
  transitivity (ed_d * ((y * j) * (y * j))); [rewrite Hj; apply eqp_eq; ring|].
  apply (eqp_step (j * j) _ _ _ _ E), eqp_eq. ring.
Qed.

Lemma fe_pow22523_root u v : fe_val u * fe_val v ^ 3 * (fe_val u * fe_val v ^ 7) ^ ((fe_p - 5) / 8)
  = fe_val u * fe_val v ^ 3 * (fe_val u * fe_val v ^ 7) ^ root_m.
Proof. reflexivity. Qed.

(** What the locals of [ge_frombytes_vartime] hold, for [hY] of value [y]. *)
Record decode_locals (hY u v hX vxx : fe) (y : Z) : Prop := {
  dl_Y : fe_small hY; dl_u : fe_tight u; dl_v : fe_tight v; dl_X : fe_small hX; dl_xx : fe_small vxx;
  dl_Yv : fe_val hY ≡ₚ y; dl_uv : fe_val u ≡ₚ ed_u y; dl_vv : fe_val v ≡ₚ ed_v y;
  dl_xxv : fe_val vxx ≡ₚ fe_val hX * fe_val hX * ed_v y;
  dl_root : fe_val hX * fe_val hX * ed_v y
              ≡ₚ ed_u y * (ed_u y * ed_v y ^ 7) ^ (2 * root_m + 1) }.

Lemma fe_sub_1_tight f : fe_small f -> fe_tight (fe_sub f fe_1).
Proof.
  intros H. eapply fe_bounded_weaken; [apply (fe_sub_gen _ _ 1 1 f fe_1 H)| |]; try lia.
  apply fe_bounded_check. reflexivity.
Qed.
Lemma fe_add_1_tight f : fe_small f -> fe_tight (fe_add f fe_1).
Proof.
  intros H. eapply fe_bounded_weaken; [apply (fe_add_gen _ _ 1 1 f fe_1 H)| |]; try lia.
  apply fe_bounded_check. reflexivity.
Qed.

Lemma decode_locals_ok hY y : fe_small hY -> fe_val hY ≡ₚ y ->
  let u := fe_sub (fe_sq hY) fe_1 in
  let v := fe_add (fe_mul (fe_sq hY) fe_d) fe_1 in
  let hX := fe_divpowm1 u v in
  decode_locals hY u v hX (fe_mul (fe_sq hX) v) y.
Proof.
  intros HY EY u v hX.
  assert (Hu : fe_tight u) by (apply fe_sub_1_tight; fe_bound).
  assert (Hv : fe_tight v) by (apply fe_add_1_tight; fe_bound).
  assert (Eu : fe_val u ≡ₚ ed_u y) by (unfold u; fe_values; rewrite EY; reflexivity).
  assert (Ev : fe_val v ≡ₚ ed_v y).
  { unfold v. fe_values. rewrite EY, fe_d_val. unfold ed_v. apply eqp_eq. ring. }
  destruct (fe_divpowm1_spec u v) as [HX EX]; [fe_bound | fe_bound |]. fold hX in HX, EX.
  rewrite fe_pow22523_root in EX. clearbody u v hX.
  assert (Exx : fe_val (fe_mul (fe_sq hX) v) ≡ₚ fe_val hX * fe_val hX * ed_v y).
  { fe_values. rewrite Ev. reflexivity. }
  split; [exact HY | exact Hu | exact Hv | exact HX | fe_bound | exact EY | exact Eu | exact Ev | exact Exx |].
  pose proof (root_square (fe_val u) (fe_val v)) as R. cbv zeta in R.
  transitivity (fe_val hX * fe_val hX * fe_val v); [rewrite Ev; reflexivity|].
  rewrite EX at 1 2. rewrite R. apply eqp_mul; [exact Eu|].
  apply eqp_pow, eqp_mul; [exact Eu | by apply eqp_pow].
Qed.

(** The three outcomes of the root: none, the candidate, the candidate times
    the square root of -1. *)
Lemma decode_check_spec hY u v hX vxx y : decode_locals hY u v hX vxx y ->
  (fe_isnonzero (fe_sub vxx u) =? 0) = bool_decide (fe_val hX * fe_val hX * ed_v y ≡ₚ ed_u y) /\
  (fe_isnonzero (fe_add vxx u) =? 0) = bool_decide (fe_val hX * fe_val hX * ed_v y ≡ₚ - ed_u y).
Proof.
  intros [HY Hu Hv HX Hxx EY Eu Ev Exx _].
  rewrite !fe_isnonzero_zero by fe_bound. fe_values.
  split; apply bool_decide_ext; unfold zero_p; rewrite Exx, Eu; split; intros H.
  - apply (eqp_step 1 _ _ _ _ H), eqp_eq. ring.
  - apply (eqp_step 1 _ _ _ _ H), eqp_eq. ring.
  - apply (eqp_step 1 _ _ _ _ H), eqp_eq. ring.
  - apply (eqp_step 1 _ _ _ _ H), eqp_eq. ring.
Qed.

Lemma fe_mul_sqrtm1_val X : fe_small X ->
  fe_val (fe_mul X fe_sqrtm1) * fe_val (fe_mul X fe_sqrtm1) ≡ₚ - (fe_val X * fe_val X).
Proof.
  intros HX. fe_values. generalize (fe_val X). intros x.
  replace (x * fe_val fe_sqrtm1 * (x * fe_val fe_sqrtm1))
    with (x * x * (fe_val fe_sqrtm1 * fe_val fe_sqrtm1)) by (generalize (fe_val fe_sqrtm1); intros; ring).
  rewrite fe_sqrtm1_sq. apply eqp_eq. ring.
Qed.

(** The computation after the loads, on the value [y]. *)
Definition decode_result (y : Z) (top : Z) (r : option ge_p3) : Prop :=
  match r with
  | Some h => exists x, ed_curve x y /\ (x mod fe_p) mod 2 = top /\ p3_rep h x y
  | None => forall x, ed_curve x y -> zero_p x /\ top = 1
  end.

Lemma ed_curve_opp x y : ed_curve x y -> ed_curve (- x) y.
Proof. unfold ed_curve. rewrite Z.mul_opp_opp. auto. Qed.

(** Two points with the same [y]. *)
Lemma ed_curve_same_y x x' y : ed_curve x y -> ed_curve x' y -> x ≡ₚ x' \/ x ≡ₚ - x'.
Proof.
  rewrite !ed_curve_uv. intros C C'. rewrite <- C' in C.
  apply unit_cancel in C; [|apply unit_nonzero, ed_v_nonzero].
  assert (Z0 : zero_p ((x - x') * (x + x'))).
  { unfold zero_p. apply (eqp_step 1 _ _ _ _ C), eqp_eq. ring. }
  apply zero_mul in Z0 as [Z0|Z0]; unfold zero_p in Z0; [left | right];
    apply (eqp_step 1 _ _ _ _ Z0), eqp_eq; ring.
Qed.

Lemma zero_opp x : zero_p x -> zero_p (- x).
Proof. unfold zero_p. intros ->. reflexivity. Qed.

Lemma decode_sign_result X Y x y top :
  fe_small X -> fe_small Y -> fe_val X ≡ₚ x -> fe_val Y ≡ₚ y -> top = 0 \/ top = 1 ->
  ed_curve x y -> decode_result y top (ge_frombytes_sign X Y fe_1 top).
Proof.
  intros HX HY EX EY Ht C.
  pose proof (ge_frombytes_sign_spec X Y x y top HX HY EX EY Ht) as S. unfold decode_result.
  destruct (ge_frombytes_sign X Y fe_1 top) as [h|].
  - destruct S as (x' & [-> | ->] & E & R); [exists x | exists (- x)]; split_and!; auto using ed_curve_opp.
  - destruct S as [Z0 T]. intros x' C'. split; [|exact T].
    destruct (ed_curve_same_y _ _ _ C' C) as [E|E]; unfold zero_p in *; rewrite E; [done|].
    by apply zero_opp.
Qed.

Lemma decode_body_spec hY u v hX vxx y top :
  decode_locals hY u v hX vxx y -> top = 0 \/ top = 1 ->
  decode_result y top
    (if negb (fe_isnonzero (fe_sub vxx u) =? 0) then
       if negb (fe_isnonzero (fe_add vxx u) =? 0) then None
       else ge_frombytes_sign (fe_mul hX fe_sqrtm1) hY fe_1 top
     else ge_frombytes_sign hX hY fe_1 top).
Proof.
  intros L Ht. destruct (decode_check_spec _ _ _ _ _ _ L) as [-> ->].
  destruct L as [HY Hu Hv HX Hxx EY Eu Ev Exx Root].
  case_bool_decide as C1; cbn [negb].
  { apply (decode_sign_result _ _ (fe_val hX)); [exact HX | exact HY | reflexivity | exact EY | exact Ht |].
    by apply ed_curve_uv. }
  case_bool_decide as C2; cbn [negb].
  - apply (decode_sign_result _ _ (fe_val (fe_mul hX fe_sqrtm1)));
      [fe_bound | exact HY | reflexivity | exact EY | exact Ht |].
    apply ed_curve_uv. rewrite fe_mul_sqrtm1_val, Z.mul_opp_l, C2 by done. apply eqp_eq. ring.
  - intros x C%ed_curve_uv. exfalso.
    destruct (decide (zero_p (x * ed_v y))) as [Z0|N].
    + apply C1. rewrite Root. apply zero_mul in Z0 as [Z0|Z0]; [|by apply ed_v_nonzero in Z0].
      unfold zero_p in Z0. assert (Zu : ed_u y ≡ₚ 0) by (rewrite <- C, Z0; reflexivity).
      etransitivity; [apply eqp_mul; [exact Zu | reflexivity]|]. rewrite Z.mul_0_l. symmetry. exact Zu.
    + destruct (root_sign _ _ _ C N) as [E|E].
      * apply C1. rewrite Root, E, Z.mul_1_r. reflexivity.
      * apply C2. rewrite Root, E. apply eqp_eq. ring.
Qed.

(** ** The theorems *)

Lemma top_bit s : byte_ok s -> length s = 32%nat -> Z.shiftr (nth 31 s 0) 7 = le_val s / 2 ^ 255.
Proof.
  intros Hs Hl. destruct s as [|b l _] using rev_ind; [discriminate|].
  rewrite length_app in Hl. cbn [length] in Hl. assert (Ll : length l = 31%nat) by lia.
  apply Forall_app in Hs as [Hs Hb]. apply (proj1 (Forall_singleton _ _)) in Hb.
  rewrite app_nth2, le_val_app, Ll by lia. cbn [Nat.sub nth le_val].
  pose proof (le_val_range l Hs) as Hr. rewrite Ll in Hr.
  change (2 ^ (8 * Z.of_nat 31)) with (2 ^ 248) in *. rewrite Z.mul_0_r, Z.add_0_r.
  change (2 ^ 255) with (2 ^ 248 * 2 ^ 7). rewrite Z.shiftr_div_pow2, <- Z.div_div by lia.
  f_equal. rewrite Z.mul_comm, Z.div_add, Z.div_small by lia. lia.
Qed.

(** Decoding [s]: with [y] the low 255 bits of [s] and the sign its top bit,
    nothing is returned exactly when [y] is not canonical or no point of the
    curve has this [y] and this parity of [x]. *)
Lemma ge_frombytes_vartime_spec s : byte_ok s -> length s = 32%nat ->
  let y := le_val s mod 2 ^ 255 in
  let top := le_val s / 2 ^ 255 in
  if fe_p <=? y then ge_frombytes_vartime s = None
  else decode_result y top (ge_frombytes_vartime s).
Proof.
  intros Hs Hl y top. unfold ge_frombytes_vartime. rewrite fe_noncanonical_255 by done. fold y.
  destruct (fe_p <=? y); [done|]. cbv zeta. rewrite top_bit by done. fold top.
  destruct (fe_frombytes_255_spec s Hs) as [HY EY].
  apply (decode_body_spec _ _ _ _ _ _ _ (decode_locals_ok _ y HY EY)).
  pose proof (le_val_range s Hs) as Hr. rewrite Hl in Hr. change (2 ^ (8 * Z.of_nat 32)) with (2 ^ 256) in Hr.
  assert (0 <= top < 2); [|lia]. unfold top.
  split; [apply Z.div_pos; lia | apply Z.div_lt_upper_bound; lia].
Qed.

Lemma ed_encode_ok x y : byte_ok (ed_encode x y) /\ length (ed_encode x y) = 32%nat /\
  le_val (ed_encode x y) mod 2 ^ 255 = y mod fe_p /\
  le_val (ed_encode x y) / 2 ^ 255 = (x mod fe_p) mod 2.
Proof.
  unfold ed_encode. split; [apply le_bytes_ok|]. split; [apply length_le_bytes|].
  pose proof (Z.mod_pos_bound y fe_p ltac:(done)) as Hy.
  pose proof (mod_2_cases (x mod fe_p)) as Hx. 
  rewrite le_val_le_bytes. change (2 ^ (8 * Z.of_nat 32)) with (2 ^ 256).
  revert Hy Hx. generalize (y mod fe_p) ((x mod fe_p) mod 2). intros a b Ha Hb. unfold fe_p in Ha.
  rewrite (Z.mod_small (a + _)) by lia. rewrite (Z.mul_comm (2 ^ 255)).
  rewrite Z_mod_plus_full, Z.div_add, Z.mod_small, Z.div_small by lia. lia.
Qed.

(** A string that decodes is the encoding of the point returned. *)
Lemma ge_frombytes_sound s h : byte_ok s -> length s = 32%nat ->
  ge_frombytes_vartime s = Some h ->
  exists x y, ed_curve x y /\ p3_rep h x y /\ s = ed_encode x y.
Proof.
  intros Hs Hl E. pose proof (ge_frombytes_vartime_spec s Hs Hl) as S. cbv zeta in S.
  rewrite E in S. destruct (Z.leb_spec fe_p (le_val s mod 2 ^ 255)) as [L|L]; [discriminate|].
  destruct S as (x & C & Ex & R). exists x, (le_val s mod 2 ^ 255). split_and!; [done..|].
  destruct (ed_encode_ok x (le_val s mod 2 ^ 255)) as (Hb & Hl' & E1 & E2).
  apply le_val_inj; [done | done | congruence |].
  rewrite (Z.mod_small (_ mod _)) in E1.
  - pose proof (Z.div_mod (le_val s) (2 ^ 255)) as D1.
    pose proof (Z.div_mod (le_val (ed_encode x (le_val s mod 2 ^ 255))) (2 ^ 255)) as D2.
    rewrite E1, E2, Ex in D2. lia.
  - pose proof (Z.mod_pos_bound (le_val s) (2 ^ 255)). lia.
Qed.

(** The encoding of a point of the curve decodes to it. *)
Lemma ge_frombytes_complete x y : ed_curve x y ->
  exists h, ge_frombytes_vartime (ed_encode x y) = Some h /\ p3_rep h x y.
Proof.
  intros C. destruct (ed_encode_ok x y) as (Hb & Hl & E1 & E2).
  pose proof (ge_frombytes_vartime_spec _ Hb Hl) as S. cbv zeta in S. rewrite E1, E2 in S.
  assert (Ey : y mod fe_p ≡ₚ y) by (unfold eqp; apply Z.mod_mod; done).
  destruct (Z.leb_spec fe_p (y mod fe_p)) as [L|L].
  { pose proof (Z.mod_pos_bound y fe_p ltac:(done)). lia. }
  destruct (ge_frombytes_vartime (ed_encode x y)) as [h|]; cbn [decode_result] in S.
  - destruct S as (x' & C' & Ex' & R). exists h. split; [done|]. rewrite Ey in C'.
    assert (x' ≡ₚ x) as Exx.
    { destruct (ed_curve_same_y _ _ _ C' C) as [E|E]; [exact E|].
      destruct (decide (zero_p x)) as [Z0|N].
      - unfold zero_p in Z0. rewrite E, Z0. reflexivity.
      - exfalso. unfold eqp in E. rewrite E, neg_parity in Ex' by done.
        pose proof (mod_2_cases (x mod fe_p)). lia. }
    destruct R as (Hok & U & RX & RY & RT).
    split; [done|]. split; [done|]. rewrite RX, RY, RT, Ey, Exx. split_and!; reflexivity.
  - exfalso. rewrite <- Ey in C. destruct (S x C) as [Z0 T]. unfold zero_p, eqp in Z0.
    rewrite Z0 in T. discriminate T.
Qed.
