(* ===== verification/Group.v ===== *)
(** * Abelian groups and multiples

    The interface between the curve and the scalar multiplications: an abelian
    group up to an equivalence, as a type class, and the multiple [n * P] for an
    integer [n]. The theorems about scalar multiplication are proved against
    it. *)

From Stdlib Require Import ZArith Lia.
From stdpp Require Import base tactics.
From S2P Require Import Prelude.
Open Scope Z_scope.

Class AbGroup (G : Type) (geq : relation G) (op : G -> G -> G) (e : G) (opp : G -> G) : Prop := {
  grp_equiv :: Equivalence geq;
  grp_op :: Proper (geq ==> geq ==> geq) op;
  grp_opp :: Proper (geq ==> geq) opp;
  grp_assoc x y z : geq (op (op x y) z) (op x (op y z));
  grp_comm x y : geq (op x y) (op y x);
  grp_e_l x : geq (op e x) x;
  grp_opp_r x : geq (op x (opp x)) e }.

Section Multiples.
Context {G : Type} {geq : relation G} {op : G -> G -> G} {e : G} {opp : G -> G}.
Context `{HG : !AbGroup G geq op e opp}.
Local Infix "==" := geq (at level 70).
Local Infix "⊕" := op (at level 50, left associativity).

Definition gmul (n : Z) (P : G) : G :=
  match n with
  | Z0 => e
  | Zpos p => Pos.iter (op P) e p
  | Zneg p => opp (Pos.iter (op P) e p)
  end.

Lemma grp_e_r x : x ⊕ e == x.
Proof using HG. rewrite grp_comm. apply grp_e_l. Qed.
Lemma grp_opp_l x : opp x ⊕ x == e.
Proof using HG. rewrite grp_comm. apply grp_opp_r. Qed.

Lemma grp_cancel x y z : x ⊕ y == x ⊕ z -> y == z.
Proof using HG.
  intros E. rewrite <- (grp_e_l y), <- (grp_e_l z), <- (grp_opp_l x), !grp_assoc, E. reflexivity.
Qed.

Lemma grp_opp_e : opp e == e.
Proof using HG. rewrite <- (grp_e_l (opp e)). apply grp_opp_r. Qed.

Lemma grp_opp_op x y : opp (x ⊕ y) == opp x ⊕ opp y.
Proof using HG.
  apply (grp_cancel (x ⊕ y)). rewrite grp_opp_r, (grp_comm x y), <- grp_assoc.
  rewrite (grp_assoc y x), grp_opp_r, grp_e_r, grp_opp_r. reflexivity.
Qed.

Lemma grp_opp_opp x : opp (opp x) == x.
Proof using HG. apply (grp_cancel (opp x)). rewrite grp_opp_r, grp_opp_l. reflexivity. Qed.

Lemma gmul_0 P : gmul 0 P = e.
Proof using. done. Qed.
Lemma gmul_1 P : gmul 1 P == P.
Proof using HG. apply grp_e_r. Qed.

Lemma gmul_opp_l n P : gmul (- n) P == opp (gmul n P).
Proof using HG.
  destruct n as [|p|p]; cbn [gmul Z.opp]; [symmetry; apply grp_opp_e | reflexivity |].
  symmetry. apply grp_opp_opp.
Qed.

Lemma gmul_succ n P : gmul (Z.succ n) P == P ⊕ gmul n P.
Proof using HG.
  assert (Hpos : forall p, gmul (Zpos (Pos.succ p)) P == P ⊕ gmul (Zpos p) P).
  { intros p. cbn [gmul]. rewrite Pos.iter_succ. reflexivity. }
  destruct n as [|p|p].
  - reflexivity.
  - rewrite <- Hpos. replace (Z.succ (Zpos p)) with (Zpos (Pos.succ p)) by lia. reflexivity.
  - destruct (Pos.eq_dec p 1) as [->|Hp].
    + cbn [gmul Z.succ Z.add Z.pos_sub Pos.iter]. rewrite grp_e_r, grp_opp_r. reflexivity.
    + rewrite <- (Pos.succ_pred p Hp). set (q := Pos.pred p).
      replace (Z.succ (Zneg (Pos.succ q))) with (Zneg q) by lia.
      change (gmul (Zneg (Pos.succ q)) P) with (opp (gmul (Zpos (Pos.succ q)) P)).
      change (gmul (Zneg q) P) with (opp (gmul (Zpos q) P)).
      rewrite Hpos, grp_opp_op, <- grp_assoc, grp_opp_r, grp_e_l. reflexivity.
Qed.

Lemma gmul_pred n P : gmul (Z.pred n) P == opp P ⊕ gmul n P.
Proof using HG.
  rewrite <- (Z.succ_pred n) at 2. rewrite gmul_succ, <- grp_assoc, grp_opp_l, grp_e_l. reflexivity.
Qed.

Lemma gmul_add a b P : gmul (a + b) P == gmul a P ⊕ gmul b P.
Proof using HG.
  revert a. apply Z.bi_induction.
  - intros x y ->. reflexivity.
  - rewrite Z.add_0_l. symmetry. apply grp_e_l.
  - intros a. rewrite Z.add_succ_l, !gmul_succ, grp_assoc. split.
    + intros ->. reflexivity.
    + apply grp_cancel.
Qed.

#[global] Instance gmul_proper n : Proper (geq ==> geq) (gmul n).
Proof using HG.
  intros P Q E. revert n. apply Z.bi_induction.
  - intros x y ->. reflexivity.
  - reflexivity.
  - intros a. rewrite !gmul_succ. split; intros H.
    + apply grp_op; [exact E | exact H].
    + apply (grp_cancel P). rewrite H. apply grp_op; [symmetry; exact E | reflexivity].
Qed.

Lemma gmul_mul a b P : gmul (a * b) P == gmul a (gmul b P).
Proof using HG.
  revert a. apply Z.bi_induction.
  - intros x y ->. reflexivity.
  - reflexivity.
  - intros a. rewrite Z.mul_succ_l, Z.add_comm, gmul_add, gmul_succ.
    split; [intros ->; reflexivity | apply grp_cancel].
Qed.

Lemma gmul_2 P : gmul 2 P == P ⊕ P.
Proof using HG. change 2 with (Z.succ 1). rewrite gmul_succ, gmul_1. reflexivity. Qed.

Lemma gmul_sub a b P : gmul (a - b) P == gmul a P ⊕ opp (gmul b P).
Proof using HG. rewrite <- gmul_opp_l, <- gmul_add. reflexivity. Qed.

Lemma gmul_op n P Q : gmul n (P ⊕ Q) == gmul n P ⊕ gmul n Q.
Proof using HG.
  revert n. apply Z.bi_induction.
  - intros x y ->. reflexivity.
  - symmetry. apply grp_e_l.
  - intros a. rewrite !gmul_succ.
    assert (E : P ⊕ gmul a P ⊕ (Q ⊕ gmul a Q) == P ⊕ Q ⊕ (gmul a P ⊕ gmul a Q)).
    { rewrite !grp_assoc. apply grp_op; [reflexivity|]. rewrite <- !grp_assoc.
      apply grp_op; [|reflexivity]. apply grp_comm. }
    rewrite E. split; [intros ->; reflexivity | apply grp_cancel].
Qed.

End Multiples.
