(* ===== verification/CurveAssoc.v ===== *)
(** * Associativity of the curve's addition

    The difference of the two ways to add three points, as fractions, is a
    combination of the equations of the points. [assoc_poly_x] and
    [assoc_poly_y] give the cofactors, which [ring] checks; with the
    completeness of Curve.v the points form an abelian group ([curve_group]). *)

From Stdlib Require Import ZArith Lia.
From stdpp Require Import base tactics.
From S2P Require Import Prelude Fe Pocklington Ge Curve Group.
Open Scope Z_scope.

(** ** The two identities *)

Section Identities.
Variables d x1 y1 x2 y2 x3 y3 : Z.
Hypothesis C1 : - (x1 * x1) + y1 * y1 ≡ₚ 1 + d * (x1 * x1) * (y1 * y1).
Hypothesis C2 : - (x2 * x2) + y2 * y2 ≡ₚ 1 + d * (x2 * x2) * (y2 * y2).
Hypothesis C3 : - (x3 * x3) + y3 * y3 ≡ₚ 1 + d * (x3 * x3) * (y3 * y3).

Let k := d * (x1 * x2 * y1 * y2).
Let X := x1 * y2 + y1 * x2.
Let Y := y1 * y2 + x1 * x2.
Let k' := d * (x2 * x3 * y2 * y3).
Let X' := x2 * y3 + y2 * x3.
Let Y' := y2 * y3 + x2 * x3.

Lemma assoc_poly_x :
  (X * (1 - k) * y3 + Y * (1 + k) * x3) * ((1 + k') * (1 - k') + d * (x1 * X' * y1 * Y'))
    ≡ₚ (x1 * (1 + k') * Y' + y1 * (1 - k') * X') * ((1 + k) * (1 - k) + d * (X * x3 * Y * y3)).
Proof using C1 C2 C3.
  unfold X, Y, X', Y', k, k'.
  apply (eqp_step (
      - d^2 * x1 * x2^4 * y2^3 * x3^2 * y3 - d^2 * x1 * x2^3 * y2^4 * x3 * y3^2
      + d^2 * y1 * x2^4 * y2^3 * x3 * y3^2 + d^2 * y1 * x2^3 * y2^4 * x3^2 * y3
      - d * x1 * x2^4 * y2 * x3^2 * y3 - d * x1 * x2^3 * y2^2 * x3^3 - d * x1 * x2^3 * y2^2 * x3
      + d * x1 * x2^2 * y2^3 * y3^3 - d * x1 * x2^2 * y2^3 * y3 + d * x1 * x2 * y2^4 * x3 * y3^2
      + d * y1 * x2^4 * y2 * x3 * y3^2 + d * y1 * x2^3 * y2^2 * y3^3 - d * y1 * x2^3 * y2^2 * y3
      - d * y1 * x2^2 * y2^3 * x3^3 - d * y1 * x2^2 * y2^3 * x3 - d * y1 * x2 * y2^4 * x3^2 * y3) _ _ _ _ C1).
  apply (eqp_step (
      d^2 * x1^2 * y1 * x2^2 * y2 * x3^3 * y3^2 - d^2 * x1^2 * y1 * x2 * y2^2 * x3^2 * y3^3
      - d^2 * x1 * y1^2 * x2^2 * y2 * x3^2 * y3^3 + d^2 * x1 * y1^2 * x2 * y2^2 * x3^3 * y3^2
      + d * x1^3 * x2^2 * y2 * x3^2 * y3 + d * x1^3 * x2 * y2^2 * x3 * y3^2
      + d * x1^3 * x2 * x3^3 * y3^2 + d * x1^3 * y2 * x3^2 * y3^3
      - d * x1^2 * y1 * x2^2 * y2 * x3 * y3^2 - d * x1^2 * y1 * x2 * y2^2 * x3^2 * y3
      + d * x1^2 * y1 * x2 * x3^2 * y3^3 + d * x1^2 * y1 * y2 * x3^3 * y3^2
      - d * x1 * y1^2 * x2^2 * y2 * x3^2 * y3 - d * x1 * y1^2 * x2 * y2^2 * x3 * y3^2
      - d * x1 * y1^2 * x2 * x3^3 * y3^2 - d * x1 * y1^2 * y2 * x3^2 * y3^3
      + d * x1 * x2^2 * y2 * x3^2 * y3 + d * x1 * x2 * y2^2 * x3 * y3^2 + d * x1 * x2 * x3^3 * y3^2
      + d * x1 * y2 * x3^2 * y3^3 + d * y1^3 * x2^2 * y2 * x3 * y3^2
      + d * y1^3 * x2 * y2^2 * x3^2 * y3 - d * y1^3 * x2 * x3^2 * y3^3
      - d * y1^3 * y2 * x3^3 * y3^2 - d * y1 * x2^2 * y2 * x3 * y3^2
      - d * y1 * x2 * y2^2 * x3^2 * y3 + d * y1 * x2 * x3^2 * y3^3 + d * y1 * y2 * x3^3 * y3^2
      + x1^3 * x2 * x3^3 - x1^3 * x2 * x3 * y3^2 + x1^3 * x2 * x3 + x1^3 * y2 * x3^2 * y3
      - x1^3 * y2 * y3^3 + x1^3 * y2 * y3 + x1^2 * y1 * x2 * x3^2 * y3 - x1^2 * y1 * x2 * y3^3
      + x1^2 * y1 * x2 * y3 + x1^2 * y1 * y2 * x3^3 - x1^2 * y1 * y2 * x3 * y3^2
      + x1^2 * y1 * y2 * x3 - x1 * y1^2 * x2 * x3^3 + x1 * y1^2 * x2 * x3 * y3^2
      - x1 * y1^2 * x2 * x3 - x1 * y1^2 * y2 * x3^2 * y3 + x1 * y1^2 * y2 * y3^3
      - x1 * y1^2 * y2 * y3 + x1 * x2 * x3^3 - x1 * x2 * x3 * y3^2 + x1 * x2 * x3
      + x1 * y2 * x3^2 * y3 - x1 * y2 * y3^3 + x1 * y2 * y3 - y1^3 * x2 * x3^2 * y3
      + y1^3 * x2 * y3^3 - y1^3 * x2 * y3 - y1^3 * y2 * x3^3 + y1^3 * y2 * x3 * y3^2
      - y1^3 * y2 * x3 + y1 * x2 * x3^2 * y3 - y1 * x2 * y3^3 + y1 * x2 * y3 + y1 * y2 * x3^3
      - y1 * y2 * x3 * y3^2 + y1 * y2 * x3) _ _ _ _ C2).
  apply (eqp_step (
      - d * x1^2 * y1 * x2^2 * y2 * x3 + d * x1^2 * y1 * x2 * y2^2 * y3
      + d * x1 * y1^2 * x2^2 * y2 * y3 - d * x1 * y1^2 * x2 * y2^2 * x3 - x1^3 * x2^3 * x3
      - x1^3 * x2^2 * y2 * y3 + x1^3 * x2 * y2^2 * x3 - x1^3 * x2 * x3 + x1^3 * y2^3 * y3
      - x1^3 * y2 * y3 - x1^2 * y1 * x2^3 * y3 - x1^2 * y1 * x2^2 * y2 * x3
      + x1^2 * y1 * x2 * y2^2 * y3 - x1^2 * y1 * x2 * y3 + x1^2 * y1 * y2^3 * x3
      - x1^2 * y1 * y2 * x3 + x1 * y1^2 * x2^3 * x3 + x1 * y1^2 * x2^2 * y2 * y3
      - x1 * y1^2 * x2 * y2^2 * x3 + x1 * y1^2 * x2 * x3 - x1 * y1^2 * y2^3 * y3
      + x1 * y1^2 * y2 * y3 - x1 * x2^3 * x3 - x1 * x2^2 * y2 * y3 + x1 * x2 * y2^2 * x3
      - x1 * x2 * x3 + x1 * y2^3 * y3 - x1 * y2 * y3 + y1^3 * x2^3 * y3 + y1^3 * x2^2 * y2 * x3
      - y1^3 * x2 * y2^2 * y3 + y1^3 * x2 * y3 - y1^3 * y2^3 * x3 + y1^3 * y2 * x3 - y1 * x2^3 * y3
      - y1 * x2^2 * y2 * x3 + y1 * x2 * y2^2 * y3 - y1 * x2 * y3 + y1 * y2^3 * x3 - y1 * y2 * x3) _ _ _ _ C3).
  apply eqp_eq. ring.
Qed.

Lemma assoc_poly_y :
  (Y * (1 + k) * y3 + X * (1 - k) * x3) * ((1 + k') * (1 - k') - d * (x1 * X' * y1 * Y'))
    ≡ₚ (y1 * (1 + k') * Y' + x1 * (1 - k') * X') * ((1 + k) * (1 - k) - d * (X * x3 * Y * y3)).
Proof using C1 C2 C3.
  unfold X, Y, X', Y', k, k'.
  apply (eqp_step (
      d^2 * x1 * x2^4 * y2^3 * x3 * y3^2 + d^2 * x1 * x2^3 * y2^4 * x3^2 * y3
      - d^2 * y1 * x2^4 * y2^3 * x3^2 * y3 - d^2 * y1 * x2^3 * y2^4 * x3 * y3^2
      + d * x1 * x2^4 * y2 * x3 * y3^2 + d * x1 * x2^3 * y2^2 * y3^3 - d * x1 * x2^3 * y2^2 * y3
      - d * x1 * x2^2 * y2^3 * x3^3 - d * x1 * x2^2 * y2^3 * x3 - d * x1 * x2 * y2^4 * x3^2 * y3
      - d * y1 * x2^4 * y2 * x3^2 * y3 - d * y1 * x2^3 * y2^2 * x3^3 - d * y1 * x2^3 * y2^2 * x3
      + d * y1 * x2^2 * y2^3 * y3^3 - d * y1 * x2^2 * y2^3 * y3 + d * y1 * x2 * y2^4 * x3 * y3^2) _ _ _ _ C1).
  apply (eqp_step (
      d^2 * x1^2 * y1 * x2^2 * y2 * x3^2 * y3^3 - d^2 * x1^2 * y1 * x2 * y2^2 * x3^3 * y3^2
      - d^2 * x1 * y1^2 * x2^2 * y2 * x3^3 * y3^2 + d^2 * x1 * y1^2 * x2 * y2^2 * x3^2 * y3^3
      - d * x1^3 * x2^2 * y2 * x3 * y3^2 - d * x1^3 * x2 * y2^2 * x3^2 * y3
      + d * x1^3 * x2 * x3^2 * y3^3 + d * x1^3 * y2 * x3^3 * y3^2
      + d * x1^2 * y1 * x2^2 * y2 * x3^2 * y3 + d * x1^2 * y1 * x2 * y2^2 * x3 * y3^2
      + d * x1^2 * y1 * x2 * x3^3 * y3^2 + d * x1^2 * y1 * y2 * x3^2 * y3^3
      + d * x1 * y1^2 * x2^2 * y2 * x3 * y3^2 + d * x1 * y1^2 * x2 * y2^2 * x3^2 * y3
      - d * x1 * y1^2 * x2 * x3^2 * y3^3 - d * x1 * y1^2 * y2 * x3^3 * y3^2
      - d * x1 * x2^2 * y2 * x3 * y3^2 - d * x1 * x2 * y2^2 * x3^2 * y3 + d * x1 * x2 * x3^2 * y3^3
      + d * x1 * y2 * x3^3 * y3^2 - d * y1^3 * x2^2 * y2 * x3^2 * y3
      - d * y1^3 * x2 * y2^2 * x3 * y3^2 - d * y1^3 * x2 * x3^3 * y3^2
      - d * y1^3 * y2 * x3^2 * y3^3 + d * y1 * x2^2 * y2 * x3^2 * y3
      + d * y1 * x2 * y2^2 * x3 * y3^2 + d * y1 * x2 * x3^3 * y3^2 + d * y1 * y2 * x3^2 * y3^3
      + x1^3 * x2 * x3^2 * y3 - x1^3 * x2 * y3^3 + x1^3 * x2 * y3 + x1^3 * y2 * x3^3
      - x1^3 * y2 * x3 * y3^2 + x1^3 * y2 * x3 + x1^2 * y1 * x2 * x3^3 - x1^2 * y1 * x2 * x3 * y3^2
      + x1^2 * y1 * x2 * x3 + x1^2 * y1 * y2 * x3^2 * y3 - x1^2 * y1 * y2 * y3^3
      + x1^2 * y1 * y2 * y3 - x1 * y1^2 * x2 * x3^2 * y3 + x1 * y1^2 * x2 * y3^3
      - x1 * y1^2 * x2 * y3 - x1 * y1^2 * y2 * x3^3 + x1 * y1^2 * y2 * x3 * y3^2
      - x1 * y1^2 * y2 * x3 + x1 * x2 * x3^2 * y3 - x1 * x2 * y3^3 + x1 * x2 * y3 + x1 * y2 * x3^3
      - x1 * y2 * x3 * y3^2 + x1 * y2 * x3 - y1^3 * x2 * x3^3 + y1^3 * x2 * x3 * y3^2
      - y1^3 * x2 * x3 - y1^3 * y2 * x3^2 * y3 + y1^3 * y2 * y3^3 - y1^3 * y2 * y3 + y1 * x2 * x3^3
      - y1 * x2 * x3 * y3^2 + y1 * x2 * x3 + y1 * y2 * x3^2 * y3 - y1 * y2 * y3^3 + y1 * y2 * y3) _ _ _ _ C2).
  apply (eqp_step (
      - d * x1^2 * y1 * x2^2 * y2 * y3 + d * x1^2 * y1 * x2 * y2^2 * x3
      + d * x1 * y1^2 * x2^2 * y2 * x3 - d * x1 * y1^2 * x2 * y2^2 * y3 - x1^3 * x2^3 * y3
      - x1^3 * x2^2 * y2 * x3 + x1^3 * x2 * y2^2 * y3 - x1^3 * x2 * y3 + x1^3 * y2^3 * x3
      - x1^3 * y2 * x3 - x1^2 * y1 * x2^3 * x3 - x1^2 * y1 * x2^2 * y2 * y3
      + x1^2 * y1 * x2 * y2^2 * x3 - x1^2 * y1 * x2 * x3 + x1^2 * y1 * y2^3 * y3
      - x1^2 * y1 * y2 * y3 + x1 * y1^2 * x2^3 * y3 + x1 * y1^2 * x2^2 * y2 * x3
      - x1 * y1^2 * x2 * y2^2 * y3 + x1 * y1^2 * x2 * y3 - x1 * y1^2 * y2^3 * x3
      + x1 * y1^2 * y2 * x3 - x1 * x2^3 * y3 - x1 * x2^2 * y2 * x3 + x1 * x2 * y2^2 * y3
      - x1 * x2 * y3 + x1 * y2^3 * x3 - x1 * y2 * x3 + y1^3 * x2^3 * x3 + y1^3 * x2^2 * y2 * y3
      - y1^3 * x2 * y2^2 * x3 + y1^3 * x2 * x3 - y1^3 * y2^3 * y3 + y1^3 * y2 * y3 - y1 * x2^3 * x3
      - y1 * x2^2 * y2 * y3 + y1 * x2 * y2^2 * x3 - y1 * x2 * x3 + y1 * y2^3 * y3 - y1 * y2 * y3) _ _ _ _ C3).
  apply eqp_eq. ring.
Qed.

End Identities.

(** ** Associativity *)

(** The sum of three points as a fraction. *)
Lemma ed_sum_triple x1 y1 x2 y2 x3 y3 xs ys xu yu :
  ed_sum x1 y1 x2 y2 xs ys -> ed_sum xs ys x3 y3 xu yu ->
  let k := ed_d * (x1 * x2 * y1 * y2) in
  let X := x1 * y2 + y1 * x2 in
  let Y := y1 * y2 + x1 * x2 in
  xu * ((1 + k) * (1 - k) + ed_d * (X * x3 * Y * y3)) ≡ₚ X * (1 - k) * y3 + Y * (1 + k) * x3 /\
  yu * ((1 + k) * (1 - k) - ed_d * (X * x3 * Y * y3)) ≡ₚ Y * (1 + k) * y3 + X * (1 - k) * x3 /\
  unit_p ((1 + k) * (1 - k) + ed_d * (X * x3 * Y * y3)) /\
  unit_p ((1 + k) * (1 - k) - ed_d * (X * x3 * Y * y3)).
Proof.
  intros [Hx Hy Ux Uy] [Hx' Hy' Ux' Uy'] k X Y. fold k X Y in Hx, Hy. fold k in Ux, Uy.
  assert (DP : (1 + k) * (1 - k) + ed_d * (X * x3 * Y * y3)
    ≡ₚ (1 + k) * (1 - k) * (1 + ed_d * (xs * x3 * ys * y3))) by (rewrite <- Hx, <- Hy; apply eqp_eq; ring).
  assert (DM : (1 + k) * (1 - k) - ed_d * (X * x3 * Y * y3)
    ≡ₚ (1 + k) * (1 - k) * (1 - ed_d * (xs * x3 * ys * y3))) by (rewrite <- Hx, <- Hy; apply eqp_eq; ring).
  split_and!.
  - rewrite DP. transitivity ((1 + k) * (1 - k) * (xu * (1 + ed_d * (xs * x3 * ys * y3))));
      [apply eqp_eq; ring|]. rewrite Hx', <- Hx, <- Hy. apply eqp_eq. ring.
  - rewrite DM. transitivity ((1 + k) * (1 - k) * (yu * (1 - ed_d * (xs * x3 * ys * y3))));
      [apply eqp_eq; ring|]. rewrite Hy', <- Hx, <- Hy. apply eqp_eq. ring.
  - rewrite DP. auto with fe.
  - rewrite DM. auto with fe.
Qed.

(** Equal fractions. *)
Lemma eqp_fraction x y n m a b : x * a ≡ₚ n -> y * b ≡ₚ m -> unit_p a -> unit_p b ->
  n * b ≡ₚ m * a -> x ≡ₚ y.
Proof.
  intros Hx Hy Ua Ub E. apply (unit_cancel _ _ (a * b)); [auto with fe|].
  rewrite Z.mul_assoc, Hx, E, <- Hy. apply eqp_eq. ring.
Qed.

Lemma ed_add_assoc P Q R : on_curve P -> on_curve Q -> on_curve R ->
  ed_eq (ed_add (ed_add P Q) R) (ed_add P (ed_add Q R)).
Proof.
  intros HP HQ HR. rewrite (ed_add_comm P (ed_add Q R)).
  pose proof (ed_sum_triple _ _ _ _ _ _ _ _ _ _ (ed_add_sum P Q HP HQ)
    (ed_add_sum _ R (ed_add_on_curve P Q HP HQ) HR)) as TL.
  pose proof (ed_sum_triple _ _ _ _ _ _ _ _ _ _ (ed_add_sum Q R HQ HR)
    (ed_add_sum _ P (ed_add_on_curve Q R HQ HR) HP)) as TR.
  cbv zeta in TL, TR. unfold on_curve, ed_curve in HP, HQ, HR.
  set (U := ed_add (ed_add P Q) R) in *. set (V := ed_add (ed_add Q R) P) in *. clearbody U V.
  destruct P as [x1 y1], Q as [x2 y2], R as [x3 y3]. cbn [ed_px ed_py] in *.
  destruct TL as (Lx & Ly & UL & UL'), TR as (Rx & Ry & UR & UR').
  split.
  - apply (eqp_fraction _ _ _ _ _ _ Lx Rx UL UR).
    etransitivity; [|etransitivity; [exact (assoc_poly_x _ _ _ _ _ _ _ HP HQ HR)|]]; apply eqp_eq; ring.
  - apply (eqp_fraction _ _ _ _ _ _ Ly Ry UL' UR').
    etransitivity; [|etransitivity; [exact (assoc_poly_y _ _ _ _ _ _ _ HP HQ HR)|]]; apply eqp_eq; ring.
Qed.

(** ** The group of the curve *)

Record point := Point { pt : ed_point; pt_curve : on_curve pt }.

Definition pt_eq (P Q : point) : Prop := ed_eq (pt P) (pt Q).
Definition pt_add (P Q : point) : point :=
  Point (ed_add (pt P) (pt Q)) (ed_add_on_curve _ _ (pt_curve P) (pt_curve Q)).
Definition pt_zero : point := Point ed_zero ed_zero_on_curve.
Definition pt_opp (P : point) : point := Point (ed_opp (pt P)) (ed_opp_on_curve _ (pt_curve P)).

#[export] Instance curve_group : AbGroup point pt_eq pt_add pt_zero pt_opp.
Proof.
  unfold pt_eq. split; cbn [pt pt_add pt_zero pt_opp].
  - split; [intros P | intros P Q | intros P Q R]; cbn; [reflexivity | by symmetry | by etransitivity].
  - intros P P' HP Q Q' HQ. cbn. rewrite HP, HQ. reflexivity.
  - intros P P' HP. cbn. rewrite HP. reflexivity.
  - intros P Q R. apply ed_add_assoc; apply pt_curve.
  - intros P Q. apply ed_add_comm.
  - intros P. apply ed_add_0_l, pt_curve.
  - intros P. apply ed_add_opp_r, pt_curve.
Qed.

(** [n * P] on the curve. *)
Definition pt_mul : Z -> point -> point := gmul (op := pt_add) (e := pt_zero) (opp := pt_opp).
