(* ===== verification/Points.v ===== *)
(** * Representations of points of the group

    [p2_pt h P], [p3_pt h P], ... : the representation [h] stands for the point
    [P] of the curve. The operations of Ge.v in terms of the group: this is the
    interface the scalar multiplications use. *)

From Stdlib Require Import ZArith Lia.
From stdpp Require Import base tactics.
From S2P Require Import Prelude Radix Fe FeBytes FePow Ge Curve GeBytes Group CurveAssoc.
Open Scope Z_scope.

Declare Scope pt_scope.
Delimit Scope pt_scope with pt.
Infix "≡ₑ" := pt_eq (at level 70) : pt_scope.
Infix "⊕" := pt_add (at level 50, left associativity) : pt_scope.
Notation "⊖ P" := (pt_opp P) (at level 35, right associativity) : pt_scope.
Notation "n ⊙ P" := (pt_mul n P) (at level 40) : pt_scope.
Open Scope pt_scope.

Definition p2_pt (h : ge_p2) (P : point) : Prop := p2_rep h (ed_px (pt P)) (ed_py (pt P)).
Definition p3_pt (h : ge_p3) (P : point) : Prop := p3_rep h (ed_px (pt P)) (ed_py (pt P)).
Definition p1_pt (h : ge_p1p1) (P : point) : Prop := p1_rep h (ed_px (pt P)) (ed_py (pt P)).
Definition pre_pt (h : ge_precomp) (P : point) : Prop := pre_rep h (ed_px (pt P)) (ed_py (pt P)).
Definition ca_pt (h : ge_cached) (P : point) : Prop := ca_rep h (ed_px (pt P)) (ed_py (pt P)).

(** The representations do not distinguish equal points. *)
Ltac rep_proper :=
  let Hx := fresh "Hx" in let Hy := fresh "Hy" in
  intros h ? <- P Q [Hx Hy];
  unfold p2_pt, p3_pt, p1_pt, pre_pt, ca_pt, p2_rep, p3_rep, p1_rep, pre_rep, ca_rep;
  rewrite ?Hx, ?Hy; reflexivity.

#[export] Instance p2_pt_proper : Proper (eq ==> pt_eq ==> iff) p2_pt.
Proof. rep_proper. Qed.
#[export] Instance p3_pt_proper : Proper (eq ==> pt_eq ==> iff) p3_pt.
Proof. rep_proper. Qed.
#[export] Instance p1_pt_proper : Proper (eq ==> pt_eq ==> iff) p1_pt.
Proof. rep_proper. Qed.
#[export] Instance pre_pt_proper : Proper (eq ==> pt_eq ==> iff) pre_pt.
Proof. rep_proper. Qed.
#[export] Instance ca_pt_proper : Proper (eq ==> pt_eq ==> iff) ca_pt.
Proof. rep_proper. Qed.

Lemma ge_add_pt p q P Q : p3_pt p P -> ca_pt q Q -> p1_pt (ge_add p q) (P ⊕ Q).
Proof. intros Hp Hq. eapply ge_add_rep; [exact Hp | exact Hq |]. apply ed_add_sum; apply pt_curve. Qed.

Lemma ge_madd_pt p q P Q : p3_pt p P -> pre_pt q Q -> p1_pt (ge_madd p q) (P ⊕ Q).
Proof. intros Hp Hq. eapply ge_madd_rep; [exact Hp | exact Hq |]. apply ed_add_sum; apply pt_curve. Qed.

Lemma ge_sub_pt p q P Q : p3_pt p P -> ca_pt q Q -> p1_pt (ge_sub p q) (P ⊕ ⊖ Q).
Proof.
  intros Hp Hq. eapply ge_sub_rep; [exact Hp | exact Hq |].
  apply (ed_add_sum (pt P) (pt (pt_opp Q))); apply pt_curve.
Qed.

Lemma ge_msub_pt p q P Q : p3_pt p P -> pre_pt q Q -> p1_pt (ge_msub p q) (P ⊕ ⊖ Q).
Proof.
  intros Hp Hq. eapply ge_msub_rep; [exact Hp | exact Hq |].
  apply (ed_add_sum (pt P) (pt (pt_opp Q))); apply pt_curve.
Qed.

Lemma ge_p2_dbl_pt p P : p2_pt p P -> p1_pt (ge_p2_dbl p) (P ⊕ P).
Proof. intros Hp. eapply ge_p2_dbl_rep; [exact Hp | apply pt_curve | apply ed_add_sum; apply pt_curve]. Qed.

Lemma ge_p3_dbl_pt p P : p3_pt p P -> p1_pt (ge_p3_dbl p) (P ⊕ P).
Proof. intros Hp. eapply ge_p3_dbl_rep; [exact Hp | apply pt_curve | apply ed_add_sum; apply pt_curve]. Qed.

Lemma ge_p1p1_to_p2_pt r P : p1_pt r P -> p2_pt (ge_p1p1_to_p2 r) P.
Proof. apply ge_p1p1_to_p2_rep. Qed.
Lemma ge_p1p1_to_p3_pt r P : p1_pt r P -> p3_pt (ge_p1p1_to_p3 r) P.
Proof. apply ge_p1p1_to_p3_rep. Qed.
Lemma ge_p3_to_cached_pt p P : p3_pt p P -> ca_pt (ge_p3_to_cached p) P.
Proof. apply ge_p3_to_cached_rep. Qed.
Lemma ge_p3_to_p2_pt p P : p3_pt p P -> p2_pt (ge_p3_to_p2 p) P.
Proof. apply ge_p3_to_p2_rep. Qed.
Lemma ge_p2_0_pt : p2_pt ge_p2_0 pt_zero.
Proof. exact ge_p2_0_rep. Qed.
Lemma ge_p3_0_pt : p3_pt ge_p3_0 pt_zero.
Proof. exact ge_p3_0_rep. Qed.
Lemma ge_precomp_0_pt : pre_pt ge_precomp_0 pt_zero.
Proof. exact ge_precomp_0_rep. Qed.
Lemma ge_cached_0_pt : ca_pt ge_cached_0 pt_zero.
Proof. exact ge_cached_0_rep. Qed.

(** Negated table entries, as [select] and [ge_scalarmult] build them. *)
Lemma pre_neg_pt q Q : pre_pt q Q ->
  pre_pt (GePrecomp (fe_copy (pre_yminusx q)) (fe_copy (pre_yplusx q)) (fe_neg (pre_xy2d q))) (⊖ Q).
Proof.
  intros ((?&?&?) & EP & EM & E2). unfold pre_pt, pre_rep, pre_ok, pt_opp, ed_opp.
  cbn [pre_yplusx pre_yminusx pre_xy2d pt ed_px ed_py]. rewrite !fe_copy_eq.
  split_and!; [fe_bound.. | | |]; fe_values; rewrite ?EP, ?EM, ?E2; apply eqp_eq; ring.
Qed.

Lemma ca_neg_pt q Q : ca_pt q Q ->
  ca_pt (GeCached (fe_copy (ca_YminusX q)) (fe_copy (ca_YplusX q)) (fe_copy (ca_Z q)) (fe_neg (ca_T2d q))) (⊖ Q).
Proof.
  intros ((?&?&?&?) & U & EP & EM & E2). unfold ca_pt, ca_rep, ca_ok, pt_opp, ed_opp.
  cbn [ca_YplusX ca_YminusX ca_Z ca_T2d pt ed_px ed_py]. rewrite !fe_copy_eq.
  split_and!; [fe_bound.. | done | | |]; fe_values; rewrite ?EP, ?EM, ?E2; apply eqp_eq; ring.
Qed.

#[export] Instance pt_mul_proper : Proper (eq ==> pt_eq ==> pt_eq) pt_mul.
Proof. intros n ? <-. apply (gmul_proper (HG := curve_group)). Qed.
#[export] Instance pt_eq_equiv : Equivalence pt_eq.
Proof. apply (grp_equiv (AbGroup := curve_group)). Qed.

(** The laws of multiples, for [pt_mul]. *)
Lemma pt_mul_0 P : 0 ⊙ P ≡ₑ pt_zero.
Proof. reflexivity. Qed.
Lemma pt_mul_1 P : 1 ⊙ P ≡ₑ P.
Proof. apply (gmul_1 (HG := curve_group)). Qed.
Lemma pt_mul_add a b P : (a + b) ⊙ P ≡ₑ a ⊙ P ⊕ b ⊙ P.
Proof. apply (gmul_add (HG := curve_group)). Qed.
Lemma pt_mul_mul a b P : (a * b) ⊙ P ≡ₑ a ⊙ (b ⊙ P).
Proof. apply (gmul_mul (HG := curve_group)). Qed.
Lemma pt_mul_opp a P : (- a) ⊙ P ≡ₑ ⊖ (a ⊙ P).
Proof. apply (gmul_opp_l (HG := curve_group)). Qed.
Lemma pt_mul_2 P : 2 ⊙ P ≡ₑ P ⊕ P.
Proof. apply (gmul_2 (HG := curve_group)). Qed.
Lemma pt_mul_pt_add a P Q : a ⊙ (P ⊕ Q) ≡ₑ a ⊙ P ⊕ a ⊙ Q.
Proof. apply (gmul_op (HG := curve_group)). Qed.

#[export] Instance pt_add_proper : Proper (pt_eq ==> pt_eq ==> pt_eq) pt_add.
Proof. apply (grp_op (AbGroup := curve_group)). Qed.
#[export] Instance pt_opp_proper : Proper (pt_eq ==> pt_eq) pt_opp.
Proof. apply (grp_opp (AbGroup := curve_group)). Qed.
Lemma pt_add_assoc P Q R : P ⊕ Q ⊕ R ≡ₑ P ⊕ (Q ⊕ R).
Proof. apply (grp_assoc (AbGroup := curve_group)). Qed.
Lemma pt_add_comm P Q : P ⊕ Q ≡ₑ Q ⊕ P.
Proof. apply (grp_comm (AbGroup := curve_group)). Qed.
Lemma pt_add_0_l P : pt_zero ⊕ P ≡ₑ P.
Proof. apply (grp_e_l (AbGroup := curve_group)). Qed.
Lemma pt_add_0_r P : P ⊕ pt_zero ≡ₑ P.
Proof. rewrite pt_add_comm. apply pt_add_0_l. Qed.
Lemma pt_mul_zero a : a ⊙ pt_zero ≡ₑ pt_zero.
Proof. change pt_zero with (0 ⊙ pt_zero) at 1. rewrite <- pt_mul_mul, Z.mul_0_r. reflexivity. Qed.
