(* ===== verification/Slide.v ===== *)
(** * Signed sliding windows (crypto-ops.c, [slide])

    [slide] recodes a 256-bit number into 256 digits, each zero or odd of
    magnitude at most 15, by absorbing up to four bits into a digit and
    propagating a carry when it subtracts. The theorem: for a number below
    [2^255] no carry is lost, the digits have the stated form and their value
    is the number. *)

From Stdlib Require Import ZArith Lia.
From stdpp Require Import base tactics list numbers.
From S2P Require Import Prelude Radix.
Open Scope Z_scope.

(** ** Operations *)

(** [r[i] = 1 & (a[i >> 3] >> (i & 7))] *)
Definition slide_bits (a : list Z) : list Z :=
  map (fun i => Z.land 1 (Z.shiftr (nth (i / 8) a 0) (Z.of_nat (i mod 8)))) (seq 0 256).

(** [for (k = i + b; k < 256; ++k)]: the first zero from [k] on becomes 1 and
    the digits before it 0; [n] is [256 - k]. *)
Fixpoint slide_carry (n k : nat) (r : list Z) : list Z :=
  match n with
  | O => r
  | S n => if r !!! k =? 0 then <[k := 1]> r else slide_carry n (S k) (<[k := 0]> r)
  end.

(** [for (b = 1; b <= 6 && i + b < 256; ++b)]; [n] is [7 - b]. *)
Fixpoint slide_window (n i b : nat) (r : list Z) : list Z :=
  match n with
  | O => r
  | S n =>
      if (i + b <? 256)%nat then
        if negb (r !!! (i + b)%nat =? 0) then
          if r !!! i + Z.shiftl (r !!! (i + b)%nat) (Z.of_nat b) <=? 15 then
            let r := <[i := i8 (r !!! i + Z.shiftl (r !!! (i + b)%nat) (Z.of_nat b))]> r in
            slide_window n i (S b) (<[(i + b)%nat := 0]> r)
          else if - 15 <=? r !!! i - Z.shiftl (r !!! (i + b)%nat) (Z.of_nat b) then
            let r := <[i := i8 (r !!! i - Z.shiftl (r !!! (i + b)%nat) (Z.of_nat b))]> r in
            slide_window n i (S b) (slide_carry (256 - (i + b)) (i + b) r)
          else r
        else slide_window n i (S b) r
      else r
  end.

(** [for (i = 0; i < 256; ++i)]; [n] is [256 - i]. *)
Fixpoint slide_loop (n i : nat) (r : list Z) : list Z :=
  match n with
  | O => r
  | S n => slide_loop n (S i) (if negb (r !!! i =? 0) then slide_window 6 i 1 r else r)
  end.

Definition slide (a : list Z) : list Z := slide_loop 256 0 (slide_bits a).

(** The number the digits stand for. *)
Definition slide_val (r : list Z) : Z := evaln 1 256 r.

(** ** The invariant *)

Definition bits_from (i : nat) (r : list Z) : Prop :=
  forall k, (i <= k < 256)%nat -> r !!! k = 0 \/ r !!! k = 1.

Definition digit_ok (x : Z) : Prop := x = 0 \/ Z.odd x = true /\ Z.abs x <= 15.

(** ** Carries *)

Lemma length_slide_carry n k r : length (slide_carry n k r) = length r.
Proof.
  revert k r. induction n as [|n IH]; intros k r; cbn [slide_carry]; [done|].
  destruct (_ =? 0); [apply length_insert|]. rewrite IH. apply length_insert.
Qed.

Lemma slide_carry_below n k r m : (m < k)%nat -> slide_carry n k r !!! m = r !!! m.
Proof.
  revert k r. induction n as [|n IH]; intros k r Hm; cbn [slide_carry]; [done|].
  destruct (_ =? 0); [apply list_lookup_total_insert_ne; lia|].
  rewrite IH by lia. apply list_lookup_total_insert_ne. lia.
Qed.

Lemma bits_insert i k x r : length r = 256%nat -> bits_from i r -> x = 0 \/ x = 1 ->
  bits_from i (<[k := x]> r).
Proof.
  intros Hl Hb Hx m Hm. destruct (decide (m = k)) as [->|].
  - rewrite list_lookup_total_insert_eq by lia. done.
  - rewrite list_lookup_total_insert_ne by lia. by apply Hb.
Qed.

Lemma bits_weaken i j r : (i <= j)%nat -> bits_from i r -> bits_from j r.
Proof. intros Hij Hb k Hk. apply Hb. lia. Qed.

Lemma zero_or_ones (r : list Z) k n : (exists m, (k <= m < k + n)%nat /\ r !!! m = 0) \/
  (forall m, (k <= m < k + n)%nat -> r !!! m <> 0).
Proof.
  induction n as [|n [(m & Hm & E)|IH]].
  - right. lia.
  - left. exists m. split; [lia | done].
  - destruct (Z.eq_dec (r !!! (k + n)%nat) 0) as [E|E].
    + left. exists (k + n)%nat. split; [lia | done].
    + right. intros m Hm. destruct (decide (m = (k + n)%nat)) as [->|]; [done|]. apply IH. lia.
Qed.

Lemma evaln_ones (r : list Z) k n : (forall m, (k <= m < k + n)%nat -> r !!! m = 1) ->
  evaln 1 (k + n) r = evaln 1 k r + 2 ^ Z.of_nat (k + n) - 2 ^ Z.of_nat k.
Proof.
  induction n as [|n IH]; intros H; [rewrite Nat.add_0_r; lia|].
  rewrite Nat.add_succ_r. cbn [evaln]. rewrite IH, H by (intros; try apply H; lia).
  replace (1 * Z.of_nat (k + n)) with (Z.of_nat (k + n)) by lia.
  rewrite Nat2Z.inj_succ, Z.pow_succ_r by lia. lia.
Qed.

Lemma evaln_zeros (r : list Z) k n : (forall m, (k <= m < k + n)%nat -> r !!! m = 0) ->
  evaln 1 (k + n) r = evaln 1 k r.
Proof.
  induction n as [|n IH]; intros H; [by rewrite Nat.add_0_r|].
  rewrite Nat.add_succ_r. cbn [evaln]. rewrite IH, H by (intros; try apply H; lia). lia.
Qed.

(** The value as seen from outside: 256 digits are never unfolded. *)
Lemma slide_val_insert i x r : length r = 256%nat -> (i < 256)%nat ->
  slide_val (<[i := x]> r) = slide_val r + (x - r !!! i) * 2 ^ Z.of_nat i.
Proof.
  unfold slide_val. generalize 256%nat. intros n Hl Hi. rewrite evaln_insert_lt by lia.
  replace (1 * Z.of_nat i) with (Z.of_nat i) by lia. done.
Qed.

Lemma slide_val_ones k r : (k <= 256)%nat -> (forall m, (k <= m < 256)%nat -> r !!! m = 1) ->
  slide_val r = evaln 1 k r + 2 ^ 256 - 2 ^ Z.of_nat k.
Proof.
  unfold slide_val. change (2 ^ 256) with (2 ^ Z.of_nat 256). generalize 256%nat. intros n Hk H.
  replace n with (k + (n - k))%nat by lia. rewrite evaln_ones; [done|]. intros m Hm. apply H. lia.
Qed.

(** With a zero somewhere from [k] on, the carry adds [2^k] and clears [r[k]]
    if it was set. *)
Lemma slide_carry_spec n k r :
  length r = 256%nat -> (k + n = 256)%nat -> bits_from k r ->
  (exists m, (k <= m < 256)%nat /\ r !!! m = 0) ->
  bits_from k (slide_carry n k r) /\
  slide_val (slide_carry n k r) = slide_val r + 2 ^ Z.of_nat k /\
  (r !!! k = 1 -> slide_carry n k r !!! k = 0).
Proof.
  revert k r. induction n as [|n IH]; intros k r Hl Hn Hb (m & Hm & Em); [lia|].
  cbn [slide_carry]. destruct (Z.eqb_spec (r !!! k) 0) as [E|E].
  - split; [apply bits_insert; auto|]. split; [|lia].
    rewrite slide_val_insert, E by lia. lia.
  - assert (Ek : r !!! k = 1) by (destruct (Hb k); [lia | done..]).
    assert (m <> k) by congruence.
    destruct (IH (S k) (<[k := 0]> r)) as (B & V & _).
    + by rewrite length_insert.
    + lia.
    + apply bits_insert; [done | by apply (bits_weaken k); [lia|] | auto].
    + exists m. split; [lia|]. by rewrite list_lookup_total_insert_ne.
    + split; [|split].
      * intros j Hj. destruct (decide (j = k)) as [->|].
        -- rewrite slide_carry_below, list_lookup_total_insert_eq by lia. auto.
        -- apply B. lia.
      * rewrite V, slide_val_insert, Ek by lia.
        rewrite Nat2Z.inj_succ, Z.pow_succ_r by lia. lia.
      * intros _. rewrite slide_carry_below, list_lookup_total_insert_eq by lia. done.
Qed.

Lemma evaln_carry_prefix n k r j : (j <= k)%nat -> evaln 1 j (slide_carry n k r) = evaln 1 j r.
Proof.
  intros Hj. induction j as [|j IH]; [done|]. cbn [evaln].
  rewrite IH, slide_carry_below by lia. done.
Qed.

(** ** Windows

    The state in the middle of the window of digit [i]: [r_i] is odd and below
    [2^b], the digits up to [i + min b 5] are clear, the value is [v]. *)
Record window_ok (i b : nat) (v : Z) (r : list Z) : Prop := {
  wo_len : length r = 256%nat;
  wo_bits : bits_from (S i) r;
  wo_odd : Z.odd (r !!! i) = true;
  wo_abs : Z.abs (r !!! i) <= 15 /\ Z.abs (r !!! i) < 2 ^ Z.of_nat b;
  wo_zero : forall m, (i < m < i + Nat.min b 5)%nat -> (m < 256)%nat -> r !!! m = 0;
  wo_low : 2 * Z.abs (evaln 1 i r) < 2 ^ Z.of_nat i;
  wo_val : slide_val r = v }.

Lemma odd_shiftl x b : (0 < b)%nat -> Z.odd (Z.shiftl x (Z.of_nat b)) = false.
Proof.
  intros Hb. rewrite Z.shiftl_mul_pow2 by lia. rewrite Z.odd_mul.
  replace (Z.of_nat b) with (Z.succ (Z.of_nat (b - 1))) by lia.
  rewrite Z.pow_succ_r, (Z.odd_mul 2) by lia. cbn [Z.odd]. apply andb_false_r.
Qed.

Lemma pow_split b : (1 <= b)%nat -> 2 ^ Z.of_nat (S b) = 2 * 2 ^ Z.of_nat b.
Proof. intros. rewrite Nat2Z.inj_succ, Z.pow_succ_r by lia. done. Qed.

(** For [b <= 4] a set bit is always absorbed. *)
Lemma window_small b : (1 <= b <= 4)%nat -> 2 <= 2 ^ Z.of_nat b <= 16.
Proof.
  intros Hb. split.
  - change 2 with (2 ^ 1) at 1. apply Z.pow_le_mono_r; lia.
  - change 16 with (2 ^ 4). apply Z.pow_le_mono_r; lia.
Qed.

Lemma window_large b : (5 <= b)%nat -> 32 <= 2 ^ Z.of_nat b.
Proof. intros Hb. change 32 with (2 ^ 5). apply Z.pow_le_mono_r; lia. Qed.

Lemma odd_bound x : Z.odd x = true -> - 17 < x -> - 15 <= x.
Proof.
  intros Ho Hx. destruct (Z.eq_dec x (-16)) as [->|]; [discriminate | lia].
Qed.

Section Window.
Variables (i b : nat) (v : Z) (r : list Z).
Hypothesis Hv : 0 <= v < 2 ^ 255.
Hypothesis Hr : window_ok i b v r.
Hypothesis Hb : (1 <= b)%nat.
Hypothesis Hib : (i + b < 256)%nat.

(** A clear bit. *)
Lemma window_skip : r !!! (i + b)%nat = 0 -> window_ok i (S b) v r.
Proof using All.
  intros E. destruct Hr as [Hl Bits Odd Abs Zero Low Val].
  split; [done | done | done | | | done | done].
  - rewrite pow_split by done. lia.
  - intros m Hm Hm2. destruct (decide (m = (i + b)%nat)) as [->|]; [done|]. apply Zero; lia.
Qed.

Hypothesis Hx : r !!! (i + b)%nat = 1.

Local Abbreviation x := (r !!! i).
Local Abbreviation w := (2 ^ Z.of_nat b).

Lemma window_shift : Z.shiftl (r !!! (i + b)%nat) (Z.of_nat b) = w.
Proof using All. rewrite Hx, Z.shiftl_mul_pow2 by lia. lia. Qed.

Lemma pow_ib : 2 ^ Z.of_nat (i + b) = 2 ^ Z.of_nat i * w.
Proof using All. rewrite Nat2Z.inj_add, Z.pow_add_r by lia. done. Qed.

(** The bit is added to the digit. *)
Lemma window_add : x + w <= 15 -> 
  window_ok i (S b) v (<[(i + b)%nat := 0]> (<[i := i8 (x + w)]> r)).
Proof using All.
  intros Hle. destruct Hr as [Hl Bits Odd [Abs15 Abs] Zero Low Val].
  rewrite i8_id by lia. assert (0 < w) by (apply Z.pow_pos_nonneg; lia).
  assert (Eo : Z.odd (x + w) = true).
  { rewrite Z.odd_add, Odd, <- window_shift, odd_shiftl by lia. done. }
  split.
  - rewrite !length_insert. done.
  - apply bits_insert; [by rewrite length_insert | | auto]. intros m Hm.
    rewrite list_lookup_total_insert_ne by lia. by apply Bits.
  - rewrite list_lookup_total_insert_ne, list_lookup_total_insert_eq by lia. done.
  - rewrite list_lookup_total_insert_ne, list_lookup_total_insert_eq, pow_split by lia. lia.
  - intros m Hm Hm2. destruct (decide (m = (i + b)%nat)) as [->|].
    + rewrite list_lookup_total_insert_eq by (rewrite length_insert; lia). done.
    + rewrite !list_lookup_total_insert_ne by lia. apply Zero; lia.
  - rewrite !evaln_insert_ge by lia. done.
  - rewrite !slide_val_insert by (rewrite ?length_insert; lia).
    rewrite list_lookup_total_insert_ne, Hx, Val by lia. rewrite pow_ib. lia.
Qed.

(** No carry is lost: not all digits from [i + b] on are 1. *)
Lemma window_room : (b <= 4)%nat -> 15 < x + w ->
  exists m, (i + b <= m < 256)%nat /\ r !!! m = 0.
Proof using All.
  intros H4 Hgt. pose proof (window_small b ltac:(lia)) as Hw.
  destruct Hr as [Hl Bits Odd [Abs15 Abs] Zero Low Val].
  destruct (zero_or_ones r (i + b) (256 - (i + b))) as [(m & Hm & E)|N].
  { exists m. split; [lia | done]. }
  exfalso. rewrite (slide_val_ones (i + b)) in Val; [|lia|].
  - replace (i + b)%nat with (S i + (b - 1))%nat in Val at 1 by lia.
    rewrite evaln_zeros in Val by (intros m Hm; apply Zero; lia).
    cbn [evaln] in Val. replace (1 * Z.of_nat i) with (Z.of_nat i) in Val by lia.
    change (2 ^ 256) with (2 * 2 ^ 255) in Val.
    assert (2 ^ Z.of_nat (i + b) <= 2 ^ 255) by (apply Z.pow_le_mono_r; lia).
    assert (0 < 2 ^ Z.of_nat i) by (apply Z.pow_pos_nonneg; lia).
    assert (x <> 0) by (intros E; rewrite E in Odd; discriminate).
    assert (1 * 2 ^ Z.of_nat i <= x * 2 ^ Z.of_nat i) by (apply Z.mul_le_mono_nonneg_r; lia). lia.
  - intros m Hm. destruct (Bits m) as [E|E]; [lia | | done]. by apply N in E; [|lia].
Qed.

(** The bit is subtracted and a carry propagated. *)
Lemma window_sub : (b <= 4)%nat -> 15 < x + w ->
  - 15 <= x - w /\
  window_ok i (S b) v (slide_carry (256 - (i + b)) (i + b) (<[i := i8 (x - w)]> r)).
Proof using All.
  intros H4 Hgt. pose proof (window_room H4 Hgt) as Room.
  pose proof (window_small b ltac:(lia)) as Hw.
  destruct Hr as [Hl Bits Odd [Abs15 Abs] Zero Low Val].
  assert (Eo : Z.odd (x - w) = true).
  { rewrite Z.odd_sub, Odd, <- window_shift, odd_shiftl by lia. done. }
  assert (H15 : - 15 <= x - w) by (apply odd_bound; [done | lia]).
  split; [done|]. rewrite i8_id by lia.
  set (r1 := <[i := x - w]> r).
  assert (Hl1 : length r1 = 256%nat) by (unfold r1; by rewrite length_insert).
  assert (E1 : forall m, (i < m)%nat -> r1 !!! m = r !!! m).
  { intros m Hm. unfold r1. apply list_lookup_total_insert_ne. lia. }
  destruct (slide_carry_spec (256 - (i + b)) (i + b) r1) as (B & V & C).
  - done.
  - lia.
  - intros m Hm. rewrite E1 by lia. apply Bits. lia.
  - destruct Room as (m & Hm & Em). exists m. split; [done|]. rewrite E1 by lia. done.
  - assert (Hi : slide_carry (256 - (i + b)) (i + b) r1 !!! i = x - w).
    { rewrite slide_carry_below by lia. unfold r1. apply list_lookup_total_insert_eq. lia. }
    split.
    + by rewrite length_slide_carry.
    + intros m Hm. destruct (decide (i + b <= m)%nat); [apply B; lia|].
      rewrite slide_carry_below, E1 by lia. by apply Bits.
    + rewrite Hi. done.
    + rewrite Hi, pow_split by done. lia.
    + intros m Hm Hm2. destruct (decide (m = (i + b)%nat)) as [->|].
      * apply C. rewrite E1 by lia. done.
      * rewrite slide_carry_below, E1 by lia. apply Zero; lia.
    + rewrite evaln_carry_prefix by lia. unfold r1. rewrite evaln_insert_ge by lia. done.
    + rewrite V. unfold r1. rewrite slide_val_insert, Val by lia. rewrite pow_ib. lia.
Qed.

End Window.

(** At the end of a window the four digits after it are clear. *)
Definition window_done (i : nat) (v : Z) (r : list Z) : Prop :=
  length r = 256%nat /\ bits_from (S i) r /\ Z.odd (r !!! i) = true /\ Z.abs (r !!! i) <= 15 /\
  (forall m, (i < m < i + 5)%nat -> (m < 256)%nat -> r !!! m = 0) /\ slide_val r = v.

Lemma window_ok_done i b v r : window_ok i b v r -> (5 <= b)%nat \/ (256 <= i + b)%nat ->
  window_done i v r.
Proof.
  intros [Hl Bits Odd [Abs15 Abs] Zero Low Val] Hb.
  split_and!; try done. intros m Hm Hm2. apply Zero; lia.
Qed.

Lemma slide_window_prefix n i b r j : (j <= i)%nat ->
  evaln 1 j (slide_window n i b r) = evaln 1 j r.
Proof.
  revert b r. induction n as [|n IH]; intros b r Hj; cbn [slide_window]; [done|].
  destruct (i + b <? 256)%nat; [|done]. destruct (negb _); [|by apply IH].
  destruct (_ <=? 15); [rewrite IH, !evaln_insert_ge by lia; done|].
  destruct (-15 <=? _); [|done]. rewrite IH, evaln_carry_prefix, evaln_insert_ge by lia. done.
Qed.

Lemma slide_window_below n i b r m : (m < i)%nat -> slide_window n i b r !!! m = r !!! m.
Proof.
  revert b r. induction n as [|n IH]; intros b r Hm; cbn [slide_window]; [done|].
  destruct (i + b <? 256)%nat; [|done]. destruct (negb _); [|by apply IH].
  destruct (_ <=? 15); [rewrite IH, !list_lookup_total_insert_ne by lia; done|].
  destruct (-15 <=? _); [|done].
  rewrite IH, slide_carry_below, list_lookup_total_insert_ne by lia. done.
Qed.

Lemma slide_window_spec n i b v r :
  0 <= v < 2 ^ 255 -> (1 <= b)%nat -> (b + n = 7)%nat -> window_ok i b v r ->
  window_done i v (slide_window n i b r).
Proof.
  intros Hv. revert b r. induction n as [|n IH]; intros b r Hb Hn Hr; cbn [slide_window].
  { apply (window_ok_done i b); [done | lia]. }
  destruct (Nat.ltb_spec (i + b) 256) as [Hib|Hib]; [|apply (window_ok_done i b); auto].
  destruct (Z.eqb_spec (r !!! (i + b)%nat) 0) as [E|E]; cbn [negb].
  { apply IH; [lia | lia |]. by apply window_skip. }
  assert (Hx : r !!! (i + b)%nat = 1) by (destruct (wo_bits _ _ _ _ Hr (i + b)%nat); [lia | done..]).
  rewrite (window_shift i b v r) by done. pose proof (wo_abs _ _ _ _ Hr) as [Abs15 Abs].
  destruct (le_lt_dec b 4) as [H4|H4].
  - destruct (Z.leb_spec (r !!! i + 2 ^ Z.of_nat b) 15) as [H15|H15].
    + apply IH; [lia | lia |]. by apply window_add.
    + destruct (window_sub i b v r Hv Hr Hb Hib Hx H4 H15) as [Hge Hok].
      destruct (Z.leb_spec (- 15) (r !!! i - 2 ^ Z.of_nat b)); [|lia].
      apply IH; [lia | lia | done].
  - pose proof (window_large b ltac:(lia)).
    destruct (Z.leb_spec (r !!! i + 2 ^ Z.of_nat b) 15); [lia|].
    destruct (Z.leb_spec (- 15) (r !!! i - 2 ^ Z.of_nat b)); [lia|].
    apply (window_ok_done i b); [done | lia].
Qed.

(** Before digit [i]: the digits below are final, the bits from [i] on are
    bits, [g] of them are known to be clear. *)
Record slide_inv (i : nat) (v : Z) (r : list Z) : Prop := {
  si_len : length r = 256%nat;
  si_bits : bits_from i r;
  si_digits : forall k, (k < i)%nat -> digit_ok (r !!! k);
  si_gap : exists g, (forall m, (i <= m < i + g)%nat -> (m < 256)%nat -> r !!! m = 0) /\
                     2 * Z.abs (evaln 1 i r) < 2 ^ Z.of_nat (i + g);
  si_val : slide_val r = v }.

Lemma slide_inv_skip i v r : (i < 256)%nat -> r !!! i = 0 -> slide_inv i v r -> slide_inv (S i) v r.
Proof.
  intros Hi E [Hl Bits Digits (g & Gap & Low) Val].
  split; [done | by apply (bits_weaken i); [lia|] | | | done].
  - intros k Hk. destruct (decide (k = i)) as [->|]; [by left | apply Digits; lia].
  - exists (g - 1)%nat. split; [intros m Hm; apply Gap; lia|]. cbn [evaln]. rewrite E, Z.mul_0_l, Z.add_0_r.
    assert (2 ^ Z.of_nat (i + g) <= 2 ^ Z.of_nat (S i + (g - 1))) by (apply Z.pow_le_mono_r; lia). lia.
Qed.

Lemma slide_inv_window i v r : 0 <= v < 2 ^ 255 -> (i < 256)%nat -> r !!! i <> 0 -> slide_inv i v r ->
  slide_inv (S i) v (slide_window 6 i 1 r).
Proof.
  intros Hv Hi E [Hl Bits Digits (g & Gap & Low) Val].
  assert (E1 : r !!! i = 1) by (destruct (Bits i); [lia | done..]).
  assert (g = 0%nat) as -> by (destruct g; [done | exfalso; apply E, Gap; lia]).
  rewrite Nat.add_0_r in Low.
  assert (W : window_ok i 1 v r).
  { split; [done | by apply (bits_weaken i); [lia|] | by rewrite E1 | rewrite E1; cbn; lia | lia | done | done]. }
  destruct (slide_window_spec 6 i 1 v r Hv ltac:(lia) eq_refl W) as (Hl' & Bits' & Odd & Abs & Zero & Val').
  split; [done | done | | | done].
  - intros k Hk. destruct (decide (k = i)) as [->|]; [by right|].
    rewrite slide_window_below by lia. apply Digits. lia.
  - exists 4%nat. split; [intros m Hm; apply Zero; lia|]. cbn [evaln].
    rewrite slide_window_prefix by lia. replace (1 * Z.of_nat i) with (Z.of_nat i) by lia.
    replace (Z.of_nat (S i + 4)) with (Z.of_nat i + 5) by lia. rewrite Z.pow_add_r by lia.
    change (2 ^ 5) with 32. assert (0 < 2 ^ Z.of_nat i) by (apply Z.pow_pos_nonneg; lia). nia.
Qed.

Lemma slide_loop_spec n i v r : 0 <= v < 2 ^ 255 -> (i + n = 256)%nat -> slide_inv i v r ->
  slide_inv 256 v (slide_loop n i r).
Proof.
  intros Hv. revert i r. induction n as [|n IH]; intros i r Hn Hr; cbn [slide_loop].
  { replace i with 256%nat in Hr by lia. exact Hr. }
  apply IH; [lia|]. destruct (Z.eqb_spec (r !!! i) 0) as [E|E]; cbn [negb].
  - apply slide_inv_skip; [lia | done..].
  - apply slide_inv_window; [done | lia | done..].
Qed.

(** ** The bits *)

Lemma testbit_byte a i : byte_ok a ->
  Z.land 1 (Z.shiftr (nth (i / 8) a 0) (Z.of_nat (i mod 8))) = Z.b2z (Z.testbit (le_val a) (Z.of_nat i)).
Proof.
  intros Ha. rewrite Z.land_comm. change 1 with (Z.ones 1). rewrite Z.land_ones, Z.shiftr_div_pow2 by lia.
  rewrite Z.testbit_spec' by lia. change (2 ^ 1) with 2.
  assert (E : nth (i / 8) a 0 = (le_val a / 2 ^ (8 * Z.of_nat (i / 8))) mod 2 ^ 8).
  { rewrite <- le_val_drop by done. rewrite <- (Nat.add_0_r (i / 8)) at 1. rewrite <- nth_skipn.
    pose proof (byte_ok_drop (i / 8) a Ha) as Hd. change (skipn (i / 8) a) with (drop (i / 8) a).
    destruct Hd as [|b l Hb Hl]; [done|]. cbn [nth le_val].
    rewrite Z.mul_comm, Z_mod_plus_full, Z.mod_small by lia. done. }
  rewrite E. pose proof (Nat.div_mod_eq i 8). pose proof (Nat.mod_upper_bound i 8 ltac:(lia)).
  replace 8 with (Z.of_nat (i mod 8) + (8 - Z.of_nat (i mod 8))) at 2 by lia.
  rewrite div_mod_pow, div_div_pow by lia. 
  match goal with |- ?x mod 2 = ?y mod 2 => change (x mod 2 ^ 1 = y mod 2 ^ 1) end.
  rewrite mod_mod_pow by lia. do 3 f_equal. lia.
Qed.

Lemma slide_bits_lookup a i : byte_ok a -> (i < 256)%nat ->
  slide_bits a !!! i = (le_val a / 2 ^ (1 * Z.of_nat i)) mod 2 ^ 1.
Proof.
  intros Ha Hi. unfold slide_bits. apply list_lookup_total_correct.
  rewrite list_lookup_fmap, lookup_seq_lt by lia. cbn [fmap option_fmap option_map Nat.add].
  f_equal. rewrite testbit_byte, Z.testbit_spec' by (done || lia).
  replace (1 * Z.of_nat i) with (Z.of_nat i) by lia. done.
Qed.

Lemma slide_bits_val a : byte_ok a -> slide_val (slide_bits a) = le_val a mod 2 ^ 256.
Proof.
  intros Ha. unfold slide_val. change (2 ^ 256) with (2 ^ (1 * Z.of_nat 256)).
  apply evaln_digits; [lia|]. intros i Hi. by apply slide_bits_lookup.
Qed.

Lemma slide_spec a : byte_ok a -> le_val a < 2 ^ 255 ->
  length (slide a) = 256%nat /\ slide_val (slide a) = le_val a /\
  forall k, (k < 256)%nat -> digit_ok (slide a !!! k).
Proof.
  intros Ha Hlt. pose proof (le_val_range a Ha) as Hr.
  destruct (slide_loop_spec 256 0 (le_val a) (slide_bits a)) as [Hl _ Digits _ Val].
  - lia.
  - done.
  - split.
    + unfold slide_bits. by rewrite length_map, length_seq.
    + intros k Hk. rewrite slide_bits_lookup by (done || lia).
      pose proof (Z.mod_pos_bound (le_val a / 2 ^ (1 * Z.of_nat k)) (2 ^ 1)). lia.
    + lia.
    + exists 0%nat. split; [lia | done].
    + rewrite slide_bits_val by done. apply Z.mod_small. lia.
  - auto.
Qed.
