(* ===== verification/Sc.v ===== *)
(** * Scalars modulo the group order (crypto-ops.c, [sc_*])

    The functions [sc_reduce], [sc_reduce32], [sc_add], [sc_sub], [sc_mulsub],
    [sc_mul] and [sc_muladd] are straight-line code on the local variables
    [s0..s23] of type [int64_t]: loads of 21-bit limbs, products, and then a
    sequence of three kinds of statement groups (a rounded carry, a carry
    rounded down, the elimination of a limb above 2^252). The locals are a list
    and the sequence is a list of [sc_op]; [sc_step] is the meaning of a group.
    A checker on intervals ([itv_run]) proves that no operation overflows and
    that the value modulo the order is kept; the theorems then say that the
    32 bytes written are the canonical representative. *)

From Stdlib Require Import ZArith Lia.
From stdpp Require Import base tactics list numbers.
From S2P Require Import Prelude Radix.
Open Scope Z_scope.

(** The order of the base point. *)
Definition sc_l : Z := 2 ^ 252 + 27742317777372353535851937790883648493.

(** ** Operations *)

(** The loads of the 24 limbs of a 64-byte string. *)
Definition sc_load64 (s : list Z) : list Z :=
  [ Z.land 2097151 (load_3 s);
    Z.land 2097151 (Z.shiftr (load_4 (drop 2 s)) 5);
    Z.land 2097151 (Z.shiftr (load_3 (drop 5 s)) 2);
    Z.land 2097151 (Z.shiftr (load_4 (drop 7 s)) 7);
    Z.land 2097151 (Z.shiftr (load_4 (drop 10 s)) 4);
    Z.land 2097151 (Z.shiftr (load_3 (drop 13 s)) 1);
    Z.land 2097151 (Z.shiftr (load_4 (drop 15 s)) 6);
    Z.land 2097151 (Z.shiftr (load_3 (drop 18 s)) 3);
    Z.land 2097151 (load_3 (drop 21 s));
    Z.land 2097151 (Z.shiftr (load_4 (drop 23 s)) 5);
    Z.land 2097151 (Z.shiftr (load_3 (drop 26 s)) 2);
    Z.land 2097151 (Z.shiftr (load_4 (drop 28 s)) 7);
    Z.land 2097151 (Z.shiftr (load_4 (drop 31 s)) 4);
    Z.land 2097151 (Z.shiftr (load_3 (drop 34 s)) 1);
    Z.land 2097151 (Z.shiftr (load_4 (drop 36 s)) 6);
    Z.land 2097151 (Z.shiftr (load_3 (drop 39 s)) 3);
    Z.land 2097151 (load_3 (drop 42 s));
    Z.land 2097151 (Z.shiftr (load_4 (drop 44 s)) 5);
    Z.land 2097151 (Z.shiftr (load_3 (drop 47 s)) 2);
    Z.land 2097151 (Z.shiftr (load_4 (drop 49 s)) 7);
    Z.land 2097151 (Z.shiftr (load_4 (drop 52 s)) 4);
    Z.land 2097151 (Z.shiftr (load_3 (drop 55 s)) 1);
    Z.land 2097151 (Z.shiftr (load_4 (drop 57 s)) 6);
    Z.shiftr (load_4 (drop 60 s)) 3 ].

(** The loads of the 12 limbs of a 32-byte string; the last one is not masked. *)
Definition sc_load32 (s : list Z) : list Z :=
  [ Z.land 2097151 (load_3 s);
    Z.land 2097151 (Z.shiftr (load_4 (drop 2 s)) 5);
    Z.land 2097151 (Z.shiftr (load_3 (drop 5 s)) 2);
    Z.land 2097151 (Z.shiftr (load_4 (drop 7 s)) 7);
    Z.land 2097151 (Z.shiftr (load_4 (drop 10 s)) 4);
    Z.land 2097151 (Z.shiftr (load_3 (drop 13 s)) 1);
    Z.land 2097151 (Z.shiftr (load_4 (drop 15 s)) 6);
    Z.land 2097151 (Z.shiftr (load_3 (drop 18 s)) 3);
    Z.land 2097151 (load_3 (drop 21 s));
    Z.land 2097151 (Z.shiftr (load_4 (drop 23 s)) 5);
    Z.land 2097151 (Z.shiftr (load_3 (drop 26 s)) 2);
    Z.shiftr (load_4 (drop 28 s)) 7 ].

(** [s_i += s_k * c] and [s_i -= s_k * c] *)
Definition sc_mac (i k : nat) (c : Z) (s : list Z) : list Z :=
  <[i := i64 (s !!! i + i64 (s !!! k * c))]> s.
Definition sc_msub (i k : nat) (c : Z) (s : list Z) : list Z :=
  <[i := i64 (s !!! i - i64 (s !!! k * c))]> s.

(** The statement groups. [RND i] is
    [carry = (s_i + (1<<20)) >> 21; s_(i+1) += carry; s_i -= carry << 21;],
    [FLR i] the same without the [1<<20], [FOLD k] the six lines that use
    [s_k] up, and [ZERO k] is [s_k = 0]. *)
Inductive sc_op := RND (i : nat) | FLR (i : nat) | FOLD (k : nat) | ZERO (k : nat).

Definition sc_fold (k : nat) (s : list Z) : list Z :=
  let s := sc_mac (k - 12) k 666643 s in
  let s := sc_mac (k - 11) k 470296 s in
  let s := sc_mac (k - 10) k 654183 s in
  let s := sc_msub (k - 9) k 997805 s in
  let s := sc_mac (k - 8) k 136657 s in
  sc_msub (k - 7) k 683901 s.

Definition sc_step (o : sc_op) (s : list Z) : list Z :=
  match o with
  | RND i => let '(lo, hi) := carry_rnd 21 (s !!! i) (s !!! S i) in <[S i := hi]> (<[i := lo]> s)
  | FLR i => let '(lo, hi) := carry_flr 21 (s !!! i) (s !!! S i) in <[S i := hi]> (<[i := lo]> s)
  | FOLD k => sc_fold k s
  | ZERO k => <[k := 0]> s
  end.

Definition sc_run (ops : list sc_op) (s : list Z) : list Z :=
  fold_left (fun s o => sc_step o s) ops s.

(** The groups the seven functions share. *)
Definition sc_round13 : list sc_op :=
  map RND [0; 2; 4; 6; 8; 10]%nat ++ map RND [1; 3; 5; 7; 9; 11]%nat ++ [FOLD 12; ZERO 12].
Definition sc_floor : list sc_op :=
  map FLR [0; 1; 2; 3; 4; 5; 6; 7; 8; 9; 10; 11]%nat.
Definition sc_final : list sc_op :=
  FOLD 12 :: map FLR [0; 1; 2; 3; 4; 5; 6; 7; 8; 9; 10]%nat.
Definition sc_fold24 : list sc_op :=
  map FOLD [23; 22; 21; 20; 19; 18]%nat ++
  map RND [6; 8; 10; 12; 14; 16]%nat ++ map RND [7; 9; 11; 13; 15]%nat ++
  map FOLD [17; 16; 15; 14; 13; 12]%nat ++ [ZERO 12].
Definition sc_round24 : list sc_op :=
  map RND [0; 2; 4; 6; 8; 10; 12; 14; 16; 18; 20; 22]%nat ++
  map RND [1; 3; 5; 7; 9; 11; 13; 15; 17; 19; 21]%nat.

(** The stores of [s0..s11], each truncated to a byte. *)
Definition sc_pack (s : list Z) : list Z :=
  let s0 := s !!! 0%nat in let s1 := s !!! 1%nat in let s2 := s !!! 2%nat in
  let s3 := s !!! 3%nat in let s4 := s !!! 4%nat in let s5 := s !!! 5%nat in
  let s6 := s !!! 6%nat in let s7 := s !!! 7%nat in let s8 := s !!! 8%nat in
  let s9 := s !!! 9%nat in let s10 := s !!! 10%nat in let s11 := s !!! 11%nat in
  [ u8 (Z.shiftr s0 0); u8 (Z.shiftr s0 8); u8 (Z.lor (Z.shiftr s0 16) (Z.shiftl s1 5));
    u8 (Z.shiftr s1 3); u8 (Z.shiftr s1 11); u8 (Z.lor (Z.shiftr s1 19) (Z.shiftl s2 2));
    u8 (Z.shiftr s2 6); u8 (Z.lor (Z.shiftr s2 14) (Z.shiftl s3 7));
    u8 (Z.shiftr s3 1); u8 (Z.shiftr s3 9); u8 (Z.lor (Z.shiftr s3 17) (Z.shiftl s4 4));
    u8 (Z.shiftr s4 4); u8 (Z.shiftr s4 12); u8 (Z.lor (Z.shiftr s4 20) (Z.shiftl s5 1));
    u8 (Z.shiftr s5 7); u8 (Z.lor (Z.shiftr s5 15) (Z.shiftl s6 6));
    u8 (Z.shiftr s6 2); u8 (Z.shiftr s6 10); u8 (Z.lor (Z.shiftr s6 18) (Z.shiftl s7 3));
    u8 (Z.shiftr s7 5); u8 (Z.shiftr s7 13);
    u8 (Z.shiftr s8 0); u8 (Z.shiftr s8 8); u8 (Z.lor (Z.shiftr s8 16) (Z.shiftl s9 5));
    u8 (Z.shiftr s9 3); u8 (Z.shiftr s9 11); u8 (Z.lor (Z.shiftr s9 19) (Z.shiftl s10 2));
    u8 (Z.shiftr s10 6); u8 (Z.lor (Z.shiftr s10 14) (Z.shiftl s11 7));
    u8 (Z.shiftr s11 1); u8 (Z.shiftr s11 9); u8 (Z.shiftr s11 17) ].

Section Products.
Local Open Scope cint_scope.

(** [s0..s23] of [sc_mul] *)
Definition sc_mul_limbs (a b : list Z) : list Z :=
  let a0 := a !!! 0%nat in let a1 := a !!! 1%nat in let a2 := a !!! 2%nat in
  let a3 := a !!! 3%nat in let a4 := a !!! 4%nat in let a5 := a !!! 5%nat in
  let a6 := a !!! 6%nat in let a7 := a !!! 7%nat in let a8 := a !!! 8%nat in
  let a9 := a !!! 9%nat in let a10 := a !!! 10%nat in let a11 := a !!! 11%nat in
  let b0 := b !!! 0%nat in let b1 := b !!! 1%nat in let b2 := b !!! 2%nat in
  let b3 := b !!! 3%nat in let b4 := b !!! 4%nat in let b5 := b !!! 5%nat in
  let b6 := b !!! 6%nat in let b7 := b !!! 7%nat in let b8 := b !!! 8%nat in
  let b9 := b !!! 9%nat in let b10 := b !!! 10%nat in let b11 := b !!! 11%nat in
  [ a0 *₆₄ b0;
    (a0 *₆₄ b1 +₆₄ a1 *₆₄ b0);
    (a0 *₆₄ b2 +₆₄ a1 *₆₄ b1 +₆₄ a2 *₆₄ b0);
    (a0 *₆₄ b3 +₆₄ a1 *₆₄ b2 +₆₄ a2 *₆₄ b1 +₆₄ a3 *₆₄ b0);
    (a0 *₆₄ b4 +₆₄ a1 *₆₄ b3 +₆₄ a2 *₆₄ b2 +₆₄ a3 *₆₄ b1 +₆₄ a4 *₆₄ b0);
    (a0 *₆₄ b5 +₆₄ a1 *₆₄ b4 +₆₄ a2 *₆₄ b3 +₆₄ a3 *₆₄ b2 +₆₄ a4 *₆₄ b1 +₆₄ a5 *₆₄ b0);
    (a0 *₆₄ b6 +₆₄ a1 *₆₄ b5 +₆₄ a2 *₆₄ b4 +₆₄ a3 *₆₄ b3 +₆₄ a4 *₆₄ b2 +₆₄ a5 *₆₄ b1 +₆₄ a6 *₆₄ b0);
    (a0 *₆₄ b7 +₆₄ a1 *₆₄ b6 +₆₄ a2 *₆₄ b5 +₆₄ a3 *₆₄ b4 +₆₄ a4 *₆₄ b3 +₆₄ a5 *₆₄ b2 +₆₄ a6 *₆₄ b1 +₆₄ a7 *₆₄ b0);
    (a0 *₆₄ b8 +₆₄ a1 *₆₄ b7 +₆₄ a2 *₆₄ b6 +₆₄ a3 *₆₄ b5 +₆₄ a4 *₆₄ b4 +₆₄ a5 *₆₄ b3 +₆₄ a6 *₆₄ b2 +₆₄ a7 *₆₄ b1 +₆₄ a8 *₆₄ b0);
    (a0 *₆₄ b9 +₆₄ a1 *₆₄ b8 +₆₄ a2 *₆₄ b7 +₆₄ a3 *₆₄ b6 +₆₄ a4 *₆₄ b5 +₆₄ a5 *₆₄ b4 +₆₄ a6 *₆₄ b3 +₆₄ a7 *₆₄ b2 +₆₄ a8 *₆₄ b1 +₆₄ a9 *₆₄ b0);
    (a0 *₆₄ b10 +₆₄ a1 *₆₄ b9 +₆₄ a2 *₆₄ b8 +₆₄ a3 *₆₄ b7 +₆₄ a4 *₆₄ b6 +₆₄ a5 *₆₄ b5 +₆₄ a6 *₆₄ b4 +₆₄ a7 *₆₄ b3 +₆₄ a8 *₆₄ b2 +₆₄ a9 *₆₄ b1 +₆₄ a10 *₆₄ b0);
    (a0 *₆₄ b11 +₆₄ a1 *₆₄ b10 +₆₄ a2 *₆₄ b9 +₆₄ a3 *₆₄ b8 +₆₄ a4 *₆₄ b7 +₆₄ a5 *₆₄ b6 +₆₄ a6 *₆₄ b5 +₆₄ a7 *₆₄ b4 +₆₄ a8 *₆₄ b3 +₆₄ a9 *₆₄ b2 +₆₄ a10 *₆₄ b1 +₆₄ a11 *₆₄ b0);
    (a1 *₆₄ b11 +₆₄ a2 *₆₄ b10 +₆₄ a3 *₆₄ b9 +₆₄ a4 *₆₄ b8 +₆₄ a5 *₆₄ b7 +₆₄ a6 *₆₄ b6 +₆₄ a7 *₆₄ b5 +₆₄ a8 *₆₄ b4 +₆₄ a9 *₆₄ b3 +₆₄ a10 *₆₄ b2 +₆₄ a11 *₆₄ b1);
    (a2 *₆₄ b11 +₆₄ a3 *₆₄ b10 +₆₄ a4 *₆₄ b9 +₆₄ a5 *₆₄ b8 +₆₄ a6 *₆₄ b7 +₆₄ a7 *₆₄ b6 +₆₄ a8 *₆₄ b5 +₆₄ a9 *₆₄ b4 +₆₄ a10 *₆₄ b3 +₆₄ a11 *₆₄ b2);
    (a3 *₆₄ b11 +₆₄ a4 *₆₄ b10 +₆₄ a5 *₆₄ b9 +₆₄ a6 *₆₄ b8 +₆₄ a7 *₆₄ b7 +₆₄ a8 *₆₄ b6 +₆₄ a9 *₆₄ b5 +₆₄ a10 *₆₄ b4 +₆₄ a11 *₆₄ b3);
    (a4 *₆₄ b11 +₆₄ a5 *₆₄ b10 +₆₄ a6 *₆₄ b9 +₆₄ a7 *₆₄ b8 +₆₄ a8 *₆₄ b7 +₆₄ a9 *₆₄ b6 +₆₄ a10 *₆₄ b5 +₆₄ a11 *₆₄ b4);
    (a5 *₆₄ b11 +₆₄ a6 *₆₄ b10 +₆₄ a7 *₆₄ b9 +₆₄ a8 *₆₄ b8 +₆₄ a9 *₆₄ b7 +₆₄ a10 *₆₄ b6 +₆₄ a11 *₆₄ b5);
    (a6 *₆₄ b11 +₆₄ a7 *₆₄ b10 +₆₄ a8 *₆₄ b9 +₆₄ a9 *₆₄ b8 +₆₄ a10 *₆₄ b7 +₆₄ a11 *₆₄ b6);
    (a7 *₆₄ b11 +₆₄ a8 *₆₄ b10 +₆₄ a9 *₆₄ b9 +₆₄ a10 *₆₄ b8 +₆₄ a11 *₆₄ b7);
    (a8 *₆₄ b11 +₆₄ a9 *₆₄ b10 +₆₄ a10 *₆₄ b9 +₆₄ a11 *₆₄ b8);
    (a9 *₆₄ b11 +₆₄ a10 *₆₄ b10 +₆₄ a11 *₆₄ b9);
    (a10 *₆₄ b11 +₆₄ a11 *₆₄ b10);
    a11 *₆₄ b11;
    0 ].

(** [s0..s23] of [sc_muladd] *)
Definition sc_muladd_limbs (a b c : list Z) : list Z :=
  let a0 := a !!! 0%nat in let a1 := a !!! 1%nat in let a2 := a !!! 2%nat in
  let a3 := a !!! 3%nat in let a4 := a !!! 4%nat in let a5 := a !!! 5%nat in
  let a6 := a !!! 6%nat in let a7 := a !!! 7%nat in let a8 := a !!! 8%nat in
  let a9 := a !!! 9%nat in let a10 := a !!! 10%nat in let a11 := a !!! 11%nat in
  let b0 := b !!! 0%nat in let b1 := b !!! 1%nat in let b2 := b !!! 2%nat in
  let b3 := b !!! 3%nat in let b4 := b !!! 4%nat in let b5 := b !!! 5%nat in
  let b6 := b !!! 6%nat in let b7 := b !!! 7%nat in let b8 := b !!! 8%nat in
  let b9 := b !!! 9%nat in let b10 := b !!! 10%nat in let b11 := b !!! 11%nat in
  let c0 := c !!! 0%nat in let c1 := c !!! 1%nat in let c2 := c !!! 2%nat in
  let c3 := c !!! 3%nat in let c4 := c !!! 4%nat in let c5 := c !!! 5%nat in
  let c6 := c !!! 6%nat in let c7 := c !!! 7%nat in let c8 := c !!! 8%nat in
  let c9 := c !!! 9%nat in let c10 := c !!! 10%nat in let c11 := c !!! 11%nat in
  [ c0 +₆₄ a0 *₆₄ b0;
    c1 +₆₄ (a0 *₆₄ b1 +₆₄ a1 *₆₄ b0);
    c2 +₆₄ (a0 *₆₄ b2 +₆₄ a1 *₆₄ b1 +₆₄ a2 *₆₄ b0);
    c3 +₆₄ (a0 *₆₄ b3 +₆₄ a1 *₆₄ b2 +₆₄ a2 *₆₄ b1 +₆₄ a3 *₆₄ b0);
    c4 +₆₄ (a0 *₆₄ b4 +₆₄ a1 *₆₄ b3 +₆₄ a2 *₆₄ b2 +₆₄ a3 *₆₄ b1 +₆₄ a4 *₆₄ b0);
    c5 +₆₄ (a0 *₆₄ b5 +₆₄ a1 *₆₄ b4 +₆₄ a2 *₆₄ b3 +₆₄ a3 *₆₄ b2 +₆₄ a4 *₆₄ b1 +₆₄ a5 *₆₄ b0);
    c6 +₆₄ (a0 *₆₄ b6 +₆₄ a1 *₆₄ b5 +₆₄ a2 *₆₄ b4 +₆₄ a3 *₆₄ b3 +₆₄ a4 *₆₄ b2 +₆₄ a5 *₆₄ b1 +₆₄ a6 *₆₄ b0);
    c7 +₆₄ (a0 *₆₄ b7 +₆₄ a1 *₆₄ b6 +₆₄ a2 *₆₄ b5 +₆₄ a3 *₆₄ b4 +₆₄ a4 *₆₄ b3 +₆₄ a5 *₆₄ b2 +₆₄ a6 *₆₄ b1 +₆₄ a7 *₆₄ b0);
    c8 +₆₄ (a0 *₆₄ b8 +₆₄ a1 *₆₄ b7 +₆₄ a2 *₆₄ b6 +₆₄ a3 *₆₄ b5 +₆₄ a4 *₆₄ b4 +₆₄ a5 *₆₄ b3 +₆₄ a6 *₆₄ b2 +₆₄ a7 *₆₄ b1 +₆₄ a8 *₆₄ b0);
    c9 +₆₄ (a0 *₆₄ b9 +₆₄ a1 *₆₄ b8 +₆₄ a2 *₆₄ b7 +₆₄ a3 *₆₄ b6 +₆₄ a4 *₆₄ b5 +₆₄ a5 *₆₄ b4 +₆₄ a6 *₆₄ b3 +₆₄ a7 *₆₄ b2 +₆₄ a8 *₆₄ b1 +₆₄ a9 *₆₄ b0);
    c10 +₆₄ (a0 *₆₄ b10 +₆₄ a1 *₆₄ b9 +₆₄ a2 *₆₄ b8 +₆₄ a3 *₆₄ b7 +₆₄ a4 *₆₄ b6 +₆₄ a5 *₆₄ b5 +₆₄ a6 *₆₄ b4 +₆₄ a7 *₆₄ b3 +₆₄ a8 *₆₄ b2 +₆₄ a9 *₆₄ b1 +₆₄ a10 *₆₄ b0);
    c11 +₆₄ (a0 *₆₄ b11 +₆₄ a1 *₆₄ b10 +₆₄ a2 *₆₄ b9 +₆₄ a3 *₆₄ b8 +₆₄ a4 *₆₄ b7 +₆₄ a5 *₆₄ b6 +₆₄ a6 *₆₄ b5 +₆₄ a7 *₆₄ b4 +₆₄ a8 *₆₄ b3 +₆₄ a9 *₆₄ b2 +₆₄ a10 *₆₄ b1 +₆₄ a11 *₆₄ b0);
    (a1 *₆₄ b11 +₆₄ a2 *₆₄ b10 +₆₄ a3 *₆₄ b9 +₆₄ a4 *₆₄ b8 +₆₄ a5 *₆₄ b7 +₆₄ a6 *₆₄ b6 +₆₄ a7 *₆₄ b5 +₆₄ a8 *₆₄ b4 +₆₄ a9 *₆₄ b3 +₆₄ a10 *₆₄ b2 +₆₄ a11 *₆₄ b1);
    (a2 *₆₄ b11 +₆₄ a3 *₆₄ b10 +₆₄ a4 *₆₄ b9 +₆₄ a5 *₆₄ b8 +₆₄ a6 *₆₄ b7 +₆₄ a7 *₆₄ b6 +₆₄ a8 *₆₄ b5 +₆₄ a9 *₆₄ b4 +₆₄ a10 *₆₄ b3 +₆₄ a11 *₆₄ b2);
    (a3 *₆₄ b11 +₆₄ a4 *₆₄ b10 +₆₄ a5 *₆₄ b9 +₆₄ a6 *₆₄ b8 +₆₄ a7 *₆₄ b7 +₆₄ a8 *₆₄ b6 +₆₄ a9 *₆₄ b5 +₆₄ a10 *₆₄ b4 +₆₄ a11 *₆₄ b3);
    (a4 *₆₄ b11 +₆₄ a5 *₆₄ b10 +₆₄ a6 *₆₄ b9 +₆₄ a7 *₆₄ b8 +₆₄ a8 *₆₄ b7 +₆₄ a9 *₆₄ b6 +₆₄ a10 *₆₄ b5 +₆₄ a11 *₆₄ b4);
    (a5 *₆₄ b11 +₆₄ a6 *₆₄ b10 +₆₄ a7 *₆₄ b9 +₆₄ a8 *₆₄ b8 +₆₄ a9 *₆₄ b7 +₆₄ a10 *₆₄ b6 +₆₄ a11 *₆₄ b5);
    (a6 *₆₄ b11 +₆₄ a7 *₆₄ b10 +₆₄ a8 *₆₄ b9 +₆₄ a9 *₆₄ b8 +₆₄ a10 *₆₄ b7 +₆₄ a11 *₆₄ b6);
    (a7 *₆₄ b11 +₆₄ a8 *₆₄ b10 +₆₄ a9 *₆₄ b9 +₆₄ a10 *₆₄ b8 +₆₄ a11 *₆₄ b7);
    (a8 *₆₄ b11 +₆₄ a9 *₆₄ b10 +₆₄ a10 *₆₄ b9 +₆₄ a11 *₆₄ b8);
    (a9 *₆₄ b11 +₆₄ a10 *₆₄ b10 +₆₄ a11 *₆₄ b9);
    (a10 *₆₄ b11 +₆₄ a11 *₆₄ b10);
    a11 *₆₄ b11;
    0 ].

(** [s0..s23] of [sc_mulsub] *)
Definition sc_mulsub_limbs (a b c : list Z) : list Z :=
  let a0 := a !!! 0%nat in let a1 := a !!! 1%nat in let a2 := a !!! 2%nat in
  let a3 := a !!! 3%nat in let a4 := a !!! 4%nat in let a5 := a !!! 5%nat in
  let a6 := a !!! 6%nat in let a7 := a !!! 7%nat in let a8 := a !!! 8%nat in
  let a9 := a !!! 9%nat in let a10 := a !!! 10%nat in let a11 := a !!! 11%nat in
  let b0 := b !!! 0%nat in let b1 := b !!! 1%nat in let b2 := b !!! 2%nat in
  let b3 := b !!! 3%nat in let b4 := b !!! 4%nat in let b5 := b !!! 5%nat in
  let b6 := b !!! 6%nat in let b7 := b !!! 7%nat in let b8 := b !!! 8%nat in
  let b9 := b !!! 9%nat in let b10 := b !!! 10%nat in let b11 := b !!! 11%nat in
  let c0 := c !!! 0%nat in let c1 := c !!! 1%nat in let c2 := c !!! 2%nat in
  let c3 := c !!! 3%nat in let c4 := c !!! 4%nat in let c5 := c !!! 5%nat in
  let c6 := c !!! 6%nat in let c7 := c !!! 7%nat in let c8 := c !!! 8%nat in
  let c9 := c !!! 9%nat in let c10 := c !!! 10%nat in let c11 := c !!! 11%nat in
  [ c0 -₆₄ a0 *₆₄ b0;
    c1 -₆₄ (a0 *₆₄ b1 +₆₄ a1 *₆₄ b0);
    c2 -₆₄ (a0 *₆₄ b2 +₆₄ a1 *₆₄ b1 +₆₄ a2 *₆₄ b0);
    c3 -₆₄ (a0 *₆₄ b3 +₆₄ a1 *₆₄ b2 +₆₄ a2 *₆₄ b1 +₆₄ a3 *₆₄ b0);
    c4 -₆₄ (a0 *₆₄ b4 +₆₄ a1 *₆₄ b3 +₆₄ a2 *₆₄ b2 +₆₄ a3 *₆₄ b1 +₆₄ a4 *₆₄ b0);
    c5 -₆₄ (a0 *₆₄ b5 +₆₄ a1 *₆₄ b4 +₆₄ a2 *₆₄ b3 +₆₄ a3 *₆₄ b2 +₆₄ a4 *₆₄ b1 +₆₄ a5 *₆₄ b0);
    c6 -₆₄ (a0 *₆₄ b6 +₆₄ a1 *₆₄ b5 +₆₄ a2 *₆₄ b4 +₆₄ a3 *₆₄ b3 +₆₄ a4 *₆₄ b2 +₆₄ a5 *₆₄ b1 +₆₄ a6 *₆₄ b0);
    c7 -₆₄ (a0 *₆₄ b7 +₆₄ a1 *₆₄ b6 +₆₄ a2 *₆₄ b5 +₆₄ a3 *₆₄ b4 +₆₄ a4 *₆₄ b3 +₆₄ a5 *₆₄ b2 +₆₄ a6 *₆₄ b1 +₆₄ a7 *₆₄ b0);
    c8 -₆₄ (a0 *₆₄ b8 +₆₄ a1 *₆₄ b7 +₆₄ a2 *₆₄ b6 +₆₄ a3 *₆₄ b5 +₆₄ a4 *₆₄ b4 +₆₄ a5 *₆₄ b3 +₆₄ a6 *₆₄ b2 +₆₄ a7 *₆₄ b1 +₆₄ a8 *₆₄ b0);
    c9 -₆₄ (a0 *₆₄ b9 +₆₄ a1 *₆₄ b8 +₆₄ a2 *₆₄ b7 +₆₄ a3 *₆₄ b6 +₆₄ a4 *₆₄ b5 +₆₄ a5 *₆₄ b4 +₆₄ a6 *₆₄ b3 +₆₄ a7 *₆₄ b2 +₆₄ a8 *₆₄ b1 +₆₄ a9 *₆₄ b0);
    c10 -₆₄ (a0 *₆₄ b10 +₆₄ a1 *₆₄ b9 +₆₄ a2 *₆₄ b8 +₆₄ a3 *₆₄ b7 +₆₄ a4 *₆₄ b6 +₆₄ a5 *₆₄ b5 +₆₄ a6 *₆₄ b4 +₆₄ a7 *₆₄ b3 +₆₄ a8 *₆₄ b2 +₆₄ a9 *₆₄ b1 +₆₄ a10 *₆₄ b0);
    c11 -₆₄ (a0 *₆₄ b11 +₆₄ a1 *₆₄ b10 +₆₄ a2 *₆₄ b9 +₆₄ a3 *₆₄ b8 +₆₄ a4 *₆₄ b7 +₆₄ a5 *₆₄ b6 +₆₄ a6 *₆₄ b5 +₆₄ a7 *₆₄ b4 +₆₄ a8 *₆₄ b3 +₆₄ a9 *₆₄ b2 +₆₄ a10 *₆₄ b1 +₆₄ a11 *₆₄ b0);
    i64 (- (a1 *₆₄ b11 +₆₄ a2 *₆₄ b10 +₆₄ a3 *₆₄ b9 +₆₄ a4 *₆₄ b8 +₆₄ a5 *₆₄ b7 +₆₄ a6 *₆₄ b6 +₆₄ a7 *₆₄ b5 +₆₄ a8 *₆₄ b4 +₆₄ a9 *₆₄ b3 +₆₄ a10 *₆₄ b2 +₆₄ a11 *₆₄ b1));
    i64 (- (a2 *₆₄ b11 +₆₄ a3 *₆₄ b10 +₆₄ a4 *₆₄ b9 +₆₄ a5 *₆₄ b8 +₆₄ a6 *₆₄ b7 +₆₄ a7 *₆₄ b6 +₆₄ a8 *₆₄ b5 +₆₄ a9 *₆₄ b4 +₆₄ a10 *₆₄ b3 +₆₄ a11 *₆₄ b2));
    i64 (- (a3 *₆₄ b11 +₆₄ a4 *₆₄ b10 +₆₄ a5 *₆₄ b9 +₆₄ a6 *₆₄ b8 +₆₄ a7 *₆₄ b7 +₆₄ a8 *₆₄ b6 +₆₄ a9 *₆₄ b5 +₆₄ a10 *₆₄ b4 +₆₄ a11 *₆₄ b3));
    i64 (- (a4 *₆₄ b11 +₆₄ a5 *₆₄ b10 +₆₄ a6 *₆₄ b9 +₆₄ a7 *₆₄ b8 +₆₄ a8 *₆₄ b7 +₆₄ a9 *₆₄ b6 +₆₄ a10 *₆₄ b5 +₆₄ a11 *₆₄ b4));
    i64 (- (a5 *₆₄ b11 +₆₄ a6 *₆₄ b10 +₆₄ a7 *₆₄ b9 +₆₄ a8 *₆₄ b8 +₆₄ a9 *₆₄ b7 +₆₄ a10 *₆₄ b6 +₆₄ a11 *₆₄ b5));
    i64 (- (a6 *₆₄ b11 +₆₄ a7 *₆₄ b10 +₆₄ a8 *₆₄ b9 +₆₄ a9 *₆₄ b8 +₆₄ a10 *₆₄ b7 +₆₄ a11 *₆₄ b6));
    i64 (- (a7 *₆₄ b11 +₆₄ a8 *₆₄ b10 +₆₄ a9 *₆₄ b9 +₆₄ a10 *₆₄ b8 +₆₄ a11 *₆₄ b7));
    i64 (- (a8 *₆₄ b11 +₆₄ a9 *₆₄ b10 +₆₄ a10 *₆₄ b9 +₆₄ a11 *₆₄ b8));
    i64 (- (a9 *₆₄ b11 +₆₄ a10 *₆₄ b10 +₆₄ a11 *₆₄ b9));
    i64 (- (a10 *₆₄ b11 +₆₄ a11 *₆₄ b10));
    (i64 (- a11)) *₆₄ b11;
    0 ].

(** [s0..s12] of [sc_add] *)
Definition sc_add_limbs (a b : list Z) : list Z :=
  [ a !!! 0%nat +₆₄ b !!! 0%nat;
    a !!! 1%nat +₆₄ b !!! 1%nat;
    a !!! 2%nat +₆₄ b !!! 2%nat;
    a !!! 3%nat +₆₄ b !!! 3%nat;
    a !!! 4%nat +₆₄ b !!! 4%nat;
    a !!! 5%nat +₆₄ b !!! 5%nat;
    a !!! 6%nat +₆₄ b !!! 6%nat;
    a !!! 7%nat +₆₄ b !!! 7%nat;
    a !!! 8%nat +₆₄ b !!! 8%nat;
    a !!! 9%nat +₆₄ b !!! 9%nat;
    a !!! 10%nat +₆₄ b !!! 10%nat;
    a !!! 11%nat +₆₄ b !!! 11%nat;
    0 ].

(** [s0..s12] of [sc_sub] *)
Definition sc_sub_limbs (a b : list Z) : list Z :=
  [ a !!! 0%nat -₆₄ b !!! 0%nat;
    a !!! 1%nat -₆₄ b !!! 1%nat;
    a !!! 2%nat -₆₄ b !!! 2%nat;
    a !!! 3%nat -₆₄ b !!! 3%nat;
    a !!! 4%nat -₆₄ b !!! 4%nat;
    a !!! 5%nat -₆₄ b !!! 5%nat;
    a !!! 6%nat -₆₄ b !!! 6%nat;
    a !!! 7%nat -₆₄ b !!! 7%nat;
    a !!! 8%nat -₆₄ b !!! 8%nat;
    a !!! 9%nat -₆₄ b !!! 9%nat;
    a !!! 10%nat -₆₄ b !!! 10%nat;
    a !!! 11%nat -₆₄ b !!! 11%nat;
    0 ].

End Products.

(** ** The functions *)

Definition sc_reduce (s : list Z) : list Z :=
  sc_pack (sc_run (sc_fold24 ++ sc_round13 ++ sc_floor ++ sc_final) (sc_load64 s)).

Definition sc_reduce32 (s : list Z) : list Z :=
  sc_pack (sc_run (sc_round13 ++ sc_floor ++ sc_final) (sc_load32 s ++ [0])).

Definition sc_add (a b : list Z) : list Z :=
  sc_pack (sc_run (sc_round13 ++ sc_floor ++ sc_final)
    (sc_add_limbs (sc_load32 a) (sc_load32 b))).

Definition sc_sub (a b : list Z) : list Z :=
  sc_pack (sc_run (sc_round13 ++ sc_floor ++ sc_final)
    (sc_sub_limbs (sc_load32 a) (sc_load32 b))).

Definition sc_mul (a b : list Z) : list Z :=
  sc_pack (sc_run (sc_round24 ++ sc_fold24 ++ sc_round13 ++ sc_floor ++ sc_final)
    (sc_mul_limbs (sc_load32 a) (sc_load32 b))).

Definition sc_muladd (a b c : list Z) : list Z :=
  sc_pack (sc_run (sc_round24 ++ sc_fold24 ++ sc_round13 ++ sc_floor ++ sc_final)
    (sc_muladd_limbs (sc_load32 a) (sc_load32 b) (sc_load32 c))).

Definition sc_mulsub (a b c : list Z) : list Z :=
  sc_pack (sc_run (sc_round24 ++ sc_fold24 ++ sc_round13 ++ sc_floor ++ sc_final)
    (sc_mulsub_limbs (sc_load32 a) (sc_load32 b) (sc_load32 c))).

Definition sc_0 : list Z := repeat 0 32.

(** [(a >> 63) - ((-a) >> 63)] *)
Definition signum (a : Z) : Z := i64 (Z.shiftr a 63 - Z.shiftr (i64 (- a)) 63).

(** The result is nonzero when the scalar is not reduced. The [int64_t] sum is
    converted to [int]. *)
Definition sc_check (s : list Z) : Z :=
  let s0 := load_4 s in
  let s1 := load_4 (drop 4 s) in
  let s2 := load_4 (drop 8 s) in
  let s3 := load_4 (drop 12 s) in
  let s4 := load_4 (drop 16 s) in
  let s5 := load_4 (drop 20 s) in
  let s6 := load_4 (drop 24 s) in
  let s7 := load_4 (drop 28 s) in
  i32 (Z.shiftr
    (signum (1559614444 - s0) + Z.shiftl (signum (1477600026 - s1)) 1
     + Z.shiftl (signum (2734136534 - s2)) 2 + Z.shiftl (signum (350157278 - s3)) 3
     + Z.shiftl (signum (- s4)) 4 + Z.shiftl (signum (- s5)) 5
     + Z.shiftl (signum (- s6)) 6 + Z.shiftl (signum (268435456 - s7)) 7) 8).

(** [s] is the array of 32 bytes. *)
Definition sc_isnonzero (s : list Z) : Z := bytes_nonzero (take 32 s).
