(* ===== verification/ScBounds.v ===== *)
(** * Intervals for the scalar arithmetic

    [itv_run] runs a list of [sc_op] on intervals instead of integers, checking
    at every operation that nothing leaves [-2^62, 2^62], and counts how many
    limbs are in use. Its soundness, [itv_run_sound]: the locals stay within
    the computed intervals and their value stays the same modulo the order. A
    bound proof about a function of Sc.v is then one evaluation of [itv_run]. *)

From Stdlib Require Import ZArith Lia.
From stdpp Require Import base tactics list numbers.
From S2P Require Import Prelude Radix Sc.
Open Scope Z_scope.

(** ** Intervals *)

Abbreviation itv := (Z * Z)%type.

Definition in_itv (p : itv) (x : Z) : Prop := p.1 <= x <= p.2.
Definition within (b : list itv) (s : list Z) : Prop := Forall2 in_itv b s.

Definition itv_fits (p : itv) : bool := (- 2 ^ 62 <=? p.1) && (p.2 <=? 2 ^ 62).
Definition itv_add (p q : itv) : itv := (p.1 + q.1, p.2 + q.2).
Definition itv_scale (c : Z) (p : itv) : itv :=
  if 0 <=? c then (p.1 * c, p.2 * c) else (p.2 * c, p.1 * c).

Definition itv_mac (i k : nat) (c : Z) (b : list itv) : option (list itv) :=
  let p := itv_scale c (b !!! k) in
  let q := itv_add (b !!! i) p in
  if (i <? length b)%nat && (k <? length b)%nat && itv_fits (itv_scale (Z.abs c) (b !!! k)) && itv_fits q
  then Some (<[i := q]> b) else None.

Definition itv_fold (k : nat) (b : list itv) : option (list itv) :=
  b ← itv_mac (k - 12) k 666643 b;
  b ← itv_mac (k - 11) k 470296 b;
  b ← itv_mac (k - 10) k 654183 b;
  b ← itv_mac (k - 9) k (-997805) b;
  b ← itv_mac (k - 8) k 136657 b;
  itv_mac (k - 7) k (-683901) b.

Definition itv_carry (d : Z) (low : itv) (i : nat) (b : list itv) : option (list itv) :=
  let p := b !!! i in
  let q := itv_add (b !!! S i) ((p.1 + d) / 2 ^ 21, (p.2 + d) / 2 ^ 21) in
  if (S i <? length b)%nat && itv_fits p && itv_fits q
  then Some (<[S i := q]> (<[i := low]> b)) else None.

Definition itv_step (st : nat * list itv) (o : sc_op) : option (nat * list itv) :=
  let '(n, b) := st in
  match o with
  | RND i => if (S i <? n)%nat
             then b ← itv_carry (2 ^ 20) (- 2 ^ 20, 2 ^ 20 - 1) i b; Some (n, b) else None
  | FLR i => if (S i <? n)%nat
             then b ← itv_carry 0 (0, 2 ^ 21 - 1) i b; Some (n, b) else None
  | FOLD k => if (n =? S k)%nat && (12 <=? k)%nat then b ← itv_fold k b; Some (k, b) else None
  | ZERO k => if (n =? k)%nat && (k <? length b)%nat then Some (S k, <[k := (0, 0)]> b) else None
  end.

Fixpoint itv_run (ops : list sc_op) (st : nat * list itv) : option (nat * list itv) :=
  match ops with
  | [] => Some st
  | o :: ops => st ← itv_step st o; itv_run ops st
  end.

(** ** Soundness *)

Lemma within_length b s : within b s -> length b = length s.
Proof. apply Forall2_length. Qed.

Lemma within_lookup b s i : within b s -> (i < length b)%nat -> in_itv (b !!! i) (s !!! i).
Proof.
  intros H Hi. pose proof (within_length _ _ H).
  eapply Forall2_lookup_lr; [exact H | |]; apply list_lookup_lookup_total_lt; lia.
Qed.

Lemma within_insert b s i p x : within b s -> in_itv p x -> within (<[i := p]> b) (<[i := x]> s).
Proof. intros. apply Forall2_insert; assumption. Qed.

Lemma itv_fits_i64 p x : itv_fits p = true -> in_itv p x -> i64 x = x.
Proof.
  unfold itv_fits, in_itv. intros [?%Z.leb_le ?%Z.leb_le]%andb_true_iff ?. apply i64_id. lia.
Qed.

Lemma itv_scale_sound c p x : in_itv p x -> in_itv (itv_scale c p) (x * c).
Proof.
  unfold in_itv, itv_scale. destruct (Z.leb_spec 0 c); cbn [fst snd]; nia.
Qed.

Lemma itv_add_sound p q x y : in_itv p x -> in_itv q y -> in_itv (itv_add p q) (x + y).
Proof. unfold in_itv, itv_add. cbn [fst snd]. lia. Qed.

Lemma itv_mac_sound i k c b b' s :
  within b s -> itv_mac i k c b = Some b' ->
  within b' (<[i := s !!! i + s !!! k * c]> s) /\ (i < length s)%nat /\
  i64 (s !!! k * Z.abs c) = s !!! k * Z.abs c /\
  i64 (s !!! i + s !!! k * c) = s !!! i + s !!! k * c.
Proof.
  intros Hb. unfold itv_mac. destruct (_ && _ && _ && _) eqn:E; [|done]. intros [= <-].
  rewrite !andb_true_iff, !Nat.ltb_lt in E. destruct E as [[[Hi Hk] Hf] Hq].
  pose proof (within_lookup b s i Hb Hi) as Bi. pose proof (within_lookup b s k Hb Hk) as Bk.
  pose proof (itv_add_sound _ _ _ _ Bi (itv_scale_sound c _ _ Bk)) as Bq.
  rewrite (within_length _ _ Hb) in Hi.
  split; [by apply within_insert|]. split; [done|].
  split; [exact (itv_fits_i64 _ _ Hf (itv_scale_sound _ _ _ Bk)) | exact (itv_fits_i64 _ _ Hq Bq)].
Qed.

Lemma sc_mac_sound i k c b b' s :
  0 <= c -> within b s -> itv_mac i k c b = Some b' ->
  within b' (sc_mac i k c s) /\ sc_mac i k c s = <[i := s !!! i + s !!! k * c]> s /\
  (i < length s)%nat.
Proof.
  intros Hc Hb E. destruct (itv_mac_sound _ _ _ _ _ _ Hb E) as (Hw & Hi & E1 & E2).
  rewrite Z.abs_eq in E1 by done. unfold sc_mac. rewrite E1, E2. done.
Qed.

Lemma sc_msub_sound i k c b b' s :
  0 <= c -> within b s -> itv_mac i k (- c) b = Some b' ->
  within b' (sc_msub i k c s) /\ sc_msub i k c s = <[i := s !!! i + s !!! k * (- c)]> s /\
  (i < length s)%nat.
Proof.
  intros Hc Hb E. destruct (itv_mac_sound _ _ _ _ _ _ Hb E) as (Hw & Hi & E1 & E2).
  rewrite Z.abs_opp, Z.abs_eq in E1 by done. unfold sc_msub. rewrite E1.
  replace (s !!! i - s !!! k * c) with (s !!! i + s !!! k * - c) by ring. rewrite E2. done.
Qed.

(** The six lines of a fold take [s_k] multiples of the order out of the value:
    [2^252 = 666643 + 470296 * 2^21 + ... - 683901 * 2^105] modulo the order. *)
Lemma fold_weight k : (12 <= k)%nat ->
  666643 * 2 ^ (21 * Z.of_nat (k - 12)) + 470296 * 2 ^ (21 * Z.of_nat (k - 11))
  + 654183 * 2 ^ (21 * Z.of_nat (k - 10)) + - 997805 * 2 ^ (21 * Z.of_nat (k - 9))
  + 136657 * 2 ^ (21 * Z.of_nat (k - 8)) + - 683901 * 2 ^ (21 * Z.of_nat (k - 7))
  = 2 ^ (21 * Z.of_nat k) - sc_l * 2 ^ (21 * Z.of_nat (k - 12)).
Proof.
  intros Hk. replace k with (k - 12 + 12)%nat by lia. generalize (k - 12)%nat. clear. intros m.
  replace (m + 12 - 12)%nat with m by lia. replace (m + 12 - 11)%nat with (m + 1)%nat by lia.
  replace (m + 12 - 10)%nat with (m + 2)%nat by lia. replace (m + 12 - 9)%nat with (m + 3)%nat by lia.
  replace (m + 12 - 8)%nat with (m + 4)%nat by lia. replace (m + 12 - 7)%nat with (m + 5)%nat by lia.
  rewrite !Nat2Z.inj_add, !Z.mul_add_distr_l, !Z.pow_add_r by lia.
  change (2 ^ (21 * Z.of_nat 1)) with (2 ^ 21). change (2 ^ (21 * Z.of_nat 2)) with (2 ^ 42).
  change (2 ^ (21 * Z.of_nat 3)) with (2 ^ 63). change (2 ^ (21 * Z.of_nat 4)) with (2 ^ 84).
  change (2 ^ (21 * Z.of_nat 5)) with (2 ^ 105). change (2 ^ (21 * Z.of_nat 12)) with (2 ^ 252).
  unfold sc_l. ring.
Qed.

(** One more line of a fold: the locals, the limb [s_k] and the value so far. *)
Definition folding (k : nat) (x : Z) (s : list Z) (v : Z) : Prop :=
  s !!! k = x /\ evaln 21 k s = v.

Lemma folding_mac i k c x v b b' s :
  0 <= c -> (i < k)%nat -> folding k x s v -> within b s -> itv_mac i k c b = Some b' ->
  within b' (sc_mac i k c s) /\
  folding k x (sc_mac i k c s) (v + x * (c * 2 ^ (21 * Z.of_nat i))).
Proof.
  intros Hc Hi [Hx Hv] Hb E. destruct (sc_mac_sound _ _ _ _ _ _ Hc Hb E) as (Hw & Es & Hl).
  split; [done|]. rewrite Es. split; [rewrite list_lookup_total_insert_ne by lia; done|].
  rewrite evaln_insert_lt, Hv, Hx by lia. ring.
Qed.

Lemma folding_msub i k c x v b b' s :
  0 <= c -> (i < k)%nat -> folding k x s v -> within b s -> itv_mac i k (- c) b = Some b' ->
  within b' (sc_msub i k c s) /\
  folding k x (sc_msub i k c s) (v + x * (- c * 2 ^ (21 * Z.of_nat i))).
Proof.
  intros Hc Hi [Hx Hv] Hb E. destruct (sc_msub_sound _ _ _ _ _ _ Hc Hb E) as (Hw & Es & Hl).
  split; [done|]. rewrite Es. split; [rewrite list_lookup_total_insert_ne by lia; done|].
  rewrite evaln_insert_lt, Hv, Hx by lia. ring.
Qed.

Lemma sc_fold_sound k b b' s :
  (12 <= k)%nat -> within b s -> itv_fold k b = Some b' ->
  within b' (sc_fold k s) /\
  evaln 21 k (sc_fold k s) = evaln 21 (S k) s - s !!! k * sc_l * 2 ^ (21 * Z.of_nat (k - 12)).
Proof.
  intros Hk Hb E. unfold itv_fold in E.
  assert (F : folding k (s !!! k) s (evaln 21 k s)) by done.
  apply bind_Some in E as (b1 & E1 & E). apply bind_Some in E as (b2 & E2 & E).
  apply bind_Some in E as (b3 & E3 & E). apply bind_Some in E as (b4 & E4 & E).
  apply bind_Some in E as (b5 & E5 & E6).
  unfold sc_fold. cbv zeta.
  eapply (folding_mac (k - 12) k 666643) in F as [Hb1 F]; [|lia | lia | exact Hb | exact E1].
  eapply (folding_mac (k - 11) k 470296) in F as [Hb2 F]; [|lia | lia | exact Hb1 | exact E2].
  eapply (folding_mac (k - 10) k 654183) in F as [Hb3 F]; [|lia | lia | exact Hb2 | exact E3].
  eapply (folding_msub (k - 9) k 997805) in F as [Hb4 F]; [|lia | lia | exact Hb3 | exact E4].
  eapply (folding_mac (k - 8) k 136657) in F as [Hb5 F]; [|lia | lia | exact Hb4 | exact E5].
  eapply (folding_msub (k - 7) k 683901) in F as [Hb6 F]; [|lia | lia | exact Hb5 | exact E6].
  split; [exact Hb6|]. destruct F as [_ ->]. cbn [evaln].
  pose proof (fold_weight k Hk) as W. apply (f_equal (fun w => w + sc_l * 2 ^ (21 * Z.of_nat (k - 12)))) in W.
  rewrite Z.sub_add in W. rewrite <- W. ring.
Qed.

(** Carries. *)
Lemma evaln_carry n i s lo hi :
  (S i < n)%nat -> (n <= length s)%nat ->
  lo + 2 ^ 21 * hi = s !!! i + 2 ^ 21 * s !!! S i ->
  evaln 21 n (<[S i := hi]> (<[i := lo]> s)) = evaln 21 n s.
Proof.
  intros Hi Hn E. rewrite !evaln_insert_lt by (rewrite ?length_insert; lia).
  rewrite list_lookup_total_insert_ne by lia.
  replace (21 * Z.of_nat (S i)) with (21 + 21 * Z.of_nat i) by lia. rewrite Z.pow_add_r by lia.
  generalize (2 ^ (21 * Z.of_nat i)). intros w. 
  replace (evaln 21 n s + (lo - s !!! i) * w + (hi - s !!! S i) * (2 ^ 21 * w))
    with (evaln 21 n s + (lo + 2 ^ 21 * hi - (s !!! i + 2 ^ 21 * s !!! S i)) * w) by ring.
  rewrite E. ring.
Qed.

Lemma itv_carry_sound d low i b b' s lo hi c :
  within b s -> itv_carry d low i b = Some b' ->
  c = (s !!! i + d) / 2 ^ 21 -> lo = s !!! i - c * 2 ^ 21 -> hi = s !!! S i + c ->
  in_itv low lo ->
  within b' (<[S i := hi]> (<[i := lo]> s)) /\ (S i < length s)%nat /\
  - 2 ^ 62 <= s !!! i <= 2 ^ 62 /\ - 2 ^ 62 <= hi <= 2 ^ 62 /\ (length b' = length b).
Proof.
  intros Hb E Ec Elo Ehi Hlow. unfold itv_carry in E. destruct (_ && _ && _) eqn:H; [|done].
  injection E as <-. rewrite !andb_true_iff, Nat.ltb_lt in H. destruct H as [[Hi Hp] Hq].
  pose proof (within_lookup b s i Hb ltac:(lia)) as Bi.
  pose proof (within_lookup b s (S i) Hb Hi) as Bj.
  assert (Bc : in_itv (((b !!! i).1 + d) / 2 ^ 21, ((b !!! i).2 + d) / 2 ^ 21) c).
  { rewrite Ec. unfold in_itv in *. cbn [fst snd]. split; apply Z.div_le_mono; lia. }
  pose proof (itv_add_sound _ _ _ _ Bj Bc) as Bq. rewrite <- Ehi in Bq.
  split; [apply within_insert; [by apply within_insert | done]|].
  rewrite <- (within_length _ _ Hb), !length_insert.
  unfold itv_fits, in_itv in *. rewrite !andb_true_iff, !Z.leb_le in *. lia.
Qed.

Lemma sc_rnd_sound n i b b' s :
  (S i < n)%nat -> (n <= length s)%nat -> within b s ->
  itv_carry (2 ^ 20) (- 2 ^ 20, 2 ^ 20 - 1) i b = Some b' ->
  within b' (sc_step (RND i) s) /\ evaln 21 n (sc_step (RND i) s) = evaln 21 n s.
Proof.
  intros Hi Hn Hb E. set (c := (s !!! i + 2 ^ 20) / 2 ^ 21).
  pose proof (Z.div_mod (s !!! i + 2 ^ 20) (2 ^ 21) ltac:(lia)) as Hd.
  pose proof (Z.mod_pos_bound (s !!! i + 2 ^ 20) (2 ^ 21) ltac:(lia)) as Hm. fold c in Hd.
  destruct (itv_carry_sound _ _ i b b' s (s !!! i - c * 2 ^ 21) (s !!! S i + c) c Hb E)
    as (Hw & Hl & H1 & H2 & _); [done..| |].
  { unfold in_itv. cbn [fst snd]. lia. }
  assert (Er : carry_rnd 21 (s !!! i) (s !!! S i) = (s !!! i - c * 2 ^ 21, s !!! S i + c)).
  { unfold carry_rnd, carry_out. change (2 ^ (21 - 1)) with (2 ^ 20).
    rewrite (i64_id (s !!! i + _)), Z.shiftr_div_pow2 by lia. fold c.
    rewrite Z.shiftl_mul_pow2 by lia. rewrite i64_sub_r. rewrite !i64_id by lia. done. }
  cbn [sc_step]. rewrite Er. split; [done|]. apply evaln_carry; [done | done | ring].
Qed.

Lemma sc_flr_sound n i b b' s :
  (S i < n)%nat -> (n <= length s)%nat -> within b s ->
  itv_carry 0 (0, 2 ^ 21 - 1) i b = Some b' ->
  within b' (sc_step (FLR i) s) /\ evaln 21 n (sc_step (FLR i) s) = evaln 21 n s.
Proof.
  intros Hi Hn Hb E. set (c := (s !!! i + 0) / 2 ^ 21).
  pose proof (Z.div_mod (s !!! i + 0) (2 ^ 21) ltac:(lia)) as Hd.
  pose proof (Z.mod_pos_bound (s !!! i + 0) (2 ^ 21) ltac:(lia)) as Hm. fold c in Hd.
  destruct (itv_carry_sound _ _ i b b' s (s !!! i - c * 2 ^ 21) (s !!! S i + c) c Hb E)
    as (Hw & Hl & H1 & H2 & _); [done..| |].
  { unfold in_itv. cbn [fst snd]. lia. }
  assert (Er : carry_flr 21 (s !!! i) (s !!! S i) = (s !!! i - c * 2 ^ 21, s !!! S i + c)).
  { unfold c in *. rewrite Z.add_0_r in *. rewrite carry_flr_spec by lia. f_equal. lia. }
  cbn [sc_step]. rewrite Er. split; [done|]. apply evaln_carry; [done | done | ring].
Qed.

(** ** Runs *)

(** [n] limbs are in use, within [b], and their value is [N] up to a multiple
    of the order. *)
Definition sc_inv (N : Z) (st : nat * list itv) (s : list Z) : Prop :=
  within st.2 s /\ (st.1 <= length s)%nat /\ exists q, evaln 21 st.1 s = N + q * sc_l.

Lemma length_sc_mac i k c s : length (sc_mac i k c s) = length s.
Proof. apply length_insert. Qed.
Lemma length_sc_msub i k c s : length (sc_msub i k c s) = length s.
Proof. apply length_insert. Qed.
Lemma length_sc_fold k s : length (sc_fold k s) = length s.
Proof. unfold sc_fold. cbv zeta. rewrite !length_sc_msub, !length_sc_mac, length_sc_msub, !length_sc_mac. done. Qed.

Lemma length_sc_step o s : length (sc_step o s) = length s.
Proof.
  destruct o; cbn [sc_step].
  - destruct (carry_rnd _ _ _). rewrite !length_insert. done.
  - destruct (carry_flr _ _ _). rewrite !length_insert. done.
  - apply length_sc_fold.
  - apply length_insert.
Qed.

Lemma itv_step_sound N st st' o s :
  sc_inv N st s -> itv_step st o = Some st' -> sc_inv N st' (sc_step o s).
Proof.
  destruct st as [n b]. unfold sc_inv. cbn [fst snd]. intros (Hb & Hn & q & Hq) E.
  rewrite length_sc_step. destruct o as [i|i|k|k]; cbn [itv_step] in E.
  - destruct (Nat.ltb_spec (S i) n) as [Hi|]; [|done].
    apply bind_Some in E as (b' & E & [= <-]). cbn [fst snd].
    destruct (sc_rnd_sound n i b b' s) as [Hw Hv]; [done..|]. rewrite Hv. eauto.
  - destruct (Nat.ltb_spec (S i) n) as [Hi|]; [|done].
    apply bind_Some in E as (b' & E & [= <-]). cbn [fst snd].
    destruct (sc_flr_sound n i b b' s) as [Hw Hv]; [done..|]. rewrite Hv. eauto.
  - destruct (Nat.eqb_spec n (S k)) as [->|]; [|done].
    destruct (Nat.leb_spec 12 k) as [Hk|]; [|done]. cbn [andb] in E.
    apply bind_Some in E as (b' & E & [= <-]). cbn [fst snd sc_step].
    destruct (sc_fold_sound k b b' s) as [Hw Hv]; [done..|].
    split; [done|]. split; [lia|].
    exists (q - s !!! k * 2 ^ (21 * Z.of_nat (k - 12))). rewrite Hv, Hq. ring.
  - destruct (Nat.eqb_spec n k) as [->|]; [|done]. destruct (Nat.ltb_spec k (length b)); [|done].
    injection E as <-. cbn [fst snd sc_step]. rewrite (within_length _ _ Hb) in *.
    split; [apply within_insert; [done | split; done]|]. split; [lia|].
    exists q. cbn [evaln]. rewrite evaln_insert_ge, list_lookup_total_insert_eq by lia.
    rewrite Hq. ring.
Qed.

Lemma itv_run_sound N ops st st' s :
  sc_inv N st s -> itv_run ops st = Some st' -> sc_inv N st' (sc_run ops s).
Proof.
  revert st s. induction ops as [|o ops IH]; intros st s Hs E; cbn [itv_run] in E.
  - injection E as <-. exact Hs.
  - apply bind_Some in E as (st1 & E1 & E2). eapply IH; [|exact E2].
    eapply itv_step_sound; eassumption.
Qed.

(** Carries alone keep the value itself. *)
Lemma itv_flr_sound l n b st' s :
  within b s -> (n <= length s)%nat -> itv_run (map FLR l) (n, b) = Some st' ->
  within st'.2 (sc_run (map FLR l) s) /\ evaln 21 n (sc_run (map FLR l) s) = evaln 21 n s.
Proof.
  revert b s. induction l as [|i l IH]; intros b s Hb Hn E; cbn [map itv_run] in E.
  - injection E as <-. done.
  - apply bind_Some in E as (st1 & E1 & E2). cbn [itv_step] in E1.
    destruct (Nat.ltb_spec (S i) n) as [Hi|]; [|done].
    apply bind_Some in E1 as (b1 & E1 & [= <-]).
    destruct (sc_flr_sound n i b b1 s) as [Hw Hv]; [done..|].
    destruct (IH b1 (sc_step (FLR i) s) Hw) as [Hw' Hv']; [by rewrite length_sc_step | done |].
    cbn [map]. unfold sc_run. cbn [fold_left]. split; [exact Hw'|].
    etransitivity; [exact Hv' | exact Hv].
Qed.

Lemma evaln_range r n s :
  0 <= r -> (forall i, (i < n)%nat -> 0 <= s !!! i < 2 ^ r) -> 0 <= evaln r n s < 2 ^ (r * Z.of_nat n).
Proof.
  intros Hr. induction n as [|n IH]; intros H; [cbn [evaln]; rewrite Z.mul_0_r; lia|].
  cbn [evaln]. replace (r * Z.of_nat (S n)) with (r * Z.of_nat n + r) by lia.
  rewrite Z.pow_add_r by lia. pose proof (H n ltac:(lia)).
  assert (0 <= evaln r n s < 2 ^ (r * Z.of_nat n)) by (apply IH; auto with lia). nia.
Qed.

(** ** The last steps

    After [sc_floor] the value is [low + s12 * 2^252] with [low] below [2^252]
    and [s12] one of -1 and 0, so [FOLD 12] takes it into [0, sc_l). *)
Definition itv_sub (p q : itv) : bool := (q.1 <=? p.1) && (p.2 <=? q.2).

Definition sc_digits (s : list Z) : Prop :=
  (forall i, (i < 11)%nat -> 0 <= s !!! i < 2 ^ 21) /\ 0 <= s !!! 11%nat < 2 ^ 22.

Lemma within_digits b s m n lo hi :
  within b s -> (m <= length b)%nat ->
  forallb (fun p => itv_sub p (lo, hi)) (take m b) = true -> (n < m)%nat ->
  lo <= s !!! n <= hi.
Proof.
  intros Hb Hm Hf Hn. pose proof (within_lookup b s n Hb ltac:(lia)) as Bn.
  rewrite forallb_forall in Hf. specialize (Hf (b !!! n)).
  unfold itv_sub, in_itv in *. cbn [fst snd] in Hf. rewrite andb_true_iff, !Z.leb_le in Hf.
  assert (In (b !!! n) (take m b)) as Hin.
  { apply list_elem_of_In, elem_of_take. exists n. split; [|lia].
    apply list_lookup_lookup_total_lt. lia. }
  specialize (Hf Hin). lia.
Qed.

(** The bounds the last steps start from: twelve limbs of 21 bits and a top
    limb of -1 or 0. *)
Definition itv_floored (b : list itv) : bool :=
  (13 <=? length b)%nat && forallb (fun p => itv_sub p (0, 2 ^ 21 - 1)) (take 12 b)
  && itv_sub (b !!! 12%nat) (- 1, 0).

Definition itv_digits (b : list itv) : bool :=
  (12 <=? length b)%nat && forallb (fun p => itv_sub p (0, 2 ^ 21 - 1)) (take 11 b).

Lemma itv_floored_sound b s : within b s -> itv_floored b = true ->
  0 <= evaln 21 12 s < 2 ^ 252 /\ (s !!! 12%nat = - 1 \/ s !!! 12%nat = 0) /\ (13 <= length s)%nat.
Proof.
  intros Hb E. unfold itv_floored in E. rewrite !andb_true_iff, Nat.leb_le in E.
  destruct E as [[Hl Hd] Ht]. pose proof (within_lookup b s 12 Hb Hl) as B12.
  rewrite <- (within_length _ _ Hb).
  unfold itv_sub, in_itv in *. rewrite andb_true_iff, !Z.leb_le in Ht. cbn [fst snd] in *.
  split; [|lia]. apply (evaln_range 21 12 s ltac:(lia)). intros i Hi.
  assert (0 <= s !!! i <= 2 ^ 21 - 1) by (eapply within_digits; [exact Hb | | exact Hd | lia]; lia).
  lia.
Qed.

Lemma sc_l_gt : 2 ^ 252 < sc_l.
Proof. reflexivity. Qed.

(** The limbs of a value below [2^253] when all but the last are digits. *)
Lemma itv_digits_sound b s : within b s -> itv_digits b = true ->
  0 <= evaln 21 12 s < 2 ^ 253 -> sc_digits s.
Proof.
  intros Hb E Hv. unfold itv_digits in E. rewrite andb_true_iff, Nat.leb_le in E.
  destruct E as [Hl Hd].
  assert (Hlow : forall i, (i < 11)%nat -> 0 <= s !!! i < 2 ^ 21).
  { intros i Hi.
    assert (0 <= s !!! i <= 2 ^ 21 - 1) by (eapply within_digits; [exact Hb | | exact Hd | lia]; lia).
    lia. }
  split; [exact Hlow|]. pose proof (evaln_range 21 11 s ltac:(lia) Hlow) as Hr.
  rewrite (evaln_S 21 11 s 231 eq_refl) in Hv.
  change (2 ^ (21 * Z.of_nat 11)) with (2 ^ 231) in Hr. lia.
Qed.

Lemma sc_run_app l1 l2 s : sc_run (l1 ++ l2) s = sc_run l2 (sc_run l1 s).
Proof. apply fold_left_app. Qed.

(** The last elimination and the carries after it. *)
Lemma sc_last_sound l b b' t :
  within b t -> (12 <= length t)%nat -> itv_run (FOLD 12 :: map FLR l) (13%nat, b) = Some (12%nat, b') ->
  within b' (sc_run (FOLD 12 :: map FLR l) t) /\
  evaln 21 12 (sc_run (FOLD 12 :: map FLR l) t) = evaln 21 12 t + t !!! 12%nat * (2 ^ 252 - sc_l).
Proof.
  intros Hb Hl E. apply bind_Some in E as ([n1 b1] & E1 & E).
  apply bind_Some in E1 as (b2 & E1 & [= <- <-]).
  destruct (sc_fold_sound 12 b b2 t ltac:(lia) Hb E1) as [Hw1 Hv1].
  destruct (itv_flr_sound l 12 b2 (12%nat, b') (sc_fold 12 t)) as [Hw2 Hv2];
    [exact Hw1 | rewrite length_sc_fold; exact Hl | exact E |].
  split; [exact Hw2|]. etransitivity; [exact Hv2|]. rewrite Hv1.
  rewrite Nat.sub_diag. cbn [evaln]. change (2 ^ (21 * Z.of_nat 0)) with 1.
  change (2 ^ (21 * Z.of_nat 12)) with (2 ^ 252). ring.
Qed.

(** The theorem all seven functions apply: the run of a program that ends with
    [sc_final] leaves the digits of the residue. *)
Lemma sc_run_final N ops st b b' s :
  sc_inv N st s -> itv_run ops st = Some (13%nat, b) -> itv_floored b = true ->
  itv_run sc_final (13%nat, b) = Some (12%nat, b') -> itv_digits b' = true ->
  sc_digits (sc_run (ops ++ sc_final) s) /\ evaln 21 12 (sc_run (ops ++ sc_final) s) = N mod sc_l.
Proof.
  intros Hs E Hf Ef Hd. apply (itv_run_sound N ops st _ s Hs) in E as (Hb & _ & q & Hq).
  rewrite sc_run_app. set (t := sc_run ops s) in *. clearbody t.
  cbn [fst snd] in Hb, Hq. destruct (itv_floored_sound b t Hb Hf) as (Hlow & Htop & Hl).
  destruct (sc_last_sound _ b b' t Hb ltac:(lia) Ef) as [Hw Hv].
  fold sc_final in Hw, Hv. set (u := sc_run sc_final t) in *. clearbody u.
  rewrite (evaln_S 21 12 t 252 eq_refl) in Hq.
  revert Hlow Htop Hq Hv. generalize (evaln 21 12 t) (t !!! 12%nat). intros low top Hlow Htop Hq Hv.
  pose proof sc_l_gt as Hl1. assert (Hl2 : sc_l < 2 ^ 253) by reflexivity.
  assert (E : evaln 21 12 u = N mod sc_l).
  { rewrite Hv. apply (Z.mod_unique_pos _ _ (top - q)); [destruct Htop as [-> | ->]; lia | lia]. }
  split; [|exact E]. apply (itv_digits_sound b'); [done | done |].
  rewrite E. pose proof (Z.mod_pos_bound N sc_l). lia.
Qed.
