(* ===== verification/ScProofs.v ===== *)
(** * The scalar functions compute modulo the order

    For every input of the right length [sc_reduce], [sc_reduce32], [sc_add],
    [sc_sub], [sc_mul], [sc_muladd] and [sc_mulsub] write the 32 bytes of the
    canonical residue, and [sc_check] recognises canonical scalars. *)

From Stdlib Require Import ZArith Lia.
From stdpp Require Import base tactics list numbers.
From S2P Require Import Prelude Radix Fe Sc ScBounds.
Open Scope Z_scope.

(** ** Loads *)

Section Load.
Variable s : list Z.
Hypothesis Hs : byte_ok s.

Lemma mask_21 x : Z.land 2097151 x = x mod 2 ^ 21.
Proof. rewrite Z.land_comm. change 2097151 with (Z.ones 21). apply Z.land_ones. lia. Qed.

Lemma limb_3 j k m : 0 <= k <= 3 -> m = 8 * Z.of_nat j + k ->
  Z.land 2097151 (Z.shiftr (load_3 (drop j s)) k) = (le_val s / 2 ^ m) mod 2 ^ 21.
Proof using Hs.
  intros Hk ->. rewrite mask_21, load_3_drop, Z.shiftr_div_pow2 by (done || lia).
  replace 24 with (k + (24 - k)) by lia. rewrite div_mod_pow, div_div_pow, mod_mod_pow by lia. done.
Qed.

Lemma limb_4 j k m : 0 <= k <= 11 -> m = 8 * Z.of_nat j + k ->
  Z.land 2097151 (Z.shiftr (load_4 (drop j s)) k) = (le_val s / 2 ^ m) mod 2 ^ 21.
Proof using Hs.
  intros Hk ->. rewrite mask_21, load_4_drop, Z.shiftr_div_pow2 by (done || lia).
  replace 32 with (k + (32 - k)) by lia. rewrite div_mod_pow, div_div_pow, mod_mod_pow by lia. done.
Qed.

Lemma limb_top j k m t : 0 <= k <= 32 -> m = 8 * Z.of_nat j + k -> t = 32 - k ->
  Z.shiftr (load_4 (drop j s)) k = (le_val s / 2 ^ m) mod 2 ^ t.
Proof using Hs.
  intros Hk -> ->. rewrite load_4_drop, Z.shiftr_div_pow2 by (done || lia).
  replace 32 with (k + (32 - k)) at 1 by lia. rewrite div_mod_pow, div_div_pow by lia. done.
Qed.

Lemma limb_3_0 j m : m = 8 * Z.of_nat j ->
  Z.land 2097151 (load_3 (drop j s)) = (le_val s / 2 ^ m) mod 2 ^ 21.
Proof using Hs.
  intros Hm. rewrite <- (limb_3 j 0) by lia. rewrite Z.shiftr_0_r. done.
Qed.

Lemma limb_first : Z.land 2097151 (load_3 s) = (le_val s / 2 ^ 0) mod 2 ^ 21.
Proof using Hs. exact (limb_3_0 0 0 eq_refl). Qed.

(** The limbs of a byte string are its digits in radix [2^21]. *)
Definition digit_at (i : nat) : Z := (le_val s / 2 ^ (21 * Z.of_nat i)) mod 2 ^ 21.

Lemma sc_load32_digits :
  sc_load32 s = map digit_at (seq 0 11) ++ [(le_val s / 2 ^ 231) mod 2 ^ 25].
Proof using Hs.
  unfold sc_load32. rewrite limb_first, (limb_4 2 5 21), (limb_3 5 2 42), (limb_4 7 7 63),
    (limb_4 10 4 84), (limb_3 13 1 105), (limb_4 15 6 126), (limb_3 18 3 147), (limb_3_0 21 168),
    (limb_4 23 5 189), (limb_3 26 2 210), (limb_top 28 7 231 25) by (reflexivity || lia).
  reflexivity.
Qed.

Lemma sc_load64_digits :
  sc_load64 s = map digit_at (seq 0 23) ++ [(le_val s / 2 ^ 483) mod 2 ^ 29].
Proof using Hs.
  unfold sc_load64. rewrite limb_first, (limb_4 2 5 21), (limb_3 5 2 42), (limb_4 7 7 63),
    (limb_4 10 4 84), (limb_3 13 1 105), (limb_4 15 6 126), (limb_3 18 3 147), (limb_3_0 21 168),
    (limb_4 23 5 189), (limb_3 26 2 210), (limb_4 28 7 231), (limb_4 31 4 252), (limb_3 34 1 273),
    (limb_4 36 6 294), (limb_3 39 3 315), (limb_3_0 42 336), (limb_4 44 5 357), (limb_3 47 2 378),
    (limb_4 49 7 399), (limb_4 52 4 420), (limb_3 55 1 441), (limb_4 57 6 462),
    (limb_top 60 3 483 29) by (reflexivity || lia).
  reflexivity.
Qed.

Definition digits_top (n : nat) (t : Z) : list Z :=
  map digit_at (seq 0 n) ++ [(le_val s / 2 ^ (21 * Z.of_nat n)) mod 2 ^ t].

Lemma digits_top_lookup n t i : (i < n)%nat -> digits_top n t !!! i = digit_at i.
Proof.
  intros Hi. unfold digits_top. rewrite lookup_total_app_l by (rewrite length_map, length_seq; lia).
  apply list_lookup_total_correct. rewrite list_lookup_fmap, lookup_seq_lt by lia. done.
Qed.

Lemma digits_top_value n t : 0 <= t ->
  evaln 21 (S n) (digits_top n t) = le_val s mod 2 ^ (21 * Z.of_nat n + t).
Proof.
  intros Ht. cbn [evaln]. rewrite (evaln_digits 21 n _ (le_val s)) by
    (lia || intros; rewrite digits_top_lookup by done; reflexivity).
  rewrite <- mod_split by lia. rewrite (Z.mul_comm (2 ^ _)). do 2 f_equal.
  unfold digits_top. rewrite list_lookup_total_middle; [done|].
  rewrite length_map, length_seq. done.
Qed.

Lemma digits_top_within n t : 0 <= t ->
  within (replicate n (0, 2 ^ 21 - 1) ++ [(0, 2 ^ t - 1)]) (digits_top n t).
Proof.
  intros Ht. apply Forall2_app.
  - apply Forall2_same_length_lookup. rewrite length_replicate, length_map, length_seq.
    split; [done|]. intros i p x Hp Hx.
    pose proof (lookup_lt_Some _ _ _ Hp) as Hi. rewrite length_replicate in Hi.
    rewrite lookup_replicate_2 in Hp by done. injection Hp as <-.
    rewrite list_lookup_fmap, lookup_seq_lt in Hx by done. injection Hx as <-.
    unfold digit_at, in_itv. cbn [fst snd].
    match goal with |- context [?x mod 2 ^ 21] => pose proof (Z.mod_pos_bound x (2 ^ 21)) end. lia.
  - constructor; [|constructor]. unfold in_itv. cbn [fst snd].
    pose proof (Z.mod_pos_bound (le_val s / 2 ^ (21 * Z.of_nat n)) (2 ^ t)).
    assert (0 < 2 ^ t) by (apply Z.pow_pos_nonneg; lia). lia.
Qed.

End Load.

(** ** Stores *)

(** A limb cut at one shared byte only. *)
Lemma limb_pieces2 x a b : 0 <= a -> b = a + 8 ->
  x = x mod 2 ^ a + 2 ^ a * u8 (Z.shiftr x a) + 2 ^ b * Z.shiftr x b.
Proof.
  intros Ha ->. rewrite !Z.shiftr_div_pow2 by lia. unfold u8.
  pose proof (mod_split x a 8 ltac:(lia) ltac:(lia)).
  assert (2 ^ (a + 8) <> 0) by (apply Z.pow_nonzero; lia).
  pose proof (Z.div_mod x (2 ^ (a + 8))). lia.
Qed.

Lemma evaln_12 s : evaln 21 12 s =
  s !!! 0%nat + 2 ^ 21 * s !!! 1%nat + 2 ^ 42 * s !!! 2%nat + 2 ^ 63 * s !!! 3%nat
  + 2 ^ 84 * s !!! 4%nat + 2 ^ 105 * s !!! 5%nat + 2 ^ 126 * s !!! 6%nat
  + 2 ^ 147 * s !!! 7%nat + 2 ^ 168 * s !!! 8%nat + 2 ^ 189 * s !!! 9%nat
  + 2 ^ 210 * s !!! 10%nat + 2 ^ 231 * s !!! 11%nat.
Proof.
  rewrite (evaln_S 21 11 s 231), (evaln_S 21 10 s 210), (evaln_S 21 9 s 189), (evaln_S 21 8 s 168),
    (evaln_S 21 7 s 147), (evaln_S 21 6 s 126), (evaln_S 21 5 s 105), (evaln_S 21 4 s 84),
    (evaln_S 21 3 s 63), (evaln_S 21 2 s 42), (evaln_S 21 1 s 21), (evaln_S 21 0 s 0) by reflexivity.
  cbn [evaln]. ring.
Qed.

Lemma sc_pack_spec s : sc_digits s ->
  byte_ok (sc_pack s) /\ length (sc_pack s) = 32%nat /\ le_val (sc_pack s) = evaln 21 12 s.
Proof.
  intros [Hlow Htop]. rewrite evaln_12. unfold sc_pack. cbv zeta.
  pose proof (Hlow 0%nat ltac:(lia)). pose proof (Hlow 1%nat ltac:(lia)).
  pose proof (Hlow 2%nat ltac:(lia)). pose proof (Hlow 3%nat ltac:(lia)).
  pose proof (Hlow 4%nat ltac:(lia)). pose proof (Hlow 5%nat ltac:(lia)).
  pose proof (Hlow 6%nat ltac:(lia)). pose proof (Hlow 7%nat ltac:(lia)).
  pose proof (Hlow 8%nat ltac:(lia)). pose proof (Hlow 9%nat ltac:(lia)).
  pose proof (Hlow 10%nat ltac:(lia)). clear Hlow.
  revert Htop. repeat match goal with H : 0 <= _ !!! _ < _ |- _ => revert H end.
  generalize (s !!! 0%nat) (s !!! 1%nat) (s !!! 2%nat) (s !!! 3%nat) (s !!! 4%nat) (s !!! 5%nat)
    (s !!! 6%nat) (s !!! 7%nat) (s !!! 8%nat) (s !!! 9%nat) (s !!! 10%nat) (s !!! 11%nat).
  intros s0 s1 s2 s3 s4 s5 s6 s7 s8 s9 s10 s11 H0 H1 H2 H3 H4 H5 H6 H7 H8 H9 H10 H11.
  split; [repeat (constructor; [apply u8_range|]); constructor|]. split; [done|].
  rewrite (u8_or _ s1 5), (u8_or _ s2 2), (u8_or _ s3 7), (u8_or _ s4 4), (u8_or _ s5 1),
    (u8_or _ s6 6), (u8_or _ s7 3), (u8_or _ s9 5), (u8_or _ s10 2), (u8_or _ s11 7)
    by first [lia | apply (shiftr_range _ 21); lia].
  rewrite (u8_id (Z.shiftr s7 13)), (u8_id (Z.shiftr s11 17))
    by first [apply (shiftr_range _ 21); lia | pose proof (shiftr_range s11 22 17); lia].
  rewrite !Z.shiftr_0_r. change (u8 s0) with (s0 mod 2 ^ 8). change (u8 s8) with (s8 mod 2 ^ 8).
  change (8 - 5) with 3. change (8 - 2) with 6. change (8 - 7) with 1. change (8 - 4) with 4.
  change (8 - 1) with 7. change (8 - 6) with 2. change (8 - 3) with 5.
  pose proof (limb_pieces2 s0 8 16 ltac:(lia) eq_refl).
  pose proof (limb_pieces s1 3 11 19 ltac:(lia) eq_refl eq_refl).
  pose proof (limb_pieces2 s2 6 14 ltac:(lia) eq_refl).
  pose proof (limb_pieces s3 1 9 17 ltac:(lia) eq_refl eq_refl).
  pose proof (limb_pieces s4 4 12 20 ltac:(lia) eq_refl eq_refl).
  pose proof (limb_pieces2 s5 7 15 ltac:(lia) eq_refl).
  pose proof (limb_pieces s6 2 10 18 ltac:(lia) eq_refl eq_refl).
  pose proof (limb_pieces2 s7 5 13 ltac:(lia) eq_refl).
  pose proof (limb_pieces2 s8 8 16 ltac:(lia) eq_refl).
  pose proof (limb_pieces s9 3 11 19 ltac:(lia) eq_refl eq_refl).
  pose proof (limb_pieces2 s10 6 14 ltac:(lia) eq_refl).
  pose proof (limb_pieces s11 1 9 17 ltac:(lia) eq_refl eq_refl).
  cbn [le_val]. pieces_lia.
Qed.

(** ** Products *)

Definition itv_load32 : list itv := replicate 11 (0, 2 ^ 21 - 1) ++ [(0, 2 ^ 25 - 1)].

(** Bounds of the limbs of a product, by the number of terms of each. *)
Definition itv_product : list itv :=
  map (fun k => (- (k * 2 ^ 42 + 2 ^ 51), k * 2 ^ 42 + 2 ^ 51))
    [1; 2; 3; 4; 5; 6; 7; 8; 9; 10; 11; 12; 11; 10; 9; 8; 7; 6; 5; 4; 3; 2; 1] ++ [(0, 0)].

Lemma evaln_24 s : evaln 21 24 s =
  evaln 21 12 s + 2 ^ 252 * (
  s !!! 12%nat + 2 ^ 21 * s !!! 13%nat + 2 ^ 42 * s !!! 14%nat + 2 ^ 63 * s !!! 15%nat
  + 2 ^ 84 * s !!! 16%nat + 2 ^ 105 * s !!! 17%nat + 2 ^ 126 * s !!! 18%nat
  + 2 ^ 147 * s !!! 19%nat + 2 ^ 168 * s !!! 20%nat + 2 ^ 189 * s !!! 21%nat
  + 2 ^ 210 * s !!! 22%nat + 2 ^ 231 * s !!! 23%nat).
Proof.
  rewrite (evaln_S 21 23 s 483), (evaln_S 21 22 s 462), (evaln_S 21 21 s 441), (evaln_S 21 20 s 420),
    (evaln_S 21 19 s 399), (evaln_S 21 18 s 378), (evaln_S 21 17 s 357), (evaln_S 21 16 s 336),
    (evaln_S 21 15 s 315), (evaln_S 21 14 s 294), (evaln_S 21 13 s 273), (evaln_S 21 12 s 252) by reflexivity.
  generalize (evaln 21 12 s) (s !!! 12%nat) (s !!! 13%nat) (s !!! 14%nat) (s !!! 15%nat) (s !!! 16%nat)
    (s !!! 17%nat) (s !!! 18%nat) (s !!! 19%nat) (s !!! 20%nat) (s !!! 21%nat) (s !!! 22%nat)
    (s !!! 23%nat). intros. ring.
Qed.

Lemma within_abs b s i B : within b s -> (i < length b)%nat ->
  Z.max (- (b !!! i).1) ((b !!! i).2) <= B -> Z.abs (s !!! i) <= B.
Proof. intros Hb Hi HB. pose proof (within_lookup b s i Hb Hi). unfold in_itv in *. lia. Qed.

Lemma abs_itv x l h B : Z.abs x <= B -> (l <=? - B) && (B <=? h) = true -> in_itv (l, h) x.
Proof. unfold in_itv. cbn [fst snd]. rewrite andb_true_iff, !Z.leb_le. lia. Qed.

(** An operand is twelve limbs with their bounds. *)
Lemma within_12 a : within itv_load32 a ->
  exists a0 a1 a2 a3 a4 a5 a6 a7 a8 a9 a10 a11,
    a = [a0; a1; a2; a3; a4; a5; a6; a7; a8; a9; a10; a11] /\
    Z.abs a0 <= 2097151 /\ Z.abs a1 <= 2097151 /\ Z.abs a2 <= 2097151 /\ Z.abs a3 <= 2097151 /\
    Z.abs a4 <= 2097151 /\ Z.abs a5 <= 2097151 /\ Z.abs a6 <= 2097151 /\ Z.abs a7 <= 2097151 /\
    Z.abs a8 <= 2097151 /\ Z.abs a9 <= 2097151 /\ Z.abs a10 <= 2097151 /\ Z.abs a11 <= 33554431.
Proof.
  unfold within, itv_load32, in_itv. cbn [replicate app]. intros H.
  repeat (apply Forall2_cons_inv_l in H as (? & ? & ? & H & ->); cbn [fst snd] in * ).
  apply Forall2_nil_inv_l in H as ->.
  do 12 eexists. split; [reflexivity|]. repeat apply conj; lia.
Qed.

Ltac limb_vars Ha :=
  apply within_12 in Ha as (?&?&?&?&?&?&?&?&?&?&?&?&->&?&?&?&?&?&?&?&?&?&?&?&?).

(** [s !!! i] on explicit lists. *)
Ltac lookups := cbn [lookup_total list_lookup_total].

Ltac products_within b :=
  let l := eval vm_compute in b in change b with l; unfold within;
  repeat (apply Forall2_cons; [eapply abs_itv; [abs_exact | reflexivity] |]); apply Forall2_nil.
Ltac product_tac :=
  lookups; i64_consts; rewrite evaln_24, !evaln_12;
  split; [products_within itv_product | lookups; ring].

Lemma sc_mul_limbs_spec a b : within itv_load32 a -> within itv_load32 b ->
  within itv_product (sc_mul_limbs a b) /\
  evaln 21 24 (sc_mul_limbs a b) = evaln 21 12 a * evaln 21 12 b.
Proof. intros Ha Hb. limb_vars Ha. limb_vars Hb. unfold sc_mul_limbs. cbv zeta. product_tac. Qed.

Lemma sc_muladd_limbs_spec a b c :
  within itv_load32 a -> within itv_load32 b -> within itv_load32 c ->
  within itv_product (sc_muladd_limbs a b c) /\
  evaln 21 24 (sc_muladd_limbs a b c) = evaln 21 12 a * evaln 21 12 b + evaln 21 12 c.
Proof.
  intros Ha Hb Hc. limb_vars Ha. limb_vars Hb. limb_vars Hc.
  unfold sc_muladd_limbs. cbv zeta. product_tac.
Qed.

Lemma sc_mulsub_limbs_spec a b c :
  within itv_load32 a -> within itv_load32 b -> within itv_load32 c ->
  within itv_product (sc_mulsub_limbs a b c) /\
  evaln 21 24 (sc_mulsub_limbs a b c) = evaln 21 12 c - evaln 21 12 a * evaln 21 12 b.
Proof.
  intros Ha Hb Hc. limb_vars Ha. limb_vars Hb. limb_vars Hc.
  unfold sc_mulsub_limbs. cbv zeta. product_tac.
Qed.

Definition itv_sum : list itv := replicate 11 (- 2 ^ 22, 2 ^ 22) ++ [(- 2 ^ 26, 2 ^ 26); (0, 0)].

Ltac sum_tac :=
  lookups; i64_consts; rewrite (evaln_S 21 12 _ 252 eq_refl), !evaln_12;
  split; [products_within itv_sum | lookups; ring].

Lemma sc_add_limbs_spec a b : within itv_load32 a -> within itv_load32 b ->
  within itv_sum (sc_add_limbs a b) /\
  evaln 21 13 (sc_add_limbs a b) = evaln 21 12 a + evaln 21 12 b.
Proof. intros Ha Hb. limb_vars Ha. limb_vars Hb. unfold sc_add_limbs. sum_tac. Qed.

Lemma sc_sub_limbs_spec a b : within itv_load32 a -> within itv_load32 b ->
  within itv_sum (sc_sub_limbs a b) /\
  evaln 21 13 (sc_sub_limbs a b) = evaln 21 12 a - evaln 21 12 b.
Proof. intros Ha Hb. limb_vars Ha. limb_vars Hb. unfold sc_sub_limbs. sum_tac. Qed.

(** ** The functions *)

(** The interval checks of a program, from [n] limbs within [b]. *)
Definition sc_checks (ops : list sc_op) (n : nat) (b : list itv) : bool :=
  match itv_run ops (n, b) with
  | Some (n1, b1) =>
      (n1 =? 13)%nat && itv_floored b1 &&
      match itv_run sc_final (13%nat, b1) with
      | Some (n2, b2) => (n2 =? 12)%nat && itv_digits b2
      | None => false
      end
  | None => false
  end.

(** A program that passes the checks writes the canonical residue. *)
Lemma sc_checks_sound ops n b s :
  sc_checks ops n b = true -> within b s -> (n <=? length b)%nat = true ->
  sc_pack (sc_run (ops ++ sc_final) s) = le_bytes 32 (evaln 21 n s mod sc_l).
Proof.
  intros E Hb Hn. unfold sc_checks in E.
  destruct (itv_run ops (n, b)) as [[n1 b1]|] eqn:E1; [|done].
  rewrite !andb_true_iff, Nat.eqb_eq in E. destruct E as [[-> Hf] E].
  destruct (itv_run sc_final (13%nat, b1)) as [[n2 b2]|] eqn:E2; [|done].
  rewrite andb_true_iff, Nat.eqb_eq in E. destruct E as [-> Hd].
  assert (Hs : sc_inv (evaln 21 n s) (n, b) s).
  { split; [done|]. cbn [fst snd]. rewrite <- (within_length _ _ Hb).
    split; [by apply Nat.leb_le|]. exists 0. ring. }
  destruct (sc_run_final _ ops _ b1 b2 s Hs E1 Hf E2 Hd) as [Hdig Hv].
  destruct (sc_pack_spec _ Hdig) as (Hok & Hlen & Hval).
  rewrite Hv in Hval. apply le_val_inj; [done | apply le_bytes_ok | by rewrite Hlen, length_le_bytes|].
  rewrite le_val_le_bytes, Hval, (Z.mod_small (_ mod _)); [done|].
  pose proof (Z.mod_pos_bound (evaln 21 n s) sc_l). unfold sc_l in *. lia.
Qed.

Lemma le_val_mod l n : byte_ok l -> length l = n -> le_val l mod 2 ^ (8 * Z.of_nat n) = le_val l.
Proof. intros Hl <-. apply Z.mod_small, le_val_range, Hl. Qed.

Lemma sc_load32_spec s : byte_ok s -> length s = 32%nat ->
  within itv_load32 (sc_load32 s) /\ evaln 21 12 (sc_load32 s) = le_val s.
Proof.
  intros Hs Hl. rewrite sc_load32_digits by done. change (_ ++ _) with (digits_top s 11 25).
  split; [by apply (digits_top_within s 11 25)|].
  rewrite digits_top_value by lia. exact (le_val_mod s 32 Hs Hl).
Qed.

Definition itv_load64 : list itv := replicate 23 (0, 2 ^ 21 - 1) ++ [(0, 2 ^ 29 - 1)].

Lemma sc_load64_spec s : byte_ok s -> length s = 64%nat ->
  within itv_load64 (sc_load64 s) /\ evaln 21 24 (sc_load64 s) = le_val s.
Proof.
  intros Hs Hl. rewrite sc_load64_digits by done. change (_ ++ _) with (digits_top s 23 29).
  split; [by apply (digits_top_within s 23 29)|].
  rewrite digits_top_value by lia. exact (le_val_mod s 64 Hs Hl).
Qed.

(** Evaluates the checks of a program on the bounds of its limbs. *)
Ltac by_checks n b W :=
  rewrite !app_assoc; apply (sc_checks_sound _ n b); [vm_compute; reflexivity | exact W | reflexivity].

Lemma sc_reduce_spec s : byte_ok s -> length s = 64%nat ->
  sc_reduce s = le_bytes 32 (le_val s mod sc_l).
Proof.
  intros Hs Hl. destruct (sc_load64_spec s Hs Hl) as [Hw <-].
  unfold sc_reduce. by_checks 24%nat itv_load64 Hw.
Qed.

Lemma sc_reduce32_spec s : byte_ok s -> length s = 32%nat ->
  sc_reduce32 s = le_bytes 32 (le_val s mod sc_l).
Proof.
  intros Hs Hl. destruct (sc_load32_spec s Hs Hl) as [Hw <-].
  unfold sc_reduce32. rewrite !app_assoc.
  replace (evaln 21 12 (sc_load32 s)) with (evaln 21 13 (sc_load32 s ++ [0])).
  - apply (sc_checks_sound _ 13 (itv_load32 ++ [(0, 0)])); [vm_compute; reflexivity | | reflexivity].
    apply Forall2_app; [exact Hw|]. repeat constructor; done.
  - rewrite sc_load32_digits by done. rewrite (evaln_S 21 12 _ 252 eq_refl), !evaln_12.
    lookups. cbn [map seq app]. lookups. ring.
Qed.

Section Binary.
Variables a b : list Z.
Hypotheses (Ha : byte_ok a) (Hb : byte_ok b) (La : length a = 32%nat) (Lb : length b = 32%nat).

Lemma sc_add_spec : sc_add a b = le_bytes 32 ((le_val a + le_val b) mod sc_l).
Proof using All.
  destruct (sc_load32_spec a Ha La) as [Wa <-]. destruct (sc_load32_spec b Hb Lb) as [Wb <-].
  destruct (sc_add_limbs_spec _ _ Wa Wb) as [W <-]. unfold sc_add. by_checks 13%nat itv_sum W.
Qed.

Lemma sc_sub_spec : sc_sub a b = le_bytes 32 ((le_val a - le_val b) mod sc_l).
Proof using All.
  destruct (sc_load32_spec a Ha La) as [Wa <-]. destruct (sc_load32_spec b Hb Lb) as [Wb <-].
  destruct (sc_sub_limbs_spec _ _ Wa Wb) as [W <-]. unfold sc_sub. by_checks 13%nat itv_sum W.
Qed.

Lemma sc_mul_spec : sc_mul a b = le_bytes 32 ((le_val a * le_val b) mod sc_l).
Proof using All.
  destruct (sc_load32_spec a Ha La) as [Wa <-]. destruct (sc_load32_spec b Hb Lb) as [Wb <-].
  destruct (sc_mul_limbs_spec _ _ Wa Wb) as [W <-]. unfold sc_mul. by_checks 24%nat itv_product W.
Qed.

Variable c : list Z.
Hypotheses (Hc : byte_ok c) (Lc : length c = 32%nat).

Lemma sc_muladd_spec :
  sc_muladd a b c = le_bytes 32 ((le_val a * le_val b + le_val c) mod sc_l).
Proof using All.
  destruct (sc_load32_spec a Ha La) as [Wa <-]. destruct (sc_load32_spec b Hb Lb) as [Wb <-].
  destruct (sc_load32_spec c Hc Lc) as [Wc <-].
  destruct (sc_muladd_limbs_spec _ _ _ Wa Wb Wc) as [W <-]. unfold sc_muladd. by_checks 24%nat itv_product W.
Qed.

Lemma sc_mulsub_spec :
  sc_mulsub a b c = le_bytes 32 ((le_val c - le_val a * le_val b) mod sc_l).
Proof using All.
  destruct (sc_load32_spec a Ha La) as [Wa <-]. destruct (sc_load32_spec b Hb Lb) as [Wb <-].
  destruct (sc_load32_spec c Hc Lc) as [Wc <-].
  destruct (sc_mulsub_limbs_spec _ _ _ Wa Wb Wc) as [W <-]. unfold sc_mulsub. by_checks 24%nat itv_product W.
Qed.

End Binary.

(** ** [sc_check] *)

Lemma signum_spec a : - 2 ^ 33 <= a <= 2 ^ 33 -> signum a = Z.sgn a.
Proof.
  intros Ha. unfold signum. rewrite (i64_id (- a)), !Z.shiftr_div_pow2 by lia.
  destruct (Z.lt_trichotomy a 0) as [H|[->|H]]; [| reflexivity |].
  - rewrite (Z.div_small (- a)) by lia.
    rewrite <- (Z.div_unique a (2 ^ 63) (-1) (a + 2 ^ 63)) by lia.
    rewrite Z.sgn_neg by done. reflexivity.
  - rewrite (Z.div_small a) by lia.
    rewrite <- (Z.div_unique (- a) (2 ^ 63) (-1) (- a + 2 ^ 63)) by lia.
    rewrite Z.sgn_pos by done. reflexivity.
Qed.

(** The weighted sum [x] of the signs of [i] words has the sign of the number
    [X] they form; one more word keeps this. *)
Record sgn_ok (i x X : Z) : Prop := {
  sgn_small : Z.abs x < 2 ^ i;
  sgn_words : Z.abs X < 2 ^ (32 * i);
  sgn_eq : Z.sgn x = Z.sgn X }.

Lemma sgn_digit i j w x X d :
  sgn_ok i x X -> 0 <= i -> j = i + 1 -> w = 32 * i -> Z.abs d < 2 ^ 32 ->
  sgn_ok j (x + Z.shiftl (Z.sgn d) i) (X + 2 ^ w * d).
Proof.
  intros [Hx HX Hs] Hi -> -> Hd. assert (0 < 2 ^ i) by (apply Z.pow_pos_nonneg; lia).
  assert (0 < 2 ^ (32 * i)) by (apply Z.pow_pos_nonneg; lia).
  rewrite Z.shiftl_mul_pow2 by lia.
  split; rewrite ?Z.mul_add_distr_l, ?Z.pow_add_r by lia;
    change (2 ^ (32 * 1)) with (2 ^ 32); change (2 ^ 1) with 2;
    destruct (Z.lt_trichotomy d 0) as [H1|[->|H1]];
    rewrite ?(Z.sgn_neg d), ?(Z.sgn_pos d), ?Z.mul_0_l, ?Z.mul_0_r, ?Z.add_0_r by done;
    try (nia || done).
Qed.

Definition sc_words (s : list Z) : Z :=
  load_4 s + 2 ^ 32 * load_4 (drop 4 s) + 2 ^ 64 * load_4 (drop 8 s) + 2 ^ 96 * load_4 (drop 12 s)
  + 2 ^ 128 * load_4 (drop 16 s) + 2 ^ 160 * load_4 (drop 20 s) + 2 ^ 192 * load_4 (drop 24 s)
  + 2 ^ 224 * load_4 (drop 28 s).

Lemma sc_words_val s : byte_ok s -> length s = 32%nat -> sc_words s = le_val s.
Proof.
  intros Hs Hl. unfold sc_words. rewrite load_4_val, !load_4_drop by done.
  rewrite <- (le_val_mod s 32 Hs Hl) at 9. change (8 * Z.of_nat 32) with (224 + 32).
  rewrite <- (mod_split _ 224 32) by lia.
  pose proof (mod_split (le_val s) 192 32 ltac:(lia) ltac:(lia)) as E7.
  pose proof (mod_split (le_val s) 160 32 ltac:(lia) ltac:(lia)) as E6.
  pose proof (mod_split (le_val s) 128 32 ltac:(lia) ltac:(lia)) as E5.
  pose proof (mod_split (le_val s) 96 32 ltac:(lia) ltac:(lia)) as E4.
  pose proof (mod_split (le_val s) 64 32 ltac:(lia) ltac:(lia)) as E3.
  pose proof (mod_split (le_val s) 32 32 ltac:(lia) ltac:(lia)) as E2.
  change (192 + 32) with 224 in E7. change (160 + 32) with 192 in E6.
  change (128 + 32) with 160 in E5. change (96 + 32) with 128 in E4.
  change (64 + 32) with 96 in E3. change (32 + 32) with 64 in E2.
  change (8 * Z.of_nat 4) with 32. change (8 * Z.of_nat 8) with 64.
  change (8 * Z.of_nat 12) with 96. change (8 * Z.of_nat 16) with 128.
  change (8 * Z.of_nat 20) with 160. change (8 * Z.of_nat 24) with 192.
  change (8 * Z.of_nat 28) with 224. pieces_lia.
Qed.

Lemma sc_check_spec s : byte_ok s -> length s = 32%nat ->
  sc_check s = if le_val s <? sc_l then 0 else - 1.
Proof.
  intros Hs Hl. rewrite <- (sc_words_val s Hs Hl). unfold sc_check, sc_words.
  assert (Hr : forall j, 0 <= load_4 (drop j s) < 2 ^ 32).
  { intros j. rewrite load_4_drop by done. apply Z.mod_pos_bound. lia. }
  pose proof (Hr 0%nat) as R0. change (drop 0 s) with s in R0.
  pose proof (Hr 4%nat) as R1. pose proof (Hr 8%nat) as R2. pose proof (Hr 12%nat) as R3.
  pose proof (Hr 16%nat) as R4. pose proof (Hr 20%nat) as R5. pose proof (Hr 24%nat) as R6.
  pose proof (Hr 28%nat) as R7. clear Hr. revert R0 R1 R2 R3 R4 R5 R6 R7.
  generalize (load_4 s) (load_4 (drop 4 s)) (load_4 (drop 8 s)) (load_4 (drop 12 s))
    (load_4 (drop 16 s)) (load_4 (drop 20 s)) (load_4 (drop 24 s)) (load_4 (drop 28 s)).
  intros s0 s1 s2 s3 s4 s5 s6 s7 R0 R1 R2 R3 R4 R5 R6 R7. cbv zeta. rewrite !signum_spec by lia.
  assert (S0 : sgn_ok 1 (Z.sgn (1559614444 - s0)) (1559614444 - s0)) by (split; lia).
  apply (sgn_digit 1 2 32 _ _ (1477600026 - s1)) in S0; [|lia | reflexivity | reflexivity | lia].
  apply (sgn_digit 2 3 64 _ _ (2734136534 - s2)) in S0; [|lia | reflexivity | reflexivity | lia].
  apply (sgn_digit 3 4 96 _ _ (350157278 - s3)) in S0; [|lia | reflexivity | reflexivity | lia].
  apply (sgn_digit 4 5 128 _ _ (- s4)) in S0; [|lia | reflexivity | reflexivity | lia].
  apply (sgn_digit 5 6 160 _ _ (- s5)) in S0; [|lia | reflexivity | reflexivity | lia].
  apply (sgn_digit 6 7 192 _ _ (- s6)) in S0; [|lia | reflexivity | reflexivity | lia].
  apply (sgn_digit 7 8 224 _ _ (268435456 - s7)) in S0; [|lia | reflexivity | reflexivity | lia].
  destruct S0 as [A7 _ C7].
  set (x := _ + _ + _ + _ + _ + _ + _ + _) in A7, C7 |- *.
  set (X := _ + _) in C7. rewrite Z.shiftr_div_pow2 by lia.
  assert (EX : X = sc_l - 1 - (s0 + 2 ^ 32 * s1 + 2 ^ 64 * s2 + 2 ^ 96 * s3 + 2 ^ 128 * s4
    + 2 ^ 160 * s5 + 2 ^ 192 * s6 + 2 ^ 224 * s7)) by (unfold X, sc_l; ring).
  clearbody x X. revert EX.
  generalize (s0 + 2 ^ 32 * s1 + 2 ^ 64 * s2 + 2 ^ 96 * s3 + 2 ^ 128 * s4
    + 2 ^ 160 * s5 + 2 ^ 192 * s6 + 2 ^ 224 * s7). intros w EX.
  destruct (Z.ltb_spec w sc_l).
  - rewrite Z.div_small; [reflexivity|]. assert (0 <= Z.sgn x) by (rewrite C7; lia). lia.
  - rewrite <- (Z.div_unique x (2 ^ 8) (-1) (x + 2 ^ 8)); [reflexivity | | lia].
    assert (Z.sgn x = -1) by (rewrite C7; apply Z.sgn_neg; lia). lia.
Qed.

Lemma sc_isnonzero_spec s : byte_ok s -> length s = 32%nat ->
  sc_isnonzero s = if le_val s =? 0 then 0 else 1.
Proof.
  intros Hs Hl. unfold sc_isnonzero. rewrite take_ge by lia. by apply bytes_nonzero_spec.
Qed.

Lemma sc_0_spec : byte_ok sc_0 /\ length sc_0 = 32%nat /\ le_val sc_0 = 0.
Proof.
  split; [|done]. unfold sc_0, byte_ok. repeat (constructor; [lia|]). constructor.
Qed.
