(* ===== verification/TableProofs.v ===== *)
(** * The precomputed tables hold the multiples of the base point

    The checks of TableCheck.v evaluated on the tables of crypto-ops-data.c:
    [ge_base[i][j]] is [(j+1) * 256^i * B] and [ge_Bi[j]] is [(2j+1) * B], for
    the base point [B]; the order of [B] is [l]. *)

From Stdlib Require Import ZArith Lia.
From stdpp Require Import base tactics list.
From S2P Require Import Prelude Radix Fe FeBytes FePow Pocklington Ge Curve Group CurveAssoc Points Tables Sc.
Open Scope Z_scope.

(** * Checking tables of points by computation

    Boolean checks on integers, with the cheap reduction [fold_p], and what a
    successful check says about points of the curve: sums of affine points
    without divisions, and projective doublings and additions for multiples. *)

(** ** Residues *)

Definition mulp (a b : Z) : Z := fold_p (fold_p (a * b)).
Definition eqpb (a b : Z) : bool :=
  let d := fold_p (fold_p (fold_p (a - b))) in (d =? 0) || (d =? fe_p).
(** [x / 2], and the value of a limb vector without powers *)
Definition halfp (x : Z) : Z := Z.div2 (if Z.odd x then x + fe_p else x).
Definition fe_horner (f : fe) : Z :=
  fe0 f + 67108864 * (fe1 f + 33554432 * (fe2 f + 67108864 * (fe3 f + 33554432 * (fe4 f
  + 67108864 * (fe5 f + 33554432 * (fe6 f + 67108864 * (fe7 f + 33554432 * (fe8 f
  + 67108864 * fe9 f)))))))).

Lemma mulp_eq a b : mulp a b ≡ₚ a * b.
Proof. unfold mulp. by rewrite !fold_p_eq. Qed.

Lemma eqpb_eq a b : eqpb a b = true -> a ≡ₚ b.
Proof.
  unfold eqpb. cbv zeta. rewrite orb_true_iff, !Z.eqb_eq. intros H.
  assert (E : a - b ≡ₚ 0).
  { rewrite <- (fold_p_eq (a - b)), <- (fold_p_eq (fold_p (a - b))), <- fold_p_eq.
    destruct H as [-> | ->]; reflexivity. }
  apply (eqp_step 1 _ _ _ _ E), eqp_eq. ring.
Qed.

Lemma halfp_2 x : halfp x * 2 ≡ₚ x.
Proof.
  unfold halfp. destruct (Z.odd x) eqn:E.
  - pose proof (Z.div2_odd (x + fe_p)) as D. rewrite Z.odd_add, E in D.
    change (Z.odd fe_p) with true in D. cbn [xorb Z.b2z] in D.
    apply (eqp_add_p _ _ 1). lia.
  - pose proof (Z.div2_odd x) as D. rewrite E in D. cbn [Z.b2z] in D. apply eqp_eq. lia.
Qed.

Lemma fe_horner_val f : fe_horner f = fe_val f.
Proof. unfold fe_horner, fe_val. lia. Qed.

(** ** Affine points *)

Definition aff_pt (a : Z * Z) (P : point) : Prop :=
  fst a ≡ₚ ed_px (pt P) /\ snd a ≡ₚ ed_py (pt P).

#[export] Instance aff_pt_proper : Proper (eq ==> pt_eq ==> iff) aff_pt.
Proof. intros a ? <- P Q [Hx Hy]. unfold aff_pt. by rewrite Hx, Hy. Qed.

Lemma aff_pt_unique a P Q : aff_pt a P -> aff_pt a Q -> P ≡ₑ Q.
Proof. intros [EX EY] [EX' EY']. split; [by rewrite <- EX | by rewrite <- EY]. Qed.

(** The point of a table entry: [x = ((y+x) - (y-x))/2]. *)
Definition pre_aff (q : ge_precomp) : Z * Z :=
  let P := fe_horner (pre_yplusx q) in let M := fe_horner (pre_yminusx q) in
  (halfp (P - M), halfp (P + M)).

Definition pre_valid (q : ge_precomp) (a : Z * Z) : bool :=
  fe_boundedb 33889976 16944988 (pre_yplusx q) && fe_boundedb 33889976 16944988 (pre_yminusx q) &&
  fe_boundedb 33889976 16944988 (pre_xy2d q) &&
  eqpb (fe_horner (pre_xy2d q)) (mulp (fst a) (snd a) * (2 * ed_d)).

Lemma pre_valid_pt q P : pre_valid q (pre_aff q) = true -> aff_pt (pre_aff q) P -> pre_pt q P.
Proof.
  unfold pre_valid. rewrite !andb_true_iff. intros [[[HP HM] HT] ET] [EX EY].
  apply eqpb_eq in ET. rewrite mulp_eq, EX, EY, fe_horner_val in ET.
  pose proof (halfp_2 (fe_val (pre_yplusx q) - fe_val (pre_yminusx q))) as HX.
  pose proof (halfp_2 (fe_val (pre_yplusx q) + fe_val (pre_yminusx q))) as HY.
  unfold pre_aff in EX, EY. cbv zeta in EX, EY. rewrite !fe_horner_val in EX, EY. cbn [fst snd] in EX, EY.
  rewrite EX in HX. rewrite EY in HY.
  unfold pre_pt, pre_rep, pre_ok. split_and!; try (by apply fe_bounded_check).
  - apply (unit_cancel _ _ 2 unit_2).
    apply (eqp_step (-1) _ _ _ _ HX), (eqp_step (-1) _ _ _ _ HY). eqp_ring.
  - apply (unit_cancel _ _ 2 unit_2).
    apply (eqp_step 1 _ _ _ _ HX), (eqp_step (-1) _ _ _ _ HY). eqp_ring.
  - rewrite ET. apply eqp_eq. ring.
Qed.

(** [c = a + b], by the equations of the addition law. *)
Definition sumb (a b c : Z * Z) : bool :=
  let k := mulp (mulp (fst a) (fst b)) (mulp (mulp (snd a) (snd b)) ed_d) in
  eqpb (fst c * (1 + k)) (fst a * snd b + snd a * fst b) &&
  eqpb (snd c * (1 - k)) (snd a * snd b + fst a * fst b).

Lemma sumb_pt a b c P Q : aff_pt a P -> aff_pt b Q -> sumb a b c = true -> aff_pt c (P ⊕ Q).
Proof.
  intros [EX EY] [EX' EY']. unfold sumb. cbv zeta. rewrite andb_true_iff. intros [S1%eqpb_eq S2%eqpb_eq].
  rewrite !mulp_eq in S1, S2.
  pose proof (ed_add_sum _ _ (pt_curve P) (pt_curve Q)) as [Hx Hy Ux Uy].
  split.
  - apply (unit_cancel _ _ _ Ux). rewrite Hx, <- EX, <- EY, <- EX', <- EY', <- S1. apply eqp_eq. ring.
  - apply (unit_cancel _ _ _ Uy). rewrite Hy, <- EX, <- EY, <- EX', <- EY', <- S2. apply eqp_eq. ring.
Qed.

(** [l] continues the progression [cur], [cur + s], ... *)
Fixpoint chain_check (s cur : Z * Z) (l : list ge_precomp) : bool :=
  match l with
  | [] => true
  | q :: l =>
      let a := pre_aff q in
      pre_valid q a && sumb cur s a && chain_check s a l
  end.

Lemma chain_check_pt s S l : aff_pt s S -> forall cur P n, aff_pt cur (n ⊙ S ⊕ P) ->
  chain_check s cur l = true ->
  forall j q, l !! j = Some q ->
    aff_pt (pre_aff q) ((n + 1 + Z.of_nat j) ⊙ S ⊕ P) /\ pre_pt q ((n + 1 + Z.of_nat j) ⊙ S ⊕ P).
Proof.
  intros HS. induction l as [|q l IH]; intros cur P n Hc; [done|].
  cbn [chain_check]. cbv zeta. rewrite !andb_true_iff. intros [[Hv Hs] Hl].
  assert (Ha : aff_pt (pre_aff q) ((n + 1) ⊙ S ⊕ P)).
  { eapply aff_pt_proper; [reflexivity | | exact (sumb_pt _ _ _ _ _ Hc HS Hs)].
    rewrite pt_mul_add, pt_mul_1, !pt_add_assoc.
    apply pt_add_proper; [reflexivity | apply pt_add_comm]. }
  intros [|j] q' Hq'; cbn in Hq'.
  - injection Hq' as <-. rewrite Z.add_0_r. split; [exact Ha | by apply pre_valid_pt].
  - rewrite Nat2Z.inj_succ. replace (n + 1 + Z.succ (Z.of_nat j)) with (n + 1 + 1 + Z.of_nat j) by lia.
    exact (IH _ P (n + 1) Ha Hl j q' Hq').
Qed.

(** ** Projective points *)

Definition proj_pt (t : Z * Z * Z) (P : point) : Prop :=
  let '(X, Y, Z) := t in
  unit_p Z /\ X ≡ₚ ed_px (pt P) * Z /\ Y ≡ₚ ed_py (pt P) * Z.

#[export] Instance proj_pt_proper : Proper (eq ==> pt_eq ==> iff) proj_pt.
Proof. intros [[X Y] Z] ? <- P Q [Hx Hy]. unfold proj_pt. by rewrite Hx, Hy. Qed.

(** From numerators and denominators of the addition law, times a unit. *)
Lemma proj_sum_pt m A B F G P Q : unit_p m ->
  let x1 := ed_px (pt P) in let y1 := ed_py (pt P) in
  let x2 := ed_px (pt Q) in let y2 := ed_py (pt Q) in
  A ≡ₚ m * (x1 * y2 + y1 * x2) -> B ≡ₚ m * (y1 * y2 + x1 * x2) ->
  F ≡ₚ m * (1 + ed_d * (x1 * x2 * y1 * y2)) -> G ≡ₚ m * (1 - ed_d * (x1 * x2 * y1 * y2)) ->
  proj_pt (mulp A G, mulp B F, mulp F G) (P ⊕ Q).
Proof.
  intros Um x1 y1 x2 y2 EA EB EF EG.
  pose proof (ed_add_sum _ _ (pt_curve P) (pt_curve Q)) as [Hx Hy Ux Uy].
  fold x1 y1 x2 y2 in Hx, Hy, Ux, Uy. unfold proj_pt. cbn [pt pt_add].
  rewrite !mulp_eq, EA, EB, EF, EG, <- Hx, <- Hy.
  split; [auto with fe|]. split; apply eqp_eq; ring.
Qed.

Definition pdbl (t : Z * Z * Z) : Z * Z * Z :=
  let '(X, Y, Z) := t in
  let xx := mulp X X in let yy := mulp Y Y in
  let A := 2 * mulp X Y in let B := yy + xx in
  let F := yy - xx in let G := 2 * mulp Z Z - F in
  (mulp A G, mulp B F, mulp F G).

Lemma pdbl_pt t P : proj_pt t P -> proj_pt (pdbl t) (P ⊕ P).
Proof.
  destruct t as [[X Y] Z]. intros (U & EX & EY). unfold pdbl. cbv zeta.
  pose proof (pt_curve P) as C. unfold on_curve, ed_curve in C.
  set (x := ed_px (pt P)) in *. set (y := ed_py (pt P)) in *.
  apply (proj_sum_pt (Z * Z)); fold x y; [auto with fe |..]; rewrite ?mulp_eq, ?EX, ?EY.
  - apply eqp_eq. ring.
  - apply eqp_eq. ring.
  - apply (eqp_step (Z * Z) _ _ _ _ C), eqp_eq. ring.
  - apply (eqp_step (- (Z * Z)) _ _ _ _ C), eqp_eq. ring.
Qed.

(** Addition of an affine point *)
Definition padd (t : Z * Z * Z) (a : Z * Z) : Z * Z * Z :=
  let '(X, Y, Z) := t in
  let A := mulp Z (X * snd a + Y * fst a) in let B := mulp Z (Y * snd a + X * fst a) in
  let zz := mulp Z Z in
  let k := mulp (mulp (mulp X (fst a)) (mulp Y (snd a))) ed_d in
  let F := zz + k in let G := zz - k in
  (mulp A G, mulp B F, mulp F G).

Lemma padd_pt t a P Q : proj_pt t P -> aff_pt a Q -> proj_pt (padd t a) (P ⊕ Q).
Proof.
  destruct t as [[X Y] Z]. intros (U & EX & EY) [EX' EY']. unfold padd. cbv zeta.
  apply (proj_sum_pt (Z * Z)); [auto with fe |..]; rewrite ?mulp_eq, ?EX, ?EY, ?EX', ?EY'; apply eqp_eq; ring.
Qed.

(** [n] times an affine point, by doubling and adding. *)
Fixpoint pmul (n : positive) (a : Z * Z) : Z * Z * Z :=
  match n with
  | xH => (fst a, snd a, 1)
  | xO n => pdbl (pmul n a)
  | xI n => padd (pdbl (pmul n a)) a
  end.

Lemma pmul_pt n a P : aff_pt a P -> proj_pt (pmul n a) (Zpos n ⊙ P).
Proof.
  intros Ha.
  assert (D : forall m, proj_pt (pmul m a) (Zpos m ⊙ P) -> proj_pt (pdbl (pmul m a)) (Zpos m~0 ⊙ P)).
  { intros m H. rewrite (Pos2Z.inj_xO m), pt_mul_mul, pt_mul_2.
    by apply pdbl_pt. }
  induction n as [n IH|n IH|]; cbn [pmul].
  - rewrite (Pos2Z.inj_xI n), pt_mul_add, pt_mul_1.
    apply padd_pt; [apply D, IH | exact Ha].
  - apply D, IH.
  - destruct Ha as [EX EY]. rewrite pt_mul_1. split; [exact unit_1|]. rewrite !Z.mul_1_r. done.
Qed.

(** Two forms of one point. *)
Definition projb (t : Z * Z * Z) (a : Z * Z) : bool :=
  let '(X, Y, Z) := t in eqpb X (fst a * Z) && eqpb Y (snd a * Z).

Lemma projb_pt t a P : proj_pt t P -> projb t a = true -> aff_pt a P.
Proof.
  destruct t as [[X Y] Z]. intros (U & EX & EY). unfold projb. rewrite andb_true_iff.
  intros [SX%eqpb_eq SY%eqpb_eq].
  split; apply (unit_cancel _ _ _ U); [by rewrite <- SX | by rewrite <- SY].
Qed.

(** * The precomputed tables hold the multiples of the base point *)

(** The base point: [y = 4/5] and [x] even. *)
Definition ed_Bx : Z := 15112221349535400772501151409588531511454012693041857206046113283949847762202.
Definition ed_By : Z := 46316835694926478169428394003475163141307993866256225615783033603165251855960.
Lemma ed_B_curve : on_curve (EdPoint ed_Bx ed_By).
Proof. vm_compute. reflexivity. Qed.
Definition ed_B : point := Point (EdPoint ed_Bx ed_By) ed_B_curve.

(** ** [ge_base] *)

(** [t] is the point the first entry must be. *)
Fixpoint base_check (t : Z * Z * Z) (rows : list (list ge_precomp)) : bool :=
  match rows with
  | [] => true
  | row :: rows =>
      let a := pre_aff (nth 0 row ge_precomp_0) in
      let b := pre_aff (nth 7 row ge_precomp_0) in
      (length row =? 8)%nat && projb t a && chain_check a (0, 1) row &&
      base_check (pdbl (pdbl (pdbl (pdbl (pdbl (fst b, snd b, 1)))))) rows
  end.

Lemma aff_zero : aff_pt (0, 1) (0 ⊙ ed_B ⊕ pt_zero).
Proof. rewrite pt_mul_0, pt_add_0_l. split; reflexivity. Qed.

Lemma aff_proj a P : aff_pt a P -> proj_pt (fst a, snd a, 1) P.
Proof. intros [EX EY]. split; [exact unit_1|]. by rewrite !Z.mul_1_r. Qed.

Lemma chain_from_zero a P row j q : aff_pt a P -> chain_check a (0, 1) row = true ->
  row !! j = Some q ->
  aff_pt (pre_aff q) ((Z.of_nat j + 1) ⊙ P) /\ pre_pt q ((Z.of_nat j + 1) ⊙ P).
Proof.
  intros Ha Hc Hq.
  assert (H0 : aff_pt (0, 1) (0 ⊙ P ⊕ pt_zero)) by (rewrite pt_mul_0, pt_add_0_l; split; reflexivity).
  destruct (chain_check_pt a P row Ha (0, 1) pt_zero 0 H0 Hc j q Hq) as [H1 H2].
  rewrite pt_add_0_r in H1, H2. replace (Z.of_nat j + 1) with (0 + 1 + Z.of_nat j) by lia. done.
Qed.

Lemma pdbl5_pt t P : proj_pt t P -> proj_pt (pdbl (pdbl (pdbl (pdbl (pdbl t))))) (32 ⊙ P).
Proof.
  intros H.
  assert (E : 32 ⊙ P ≡ₑ 2 ⊙ (2 ⊙ (2 ⊙ (2 ⊙ (2 ⊙ P))))) by (rewrite <- !pt_mul_mul; reflexivity).
  rewrite E, !pt_mul_2. do 5 apply pdbl_pt. exact H.
Qed.

Lemma base_check_pt rows : forall t P, proj_pt t P -> base_check t rows = true ->
  forall i j row q, rows !! i = Some row -> row !! j = Some q ->
    pre_pt q (((Z.of_nat j + 1) * 256 ^ Z.of_nat i) ⊙ P).
Proof.
  induction rows as [|row rows IH]; intros t P Ht; [done|].
  cbn [base_check]. cbv zeta. rewrite !andb_true_iff, Nat.eqb_eq.
  intros [[[Hl Hp] Hc] Hr]. pose proof (projb_pt _ _ _ Ht Hp) as Ha.
  intros [|i] j row' q Hi Hj; cbn in Hi.
  - injection Hi as <-. rewrite Z.mul_1_r. by apply (chain_from_zero _ _ _ _ _ Ha Hc).
  - assert (H7 : row !! 7%nat = Some (nth 7 row ge_precomp_0)).
    { destruct (nth_lookup_or_length row 7 ge_precomp_0) as [E|E]; [exact E | lia]. }
    destruct (chain_from_zero _ _ _ _ _ Ha Hc H7) as [H8 _].
    pose proof (IH _ _ (pdbl5_pt _ _ (aff_proj _ _ H8)) Hr i j row' q Hi Hj) as H.
    rewrite <- pt_mul_mul in H. rewrite Nat2Z.inj_succ, Z.pow_succ_r by lia.
    replace ((Z.of_nat j + 1) * (256 * 256 ^ Z.of_nat i))
      with ((Z.of_nat j + 1) * 256 ^ Z.of_nat i * 32 * (Z.of_nat 7 + 1)) by lia.
    rewrite pt_mul_mul. exact H.
Qed.

Lemma ge_base_checked : base_check (ed_Bx, ed_By, 1) ge_base = true.
Proof. vm_cast_no_check (eq_refl true). Qed.

Lemma aff_B : aff_pt (ed_Bx, ed_By) ed_B.
Proof. split; reflexivity. Qed.

Lemma ge_base_shape i j : (i < 32)%nat -> (j < 8)%nat ->
  exists row, ge_base !! i = Some row /\ row !! j = Some (nth j (nth i ge_base []) ge_precomp_0).
Proof.
  intros Hi Hj.
  assert (Hb : forallb (fun row : list ge_precomp => length row =? 8)%nat ge_base = true) by reflexivity.
  assert (E : ge_base !! i = Some (nth i ge_base [])).
  { destruct (nth_lookup_or_length ge_base i []) as [E|E]; [exact E|]. change (length ge_base) with 32%nat in E. lia. }
  exists (nth i ge_base []). split; [exact E|].
  rewrite forallb_forall in Hb.
  assert (Hl : length (nth i ge_base []) = 8%nat).
  { apply Nat.eqb_eq, Hb, nth_In. change (length ge_base) with 32%nat. lia. }
  destruct (nth_lookup_or_length (nth i ge_base []) j ge_precomp_0) as [E'|E']; [exact E' | lia].
Qed.

(** "base[i][j] = (j+1)*256^i*B" *)
Lemma ge_base_spec i j : (i < 32)%nat -> (j < 8)%nat ->
  pre_pt (nth j (nth i ge_base []) ge_precomp_0) (((Z.of_nat j + 1) * 256 ^ Z.of_nat i) ⊙ ed_B).
Proof.
  intros Hi Hj. destruct (ge_base_shape i j Hi Hj) as (row & E & E').
  exact (base_check_pt _ _ _ (aff_proj _ _ aff_B) ge_base_checked i j row _ E E').
Qed.

(** ** [ge_Bi] *)

Lemma ge_Bi_checked :
  let b2 := pre_aff (nth 1 (nth 0 ge_base []) ge_precomp_0) in
  sumb (ed_Bx, ed_By) (ed_Bx, ed_By) b2 &&
  projb (ed_Bx, ed_By, 1) (pre_aff (nth 0 ge_Bi ge_precomp_0)) &&
  pre_valid (nth 0 ge_Bi ge_precomp_0) (pre_aff (nth 0 ge_Bi ge_precomp_0)) &&
  chain_check b2 (ed_Bx, ed_By) (tail ge_Bi) = true.
Proof. vm_compute. reflexivity. Qed.

Lemma ge_Bi_spec j : (j < 8)%nat ->
  pre_pt (nth j ge_Bi ge_precomp_0) ((2 * Z.of_nat j + 1) ⊙ ed_B).
Proof.
  intros Hj. pose proof ge_Bi_checked as H. cbv zeta in H. rewrite !andb_true_iff in H.
  destruct H as [[[H2 H0] Hv] Hc].
  assert (A2 := sumb_pt _ _ _ _ _ aff_B aff_B H2). rewrite <- pt_mul_2 in A2.
  destruct j as [|j].
  - rewrite (pt_mul_1 ed_B : (2 * Z.of_nat 0 + 1) ⊙ ed_B ≡ₑ ed_B).
    apply pre_valid_pt; [exact Hv | exact (projb_pt _ _ _ (aff_proj _ _ aff_B) H0)].
  - assert (AB : aff_pt (ed_Bx, ed_By) (0 ⊙ (2 ⊙ ed_B) ⊕ ed_B)) by (rewrite pt_mul_0, pt_add_0_l; exact aff_B).
    assert (E : tail ge_Bi !! j = Some (nth (S j) ge_Bi ge_precomp_0)).
    { destruct (nth_lookup_or_length (tail ge_Bi) j ge_precomp_0) as [E|E]; [exact E|].
      change (length (tail ge_Bi)) with 7%nat in E. lia. }
    destruct (chain_check_pt _ _ _ A2 _ _ _ AB Hc j _ E) as [_ Hp].
    rewrite <- pt_mul_mul in Hp.
    replace (2 * Z.of_nat (S j) + 1) with ((0 + 1 + Z.of_nat j) * 2 + 1) by lia.
    rewrite pt_mul_add, pt_mul_1. exact Hp.
Qed.

(** ** The order of the base point *)

Lemma ed_B_order_checked : projb (pmul (Z.to_pos sc_l) (ed_Bx, ed_By)) (0, 1) = true.
Proof. vm_cast_no_check (eq_refl true). Qed.

Lemma ed_B_order : sc_l ⊙ ed_B ≡ₑ pt_zero.
Proof.
  pose proof (projb_pt _ _ _ (pmul_pt (Z.to_pos sc_l) _ _ aff_B) ed_B_order_checked) as H.
  change (Z.pos (Z.to_pos sc_l)) with sc_l in H.
  eapply aff_pt_unique; [exact H | split; reflexivity].
Qed.

(** Multiples of the base point depend on the scalar modulo [l]. *)
Lemma ed_B_mod a : (a mod sc_l) ⊙ ed_B ≡ₑ a ⊙ ed_B.
Proof.
  rewrite (Z.div_mod a sc_l) at 2 by done.
  rewrite (Z.mul_comm sc_l), pt_mul_add, pt_mul_mul, ed_B_order, pt_mul_zero, pt_add_0_l. reflexivity.
Qed.
