(* ===== verification/ScalarMult.v ===== *)
(** * Scalar multiplication (crypto-ops.c)

    The multiplications of points by scalars: [ge_scalarmult_base] with the
    table [ge_base], [ge_scalarmult] and [ge_scalarmult_p3] with eight multiples
    of the point, and the five variants of [a * A + b * B] by sliding windows
    ([slide]). The loops that are repeated in two functions of the source are
    one definition here, with the body of the loop as an argument: [ge_loop]
    ends with [ge_p1p1_to_p2] in every iteration, [ge_loop_p3] with
    [ge_p1p1_to_p3] in the last one. *)

From Stdlib Require Import ZArith Lia.
From stdpp Require Import base tactics list.
From S2P Require Import Prelude Radix Fe FeBytes FePow Ge Slide Tables.
Open Scope Z_scope.

(** ** Loops on a [ge_p2]

    [for (i = n - 1; i >= 0; i--)]: the body computes a [ge_p1p1] from [r]. *)
Section Loops.
Variable body : nat -> ge_p2 -> ge_p1p1.

Fixpoint ge_loop (n : nat) (r : ge_p2) : ge_p2 :=
  match n with
  | O => r
  | S i => ge_loop i (ge_p1p1_to_p2 (body i r))
  end.

(** The result [r3] is written in the iteration [i == 0] only; [None] is an [r3]
    that is never written. *)
Fixpoint ge_loop_p3 (n : nat) (r : ge_p2) : option ge_p3 :=
  match n with
  | O => None
  | S O => Some (ge_p1p1_to_p3 (body 0 r))
  | S i => ge_loop_p3 i (ge_p1p1_to_p2 (body i r))
  end.
End Loops.

(** ** Sliding windows *)

Definition ge_dsm_precomp (s : ge_p3) : list ge_cached :=
  let r0 := ge_p3_to_cached s in
  let t := ge_p3_dbl s in let s2 := ge_p1p1_to_p3 t in
  let t := ge_add s2 r0 in let u := ge_p1p1_to_p3 t in let r1 := ge_p3_to_cached u in
  let t := ge_add s2 r1 in let u := ge_p1p1_to_p3 t in let r2 := ge_p3_to_cached u in
  let t := ge_add s2 r2 in let u := ge_p1p1_to_p3 t in let r3 := ge_p3_to_cached u in
  let t := ge_add s2 r3 in let u := ge_p1p1_to_p3 t in let r4 := ge_p3_to_cached u in
  let t := ge_add s2 r4 in let u := ge_p1p1_to_p3 t in let r5 := ge_p3_to_cached u in
  let t := ge_add s2 r5 in let u := ge_p1p1_to_p3 t in let r6 := ge_p3_to_cached u in
  let t := ge_add s2 r6 in let u := ge_p1p1_to_p3 t in let r7 := ge_p3_to_cached u in
  [r0; r1; r2; r3; r4; r5; r6; r7].

(** [if (d > 0) ... else if (d < 0) ...] with a table of [ge_cached]. The index
    [d/2] is below 8 for the digits of [slide]. *)
Definition ge_window_add (Ai : list ge_cached) (d : Z) (t : ge_p1p1) : ge_p1p1 :=
  if 0 <? d then ge_add (ge_p1p1_to_p3 t) (nth (Z.to_nat (Z.quot d 2)) Ai ge_cached_0)
  else if d <? 0 then ge_sub (ge_p1p1_to_p3 t) (nth (Z.to_nat (Z.quot (- d) 2)) Ai ge_cached_0)
  else t.

(** The same with the table [ge_Bi]. *)
Definition ge_window_madd (d : Z) (t : ge_p1p1) : ge_p1p1 :=
  if 0 <? d then ge_madd (ge_p1p1_to_p3 t) (nth (Z.to_nat (Z.quot d 2)) ge_Bi ge_precomp_0)
  else if d <? 0 then ge_msub (ge_p1p1_to_p3 t) (nth (Z.to_nat (Z.quot (- d) 2)) ge_Bi ge_precomp_0)
  else t.

(** [for (i = n - 1; i >= 0; --i) if (aslide[i] || bslide[i]) break;], and [i + 1]. *)
Fixpoint slide_top (aslide bslide : list Z) (n : nat) : nat :=
  match n with
  | O => O
  | S i =>
      if negb (aslide !!! i =? 0) || negb (bslide !!! i =? 0) then S i
      else slide_top aslide bslide i
  end.

(** The bodies of the loops. *)
Definition dsm_base_body (aslide bslide : list Z) (Ai : list ge_cached) (i : nat) (r : ge_p2) : ge_p1p1 :=
  let t := ge_p2_dbl r in
  let t := ge_window_add Ai (aslide !!! i) t in
  ge_window_madd (bslide !!! i) t.

Definition dsm_body (aslide bslide : list Z) (Ai Bi : list ge_cached) (i : nat) (r : ge_p2) : ge_p1p1 :=
  let t := ge_p2_dbl r in
  let t := ge_window_add Ai (aslide !!! i) t in
  ge_window_add Bi (bslide !!! i) t.

(** [r = a * A + b * B] *)
Definition ge_double_scalarmult_base_vartime (a : list Z) (A : ge_p3) (b : list Z) : ge_p2 :=
  let aslide := slide a in
  let bslide := slide b in
  let Ai := ge_dsm_precomp A in
  ge_loop (dsm_base_body aslide bslide Ai) (slide_top aslide bslide 256) ge_p2_0.

Definition ge_double_scalarmult_base_vartime_p3 (a : list Z) (A : ge_p3) (b : list Z) : option ge_p3 :=
  let aslide := slide a in
  let bslide := slide b in
  let Ai := ge_dsm_precomp A in
  ge_loop_p3 (dsm_base_body aslide bslide Ai) (slide_top aslide bslide 256) ge_p2_0.

Definition ge_double_scalarmult_precomp_vartime2 (a : list Z) (Ai : list ge_cached)
    (b : list Z) (Bi : list ge_cached) : ge_p2 :=
  let aslide := slide a in
  let bslide := slide b in
  ge_loop (dsm_body aslide bslide Ai Bi) (slide_top aslide bslide 256) ge_p2_0.

Definition ge_double_scalarmult_precomp_vartime2_p3 (a : list Z) (Ai : list ge_cached)
    (b : list Z) (Bi : list ge_cached) : option ge_p3 :=
  let aslide := slide a in
  let bslide := slide b in
  ge_loop_p3 (dsm_body aslide bslide Ai Bi) (slide_top aslide bslide 256) ge_p2_0.

Definition ge_double_scalarmult_precomp_vartime (a : list Z) (A : ge_p3)
    (b : list Z) (Bi : list ge_cached) : ge_p2 :=
  let Ai := ge_dsm_precomp A in
  ge_double_scalarmult_precomp_vartime2 a Ai b Bi.

(** ** Selection without branches *)

(** 1 if the bytes are equal, 0 otherwise; the arguments are [signed char]. *)
Definition equal (b c : Z) : Z :=
  let ub := u8 b in
  let uc := u8 c in
  let x := Z.lxor ub uc in
  let y := u32 (x - 1) in
  u8 (Z.shiftr y 31).

(** 1 for a negative [signed char]: the sign bit of its 64-bit extension. *)
Definition negative (b : Z) : Z := u8 (Z.shiftr (u64 b) 63).

(** [unsigned char babs = b - (((-bnegative) & b) << 1)], from an [int]. *)
Definition babs_of (b : Z) : Z := u8 (b - Z.shiftl (Z.land (- negative b) b) 1).

Definition ge_precomp_cmov (t u : ge_precomp) (b : Z) : ge_precomp :=
  GePrecomp (fe_cmov (pre_yplusx t) (pre_yplusx u) b)
            (fe_cmov (pre_yminusx t) (pre_yminusx u) b)
            (fe_cmov (pre_xy2d t) (pre_xy2d u) b).

Definition ge_cached_cmov (t u : ge_cached) (b : Z) : ge_cached :=
  GeCached (fe_cmov (ca_YplusX t) (ca_YplusX u) b)
           (fe_cmov (ca_YminusX t) (ca_YminusX u) b)
           (fe_cmov (ca_Z t) (ca_Z u) b)
           (fe_cmov (ca_T2d t) (ca_T2d u) b).

(** [babs], an [unsigned char], is passed to a [signed char] parameter. *)
Definition select (pos : nat) (b : Z) : ge_precomp :=
  let bnegative := negative b in
  let babs := babs_of b in
  let row := nth pos ge_base [] in
  let t := ge_precomp_0 in
  let t := ge_precomp_cmov t (nth 0 row ge_precomp_0) (equal (i8 babs) 1) in
  let t := ge_precomp_cmov t (nth 1 row ge_precomp_0) (equal (i8 babs) 2) in
  let t := ge_precomp_cmov t (nth 2 row ge_precomp_0) (equal (i8 babs) 3) in
  let t := ge_precomp_cmov t (nth 3 row ge_precomp_0) (equal (i8 babs) 4) in
  let t := ge_precomp_cmov t (nth 4 row ge_precomp_0) (equal (i8 babs) 5) in
  let t := ge_precomp_cmov t (nth 5 row ge_precomp_0) (equal (i8 babs) 6) in
  let t := ge_precomp_cmov t (nth 6 row ge_precomp_0) (equal (i8 babs) 7) in
  let t := ge_precomp_cmov t (nth 7 row ge_precomp_0) (equal (i8 babs) 8) in
  let minust := GePrecomp (fe_copy (pre_yminusx t)) (fe_copy (pre_yplusx t)) (fe_neg (pre_xy2d t)) in
  ge_precomp_cmov t minust bnegative.

(** The same on the table of [ge_scalarmult]. *)
Definition ge_cached_select (Ai : list ge_cached) (b : Z) : ge_cached :=
  let bnegative := negative b in
  let babs := babs_of b in
  let cur := ge_cached_0 in
  let cur := ge_cached_cmov cur (nth 0 Ai ge_cached_0) (equal (i8 babs) 1) in
  let cur := ge_cached_cmov cur (nth 1 Ai ge_cached_0) (equal (i8 babs) 2) in
  let cur := ge_cached_cmov cur (nth 2 Ai ge_cached_0) (equal (i8 babs) 3) in
  let cur := ge_cached_cmov cur (nth 3 Ai ge_cached_0) (equal (i8 babs) 4) in
  let cur := ge_cached_cmov cur (nth 4 Ai ge_cached_0) (equal (i8 babs) 5) in
  let cur := ge_cached_cmov cur (nth 5 Ai ge_cached_0) (equal (i8 babs) 6) in
  let cur := ge_cached_cmov cur (nth 6 Ai ge_cached_0) (equal (i8 babs) 7) in
  let cur := ge_cached_cmov cur (nth 7 Ai ge_cached_0) (equal (i8 babs) 8) in
  let minuscur := GeCached (fe_copy (ca_YminusX cur)) (fe_copy (ca_YplusX cur)) (fe_copy (ca_Z cur))
                           (fe_neg (ca_T2d cur)) in
  ge_cached_cmov cur minuscur bnegative.

(** ** [ge_scalarmult_base] *)

(** [e[2 * i + 0] = (a[i] >> 0) & 15; e[2 * i + 1] = (a[i] >> 4) & 15;] *)
Fixpoint base_nibbles (n i : nat) (a : list Z) : list Z :=
  match n with
  | O => []
  | S n => i8 (Z.land (Z.shiftr (nth i a 0) 0) 15) :: i8 (Z.land (Z.shiftr (nth i a 0) 4) 15)
             :: base_nibbles n (S i) a
  end.

(** The carries, on [signed char] variables; the last digit gets the last carry. *)
Fixpoint base_carries (carry : Z) (e : list Z) : list Z :=
  match e with
  | [] => []
  | [x] => [i8 (x + carry)]
  | x :: e =>
      let x := i8 (x + carry) in
      let carry := i8 (x + 8) in
      let carry := Z.shiftr carry 4 in
      i8 (x - Z.shiftl carry 4) :: base_carries carry e
  end.

Definition base_digits (a : list Z) : list Z := base_carries 0 (base_nibbles 32 0 a).

(** [for (; i < 64; i += 2) { select(&t, i / 2, e[i]); ge_madd; ge_p1p1_to_p3; }],
    [n] iterations. *)
Fixpoint base_loop (e : list Z) (n i : nat) (h : ge_p3) : ge_p3 :=
  match n with
  | O => h
  | S n =>
      let t := select (i / 2) (e !!! i) in
      let r := ge_madd h t in
      base_loop e n (i + 2) (ge_p1p1_to_p3 r)
  end.

Definition ge_scalarmult_base (a : list Z) : ge_p3 :=
  let e := base_digits a in
  let h := ge_p3_0 in
  let h := base_loop e 32 1 h in
  let r := ge_p3_dbl h in let s := ge_p1p1_to_p2 r in
  let r := ge_p2_dbl s in let s := ge_p1p1_to_p2 r in
  let r := ge_p2_dbl s in let s := ge_p1p1_to_p2 r in
  let r := ge_p2_dbl s in let h := ge_p1p1_to_p3 r in
  base_loop e 32 0 h.

(** ** [ge_scalarmult] *)

(** The loop with [carry] and [carry2], [n] iterations from [i]; the last byte
    has no carry out. The [int] values stay between 0 and 264. *)
Fixpoint scalarmult_digits (n i : nat) (carry : Z) (a : list Z) : list Z :=
  let carry := carry + nth i a 0 in
  let carry2 := Z.shiftr (carry + 8) 4 in
  match n with
  | O => [i8 (carry - Z.shiftl carry2 4); i8 carry2]
  | S n =>
      let e0 := i8 (carry - Z.shiftl carry2 4) in
      let carry := Z.shiftr (carry2 + 8) 4 in
      let e1 := i8 (carry2 - Z.shiftl carry 4) in
      e0 :: e1 :: scalarmult_digits n (S i) carry a
  end.

(** [Ai[i + 1] = A + Ai[i]], [n] times. *)
Fixpoint scalarmult_table (n : nat) (A : ge_p3) (q : ge_cached) : list ge_cached :=
  match n with
  | O => [q]
  | S n =>
      let t := ge_add A q in
      let u := ge_p1p1_to_p3 t in
      q :: scalarmult_table n A (ge_p3_to_cached u)
  end.

Definition scalarmult_body (e : list Z) (Ai : list ge_cached) (i : nat) (r : ge_p2) : ge_p1p1 :=
  let b := e !!! i in
  let t := ge_p2_dbl r in
  let r := ge_p1p1_to_p2 t in
  let t := ge_p2_dbl r in
  let r := ge_p1p1_to_p2 t in
  let t := ge_p2_dbl r in
  let r := ge_p1p1_to_p2 t in
  let t := ge_p2_dbl r in
  let u := ge_p1p1_to_p3 t in
  let cur := ge_cached_select Ai b in
  ge_add u cur.

Definition ge_scalarmult (a : list Z) (A : ge_p3) : ge_p2 :=
  let e := scalarmult_digits 31 0 0 a in
  let Ai := scalarmult_table 7 A (ge_p3_to_cached A) in
  ge_loop (scalarmult_body e Ai) 64 ge_p2_0.

Definition ge_scalarmult_p3 (a : list Z) (A : ge_p3) : option ge_p3 :=
  let e := scalarmult_digits 31 0 0 a in
  let Ai := scalarmult_table 7 A (ge_p3_to_cached A) in
  ge_loop_p3 (scalarmult_body e Ai) 64 ge_p2_0.
