(* ===== verification/ScalarMultProofs.v ===== *)
(** * The scalar multiplications compute multiples

    The invariant of the loops (the accumulator is the prefix of the digits
    times the point), the tables of odd and of small multiples, the constant
    time selection, and the two recodings in radix 16. *)

From Stdlib Require Import ZArith Lia.
From stdpp Require Import base tactics list.
From S2P Require Import Prelude Radix Fe FeBytes FePow Ge Curve GeBytes Group CurveAssoc Points Slide Tables Sc TableProofs ScalarMult.
Open Scope Z_scope.

(** ** Sums of points *)

Lemma pt_shuffle P Q R S : P ⊕ Q ⊕ (R ⊕ S) ≡ₑ P ⊕ R ⊕ (Q ⊕ S).
Proof.
  rewrite !pt_add_assoc. apply pt_add_proper; [reflexivity|].
  rewrite <- !pt_add_assoc. apply pt_add_proper; [apply pt_add_comm | reflexivity].
Qed.

(** ** The loops *)

Section Loops.
Context (body : nat -> ge_p2 -> ge_p1p1) (w : Z) (Q V : nat -> point).
Context (Hw : 0 <= w).
Context (HV0 : V 0%nat ≡ₑ pt_zero).
Context (HVS : forall i, V (S i) ≡ₑ 2 ^ (w * Z.of_nat i) ⊙ Q i ⊕ V i).

Definition body_ok (n : nat) : Prop := forall i r P, (i < n)%nat ->
  p2_pt r P -> p1_pt (body i r) (2 ^ w ⊙ P ⊕ Q i).

Lemma loop_value i P :
  2 ^ (w * Z.of_nat i) ⊙ (2 ^ w ⊙ P ⊕ Q i) ⊕ V i ≡ₑ 2 ^ (w * Z.of_nat (S i)) ⊙ P ⊕ V (S i).
Proof using Hw HVS.
  rewrite HVS, pt_mul_pt_add, <- pt_mul_mul, <- Z.pow_add_r, pt_add_assoc by lia.
  replace (w * Z.of_nat i + w) with (w * Z.of_nat (S i)) by lia. reflexivity.
Qed.

Lemma ge_loop_pt n : forall r P, body_ok n -> p2_pt r P ->
  p2_pt (ge_loop body n r) (2 ^ (w * Z.of_nat n) ⊙ P ⊕ V n).
Proof using Hw HV0 HVS.
  induction n as [|i IH]; intros r P Hb Hr; cbn [ge_loop].
  - rewrite HV0, pt_add_0_r, Z.mul_0_r, pt_mul_1. exact Hr.
  - rewrite <- loop_value. apply IH.
    + intros j r' P' Hj. apply Hb. lia.
    + apply ge_p1p1_to_p2_pt, Hb; [lia | exact Hr].
Qed.

Lemma ge_loop_p3_pt n : forall r P, body_ok (S n) -> p2_pt r P ->
  exists h, ge_loop_p3 body (S n) r = Some h /\ p3_pt h (2 ^ (w * Z.of_nat (S n)) ⊙ P ⊕ V (S n)).
Proof using Hw HV0 HVS.
  induction n as [|i IH]; intros r P Hb Hr.
  - exists (ge_p1p1_to_p3 (body 0 r)). split; [done|].
    rewrite <- loop_value, HV0, pt_add_0_r, Z.mul_0_r, pt_mul_1.
    apply ge_p1p1_to_p3_pt, Hb; [lia | exact Hr].
  - destruct (IH (ge_p1p1_to_p2 (body (S i) r)) (2 ^ w ⊙ P ⊕ Q (S i))) as (h & E & H).
    + intros j r' P' Hj. apply Hb. lia.
    + apply ge_p1p1_to_p2_pt, Hb; [lia | exact Hr].
    + exists h. split; [exact E|]. rewrite <- loop_value. exact H.
Qed.
End Loops.

(** The value of two digit strings. *)
Definition digits_pt (w : Z) (a b : list Z) (A B : point) (n : nat) : point :=
  evaln w n a ⊙ A ⊕ evaln w n b ⊙ B.

Lemma digits_pt_S w a b A B i :
  digits_pt w a b A B (S i)
  ≡ₑ 2 ^ (w * Z.of_nat i) ⊙ (a !!! i ⊙ A ⊕ b !!! i ⊙ B) ⊕ digits_pt w a b A B i.
Proof.
  unfold digits_pt. cbn [evaln]. rewrite !pt_mul_add, pt_shuffle, pt_add_comm.
  apply pt_add_proper; [|reflexivity].
  rewrite pt_mul_pt_add, <- !pt_mul_mul, !(Z.mul_comm (2 ^ _)). reflexivity.
Qed.

Lemma digits_pt_0 w a b A B : digits_pt w a b A B 0 ≡ₑ pt_zero.
Proof. unfold digits_pt. cbn [evaln]. rewrite !pt_mul_0. apply pt_add_0_l. Qed.

(** ** Tables of odd multiples and window digits *)

(** [Ai[j]] is [(2j+1) * A]. *)
Definition odd_table (Ai : list ge_cached) (A : point) : Prop :=
  forall j, (j < 8)%nat -> ca_pt (nth j Ai ge_cached_0) ((2 * Z.of_nat j + 1) ⊙ A).

Lemma dsm_next s2 S r n A : S ≡ₑ 2 ⊙ A -> p3_pt s2 S -> ca_pt r (n ⊙ A) ->
  ca_pt (ge_p3_to_cached (ge_p1p1_to_p3 (ge_add s2 r))) ((n + 2) ⊙ A).
Proof.
  intros ES HS Hr. rewrite Z.add_comm, pt_mul_add, <- ES.
  by apply ge_p3_to_cached_pt, ge_p1p1_to_p3_pt, ge_add_pt.
Qed.

Lemma ge_dsm_precomp_pt s A : p3_pt s A -> odd_table (ge_dsm_precomp s) A.
Proof.
  intros Hs. unfold ge_dsm_precomp. cbv zeta.
  assert (HS : p3_pt (ge_p1p1_to_p3 (ge_p3_dbl s)) (A ⊕ A)) by (by apply ge_p1p1_to_p3_pt, ge_p3_dbl_pt).
  assert (ES : A ⊕ A ≡ₑ 2 ⊙ A) by (symmetry; apply pt_mul_2).
  assert (H0 : ca_pt (ge_p3_to_cached s) (1 ⊙ A)) by (rewrite pt_mul_1; by apply ge_p3_to_cached_pt).
  assert (N := fun r n => dsm_next _ _ r n A ES HS). clear HS ES Hs.
  set (s2 := ge_p1p1_to_p3 (ge_p3_dbl s)) in *. clearbody s2.
  assert (H1 := N _ _ H0). assert (H2 := N _ _ H1). assert (H3 := N _ _ H2). assert (H4 := N _ _ H3).
  assert (H5 := N _ _ H4). assert (H6 := N _ _ H5). assert (H7 := N _ _ H6).
  intros j Hj. do 8 (destruct j as [|j]; [assumption|]). lia.
Qed.

Lemma odd_half d : Z.odd d = true -> 0 < d -> d <= 15 ->
  (Z.to_nat (Z.quot d 2) < 8)%nat /\ 2 * Z.of_nat (Z.to_nat (Z.quot d 2)) + 1 = d.
Proof.
  intros Ho Hp Hd. rewrite Z.quot_div_nonneg by lia.
  pose proof (Z.div_mod d 2). pose proof (Z.mod_pos_bound d 2).
  pose proof (Zmod_odd d) as M. rewrite Ho in M. lia.
Qed.

Lemma ge_window_add_pt Ai A d t P : odd_table Ai A -> digit_ok d -> p1_pt t P ->
  p1_pt (ge_window_add Ai d t) (P ⊕ d ⊙ A).
Proof.
  intros HA Hd Ht. unfold ge_window_add.
  destruct Hd as [-> | [Ho Hd]]; [rewrite pt_mul_0, pt_add_0_r; exact Ht|].
  destruct (Z.ltb_spec 0 d) as [Hp|Hp]; [|destruct (Z.ltb_spec d 0) as [Hn|Hn]].
  - destruct (odd_half d Ho) as [Hj E]; [lia | lia |].
    pose proof (HA _ Hj) as H. rewrite E in H. by apply ge_add_pt; [apply ge_p1p1_to_p3_pt|].
  - destruct (odd_half (- d)) as [Hj E]; [by rewrite Z.odd_opp | lia | lia |].
    pose proof (HA _ Hj) as H. rewrite E in H.
    rewrite <- (Z.opp_involutive d) at 2. rewrite pt_mul_opp.
    by apply ge_sub_pt; [apply ge_p1p1_to_p3_pt|].
  - assert (d = 0) by lia. subst. discriminate Ho.
Qed.

Lemma ge_window_madd_pt d t P : digit_ok d -> p1_pt t P -> p1_pt (ge_window_madd d t) (P ⊕ d ⊙ ed_B).
Proof.
  intros Hd Ht. unfold ge_window_madd.
  destruct Hd as [-> | [Ho Hd]]; [rewrite pt_mul_0, pt_add_0_r; exact Ht|].
  destruct (Z.ltb_spec 0 d) as [Hp|Hp]; [|destruct (Z.ltb_spec d 0) as [Hn|Hn]].
  - destruct (odd_half d Ho) as [Hj E]; [lia | lia |].
    pose proof (ge_Bi_spec _ Hj) as H. rewrite E in H. by apply ge_madd_pt; [apply ge_p1p1_to_p3_pt|].
  - destruct (odd_half (- d)) as [Hj E]; [by rewrite Z.odd_opp | lia | lia |].
    pose proof (ge_Bi_spec _ Hj) as H. rewrite E in H.
    rewrite <- (Z.opp_involutive d) at 2. rewrite pt_mul_opp.
    by apply ge_msub_pt; [apply ge_p1p1_to_p3_pt|].
  - assert (d = 0) by lia. subst. discriminate Ho.
Qed.

(** ** The sliding-window loops *)

Lemma slide_top_spec a b n :
  (slide_top a b n <= n)%nat /\
  (forall i, (slide_top a b n <= i < n)%nat -> a !!! i = 0 /\ b !!! i = 0) /\
  (forall i, slide_top a b n = S i -> a !!! i <> 0 \/ b !!! i <> 0).
Proof.
  induction n as [|n (H1 & H2 & H3)]; cbn [slide_top]; [repeat split; lia|].
  destruct (Z.eqb_spec (a !!! n) 0) as [Ea|Ea]; destruct (Z.eqb_spec (b !!! n) 0) as [Eb|Eb]; cbn [negb orb].
  - split; [lia|]. split; [|exact H3]. intros i Hi.
    destruct (decide (i = n)) as [->|]; [done | apply H2; lia].
  - split; [lia|]. split; [lia|]. intros i [= <-]. auto.
  - split; [lia|]. split; [lia|]. intros i [= <-]. auto.
  - split; [lia|]. split; [lia|]. intros i [= <-]. auto.
Qed.

Lemma evaln_top w (a : list Z) n m : (n <= m)%nat -> (forall i, (n <= i < m)%nat -> a !!! i = 0) ->
  evaln w m a = evaln w n a.
Proof.
  intros Hn. induction Hn as [|m Hm IH]; intros H; [done|]. cbn [evaln].
  rewrite IH, (H m) by (lia || intros; apply H; lia). lia.
Qed.

Lemma slide_zero a : byte_ok a -> le_val a = 0 -> slide a = replicate 256 0.
Proof.
  intros Ha E. unfold slide.
  replace (slide_bits a) with (replicate 256 0); [vm_compute; reflexivity|].
  assert (Hz : forall i, nth i a 0 = 0).
  { intros i. revert i. induction Ha as [|x a Hx Ha IH]; intros [|i]; cbn [nth] in *; try done;
      cbn [le_val] in E; pose proof (le_val_range a Ha); [lia | apply IH; lia]. }
  symmetry. apply list_eq. intros i. unfold slide_bits. rewrite list_lookup_fmap.
  destruct (decide (i < 256)%nat) as [Hi|Hi].
  - rewrite lookup_seq_lt, lookup_replicate_2 by lia. cbn [fmap option_fmap option_map].
    by rewrite Hz, Z.shiftr_0_l, Z.land_0_r.
  - rewrite lookup_seq_ge, (lookup_ge_None_2 (replicate 256 0)) by (rewrite ?length_replicate; lia). done.
Qed.

(** The recoding is known by its specification from here on. *)
#[local] Opaque slide.

Section Windows.
Context (a b : list Z) (A B : point) (body : nat -> ge_p2 -> ge_p1p1).
Context (Ha : byte_ok a) (Hb : byte_ok b) (La : le_val a < 2 ^ 255) (Lb : le_val b < 2 ^ 255).
Context (Hbody : forall i r P, digit_ok (slide a !!! i) -> digit_ok (slide b !!! i) -> p2_pt r P ->
  p1_pt (body i r) (P ⊕ P ⊕ slide a !!! i ⊙ A ⊕ slide b !!! i ⊙ B)).
Local Abbreviation top := (slide_top (slide a) (slide b) 256).
Local Abbreviation Q := (fun i : nat => slide a !!! i ⊙ A ⊕ slide b !!! i ⊙ B).

Lemma windows_body n : (n <= 256)%nat -> body_ok body 1 Q n.
Proof using All.
  intros Hn i r P Hi Hr. destruct (slide_spec a Ha La) as (_ & _ & Da).
  destruct (slide_spec b Hb Lb) as (_ & _ & Db).
  change (2 ^ 1) with 2. rewrite pt_mul_2, <- pt_add_assoc. apply Hbody; [apply Da; lia | apply Db; lia | exact Hr].
Qed.

Lemma windows_digits :
  evaln 1 top (slide a) = le_val a /\ evaln 1 top (slide b) = le_val b.
Proof using Ha Hb La Lb.
  destruct (slide_spec a Ha La) as (_ & Va & _). destruct (slide_spec b Hb Lb) as (_ & Vb & _).
  destruct (slide_top_spec (slide a) (slide b) 256) as (H1 & H2 & _).
  split; [etransitivity; [|exact Va] | etransitivity; [|exact Vb]]; symmetry; apply evaln_top;
    try exact H1; intros i Hi; by apply H2.
Qed.

Lemma windows_value : digits_pt 1 (slide a) (slide b) A B top = le_val a ⊙ A ⊕ le_val b ⊙ B.
Proof using Ha Hb La Lb. destruct windows_digits as [Ea Eb]. exact (f_equal2 (fun x y => x ⊙ A ⊕ y ⊙ B) Ea Eb). Qed.

(** No digit is left to process only when both scalars are 0. *)
Lemma windows_top : top = 0%nat <-> le_val a = 0 /\ le_val b = 0.
Proof using Ha Hb La Lb.
  split.
  - intros E. destruct windows_digits as [Ea Eb]. rewrite E in Ea, Eb. exact (conj (eq_sym Ea) (eq_sym Eb)).
  - intros [Ea Eb]. rewrite (slide_zero a), (slide_zero b) by done. reflexivity.
Qed.

Lemma windows_pt : p2_pt (ge_loop body top ge_p2_0) (le_val a ⊙ A ⊕ le_val b ⊙ B).
Proof using All.
  destruct (slide_top_spec (slide a) (slide b) 256) as (H1 & _).
  pose proof (ge_loop_pt body 1 Q (digits_pt 1 (slide a) (slide b) A B) ltac:(lia) (digits_pt_0 _ _ _ _ _)
    (digits_pt_S _ _ _ _ _) top ge_p2_0 pt_zero (windows_body _ H1) ge_p2_0_pt) as H.
  rewrite pt_mul_zero, pt_add_0_l, windows_value in H. exact H.
Qed.

Lemma windows_p3_pt :
  match ge_loop_p3 body top ge_p2_0 with
  | Some h => p3_pt h (le_val a ⊙ A ⊕ le_val b ⊙ B) /\ (le_val a <> 0 \/ le_val b <> 0)
  | None => le_val a = 0 /\ le_val b = 0
  end.
Proof using All.
  destruct (slide_top_spec (slide a) (slide b) 256) as (H1 & _).
  pose proof windows_top as T. pose proof windows_value as W.
  destruct top as [|n]; [by apply T|].
  destruct (ge_loop_p3_pt body 1 Q (digits_pt 1 (slide a) (slide b) A B) ltac:(lia) (digits_pt_0 _ _ _ _ _)
    (digits_pt_S _ _ _ _ _) n ge_p2_0 pt_zero (windows_body _ H1) ge_p2_0_pt) as (h & -> & H).
  rewrite pt_mul_zero, pt_add_0_l, W in H. split; [exact H|]. lia.
Qed.
End Windows.

Lemma dsm_base_body_pt as_ bs Ai A i r P : odd_table Ai A -> digit_ok (as_ !!! i) -> digit_ok (bs !!! i) ->
  p2_pt r P -> p1_pt (dsm_base_body as_ bs Ai i r) (P ⊕ P ⊕ as_ !!! i ⊙ A ⊕ bs !!! i ⊙ ed_B).
Proof.
  intros HA Da Db Hr. apply ge_window_madd_pt; [exact Db|]. apply ge_window_add_pt; [exact HA | exact Da |].
  by apply ge_p2_dbl_pt.
Qed.

Lemma dsm_body_pt as_ bs Ai Bi A B i r P : odd_table Ai A -> odd_table Bi B ->
  digit_ok (as_ !!! i) -> digit_ok (bs !!! i) ->
  p2_pt r P -> p1_pt (dsm_body as_ bs Ai Bi i r) (P ⊕ P ⊕ as_ !!! i ⊙ A ⊕ bs !!! i ⊙ B).
Proof.
  intros HA HB Da Db Hr. apply ge_window_add_pt; [exact HB | exact Db |].
  apply ge_window_add_pt; [exact HA | exact Da |]. by apply ge_p2_dbl_pt.
Qed.

Section Doubles.
Context (a b : list Z) (Ha : byte_ok a) (Hb : byte_ok b) (La : le_val a < 2 ^ 255) (Lb : le_val b < 2 ^ 255).

Lemma dsm_base_vartime_spec h A : p3_pt h A ->
  p2_pt (ge_double_scalarmult_base_vartime a h b) (le_val a ⊙ A ⊕ le_val b ⊙ ed_B).
Proof using All.
  intros Hh. pose proof (ge_dsm_precomp_pt h A Hh).
  apply windows_pt; auto. intros i r P Da Db Hr. by apply dsm_base_body_pt.
Qed.

Lemma dsm_base_vartime_p3_spec h A : p3_pt h A ->
  match ge_double_scalarmult_base_vartime_p3 a h b with
  | Some r => p3_pt r (le_val a ⊙ A ⊕ le_val b ⊙ ed_B) /\ (le_val a <> 0 \/ le_val b <> 0)
  | None => le_val a = 0 /\ le_val b = 0
  end.
Proof using All.
  intros Hh. pose proof (ge_dsm_precomp_pt h A Hh).
  apply windows_p3_pt; auto. intros i r P Da Db Hr. by apply dsm_base_body_pt.
Qed.

Lemma dsm_precomp_vartime2_spec Ai Bi A B : odd_table Ai A -> odd_table Bi B ->
  p2_pt (ge_double_scalarmult_precomp_vartime2 a Ai b Bi) (le_val a ⊙ A ⊕ le_val b ⊙ B).
Proof using All. intros HA HB. apply windows_pt; auto. intros i r P Da Db Hr. by apply dsm_body_pt. Qed.

Lemma dsm_precomp_vartime2_p3_spec Ai Bi A B : odd_table Ai A -> odd_table Bi B ->
  match ge_double_scalarmult_precomp_vartime2_p3 a Ai b Bi with
  | Some r => p3_pt r (le_val a ⊙ A ⊕ le_val b ⊙ B) /\ (le_val a <> 0 \/ le_val b <> 0)
  | None => le_val a = 0 /\ le_val b = 0
  end.
Proof using All. intros HA HB. apply windows_p3_pt; auto. intros i r P Da Db Hr. by apply dsm_body_pt. Qed.

Lemma dsm_precomp_vartime_spec h Bi A B : p3_pt h A -> odd_table Bi B ->
  p2_pt (ge_double_scalarmult_precomp_vartime a h b Bi) (le_val a ⊙ A ⊕ le_val b ⊙ B).
Proof using All. intros Hh HB. apply dsm_precomp_vartime2_spec; [by apply ge_dsm_precomp_pt | exact HB]. Qed.
End Doubles.

(** ** Selection *)

(** A digit of the radix-16 recodings. *)
Definition digit16 (b : Z) : Prop := - 8 <= b <= 8.

Ltac digit_cases b H :=
  let E := fresh in
  assert (E : b = -8 \/ b = -7 \/ b = -6 \/ b = -5 \/ b = -4 \/ b = -3 \/ b = -2 \/ b = -1 \/ b = 0 \/
    b = 1 \/ b = 2 \/ b = 3 \/ b = 4 \/ b = 5 \/ b = 6 \/ b = 7 \/ b = 8) by (unfold digit16 in H; lia);
  clear H; repeat destruct E as [E|E]; subst b.

Lemma negative_spec b : digit16 b -> negative b = if b <? 0 then 1 else 0.
Proof. intros H. digit_cases b H; reflexivity. Qed.

Lemma babs_spec b : digit16 b -> babs_of b = Z.abs b.
Proof. intros H. digit_cases b H; reflexivity. Qed.

Lemma equal_spec c k : 0 <= c <= 8 -> 0 <= k <= 8 -> equal (i8 c) k = if c =? k then 1 else 0.
Proof.
  intros Hc Hk.
  assert (Ec : c = 0 \/ c = 1 \/ c = 2 \/ c = 3 \/ c = 4 \/ c = 5 \/ c = 6 \/ c = 7 \/ c = 8) by lia.
  assert (Ek : k = 0 \/ k = 1 \/ k = 2 \/ k = 3 \/ k = 4 \/ k = 5 \/ k = 6 \/ k = 7 \/ k = 8) by lia.
  clear Hc Hk. repeat destruct Ec as [Ec|Ec]; repeat destruct Ek as [Ek|Ek]; subst c k; reflexivity.
Qed.

Lemma fe_cmov_0 f g : fe_cmov f g 0 = f.
Proof. destruct (fe_cmov_spec f g 0) as [[E _]|[[_ E]|[E _]]]; [exact E | discriminate E | by destruct E]. Qed.
Lemma fe_cmov_1 f g : fe_cmov f g 1 = g.
Proof. destruct (fe_cmov_spec f g 1) as [[_ E]|[[E _]|[_ E]]]; [discriminate E | exact E | by destruct E]. Qed.

(** A conditional move by a comparison. *)
Lemma ge_precomp_cmov_if t u (c : bool) : ge_precomp_cmov t u (if c then 1 else 0) = if c then u else t.
Proof. destruct c, t as [x y z], u as [x' y' z']; unfold ge_precomp_cmov; cbn [pre_yplusx pre_yminusx pre_xy2d]; by rewrite ?fe_cmov_0, ?fe_cmov_1. Qed.
Lemma ge_cached_cmov_if t u (c : bool) : ge_cached_cmov t u (if c then 1 else 0) = if c then u else t.
Proof. destruct c, t as [x y z w], u as [x' y' z' w']; unfold ge_cached_cmov; cbn [ca_YplusX ca_YminusX ca_Z ca_T2d]; by rewrite ?fe_cmov_0, ?fe_cmov_1. Qed.

(** The chain of conditional moves is a table lookup. *)
Definition lookup_abs {T} (zero : T) (row : list T) (c : Z) : T :=
  if c =? 0 then zero else nth (Z.to_nat c - 1) row zero.

Lemma cmov_chain {T} (zero t1 t2 t3 t4 t5 t6 t7 t8 : T) c (row : list T) : 0 <= c <= 8 ->
  [t1; t2; t3; t4; t5; t6; t7; t8] = map (fun k => nth k row zero) (seq 0 8) ->
  (if c =? 8 then t8 else if c =? 7 then t7 else if c =? 6 then t6 else if c =? 5 then t5 else
   if c =? 4 then t4 else if c =? 3 then t3 else if c =? 2 then t2 else if c =? 1 then t1 else zero)
  = lookup_abs zero row c.
Proof.
  intros Hc [= -> -> -> -> -> -> -> ->].
  assert (E : c = 0 \/ c = 1 \/ c = 2 \/ c = 3 \/ c = 4 \/ c = 5 \/ c = 6 \/ c = 7 \/ c = 8) by lia.
  clear Hc. repeat destruct E as [E|E]; subst c; reflexivity.
Qed.

Lemma select_eq pos b : digit16 b ->
  let t := lookup_abs ge_precomp_0 (nth pos ge_base []) (Z.abs b) in
  select pos b = if b <? 0 then GePrecomp (fe_copy (pre_yminusx t)) (fe_copy (pre_yplusx t)) (fe_neg (pre_xy2d t)) else t.
Proof.
  intros Hb t. unfold select. cbv zeta. rewrite negative_spec, babs_spec by exact Hb.
  assert (Ha : 0 <= Z.abs b <= 8) by (unfold digit16 in Hb; lia).
  rewrite !equal_spec by (exact Ha || lia). rewrite !ge_precomp_cmov_if.
  rewrite (cmov_chain _ _ _ _ _ _ _ _ _ _ (nth pos ge_base []) Ha eq_refl). fold t. reflexivity.
Qed.

Lemma ge_cached_select_eq Ai b : digit16 b ->
  let t := lookup_abs ge_cached_0 Ai (Z.abs b) in
  ge_cached_select Ai b = if b <? 0 then GeCached (fe_copy (ca_YminusX t)) (fe_copy (ca_YplusX t)) (fe_copy (ca_Z t)) (fe_neg (ca_T2d t)) else t.
Proof.
  intros Hb t. unfold ge_cached_select. cbv zeta. rewrite negative_spec, babs_spec by exact Hb.
  assert (Ha : 0 <= Z.abs b <= 8) by (unfold digit16 in Hb; lia).
  rewrite !equal_spec by (exact Ha || lia). rewrite !ge_cached_cmov_if.
  rewrite (cmov_chain _ _ _ _ _ _ _ _ _ _ Ai Ha eq_refl). fold t. reflexivity.
Qed.

(** [Ai[j]] is [(j+1) * A]. *)
Definition small_table (Ai : list ge_cached) (A : point) : Prop :=
  forall j, (j < 8)%nat -> ca_pt (nth j Ai ge_cached_0) ((Z.of_nat j + 1) ⊙ A).

Lemma abs_index b : digit16 b -> b <> 0 ->
  (Z.to_nat (Z.abs b) - 1 < 8)%nat /\ Z.of_nat (Z.to_nat (Z.abs b) - 1) + 1 = Z.abs b.
Proof. unfold digit16. lia. Qed.

Lemma abs_sign b P : (if b <? 0 then ⊖ (Z.abs b ⊙ P) else Z.abs b ⊙ P) ≡ₑ b ⊙ P.
Proof.
  destruct (Z.ltb_spec b 0).
  - rewrite <- pt_mul_opp. replace (- Z.abs b) with b by lia. reflexivity.
  - replace (Z.abs b) with b by lia. reflexivity.
Qed.

Lemma ge_cached_select_pt Ai A b : small_table Ai A -> digit16 b -> ca_pt (ge_cached_select Ai b) (b ⊙ A).
Proof.
  intros HA Hb. rewrite <- abs_sign, ge_cached_select_eq by exact Hb. cbv zeta.
  assert (Ht : ca_pt (lookup_abs ge_cached_0 Ai (Z.abs b)) (Z.abs b ⊙ A)).
  { unfold lookup_abs. destruct (Z.eqb_spec (Z.abs b) 0) as [E|E]; [rewrite E; exact ge_cached_0_pt|].
    destruct (abs_index b Hb) as [Hj Ej]; [lia|]. pose proof (HA _ Hj) as H. rewrite Ej in H. exact H. }
  destruct (b <? 0); [by apply ca_neg_pt | exact Ht].
Qed.

Lemma select_pt pos b : (pos < 32)%nat -> digit16 b ->
  pre_pt (select pos b) ((b * 256 ^ Z.of_nat pos) ⊙ ed_B).
Proof.
  intros Hp Hb. rewrite pt_mul_mul, <- abs_sign, select_eq by exact Hb. cbv zeta.
  assert (Ht : pre_pt (lookup_abs ge_precomp_0 (nth pos ge_base []) (Z.abs b))
    (Z.abs b ⊙ (256 ^ Z.of_nat pos ⊙ ed_B))).
  { unfold lookup_abs. destruct (Z.eqb_spec (Z.abs b) 0) as [E|E]; [rewrite E; exact ge_precomp_0_pt|].
    destruct (abs_index b Hb) as [Hj Ej]; [lia|]. pose proof (ge_base_spec pos _ Hp Hj) as H.
    rewrite Ej, pt_mul_mul in H. exact H. }
  destruct (b <? 0); [by apply pre_neg_pt | exact Ht].
Qed.

(** ** Radix 16 *)

Fixpoint le16 (e : list Z) : Z :=
  match e with
  | [] => 0
  | x :: e => x + 16 * le16 e
  end.

Lemma evaln_cons w n x (e : list Z) : 0 <= w -> evaln w (S n) (x :: e) = x + 2 ^ w * evaln w n e.
Proof.
  intros Hw. induction n as [|n IH].
  - cbn [evaln]. rewrite Z.mul_0_r. change ((x :: e) !!! 0%nat) with x. lia.
  - cbn [evaln] in IH |- *. rewrite IH. change ((x :: e) !!! S n) with (e !!! n).
    replace (w * Z.of_nat (S n)) with (w * Z.of_nat n + w) by lia. rewrite Z.pow_add_r by lia. ring.
Qed.

Lemma evaln_le16 e : evaln 4 (length e) e = le16 e.
Proof. induction e as [|x e IH]; [done|]. cbn [length]. rewrite evaln_cons, IH by lia. reflexivity. Qed.

(** The bytes from index [i] on. *)
Lemma le_val_drop_S a i : (i < length a)%nat -> le_val (drop i a) = nth i a 0 + 2 ^ 8 * le_val (drop (S i) a).
Proof.
  intros Hi. destruct (nth_lookup_or_length a i 0) as [E|E]; [|lia].
  rewrite (drop_S a _ i E). reflexivity.
Qed.

(** *** [ge_scalarmult_base] *)

(** Nibbles whose last one leaves room for a carry. *)
Fixpoint nibbles_ok (e : list Z) : Prop :=
  match e with
  | [] => False
  | [x] => 0 <= x <= 7
  | x :: e => 0 <= x <= 15 /\ nibbles_ok e
  end.

Lemma base_carries_cons c x y e :
  base_carries c (x :: y :: e) =
    let x := i8 (x + c) in
    let c := Z.shiftr (i8 (x + 8)) 4 in
    i8 (x - Z.shiftl c 4) :: base_carries c (y :: e).
Proof. reflexivity. Qed.

Lemma base_carries_spec e : forall c, nibbles_ok e -> c = 0 \/ c = 1 ->
  length (base_carries c e) = length e /\ Forall digit16 (base_carries c e) /\
  le16 (base_carries c e) = le16 e + c.
Proof.
  induction e as [|x [|y e] IH]; intros c Hn Hc; [destruct Hn| |].
  - cbn in Hn. cbn [base_carries length le16]. rewrite i8_id by lia.
    split; [done|]. split; [|lia]. repeat constructor; unfold digit16; lia.
  - destruct Hn as [Hx Hn]. rewrite base_carries_cons. cbv zeta. rewrite (i8_id (x + c)), (i8_id (x + c + 8)) by lia.
    rewrite Z.shiftr_div_pow2, Z.shiftl_mul_pow2 by lia. change (2 ^ 4) with 16.
    pose proof (Z.div_mod (x + c + 8) 16). pose proof (Z.mod_pos_bound (x + c + 8) 16).
    destruct (IH ((x + c + 8) / 16) Hn) as (L & D & V); [lia|].
    rewrite i8_id by lia. split; [cbn [length]; rewrite L; done|]. split.
    + constructor; [unfold digit16; lia | exact D].
    + change (le16 (x :: y :: e)) with (x + 16 * le16 (y :: e)).
      match goal with |- le16 (?z :: ?l) = _ => change (z + 16 * le16 l = x + 16 * le16 (y :: e) + c) end.
      rewrite V. lia.
Qed.

Lemma byte_nibbles b : 0 <= b < 2 ^ 8 ->
  i8 (Z.land (Z.shiftr b 0) 15) = b mod 16 /\ i8 (Z.land (Z.shiftr b 4) 15) = b / 16.
Proof.
  intros Hb. change 15 with (Z.ones 4). rewrite !Z.land_ones, Z.shiftr_0_r, Z.shiftr_div_pow2 by lia.
  change (2 ^ 4) with 16. rewrite (Z.mod_small (b / 16)) by (split; [apply Z.div_pos | apply Z.div_lt_upper_bound]; lia).
  rewrite !i8_id; [done | | pose proof (Z.mod_pos_bound b 16); lia].
  assert (0 <= b / 16 < 16) by (split; [apply Z.div_pos | apply Z.div_lt_upper_bound]; lia). lia.
Qed.

Lemma base_nibbles_spec a : byte_ok a -> forall n i, (i + S n = length a)%nat -> nth (i + n) a 0 <= 127 ->
  nibbles_ok (base_nibbles (S n) i a) /\ length (base_nibbles (S n) i a) = (2 * S n)%nat /\
  le16 (base_nibbles (S n) i a) = le_val (drop i a).
Proof.
  intros Ha. induction n as [|n IH]; intros i Hi Ht; (rewrite le_val_drop_S by lia);
    pose proof (byte_ok_nth a i Ha) as Hb; destruct (byte_nibbles _ Hb) as [E0 E1];
    pose proof (Z.div_mod (nth i a 0) 16); pose proof (Z.mod_pos_bound (nth i a 0) 16).
  - rewrite Nat.add_0_r in Ht. cbn [base_nibbles]. rewrite E0, E1, drop_ge by lia.
    cbn [nibbles_ok length le16 le_val]. lia.
  - destruct (IH (S i)) as (N & L & V); [lia | replace (S i + n)%nat with (i + S n)%nat by lia; exact Ht |].
    change (base_nibbles (S (S n)) i a) with
      (i8 (Z.land (Z.shiftr (nth i a 0) 0) 15) :: i8 (Z.land (Z.shiftr (nth i a 0) 4) 15) :: base_nibbles (S n) (S i) a).
    rewrite E0, E1. split; [|split].
    + set (l := base_nibbles (S n) (S i) a) in *. cbn [nibbles_ok]. split; [lia|].
      destruct l as [|z l]; [destruct N|]. split; [lia | exact N].
    + cbn [length]. rewrite L. lia.
    + cbn [le16]. rewrite V. lia.
Qed.

(** A top byte of a 32-byte string below [2^255] *)
Lemma top_byte a : byte_ok a -> length a = 32%nat -> le_val a < 2 ^ 255 -> nth 31 a 0 <= 127.
Proof.
  intros Ha La Hv. pose proof (top_bit a Ha La) as T. rewrite Z.div_small in T by (pose proof (le_val_range a Ha); lia).
  rewrite Z.shiftr_div_pow2 in T by lia. pose proof (Z.div_mod (nth 31 a 0) (2 ^ 7)).
  pose proof (Z.mod_pos_bound (nth 31 a 0) (2 ^ 7)). lia.
Qed.

Lemma base_digits_spec a : byte_ok a -> length a = 32%nat -> le_val a < 2 ^ 255 ->
  length (base_digits a) = 64%nat /\ Forall digit16 (base_digits a) /\ evaln 4 64 (base_digits a) = le_val a.
Proof.
  intros Ha La Hv. destruct (base_nibbles_spec a Ha 31 0) as (N & L & V); [lia | by apply top_byte |].
  destruct (base_carries_spec _ 0 N) as (L' & D & V'); [auto|].
  assert (L64 : length (base_digits a) = 64%nat) by (unfold base_digits; rewrite L', L; done).
  split; [exact L64|]. split; [exact D|].
  rewrite <- L64, evaln_le16. unfold base_digits. rewrite V', V, drop_0. lia.
Qed.

(** The digits [e[i], e[i+2], ...], [n] of them, in radix 256. *)
Fixpoint half_val (e : list Z) (i n : nat) : Z :=
  match n with
  | O => 0
  | S n => half_val e i n + e !!! (2 * n + i)%nat * 256 ^ Z.of_nat n
  end.

Lemma half_val_evaln e n : evaln 4 (2 * n) e = half_val e 0 n + 16 * half_val e 1 n.
Proof.
  induction n as [|n IH]; [done|]. cbn [half_val].
  replace (2 * S n)%nat with (S (S (2 * n))) by lia. cbn [evaln]. rewrite IH.
  replace (4 * Z.of_nat (2 * n)) with (8 * Z.of_nat n) by lia.
  replace (4 * Z.of_nat (S (2 * n))) with (8 * Z.of_nat n + 4) by lia.
  rewrite Z.pow_add_r by lia. change 256 with (2 ^ 8). rewrite <- Z.pow_mul_r by lia.
  replace (2 * n + 0)%nat with (2 * n)%nat by lia. replace (2 * n + 1)%nat with (S (2 * n)) by lia. ring.
Qed.

Lemma base_loop_peel e n : forall i h,
  base_loop e (S n) i h
  = ge_p1p1_to_p3 (ge_madd (base_loop e n i h) (select ((2 * n + i) / 2) (e !!! (2 * n + i)%nat))).
Proof.
  induction n as [|n IH]; intros i h; [done|].
  change (base_loop e (S (S n)) i h)
    with (base_loop e (S n) (i + 2) (ge_p1p1_to_p3 (ge_madd h (select (i / 2) (e !!! i))))).
  rewrite IH. replace (2 * n + (i + 2))%nat with (2 * S n + i)%nat by lia. reflexivity.
Qed.

Lemma base_loop_pt e i h P n : (i < 2)%nat -> (n <= 32)%nat -> Forall digit16 e -> length e = 64%nat ->
  p3_pt h P -> p3_pt (base_loop e n i h) (P ⊕ half_val e i n ⊙ ed_B).
Proof.
  intros Hi Hn He Le Hh. induction n as [|n IH].
  - cbn [base_loop half_val]. rewrite pt_mul_0, pt_add_0_r. exact Hh.
  - rewrite base_loop_peel. cbn [half_val]. rewrite pt_mul_add, <- pt_add_assoc.
    apply ge_p1p1_to_p3_pt, ge_madd_pt; [apply IH; lia|].
    replace ((2 * n + i) / 2)%nat with n by (rewrite Nat.mul_comm, Nat.div_add_l, Nat.div_small; lia).
    apply select_pt; [lia|]. apply (Forall_lookup_total_1 _ _ _ He). lia.
Qed.

Lemma ge_scalarmult_base_spec a : byte_ok a -> length a = 32%nat -> le_val a < 2 ^ 255 ->
  p3_pt (ge_scalarmult_base a) (le_val a ⊙ ed_B).
Proof.
  intros Ha La Hv. destruct (base_digits_spec a Ha La Hv) as (Le & De & V).
  unfold ge_scalarmult_base. cbv zeta. set (e := base_digits a) in *. clearbody e.
  assert (E : le_val a ⊙ ed_B ≡ₑ 16 ⊙ (half_val e 1 32 ⊙ ed_B) ⊕ half_val e 0 32 ⊙ ed_B).
  { rewrite <- V. change 64%nat with (2 * 32)%nat. rewrite half_val_evaln, Z.add_comm, pt_mul_add, pt_mul_mul.
    reflexivity. }
  rewrite E. apply base_loop_pt; [lia | lia | exact De | exact Le |].
  pose proof (base_loop_pt e 1 ge_p3_0 pt_zero 32 ltac:(lia) ltac:(lia) De Le ge_p3_0_pt) as H1.
  rewrite pt_add_0_l in H1. set (P := half_val e 1 32 ⊙ ed_B) in *. clearbody P.
  assert (E16 : 16 ⊙ P ≡ₑ 2 ⊙ (2 ⊙ (2 ⊙ (2 ⊙ P)))) by (rewrite <- !pt_mul_mul; reflexivity).
  rewrite E16, !pt_mul_2.
  apply ge_p1p1_to_p3_pt, ge_p2_dbl_pt, ge_p1p1_to_p2_pt, ge_p2_dbl_pt, ge_p1p1_to_p2_pt, ge_p2_dbl_pt,
    ge_p1p1_to_p2_pt, ge_p3_dbl_pt. exact H1.
Qed.

(** *** [ge_scalarmult] *)

Lemma scalarmult_digits_spec a : byte_ok a -> forall n i c, (i + S n = length a)%nat ->
  c = 0 \/ c = 1 -> nth (i + n) a 0 <= 127 ->
  length (scalarmult_digits n i c a) = (2 * S n)%nat /\ Forall digit16 (scalarmult_digits n i c a) /\
  le16 (scalarmult_digits n i c a) = le_val (drop i a) + c.
Proof.
  intros Ha. induction n as [|n IH]; intros i c Hi Hc Ht; rewrite le_val_drop_S by lia;
    pose proof (byte_ok_nth a i Ha) as Hb; cbn [scalarmult_digits];
    rewrite !Z.shiftl_mul_pow2, !Z.shiftr_div_pow2 by lia; change (2 ^ 4) with 16;
    pose proof (Z.div_mod (c + nth i a 0 + 8) 16); pose proof (Z.mod_pos_bound (c + nth i a 0 + 8) 16).
  - rewrite Nat.add_0_r in Ht. rewrite !i8_id, drop_ge by lia. cbn [length le16 le_val].
    rewrite (Z.add_comm c) in *. split; [done|]. split; [|lia]. unfold digit16. repeat constructor; lia.
  - rewrite (Z.add_comm c) in *. set (c2 := (nth i a 0 + c + 8) / 16) in *.
    pose proof (Z.div_mod (c2 + 8) 16). pose proof (Z.mod_pos_bound (c2 + 8) 16).
    destruct (IH (S i) ((c2 + 8) / 16)) as (L & D & V);
      [lia | lia | replace (S i + n)%nat with (i + S n)%nat by lia; exact Ht |].
    rewrite !i8_id by lia. cbn [length le16]. rewrite L, V. split; [lia|].
    split; [|lia]. unfold digit16. repeat constructor; try lia. exact D.
Qed.

Lemma scalarmult_table_pt h A : p3_pt h A -> forall n q k, ca_pt q (k ⊙ A) ->
  forall j, (j <= n)%nat -> ca_pt (nth j (scalarmult_table n h q) ge_cached_0) ((k + Z.of_nat j) ⊙ A).
Proof.
  intros Hh. induction n as [|n IH]; intros q k Hq j Hj; cbn [scalarmult_table].
  - replace j with 0%nat by lia. rewrite Z.add_0_r. exact Hq.
  - destruct j as [|j]; [rewrite Z.add_0_r; exact Hq|]. cbn [nth].
    replace (k + Z.of_nat (S j)) with (1 + k + Z.of_nat j) by lia. apply IH; [|lia].
    rewrite pt_mul_add, pt_mul_1. by apply ge_p3_to_cached_pt, ge_p1p1_to_p3_pt, ge_add_pt.
Qed.

Lemma scalarmult_body_pt e Ai A i r P : small_table Ai A -> digit16 (e !!! i) -> p2_pt r P ->
  p1_pt (scalarmult_body e Ai i r) (2 ^ 4 ⊙ P ⊕ e !!! i ⊙ A).
Proof.
  intros HA He Hr. unfold scalarmult_body. cbv zeta.
  apply ge_add_pt; [|by apply ge_cached_select_pt].
  assert (E16 : 2 ^ 4 ⊙ P ≡ₑ 2 ⊙ (2 ⊙ (2 ⊙ (2 ⊙ P)))) by (rewrite <- !pt_mul_mul; reflexivity).
  rewrite E16, !pt_mul_2.
  apply ge_p1p1_to_p3_pt, ge_p2_dbl_pt, ge_p1p1_to_p2_pt, ge_p2_dbl_pt, ge_p1p1_to_p2_pt, ge_p2_dbl_pt,
    ge_p1p1_to_p2_pt, ge_p2_dbl_pt. exact Hr.
Qed.

Section Single.
Context (a : list Z) (h : ge_p3) (A : point).
Context (Ha : byte_ok a) (La : length a = 32%nat) (Hv : le_val a < 2 ^ 255) (Hh : p3_pt h A).
Local Abbreviation e := (scalarmult_digits 31 0 0 a).
Local Abbreviation Ai := (scalarmult_table 7 h (ge_p3_to_cached h)).

Lemma scalarmult_small_table : small_table Ai A.
Proof using Hh.
  clear - Hh.
  intros j Hj. rewrite Z.add_comm. apply scalarmult_table_pt; [exact Hh | | lia].
  rewrite pt_mul_1. by apply ge_p3_to_cached_pt.
Qed.

Lemma scalarmult_value :
  body_ok (scalarmult_body e Ai) 4 (fun i => e !!! i ⊙ A) 64 /\ evaln 4 64 e = le_val a.
Proof using All.
  destruct (scalarmult_digits_spec a Ha 31 0 0) as (L & D & V); [lia | auto | by apply top_byte |].
  split.
  - intros i r P Hi Hr. apply scalarmult_body_pt; [apply scalarmult_small_table | | exact Hr].
    apply (Forall_lookup_total_1 _ _ _ D). rewrite L. lia.
  - rewrite drop_0, Z.add_0_r in V. rewrite <- V, <- evaln_le16, L. reflexivity.
Qed.

Lemma single_S i : evaln 4 (S i) e ⊙ A ≡ₑ 2 ^ (4 * Z.of_nat i) ⊙ (e !!! i ⊙ A) ⊕ evaln 4 i e ⊙ A.
Proof using Type. cbn [evaln]. rewrite <- pt_mul_mul, <- pt_mul_add, (Z.mul_comm (2 ^ _)), Z.add_comm. reflexivity. Qed.

Lemma ge_scalarmult_spec : p2_pt (ge_scalarmult a h) (le_val a ⊙ A).
Proof using All.
  destruct scalarmult_value as [Hb V].
  pose proof (ge_loop_pt _ 4 _ (fun i => evaln 4 i e ⊙ A) ltac:(lia) (pt_mul_0 A) single_S 64 ge_p2_0 pt_zero
    Hb ge_p2_0_pt) as H.
  cbv beta in H. rewrite pt_mul_zero, pt_add_0_l, V in H. exact H.
Qed.

Lemma ge_scalarmult_p3_spec : exists r, ge_scalarmult_p3 a h = Some r /\ p3_pt r (le_val a ⊙ A).
Proof using All.
  destruct scalarmult_value as [Hb V].
  destruct (ge_loop_p3_pt _ 4 _ (fun i => evaln 4 i e ⊙ A) ltac:(lia) (pt_mul_0 A) single_S 63 ge_p2_0 pt_zero
    Hb ge_p2_0_pt) as (r & E & H).
  exists r. split; [exact E|]. cbv beta in H. rewrite pt_mul_zero, pt_add_0_l, V in H. exact H.
Qed.
End Single.

(** ** [ge_mul8] *)
Lemma ge_mul8_spec t P : p2_pt t P -> p1_pt (ge_mul8 t) (8 ⊙ P).
Proof.
  intros Ht. assert (E : 8 ⊙ P ≡ₑ 2 ⊙ (2 ⊙ (2 ⊙ P))) by (rewrite <- !pt_mul_mul; reflexivity).
  rewrite E, !pt_mul_2. by apply ge_p2_dbl_pt, ge_p1p1_to_p2_pt, ge_p2_dbl_pt, ge_p1p1_to_p2_pt, ge_p2_dbl_pt.
Qed.
