(* ===== verification/FromFe.v ===== *)
(** * Field elements to points (crypto-ops.c, [ge_fromfe_frombytes_vartime])

    The map takes [u] to the point with [y = (z - w)/(z + w)], where
    [w = 2 u^2 + 1] and [z] is [- 2 A u^2] or [- A], whichever makes the equation
    of the curve solvable for [x]. The proofs: one of the four branches of the
    code always applies, [z + w] is never 0, the result is on the curve, and no
    [assert] fails. *)

From Stdlib Require Import ZArith Lia.
From stdpp Require Import base tactics list.
From S2P Require Import Prelude Radix Fe FeBytes FePow Pocklington Ge Curve GeBytes Group CurveAssoc Points.
Open Scope Z_scope.

(** The Montgomery coefficient and the square root of -1. *)
Definition mont_a : Z := 486662.
Definition root_i : Z := fe_val fe_sqrtm1 mod fe_p.

Lemma root_i_sq : root_i * root_i ≡ₚ - 1.
Proof. vm_compute. reflexivity. Qed.
Lemma fe_sqrtm1_val : fe_val fe_sqrtm1 ≡ₚ root_i.
Proof. unfold root_i, eqp. by rewrite Z.mod_mod. Qed.
Lemma ed_d_mont : ed_d * (mont_a + 2) ≡ₚ - (mont_a - 2).
Proof. vm_compute. reflexivity. Qed.

(** The four constants are square roots, as their comments say. *)
Definition mont_c : Z := mont_a * (mont_a + 2).
Lemma fe_fffb1_sq : fe_val fe_fffb1 * fe_val fe_fffb1 ≡ₚ - (2 * mont_c).
Proof. vm_compute. reflexivity. Qed.
Lemma fe_fffb2_sq : fe_val fe_fffb2 * fe_val fe_fffb2 ≡ₚ 2 * mont_c.
Proof. vm_compute. reflexivity. Qed.
Lemma fe_fffb3_sq : fe_val fe_fffb3 * fe_val fe_fffb3 ≡ₚ - (root_i * mont_c).
Proof. vm_compute. reflexivity. Qed.
Lemma fe_fffb4_sq : fe_val fe_fffb4 * fe_val fe_fffb4 ≡ₚ root_i * mont_c.
Proof. vm_compute. reflexivity. Qed.
#[local] Opaque mont_a root_i mont_c.

(** ** Squares *)

(** 2 is not a square: [2^(2^254) = - 2^10]. *)
Lemma two_check : sqn_p 254 2 ≡ₚ - 2 ^ 10.
Proof. vm_compute. reflexivity. Qed.

Lemma two_nonsquare s : ~ s * s ≡ₚ 2.
Proof.
  intros E.
  assert (N : ~ zero_p s).
  { intros Z0. unfold zero_p in Z0. rewrite Z0 in E. revert E. vm_compute. discriminate. }
  pose proof two_check as H. rewrite sqn_p_eq, (square_pow 2 s E N) in H.
  revert H. vm_compute. discriminate.
Qed.

Lemma nonzero_mul a b : ~ zero_p a -> ~ zero_p b -> ~ zero_p (a * b).
Proof. intros Ha Hb H. apply zero_mul in H as [H|H]; auto. Qed.

(** ** The candidate root *)

Lemma fourth_root w x : ~ zero_p w -> ~ zero_p x ->
  let t := (w * x ^ 7) ^ (2 * root_m + 1) in
  (t ≡ₚ 1 \/ t ≡ₚ - 1) \/ (t ≡ₚ root_i \/ t ≡ₚ - root_i).
Proof.
  intros Nw Nx t.
  assert (N : ~ zero_p (w * x ^ 7)).
  { apply nonzero_mul; [done|]. replace (x ^ 7) with (x * (x * (x * (x * (x * (x * x)))))) by ring.
    repeat apply nonzero_mul; done. }
  assert (T4 : t * t * (t * t) ≡ₚ 1).
  { unfold t. set (b := w * x ^ 7) in *. clearbody b.
    replace (b ^ (2 * root_m + 1) * b ^ (2 * root_m + 1) * (b ^ (2 * root_m + 1) * b ^ (2 * root_m + 1)))
      with ((b ^ (2 * root_m + 1)) ^ 4) by ring.
    pose proof root_m_pos. rewrite <- Z.pow_mul_r by lia.
    change ((2 * root_m + 1) * 4) with (fe_p - 1).
    apply fermat_little; [exact fe_p_prime | by rewrite <- zero_divide]. }
  clearbody t.
  assert (Z0 : zero_p ((t - 1) * (t + 1) * ((t - root_i) * (t + root_i)))).
  { unfold zero_p. apply (eqp_step 1 _ _ _ _ T4), (eqp_step (- (t * t - 1)) _ _ _ _ root_i_sq), eqp_eq. ring. }
  apply zero_mul in Z0 as [Z0|Z0]; apply zero_mul in Z0 as [Z0|Z0]; unfold zero_p in Z0;
    [left; left | left; right | right; left | right; right];
    apply (eqp_step 1 _ _ _ _ Z0), eqp_eq; ring.
Qed.

(** [X = (w/x)^(m+1)], the value of [fe_divpowm1 w x]. *)
Lemma candidate_cases w x X : ~ zero_p x ->
  X * X * x ≡ₚ w * (w * x ^ 7) ^ (2 * root_m + 1) ->
  (X * X * x ≡ₚ w \/ X * X * x ≡ₚ - w) \/
  (~ zero_p w /\ (forall q, ~ q * q * x ≡ₚ w) /\ (X * X * x ≡ₚ root_i * w \/ X * X * x ≡ₚ - (root_i * w))).
Proof.
  intros Nx R. destruct (decide (zero_p w)) as [Zw|Nw].
  { left; left. unfold zero_p in Zw. rewrite R. etransitivity; [apply eqp_mul; [exact Zw | reflexivity]|].
    rewrite Z.mul_0_l. symmetry. exact Zw. }
  destruct (fourth_root w x Nw Nx) as [[T|T]|T].
  - left; left. rewrite R, T. apply eqp_eq. ring.
  - left; right. rewrite R, T. apply eqp_eq. ring.
  - right. split; [done|]. split.
    + intros q Q. destruct (root_sign w x q Q) as [S|S].
      { intros Zq. apply Nw. unfold zero_p in *. apply (eqp_step (-1) _ _ _ _ Q), (eqp_step q _ _ _ _ Zq), eqp_eq. ring. }
      * destruct T as [T|T]; rewrite T in S; revert S; vm_compute; discriminate.
      * destruct T as [T|T]; rewrite T in S; revert S; vm_compute; discriminate.
    + destruct T as [T|T]; [left | right]; rewrite R, T; apply eqp_eq; ring.
Qed.

(** ** The equation of the curve *)

Section Map.
Variables z w x X : Z.
Hypothesis Nx : ~ zero_p x.
Hypothesis Hx : x ≡ₚ z * z + mont_a * z * w + w * w.
Hypothesis HX : X * X * x ≡ₚ - ((mont_a + 2) * z * w).

Lemma map_denominator : ~ zero_p (z + w).
Proof using All.
  unfold zero_p. intros Z0.
  assert (Ez : z ≡ₚ - w) by (apply (eqp_step 1 _ _ _ _ Z0), eqp_eq; ring).
  rewrite Ez in Hx, HX.
  assert (Nw : ~ zero_p w).
  { intros Zw. apply Nx. unfold zero_p in *. rewrite Hx, Zw. apply eqp_eq. ring. }
  assert (Uw : unit_p (w * w * (mont_a + 2))).
  { apply unit_nonzero. apply nonzero_mul; [by apply nonzero_mul | vm_compute; discriminate]. }
  assert (D : X * X * ed_d ≡ₚ 1).
  { apply (unit_cancel _ _ _ Uw). rewrite Hx in HX.
    apply (eqp_step (X * X * (w * w)) _ _ _ _ ed_d_mont), (eqp_step 1 _ _ _ _ HX), eqp_eq. ring. }
  apply (ed_d_nonsquare (X * ed_d)).
  apply (eqp_step (- ed_d) _ _ _ _ D), eqp_eq. ring.
Qed.

Lemma map_curve y : y * (z + w) ≡ₚ z - w -> ed_curve X y.
Proof using All.
  intros Hy. pose proof map_denominator as N. unfold ed_curve.
  apply (unit_cancel _ _ ((mont_a + 2) * ((z + w) * (z + w)))).
  { apply unit_nonzero. apply nonzero_mul; [vm_compute; discriminate | by apply nonzero_mul]. }
  transitivity ((mont_a + 2) * (- (X * X) * ((z + w) * (z + w)) + (z - w) * (z - w))).
  { rewrite <- Hy. apply eqp_eq. ring. }
  transitivity ((mont_a + 2) * ((z + w) * (z + w)) + ed_d * (mont_a + 2) * (X * X) * ((z - w) * (z - w))).
  2:{ rewrite <- Hy. apply eqp_eq. ring. }
  rewrite ed_d_mont. rewrite Hx in HX.
  apply (eqp_step (-4) _ _ _ _ HX), eqp_eq. ring.
Qed.
End Map.

(** ** The quantities of the function *)

Definition map_v (u : Z) : Z := 2 * u * u.
Definition map_w (u : Z) : Z := map_v u + 1.
Definition map_x (u : Z) : Z := map_w u * map_w u - mont_a * mont_a * map_v u.

Lemma map_x_nonzero u : ~ zero_p (map_x u).
Proof.
  intros Z0. destruct (decide (zero_p u)) as [Zu|Nu].
  - unfold zero_p, map_x, map_w, map_v in *. rewrite Zu in Z0. revert Z0.
    replace ((2 * 0 * 0 + 1) * (2 * 0 * 0 + 1) - mont_a * mont_a * (2 * 0 * 0)) with 1 by ring. discriminate.
  - assert (Ua : unit_p (mont_a * u)).
    { apply unit_nonzero, nonzero_mul; [vm_compute; discriminate | done]. }
    destruct Ua as [i Hi]. apply (two_nonsquare (map_w u * i)). unfold zero_p, map_x in Z0.
    apply (eqp_step (i * i) _ _ _ _ Z0), (eqp_step (2 * (mont_a * u * i + 1)) _ _ _ _ Hi), eqp_eq.
    unfold map_v. ring.
Qed.

(** The point with the first coordinate up to sign, and the second. *)
Definition map_point (u z X : Z) (P : point) : Prop :=
  (ed_px (pt P) ≡ₚ X \/ ed_px (pt P) ≡ₚ - X) /\ ed_py (pt P) * (z + map_w u) ≡ₚ z - map_w u.

(** ** The check at the end *)

Lemma ge_fromfe_check_spec r x y : p2_rep r x y -> ed_curve x y -> ge_fromfe_check r = true.
Proof.
  intros ((HX & HY & HZ) & U & EX & EY) C. unfold ge_fromfe_check. cbv zeta.
  destruct (fe_div_spec (p2_X r) (p2_Z r) x) as [Hx Vx]; [fe_bound | exact HZ | exact U | exact EX |].
  destruct (fe_div_spec (p2_Y r) (p2_Z r) y) as [Hy Vy]; [exact HY | exact HZ | exact U | exact EY |].
  set (fx := fe_mul (p2_X r) (fe_invert (p2_Z r))) in *. set (fy := fe_mul (p2_Y r) (fe_invert (p2_Z r))) in *.
  clearbody fx fy.
  assert (Hs : fe_bounded (3 * 33889976 + 1) (3 * 16944988 + 1)
    (fe_add (fe_sub (fe_add (fe_mul fe_d (fe_mul (fe_sq fx) (fe_sq fy))) (fe_sq fx)) (fe_sq fy)) fe_1)).
  { eapply fe_bounded_weaken;
      [eapply fe_add_gen; [eapply fe_sub_gen; [eapply fe_add_gen | |..] | |..] |..];
      try (apply fe_mul_small; fe_bound); try (apply fe_sq_small; fe_bound);
      try (apply (fe_bounded_check 1 0); reflexivity); lia. }
  assert (Hw : fe_wide (fe_add (fe_sub (fe_add (fe_mul fe_d (fe_mul (fe_sq fx) (fe_sq fy))) (fe_sq fx)) (fe_sq fy)) fe_1)).
  { eapply fe_bounded_weaken; [exact Hs | lia | lia]. }
  rewrite fe_isnonzero_zero by exact Hw. apply bool_decide_eq_true. unfold zero_p.
  fe_values. rewrite Vx, Vy, fe_d_val. unfold ed_curve in C.
  apply (eqp_step (-1) _ _ _ _ C), eqp_eq. ring.
Qed.

(** ** The end of the function: sign and coordinates *)

Lemma ge_fromfe_setsign_spec u fX fz fw X z sign :
  fe_small fX -> fe_small fz -> fe_tight fw ->
  fe_val fX ≡ₚ X -> fe_val fz ≡ₚ z -> fe_val fw ≡ₚ map_w u ->
  map_x u ≡ₚ z * z + mont_a * z * map_w u + map_w u * map_w u ->
  X * X * map_x u ≡ₚ - ((mont_a + 2) * z * map_w u) ->
  sign = 0 \/ sign = 1 -> (zero_p X -> sign = 0) ->
  exists r P, ge_fromfe_setsign fX fz fw sign = Some r /\ p2_pt r P /\
    map_point u z X P /\ (ed_px (pt P) mod fe_p) mod 2 = sign.
Proof.
  intros HX Hz Hw EX Ez Ew Hx HXx Hs Hzs.
  assert (F : forall fX' X', fe_small fX' -> fe_val fX' ≡ₚ X' -> X' = X \/ X' = - X ->
    (X' mod fe_p) mod 2 = sign -> exists r P,
    (let rZ := fe_add fz fw in let rY := fe_sub fz fw in let rX := fe_mul fX' rZ in
     let r := GeP2 rX rY rZ in if ge_fromfe_check r then Some r else None) = Some r /\ p2_pt r P /\
    map_point u z X P /\ (ed_px (pt P) mod fe_p) mod 2 = sign).
  { intros fX' X' HX' EX' XX' Sg. cbv zeta.
    assert (HXx' : X' * X' * map_x u ≡ₚ - ((mont_a + 2) * z * map_w u)).
    { rewrite <- HXx. destruct XX' as [-> | ->]; apply eqp_eq; ring. }
    assert (U : unit_p (z + map_w u)) by (apply unit_nonzero; exact (map_denominator _ _ _ _ (map_x_nonzero u) Hx HXx')).
    destruct U as [i Hi]. set (y := (z - map_w u) * i).
    assert (Hy : y * (z + map_w u) ≡ₚ z - map_w u).
    { apply (eqp_step (z - map_w u) _ _ _ _ Hi), eqp_eq. unfold y. ring. }
    pose proof (map_curve _ _ _ _ (map_x_nonzero u) Hx HXx' y Hy) as C.
    set (r := GeP2 (fe_mul fX' (fe_add fz fw)) (fe_sub fz fw) (fe_add fz fw)).
    assert (R : p2_rep r X' y).
    { unfold r, p2_rep, p2_ok. cbn [p2_X p2_Y p2_Z]. split_and!; [fe_bound.. | | |].
      - fe_values. rewrite Ez, Ew. exists i. exact Hi.
      - fe_values. rewrite EX'. reflexivity.
      - fe_values. rewrite Ez, Ew. symmetry. exact Hy. }
    exists r, (Point (EdPoint X' y) C). rewrite (ge_fromfe_check_spec r X' y R C).
    split; [done|]. split; [exact R|]. cbn [pt ed_px ed_py]. split; [|exact Sg].
    split; [destruct XX' as [-> | ->]; [left | right]; reflexivity | exact Hy]. }
  unfold ge_fromfe_setsign. cbv zeta in F |- *.
  rewrite fe_isnegative_spec, fe_isnonzero_zero by fe_bound.
  replace (fe_val fX mod fe_p) with (X mod fe_p) by (symmetry; exact EX).
  destruct (Z.eqb_spec ((X mod fe_p) mod 2) sign) as [E|E]; [apply (F fX X); auto|].
  case_bool_decide as Hz0; (assert (Hz1 : zero_p (fe_val fX) <-> zero_p X) by (unfold zero_p; by rewrite EX)).
  - exfalso. apply Hz1 in Hz0. apply E. rewrite (Hzs Hz0). unfold zero_p, eqp in Hz0. by rewrite Hz0.
  - apply (F (fe_neg fX) (- X)); [fe_bound | fe_values; by rewrite EX | auto |].
    rewrite neg_parity by tauto. pose proof (mod_2_cases (X mod fe_p)). lia.
Qed.

(** ** The whole function *)

(** The point the map takes [u] to: [z = - 2 A u^2] and even [x] when [w/x] is a
    square, [z = - A] and odd [x] when it is not. *)
Definition map_result (u : Z) (P : point) : Prop :=
  ((exists q, q * q * map_x u ≡ₚ map_w u) /\
   ed_py (pt P) * (- mont_a * map_v u + map_w u) ≡ₚ - mont_a * map_v u - map_w u /\
   (ed_px (pt P) mod fe_p) mod 2 = 0) \/
  ((forall q, ~ q * q * map_x u ≡ₚ map_w u) /\
   ed_py (pt P) * (- mont_a + map_w u) ≡ₚ - mont_a - map_w u /\
   (ed_px (pt P) mod fe_p) mod 2 = 1).

(** [w/x] is a square: [X^2 x = w] or [X^2 x = - w], times [f^2 = 2 A (A+2)] or
    its opposite. *)
Lemma map_positive u fu fv fw rX f X c :
  fe_small fu -> fe_small fv -> fe_tight fw -> fe_small rX -> fe_small f ->
  fe_val fu ≡ₚ u -> fe_val fv ≡ₚ map_v u -> fe_val fw ≡ₚ map_w u -> fe_val rX ≡ₚ X ->
  fe_val f * fe_val f ≡ₚ c * (2 * mont_c) -> c * (X * X * map_x u) ≡ₚ map_w u ->
  (exists q, q * q * map_x u ≡ₚ map_w u) ->
  exists r P,
    ge_fromfe_setsign (fe_mul (fe_mul rX f) fu) (fe_mul (fe_copy fe_ma) fv) fw 0 = Some r /\
    p2_pt r P /\ map_result u P.
Proof.
  intros Hu Hv Hw HX Hf Eu Ev Ew EX Ef EQ Sq. rewrite fe_copy_eq.
  destruct (ge_fromfe_setsign_spec u (fe_mul (fe_mul rX f) fu) (fe_mul fe_ma fv) fw
    (X * fe_val f * u) (- mont_a * map_v u) 0) as (r & P & E & R & [_ My] & Sg); try fe_bound; try exact Ew.
  - fe_values. by rewrite EX, Eu.
  - fe_values. rewrite Ev. reflexivity.
  - unfold map_x. apply eqp_eq. unfold map_w. ring.
  - transitivity (X * X * (fe_val f * fe_val f) * (u * u) * map_x u); [apply eqp_eq; ring|].
    rewrite Ef.
    transitivity (c * (X * X * map_x u) * (mont_c * map_v u)); [apply eqp_eq; unfold map_v; ring|].
    rewrite EQ. apply eqp_eq. change mont_c with (mont_a * (mont_a + 2)). ring.
  - exists r, P. split; [exact E|]. split; [exact R|]. left. split; [exact Sq|]. split; [exact My | exact Sg].
Qed.

(** [w/x] is not a square. *)
Lemma map_negative u fw rX f X c :
  fe_tight fw -> fe_small rX -> fe_small f ->
  fe_val fw ≡ₚ map_w u -> fe_val rX ≡ₚ X ->
  fe_val f * fe_val f ≡ₚ c * mont_c -> c * (X * X * map_x u) ≡ₚ map_w u ->
  ~ zero_p (map_w u) -> (forall q, ~ q * q * map_x u ≡ₚ map_w u) ->
  exists r P, ge_fromfe_setsign (fe_mul rX f) (fe_copy fe_ma) fw 1 = Some r /\ p2_pt r P /\ map_result u P.
Proof.
  intros Hw HX Hf Ew EX Ef EQ Nw Sq. rewrite fe_copy_eq.
  destruct (ge_fromfe_setsign_spec u (fe_mul rX f) fe_ma fw (X * fe_val f) (- mont_a) 1)
    as (r & P & E & R & [_ My] & Sg); try fe_bound; try exact Ew.
  - fe_values. by rewrite EX.
  - rewrite fe_ma_val. reflexivity.
  - unfold map_x. apply eqp_eq. unfold map_w. ring.
  - transitivity (X * X * (fe_val f * fe_val f) * map_x u); [apply eqp_eq; ring|].
    rewrite Ef. transitivity (c * (X * X * map_x u) * mont_c); [apply eqp_eq; ring|].
    rewrite EQ. apply eqp_eq. change mont_c with (mont_a * (mont_a + 2)). ring.
  - intros Z0. exfalso. apply (nonzero_mul mont_c (map_w u)); [vm_compute; discriminate | exact Nw |].
    unfold zero_p in *. rewrite <- EQ.
    transitivity (X * fe_val f * (X * fe_val f) * map_x u); [|rewrite Z0; apply eqp_eq; ring].
    transitivity (X * X * map_x u * (c * mont_c)); [apply eqp_eq; ring|]. rewrite <- Ef. apply eqp_eq. ring.
  - exists r, P. split; [exact E|]. split; [exact R|]. right. split; [exact Sq|]. split; [exact My | exact Sg].
Qed.

Lemma isnonzero_sub f g : fe_wide f -> fe_wide g -> fe_wide (fe_sub f g) ->
  (fe_isnonzero (fe_sub f g) =? 0) = bool_decide (fe_val f ≡ₚ fe_val g).
Proof.
  intros Hf Hg H. rewrite fe_isnonzero_zero by exact H. apply bool_decide_ext. unfold zero_p.
  rewrite fe_sub_val by assumption. split; intros E.
  - apply (eqp_step 1 _ _ _ _ E), eqp_eq. ring.
  - rewrite E. apply eqp_eq. ring.
Qed.
Lemma isnonzero_add f g : fe_wide f -> fe_wide g -> fe_wide (fe_add f g) ->
  (fe_isnonzero (fe_add f g) =? 0) = bool_decide (fe_val g ≡ₚ - fe_val f).
Proof.
  intros Hf Hg H. rewrite fe_isnonzero_zero by exact H. apply bool_decide_ext. unfold zero_p.
  rewrite fe_add_val by assumption. split; intros E.
  - apply (eqp_step 1 _ _ _ _ E), eqp_eq. ring.
  - rewrite E. apply eqp_eq. ring.
Qed.

(** The branches of the function, with the values of its locals. *)
Section Branches.
Variables (u X : Z) (fu fv fw rX fxx : fe).
Hypotheses (Hu : fe_small fu) (Hv : fe_small fv) (Hw : fe_tight fw) (HX : fe_small rX) (Hxx : fe_small fxx).
Hypotheses (Eu : fe_val fu ≡ₚ u) (Ev : fe_val fv ≡ₚ map_v u) (Ew : fe_val fw ≡ₚ map_w u)
  (EX : fe_val rX ≡ₚ X) (Exx : fe_val fxx ≡ₚ X * X * map_x u).
Hypothesis R : X * X * map_x u ≡ₚ map_w u * (map_w u * map_x u ^ 7) ^ (2 * root_m + 1).

Definition fromfe_branches : option ge_p2 :=
  let positive (rX : fe) :=
    ge_fromfe_setsign (fe_mul rX fu) (fe_mul (fe_copy fe_ma) fv) fw 0 in
  if fe_isnonzero (fe_sub fw fxx) =? 0 then positive (fe_mul rX fe_fffb2)
  else if fe_isnonzero (fe_add fw fxx) =? 0 then positive (fe_mul rX fe_fffb1)
  else
    let fxi := fe_mul fxx fe_sqrtm1 in
    if fe_isnonzero (fe_sub fw fxi) =? 0 then ge_fromfe_setsign (fe_mul rX fe_fffb4) (fe_copy fe_ma) fw 1
    else if fe_isnonzero (fe_add fw fxi) =? 0 then ge_fromfe_setsign (fe_mul rX fe_fffb3) (fe_copy fe_ma) fw 1
    else None.

Lemma fromfe_branches_spec : exists r P, fromfe_branches = Some r /\ p2_pt r P /\ map_result u P.
Proof using All.
  unfold fromfe_branches. cbv zeta.
  assert (Hxi : fe_small (fe_mul fxx fe_sqrtm1)) by fe_bound.
  assert (Exi : fe_val (fe_mul fxx fe_sqrtm1) ≡ₚ root_i * (X * X * map_x u)).
  { fe_values. rewrite Exx, fe_sqrtm1_val. apply eqp_eq. ring. }
  rewrite !isnonzero_sub, !isnonzero_add by fe_bound.
  set (fxi := fe_mul fxx fe_sqrtm1) in *. clearbody fxi.
  pose proof (candidate_cases _ _ _ (map_x_nonzero u) R) as Cases. clear R.
  case_bool_decide as C1; [|case_bool_decide as C2; [|case_bool_decide as C3; [|case_bool_decide as C4]]];
    rewrite Ew, ?Exx, ?Exi in *.
  - eapply (map_positive u fu fv fw rX fe_fffb2 X 1); try eassumption; try fe_bound.
    + rewrite fe_fffb2_sq. apply eqp_eq. ring.
    + rewrite Z.mul_1_l. symmetry. exact C1.
    + exists X. symmetry. exact C1.
  - eapply (map_positive u fu fv fw rX fe_fffb1 X (-1)); try eassumption; try fe_bound.
    + rewrite fe_fffb1_sq. apply eqp_eq. ring.
    + rewrite C2. apply eqp_eq. ring.
    + exists (root_i * X). transitivity (root_i * root_i * (X * X * map_x u)); [apply eqp_eq; ring|].
      rewrite root_i_sq, C2. apply eqp_eq. ring.
  - destruct Cases as [[C|C]|(Nw & Sq & _)]; [by destruct C1 | by destruct C2 |].
    eapply (map_negative u fw rX fe_fffb4 X root_i); try eassumption; try fe_bound.
    + exact fe_fffb4_sq.
    + symmetry. exact C3.
  - destruct Cases as [[C|C]|(Nw & Sq & _)]; [by destruct C1 | by destruct C2 |].
    eapply (map_negative u fw rX fe_fffb3 X (- root_i)); try eassumption; try fe_bound.
    + rewrite fe_fffb3_sq. apply eqp_eq. ring.
    + rewrite Z.mul_opp_l, C4. apply eqp_eq. ring.
  - exfalso. destruct Cases as [[C|C]|(Nw & Sq & [C|C])]; [by destruct C1 | by destruct C2 | apply C4 | apply C3];
      rewrite C.
    + transitivity (root_i * root_i * map_w u); [apply eqp_eq; ring|]. rewrite root_i_sq. apply eqp_eq. ring.
    + transitivity (- (root_i * root_i) * map_w u); [|apply eqp_eq; ring]. rewrite root_i_sq. apply eqp_eq. ring.
Qed.
End Branches.

(** The value of the candidate root. *)
Lemma fromfe_root u fw fx : fe_wide fw -> fe_wide fx ->
  fe_val fw ≡ₚ map_w u -> fe_val fx ≡ₚ map_x u ->
  let X := fe_val (fe_divpowm1 fw fx) in
  fe_small (fe_divpowm1 fw fx) /\
  X * X * map_x u ≡ₚ map_w u * (map_w u * map_x u ^ 7) ^ (2 * root_m + 1).
Proof.
  intros Hw Hx Ew Ex X. destruct (fe_divpowm1_spec fw fx Hw Hx) as [HX EX]. split; [exact HX|].
  rewrite fe_pow22523_root in EX. rewrite <- (root_square (map_w u) (map_x u)). cbv zeta. fold X in EX.
  assert (E : X ≡ₚ map_w u * map_x u ^ 3 * (map_w u * map_x u ^ 7) ^ root_m).
  { rewrite EX. apply eqp_mul; [rewrite Ew; apply eqp_mul; [reflexivity | exact (eqp_pow 3 _ _ Ex)]|].
    apply eqp_pow. rewrite Ew. apply eqp_mul; [reflexivity | exact (eqp_pow 7 _ _ Ex)]. }
  apply eqp_mul; [|reflexivity]. apply eqp_mul; exact E.
Qed.

Lemma ge_fromfe_eq s :
  let fu := fe_frombytes_carry (fe_frombytes_256 s) in
  let fv := fe_sq2 fu in
  let fw := fe_add fv fe_1 in
  let fx := fe_add (fe_sq fw) (fe_mul fe_ma2 fv) in
  let rX := fe_divpowm1 fw fx in
  ge_fromfe_frombytes_vartime s = fromfe_branches fu fv fw rX (fe_mul (fe_sq rX) fx).
Proof. unfold ge_fromfe_frombytes_vartime, fromfe_branches. cbv zeta. reflexivity. Qed.

Lemma ge_fromfe_spec s : byte_ok s -> length s = 32%nat ->
  exists r P, ge_fromfe_frombytes_vartime s = Some r /\ p2_pt r P /\ map_result (le_val s) P.
Proof.
  intros Hs Hl. destruct (fe_frombytes_256_spec s Hs) as [Hu Eu].
  rewrite Z.mod_small in Eu by (pose proof (le_val_range s Hs) as H; rewrite Hl in H; exact H).
  rewrite ge_fromfe_eq. cbv zeta. set (u := le_val s) in *. clearbody u.
  set (fu := fe_frombytes_carry (fe_frombytes_256 s)) in *. clearbody fu.
  assert (Hv : fe_small (fe_sq2 fu)) by fe_bound.
  assert (Ev : fe_val (fe_sq2 fu) ≡ₚ map_v u) by (fe_values; rewrite Eu; reflexivity).
  set (fv := fe_sq2 fu) in *. clearbody fv.
  assert (Hw : fe_tight (fe_add fv fe_1)) by (by apply fe_add_1_tight).
  assert (Ew : fe_val (fe_add fv fe_1) ≡ₚ map_w u) by (fe_values; rewrite Ev; reflexivity).
  set (fw := fe_add fv fe_1) in *. clearbody fw.
  assert (Hx : fe_loose (fe_add (fe_sq fw) (fe_mul fe_ma2 fv))) by fe_bound.
  assert (Ex : fe_val (fe_add (fe_sq fw) (fe_mul fe_ma2 fv)) ≡ₚ map_x u).
  { fe_values. rewrite Ew, Ev, fe_ma2_val. apply eqp_eq. unfold map_x. change mont_a with 486662. ring. }
  set (fx := fe_add (fe_sq fw) (fe_mul fe_ma2 fv)) in *. clearbody fx.
  destruct (fromfe_root u fw fx) as [HX R]; [fe_bound | fe_bound | exact Ew | exact Ex |].
  set (rX := fe_divpowm1 fw fx) in *. clearbody rX.
  apply (fromfe_branches_spec u (fe_val rX)); try assumption; [fe_bound | reflexivity |].
  fe_values. by rewrite Ex.
Qed.
