(* ===== verification/FieldCorrect.v ===== *)
(** * What the field arithmetic of crypto-ops.c computes

    The contracts of [fe_*] in one place: exact bounds, so that no 32-bit or
    64-bit operation wraps, and the value modulo [2^255 - 19]. *)

From Stdlib Require Import ZArith Lia.
From stdpp Require Import base tactics list.
From S2P Require Import Prelude Radix Fe FeBytes FePow Pocklington Ge Curve GeBytes.
Open Scope Z_scope.

(** C5. [fe_mul], [fe_sq] and [fe_sq2]: for operands with limbs up to
    [1.65 * 2^26] / [1.65 * 2^25] the sums of products fit 64 bits, the result
    has limbs up to [1.01 * 2^25] / [1.01 * 2^24], and it is the product, the
    square or twice the square modulo [2^255 - 19]. *)
Theorem fe_products_correct f g : fe_wide f -> fe_wide g ->
  (fe_small (fe_mul f g) /\ fe_val (fe_mul f g) ≡ₚ fe_val f * fe_val g) /\
  (fe_small (fe_sq f) /\ fe_val (fe_sq f) ≡ₚ fe_val f * fe_val f) /\
  (fe_small (fe_sq2 f) /\ fe_val (fe_sq2 f) ≡ₚ 2 * fe_val f * fe_val f).
Proof.
  intros Hf Hg. split; [by apply fe_mul_spec|]. split; [by apply fe_sq_spec | by apply fe_sq2_spec].
Qed.

Lemma fe_products_correct_witness :
  fe_wide (fe_add fe_d fe_sqrtm1) /\
  fe_val (fe_mul (fe_add fe_d fe_sqrtm1) fe_d2) ≡ₚ fe_val (fe_add fe_d fe_sqrtm1) * fe_val fe_d2.
Proof.
  assert (H : fe_wide (fe_add fe_d fe_sqrtm1)) by (apply fe_bounded_check; reflexivity).
  split; [exact H|].
  apply (fe_products_correct (fe_add fe_d fe_sqrtm1) fe_d2 H).
  apply fe_bounded_check; reflexivity.
Defined.

(** [fe_add], [fe_sub], [fe_neg] and [fe_cmov]: no limb wraps for operands
    up to [1.1 * 2^25] / [1.1 * 2^24], and the result is the exact sum,
    difference, negation or selected operand. *)
Theorem fe_linear_correct f g b : fe_tight f -> fe_tight g -> b = 0 \/ b = 1 ->
  (fe_loose (fe_add f g) /\ fe_val (fe_add f g) = fe_val f + fe_val g) /\
  (fe_loose (fe_sub f g) /\ fe_val (fe_sub f g) = fe_val f - fe_val g) /\
  (fe_tight (fe_neg f) /\ fe_val (fe_neg f) = - fe_val f) /\
  fe_cmov f g b = if b =? 0 then f else g.
Proof.
  intros Hf Hg Hb. split_and!.
  - fe_bound.
  - apply fe_add_val; fe_bound.
  - fe_bound.
  - apply fe_sub_val; fe_bound.
  - by apply fe_neg_tight.
  - apply fe_neg_val; fe_bound.
  - destruct (fe_cmov_spec f g b) as [[E ->] | [[E ->] | [? ?]]]; [exact E | exact E | lia].
Qed.

Lemma fe_linear_correct_witness :
  fe_val (fe_sub fe_d fe_sqrtm1) = fe_val fe_d - fe_val fe_sqrtm1 /\ fe_cmov fe_d fe_d2 1 = fe_d2.
Proof.
  destruct (fe_linear_correct fe_d fe_sqrtm1 0) as (_ & [_ H] & _);
    [apply fe_bounded_check; reflexivity | apply fe_bounded_check; reflexivity | now left |].
  split; [exact H|].
  apply (fe_linear_correct fe_d fe_d2 1);
    [apply fe_bounded_check; reflexivity | apply fe_bounded_check; reflexivity | now right].
Defined.

(** C22. [fe_tobytes] writes the 32 bytes of the canonical representative of
    every element with limbs up to [1.65 * 2^26] / [1.65 * 2^25], which is more
    than its comment asks for; [fe_isnegative] is its parity and [fe_isnonzero]
    tests it for zero. *)
Theorem fe_tobytes_correct h : fe_wide h ->
  fe_tobytes h = le_bytes 32 (fe_val h mod fe_p) /\
  fe_isnegative h = (fe_val h mod fe_p) mod 2 /\
  fe_isnonzero h = (if fe_val h mod fe_p =? 0 then 0 else 1).
Proof.
  intros Hh. split; [|split; [by apply fe_isnegative_spec | by apply fe_isnonzero_spec]].
  destruct (fe_tobytes_spec h Hh) as (Hb & Hl & Hv).
  apply le_val_inj; [done | apply le_bytes_ok | by rewrite Hl, length_le_bytes |].
  rewrite le_val_le_bytes, Hv, (Z.mod_small (_ mod _)); [done|].
  pose proof (Z.mod_pos_bound (fe_val h) fe_p). unfold fe_p in *. lia.
Qed.

Lemma fe_tobytes_correct_witness :
  fe_tobytes (fe_neg fe_1) = le_bytes 32 (fe_p - 1) /\ fe_isnonzero (fe_sub fe_d fe_d) = 0.
Proof.
  split.
  - apply (fe_tobytes_correct (fe_neg fe_1)). apply fe_bounded_check; reflexivity.
  - apply (fe_tobytes_correct (fe_sub fe_d fe_d)). apply fe_bounded_check; reflexivity.
Defined.

(** The loads and carries of the two functions that read a field element
    give limbs up to [1.01 * 2^25] / [1.01 * 2^24] and the value of the low 255,
    or of all 256, bits; the canonicity test accepts exactly values below
    [2^255 - 19]. *)
Theorem fe_frombytes_correct s : byte_ok s -> length s = 32%nat ->
  (fe_small (fe_frombytes_carry (fe_frombytes_255 s)) /\
   fe_val (fe_frombytes_carry (fe_frombytes_255 s)) ≡ₚ le_val s mod 2 ^ 255) /\
  (fe_small (fe_frombytes_carry (fe_frombytes_256 s)) /\
   fe_val (fe_frombytes_carry (fe_frombytes_256 s)) ≡ₚ le_val s) /\
  fe_noncanonical (fe_frombytes_255 s) = (fe_p <=? le_val s mod 2 ^ 255).
Proof.
  intros Hs Hl. split; [by apply fe_frombytes_255_spec|]. split; [|by apply fe_noncanonical_255].
  destruct (fe_frombytes_256_spec s Hs) as [H1 H2]. split; [exact H1|].
  rewrite H2. pose proof (le_val_range s Hs) as Hr. rewrite Hl in Hr.
  rewrite Z.mod_small by exact Hr. reflexivity.
Qed.

Lemma fe_frombytes_correct_witness :
  fe_noncanonical (fe_frombytes_255 (le_bytes 32 fe_p)) = true /\
  fe_noncanonical (fe_frombytes_255 (le_bytes 32 (fe_p - 1))) = false.
Proof.
  split.
  - apply (fe_frombytes_correct (le_bytes 32 fe_p)); [apply le_bytes_ok | apply length_le_bytes].
  - apply (fe_frombytes_correct (le_bytes 32 (fe_p - 1))); [apply le_bytes_ok | apply length_le_bytes].
Defined.

(** [fe_invert] computes the inverse in the field ([2^255 - 19] is prime),
    and 0 for 0. *)
Theorem fe_invert_correct z : fe_wide z ->
  fe_small (fe_invert z) /\
  if fe_val z mod fe_p =? 0 then fe_val (fe_invert z) ≡ₚ 0
  else fe_val z * fe_val (fe_invert z) ≡ₚ 1.
Proof.
  intros Hz. destruct (fe_invert_spec z Hz) as [Hs Hv]. split; [exact Hs|].
  change (fe_val z ^ (fe_p - 2)) with (fe_inv (fe_val z)) in Hv.
  destruct (Z.eqb_spec (fe_val z mod fe_p) 0) as [E|E]; rewrite Hv.
  - assert (Hz0 : fe_val z ≡ₚ 0) by exact E. rewrite Hz0. unfold fe_inv.
    rewrite Z.pow_0_l; [reflexivity|]. unfold fe_p. lia.
  - apply fe_inv_r. exact E.
Qed.

Lemma fe_invert_correct_witness : fe_val fe_d * fe_val (fe_invert fe_d) ≡ₚ 1.
Proof.
  assert (H : fe_wide fe_d) by (apply fe_bounded_check; reflexivity).
  exact (proj2 (fe_invert_correct fe_d H)).
Defined.

(** [fe_divpowm1] computes [u^(m+1) v^-(m+1)] for [m = (p-5)/8], the
    candidate square root of [u/v]: whenever [u/v] is a square the result [X]
    satisfies [v X^2 = u] or [v X^2 = -u]. *)
Theorem fe_divpowm1_correct u v x : fe_wide u -> fe_wide v ->
  x * x * fe_val v ≡ₚ fe_val u -> fe_val v mod fe_p <> 0 ->
  let X := fe_val (fe_divpowm1 u v) in
  fe_small (fe_divpowm1 u v) /\ (X * X * fe_val v ≡ₚ fe_val u \/ X * X * fe_val v ≡ₚ - fe_val u).
Proof.
  intros Hu Hv E Nv X. destruct (fe_divpowm1_spec u v Hu Hv) as [Hs HX]. split; [exact Hs|].
  assert (R : X * X * fe_val v
    ≡ₚ fe_val u * (fe_val u * fe_val v ^ 7) ^ (2 * root_m + 1)).
  { unfold X. rewrite <- (root_square (fe_val u) (fe_val v)). cbv zeta.
    rewrite fe_pow22523_root in HX. apply eqp_mul; [|reflexivity]. apply eqp_mul; exact HX. }
  destruct (decide (zero_p (x * fe_val v))) as [Z0|N].
  - left. apply zero_mul in Z0 as [Z0|Z0]; [|by apply Nv in Z0].
    unfold zero_p in Z0. rewrite <- Z.mul_assoc, (Z.mul_comm x), <- Z.mul_assoc, (Z.mul_comm _ x), Z0, Z.mul_0_r in E.
    rewrite R. etransitivity; [apply eqp_mul; [symmetry; exact E | reflexivity]|].
    rewrite Z.mul_0_l. exact E.
  - destruct (root_sign _ _ _ E N) as [S|S]; [left | right]; rewrite R, S; apply eqp_eq; ring.
Qed.

Lemma fe_divpowm1_correct_witness :
  let X := fe_val (fe_divpowm1 (fe_sq fe_d) fe_1) in
  X * X * fe_val fe_1 ≡ₚ fe_val (fe_sq fe_d) \/ X * X * fe_val fe_1 ≡ₚ - fe_val (fe_sq fe_d).
Proof.
  apply (fe_divpowm1_correct (fe_sq fe_d) fe_1 (fe_val fe_d)).
  - apply fe_bounded_check; vm_compute; reflexivity.
  - apply fe_bounded_check; reflexivity.
  - vm_compute. reflexivity.
  - vm_compute. discriminate.
Defined.
