(* ===== verification/ScCorrect.v ===== *)
(** * What the scalar arithmetic of crypto-ops.c computes

    Every [sc_*] function writes the canonical representative modulo the order
    of the base point, for every input of the right length. *)

From Stdlib Require Import ZArith Lia.
From stdpp Require Import base tactics list.
From S2P Require Import Prelude Radix Sc ScBounds ScProofs.
Open Scope Z_scope.

(** C23. [sc_reduce] and [sc_reduce32] reduce a number of 64 and of 32 bytes: the
    32 bytes they write are the number modulo [l], for every number; reducing
    twice changes nothing. *)
Theorem sc_reduce_correct s s' : byte_ok s -> length s = 64%nat -> byte_ok s' -> length s' = 32%nat ->
  sc_reduce s = le_bytes 32 (le_val s mod sc_l) /\
  sc_reduce32 s' = le_bytes 32 (le_val s' mod sc_l) /\ sc_reduce32 (sc_reduce32 s') = sc_reduce32 s'.
Proof.
  intros Hs Hl Hs' Hl'. split; [by apply sc_reduce_spec|].
  assert (E : sc_reduce32 s' = le_bytes 32 (le_val s' mod sc_l)) by (by apply sc_reduce32_spec).
  split; [exact E|]. rewrite E, sc_reduce32_spec by (apply le_bytes_ok || apply length_le_bytes).
  rewrite le_val_le_bytes. f_equal. pose proof (Z.mod_pos_bound (le_val s') sc_l).
  rewrite (Z.mod_small (le_val s' mod sc_l)) by (unfold sc_l in *; lia). apply Z.mod_mod. done.
Qed.

Lemma sc_reduce_correct_witness :
  sc_reduce (le_bytes 64 (2 ^ 512 - 1)) = le_bytes 32 ((2 ^ 512 - 1) mod sc_l) /\
  sc_reduce32 (le_bytes 32 sc_l) = le_bytes 32 0.
Proof.
  destruct (sc_reduce_correct (le_bytes 64 (2 ^ 512 - 1)) (le_bytes 32 sc_l)) as (E & E' & _);
    try (apply le_bytes_ok || apply length_le_bytes).
  rewrite E, E', !le_val_le_bytes. split; [reflexivity|]. vm_compute. reflexivity.
Defined.

Section Operands.
Variables a b c : list Z.
Hypotheses (Ha : byte_ok a) (Hb : byte_ok b) (Hc : byte_ok c).
Hypotheses (La : length a = 32%nat) (Lb : length b = 32%nat) (Lc : length c = 32%nat).

(** C24. [sc_add], [sc_sub], [sc_mul], [sc_muladd] and [sc_mulsub] compute [a + b],
    [a - b], [a b], [a b + c] and [c - a b] modulo [l], whether or not their
    operands are reduced. *)
Theorem sc_arith_correct :
  sc_add a b = le_bytes 32 ((le_val a + le_val b) mod sc_l) /\
  sc_sub a b = le_bytes 32 ((le_val a - le_val b) mod sc_l) /\
  sc_mul a b = le_bytes 32 ((le_val a * le_val b) mod sc_l) /\
  sc_muladd a b c = le_bytes 32 ((le_val a * le_val b + le_val c) mod sc_l) /\
  sc_mulsub a b c = le_bytes 32 ((le_val c - le_val a * le_val b) mod sc_l).
Proof using All.
  split; [by apply sc_add_spec|]. split; [by apply sc_sub_spec|]. split; [by apply sc_mul_spec|].
  split; [by apply sc_muladd_spec | by apply sc_mulsub_spec].
Qed.

End Operands.

Lemma sc_arith_correct_witness :
  sc_sub (le_bytes 32 1) (le_bytes 32 2) = le_bytes 32 (sc_l - 1) /\
  sc_mulsub (le_bytes 32 1) (le_bytes 32 2) (le_bytes 32 7) = le_bytes 32 5.
Proof.
  destruct (sc_arith_correct (le_bytes 32 1) (le_bytes 32 2) (le_bytes 32 7)) as (_ & -> & _ & _ & ->);
    try (apply le_bytes_ok || apply length_le_bytes).
  rewrite !le_val_le_bytes. split; vm_compute; reflexivity.
Defined.


