(* ===== verification/GeCorrect.v ===== *)
(** * What the point arithmetic of crypto-ops.c computes

    The operations on points compute the group law of the curve, the byte
    encoding is injective on points, and decoding inverts it and rejects
    everything else. *)

From Stdlib Require Import ZArith Lia.
From stdpp Require Import base tactics list.
From S2P Require Import Prelude Radix Fe FeBytes FePow Pocklington Ge Curve GeBytes Group CurveAssoc Points Slide.
Open Scope Z_scope.

(** The conversions needed to feed a sum back as an operand. *)
Definition ge_p3_add (p q : ge_p3) : ge_p3 := ge_p1p1_to_p3 (ge_add p (ge_p3_to_cached q)).

Lemma ge_p3_add_pt p q P Q : p3_pt p P -> p3_pt q Q -> p3_pt (ge_p3_add p q) (P ⊕ Q).
Proof. intros Hp Hq. apply ge_p1p1_to_p3_pt, ge_add_pt; [exact Hp | by apply ge_p3_to_cached_pt]. Qed.

Lemma p3_pt_small h P : p3_pt h P -> p3_ok h.
Proof. intros [H _]. exact H. Qed.

(** Encodings depend on the point only, and determine it. *)
Lemma ed_encode_inj P Q :
  ed_encode (ed_px (pt P)) (ed_py (pt P)) = ed_encode (ed_px (pt Q)) (ed_py (pt Q)) -> P ≡ₑ Q.
Proof.
  intros E.
  destruct (ge_frombytes_complete _ _ (pt_curve P)) as (h & Eh & _).
  destruct (ge_frombytes_complete _ _ (pt_curve Q)) as (h' & Eh' & R').
  destruct (ge_frombytes_complete _ _ (pt_curve P)) as (h'' & Eh'' & R).
  rewrite E, Eh' in Eh''. injection Eh'' as <-.
  destruct R as (_ & U & EX & EY & _), R' as (_ & _ & EX' & EY' & _).
  split; apply (unit_cancel _ _ _ U).
  - rewrite <- EX. exact EX'.
  - rewrite <- EY. exact EY'.
Qed.

Lemma ed_encode_proper P Q : P ≡ₑ Q ->
  ed_encode (ed_px (pt P)) (ed_py (pt P)) = ed_encode (ed_px (pt Q)) (ed_py (pt Q)).
Proof. intros [EX EY]. unfold ed_encode. unfold eqp in *. by rewrite EX, EY. Qed.

Lemma ge_p3_tobytes_pt h P : p3_pt h P -> ge_p3_tobytes h = ed_encode (ed_px (pt P)) (ed_py (pt P)).
Proof. apply ge_p3_tobytes_spec. Qed.
Lemma ge_tobytes_pt h P : p2_pt h P -> ge_tobytes h = ed_encode (ed_px (pt P)) (ed_py (pt P)).
Proof. apply ge_tobytes_spec. Qed.

(** C26. [ge_add], [ge_sub], [ge_madd], [ge_msub], [ge_p2_dbl] and [ge_p3_dbl]
    compute the sum, the difference and the double of the points their operands
    stand for, for every pair of points (equal, opposite or neutral ones
    included), with limbs small enough for the conversions that follow; the
    conversions keep the point. *)
Theorem ge_operations_correct p q r P Q : p3_pt p P -> ca_pt q Q -> pre_pt r Q ->
  (p1_pt (ge_add p q) (P ⊕ Q) /\ p1_pt (ge_madd p r) (P ⊕ Q)) /\
  (p1_pt (ge_sub p q) (P ⊕ ⊖ Q) /\ p1_pt (ge_msub p r) (P ⊕ ⊖ Q)) /\
  (p1_pt (ge_p3_dbl p) (P ⊕ P) /\ p1_pt (ge_p2_dbl (ge_p3_to_p2 p)) (P ⊕ P)) /\
  (ca_pt (ge_p3_to_cached p) P /\ p3_pt (ge_p1p1_to_p3 (ge_add p q)) (P ⊕ Q) /\
   p2_pt (ge_p1p1_to_p2 (ge_add p q)) (P ⊕ Q)).
Proof.
  intros Hp Hq Hr. assert (Ha := ge_add_pt _ _ _ _ Hp Hq). split_and!.
  - exact Ha.
  - by apply ge_madd_pt.
  - by apply ge_sub_pt.
  - by apply ge_msub_pt.
  - by apply ge_p3_dbl_pt.
  - by apply ge_p2_dbl_pt, ge_p3_to_p2_pt.
  - by apply ge_p3_to_cached_pt.
  - by apply ge_p1p1_to_p3_pt.
  - by apply ge_p1p1_to_p2_pt.
Qed.

Lemma ge_operations_correct_witness : p1_pt (ge_sub ge_p3_0 ge_cached_0) (pt_zero ⊕ ⊖ pt_zero).
Proof.
  destruct (ge_operations_correct ge_p3_0 ge_cached_0 ge_precomp_0 pt_zero pt_zero
    ge_p3_0_pt ge_cached_0_pt ge_precomp_0_pt) as (_ & [H _] & _).
  exact H.
Defined.

(** Addition as the code computes it is the operation of an abelian group:
    whatever coordinates represent the points, the bytes of the sums do not
    depend on the order or the grouping of the operands, adding [ge_p3_0]
    changes nothing, and subtracting a point from itself gives the bytes of the
    neutral element. *)
Theorem ge_add_group_bytes p q r P Q R : p3_pt p P -> p3_pt q Q -> p3_pt r R ->
  ge_p3_tobytes (ge_p3_add (ge_p3_add p q) r) = ge_p3_tobytes (ge_p3_add p (ge_p3_add q r)) /\
  ge_p3_tobytes (ge_p3_add p q) = ge_p3_tobytes (ge_p3_add q p) /\
  ge_p3_tobytes (ge_p3_add ge_p3_0 p) = ge_p3_tobytes p /\
  ge_p3_tobytes (ge_p1p1_to_p3 (ge_sub p (ge_p3_to_cached p))) = 1 :: replicate 31 0.
Proof.
  intros Hp Hq Hr.
  assert (Hpq := ge_p3_add_pt _ _ _ _ Hp Hq). assert (Hqr := ge_p3_add_pt _ _ _ _ Hq Hr).
  split; [|split; [|split]].
  - rewrite (ge_p3_tobytes_pt _ _ (ge_p3_add_pt _ _ _ _ Hpq Hr)),
      (ge_p3_tobytes_pt _ _ (ge_p3_add_pt _ _ _ _ Hp Hqr)).
    apply ed_encode_proper, grp_assoc.
  - rewrite (ge_p3_tobytes_pt _ _ Hpq), (ge_p3_tobytes_pt _ _ (ge_p3_add_pt _ _ _ _ Hq Hp)).
    apply ed_encode_proper, grp_comm.
  - rewrite (ge_p3_tobytes_pt _ _ (ge_p3_add_pt _ _ _ _ ge_p3_0_pt Hp)), (ge_p3_tobytes_pt _ _ Hp).
    apply ed_encode_proper, grp_e_l.
  - assert (Hs := ge_p1p1_to_p3_pt _ _ (ge_sub_pt _ _ _ _ Hp (ge_p3_to_cached_pt _ _ Hp))).
    rewrite (ge_p3_tobytes_pt _ _ Hs), (ed_encode_proper _ pt_zero) by apply grp_opp_r.
    vm_compute. reflexivity.
Qed.

Lemma ge_add_group_bytes_witness :
  ge_p3_tobytes (ge_p3_add ge_p3_0 ge_p3_identity) = ge_p3_tobytes ge_p3_identity.
Proof.
  destruct (ge_add_group_bytes ge_p3_identity ge_p3_0 ge_p3_0 pt_zero pt_zero pt_zero
    ge_p3_0_pt ge_p3_0_pt ge_p3_0_pt) as (_ & _ & H & _).
  exact H.
Defined.

(** [ge_tobytes] and [ge_p3_tobytes] write the same bytes for the same
    point and different bytes for different points. *)
Theorem ge_tobytes_injective p q P Q : p3_pt p P -> p3_pt q Q ->
  ge_tobytes (ge_p3_to_p2 p) = ge_p3_tobytes p /\
  (ge_p3_tobytes p = ge_p3_tobytes q <-> P ≡ₑ Q).
Proof.
  intros Hp Hq. rewrite (ge_tobytes_pt _ P), (ge_p3_tobytes_pt p P), (ge_p3_tobytes_pt q Q)
    by auto using ge_p3_to_p2_pt.
  split; [done|]. split; [apply ed_encode_inj | apply ed_encode_proper].
Qed.

Lemma ge_tobytes_injective_witness : ge_tobytes (ge_p3_to_p2 ge_p3_0) = ge_p3_tobytes ge_p3_0.
Proof. exact (proj1 (ge_tobytes_injective ge_p3_0 ge_p3_0 pt_zero pt_zero ge_p3_0_pt ge_p3_0_pt)). Defined.

(** C27. [ge_frombytes_vartime] and [ge_p3_tobytes] are inverse: what decodes
    is a point of the curve that encodes to the same 32 bytes, and the bytes of
    a point decode to that point. *)
Theorem ge_frombytes_roundtrip :
  (forall s h, byte_ok s -> length s = 32%nat -> ge_frombytes_vartime s = Some h ->
     ge_p3_tobytes h = s /\ exists P, p3_pt h P) /\
  (forall h P, p3_pt h P -> exists h', ge_frombytes_vartime (ge_p3_tobytes h) = Some h' /\ p3_pt h' P).
Proof.
  split.
  - intros s h Hs Hl E. destruct (ge_frombytes_sound s h Hs Hl E) as (x & y & C & R & ->).
    split; [by apply ge_p3_tobytes_spec|]. exists (Point (EdPoint x y) C). exact R.
  - intros h P H. rewrite (ge_p3_tobytes_pt h P H). apply ge_frombytes_complete, pt_curve.
Qed.

Lemma ge_frombytes_roundtrip_witness : exists h',
  ge_frombytes_vartime (ge_p3_tobytes ge_p3_0) = Some h' /\ p3_pt h' pt_zero.
Proof. exact (proj2 ge_frombytes_roundtrip ge_p3_0 pt_zero ge_p3_0_pt). Defined.

(** C28. [ge_frombytes_vartime] returns -1 exactly on the strings that encode no
    point: [y] not below [2^255 - 19], or no [x] on the curve with that [y] and
    the parity of the top bit (which includes [x = 0] with the sign bit set). *)
Theorem ge_frombytes_rejects s : byte_ok s -> length s = 32%nat ->
  ge_frombytes_vartime s = None <->
  fe_p <= le_val s mod 2 ^ 255 \/
  (forall x, ed_curve x (le_val s mod 2 ^ 255) -> (x mod fe_p) mod 2 <> le_val s / 2 ^ 255).
Proof.
  intros Hs Hl. pose proof (ge_frombytes_vartime_spec s Hs Hl) as S. cbv zeta in S.
  destruct (Z.leb_spec fe_p (le_val s mod 2 ^ 255)) as [L|L]; [split; auto|].
  destruct (ge_frombytes_vartime s) as [h|]; cbn [decode_result] in S.
  - split; [discriminate|]. intros [Bad|Bad]; [lia|].
    destruct S as (x & C & Ex & _). by apply (Bad x C) in Ex.
  - split; [intros _; right | done]. intros x C. destruct (S x C) as [Z0 T].
    unfold zero_p, eqp in Z0. rewrite Z0, T. done.
Qed.

Lemma ge_frombytes_rejects_witness :
  ge_frombytes_vartime (le_bytes 32 fe_p) = None /\ ge_frombytes_vartime (le_bytes 32 (1 + 2 ^ 255)) = None.
Proof.
  split.
  - apply (ge_frombytes_rejects (le_bytes 32 fe_p)); [apply le_bytes_ok | apply length_le_bytes |].
    left. rewrite le_val_le_bytes. vm_compute. discriminate.
  - apply (ge_frombytes_rejects (le_bytes 32 (1 + 2 ^ 255))); [apply le_bytes_ok | apply length_le_bytes |].
    right. rewrite le_val_le_bytes.
    change ((1 + 2 ^ 255) mod 2 ^ (8 * Z.of_nat 32) mod 2 ^ 255) with 1.
    change ((1 + 2 ^ 255) mod 2 ^ (8 * Z.of_nat 32) / 2 ^ 255) with 1.
    intros x C. assert (Z0 : zero_p (x * x)).
    { apply ed_curve_uv in C.
      assert (E : x * x * (ed_d + 1) ≡ₚ 0) by exact C.
      apply zero_mul in E as [E|E]; [exact E|]. exfalso. revert E. vm_compute. discriminate. }
    apply zero_mul in Z0 as [Z0|Z0]; unfold zero_p, eqp in Z0; rewrite Z0; discriminate.
Defined.

(** [slide] on a scalar below [2^255] writes 256 signed digits, each 0 or
    odd with absolute value at most 15, whose weighted sum is the scalar. *)
Theorem slide_correct a : byte_ok a -> le_val a < 2 ^ 255 ->
  length (slide a) = 256%nat /\ slide_val (slide a) = le_val a /\
  forall k, (k < 256)%nat -> digit_ok (slide a !!! k).
Proof. apply slide_spec. Qed.

Lemma slide_correct_witness : slide_val (slide (le_bytes 32 (2 ^ 255 - 1))) = 2 ^ 255 - 1.
Proof.
  destruct (slide_correct (le_bytes 32 (2 ^ 255 - 1))) as (_ & -> & _);
    [apply le_bytes_ok | | ]; rewrite le_val_le_bytes; vm_compute; reflexivity.
Defined.
