(* ===== verification/ScalarMultCorrect.v ===== *)
(** * What the scalar multiplications of crypto-ops.c compute

    The tables, every multiplication, the selection and recoding they use, and
    two compositions: the equation of a signature and the agreement on a shared
    point. *)

From Stdlib Require Import ZArith Lia.
From stdpp Require Import base tactics list.
From S2P Require Import Prelude Radix Fe FeBytes FePow Ge Curve GeBytes Group CurveAssoc Points Slide Tables Sc ScBounds ScProofs TableProofs ScalarMult ScalarMultProofs.
Open Scope Z_scope.

(** Scalars as the functions take them: 32 bytes, below [2^255]. *)
Definition scalar_ok (a : list Z) : Prop := byte_ok a /\ length a = 32%nat /\ le_val a < 2 ^ 255.

Lemma scalar_ok_bytes n : 0 <= n < 2 ^ 255 -> scalar_ok (le_bytes 32 n).
Proof.
  intros Hn. split; [apply le_bytes_ok|]. split; [apply length_le_bytes|].
  rewrite le_val_le_bytes, Z.mod_small; lia.
Qed.

Lemma scalar_val_bytes n : 0 <= n < 2 ^ 255 -> le_val (le_bytes 32 n) = n.
Proof. intros Hn. rewrite le_val_le_bytes, Z.mod_small; lia. Qed.

Lemma sc_mod_range z : 0 <= z mod sc_l < 2 ^ 255.
Proof. pose proof (Z.mod_pos_bound z sc_l). unfold sc_l in *. lia. Qed.

Lemma ge_p3_0_identity : ge_p3_identity = ge_p3_0.
Proof. reflexivity. Qed.

(** Bytes of a representation depend on the point only. *)
Lemma bytes_p3 h P : p3_pt h P -> ge_p3_tobytes h = ed_encode (ed_px (pt P)) (ed_py (pt P)).
Proof. apply ge_p3_tobytes_spec. Qed.
Lemma bytes_p2 h P : p2_pt h P -> ge_tobytes h = ed_encode (ed_px (pt P)) (ed_py (pt P)).
Proof. apply ge_tobytes_spec. Qed.
Lemma bytes_eq P Q : P ≡ₑ Q ->
  ed_encode (ed_px (pt P)) (ed_py (pt P)) = ed_encode (ed_px (pt Q)) (ed_py (pt Q)).
Proof. intros [EX EY]. unfold ed_encode. unfold eqp in *. by rewrite EX, EY. Qed.

(** The tables hold what their comments state: [ge_base[i][j]] is
    [(j+1) * 256^i * B] and [ge_Bi[j]] is [(2j+1) * B], where [B] is the point
    with [y = 4/5] and even [x]; the order of [B] divides the modulus of the
    [sc_*] functions. *)
Theorem ge_tables_correct :
  (forall i j, (i < 32)%nat -> (j < 8)%nat ->
     pre_pt (nth j (nth i ge_base []) ge_precomp_0) (((Z.of_nat j + 1) * 256 ^ Z.of_nat i) ⊙ ed_B)) /\
  (forall j, (j < 8)%nat -> pre_pt (nth j ge_Bi ge_precomp_0) ((2 * Z.of_nat j + 1) ⊙ ed_B)) /\
  (ed_py (pt ed_B) * 5 ≡ₚ 4 /\ ed_px (pt ed_B) mod 2 = 0) /\ sc_l ⊙ ed_B ≡ₑ pt_zero.
Proof.
  split; [exact ge_base_spec|]. split; [exact ge_Bi_spec|].
  split; [split; vm_compute; reflexivity | exact ed_B_order].
Qed.

Lemma ge_tables_correct_witness : pre_pt (nth 7 ge_Bi ge_precomp_0) (15 ⊙ ed_B).
Proof. exact (proj1 (proj2 ge_tables_correct) 7%nat ltac:(lia)). Defined.

(** [ge_scalarmult_base] computes [a * B], and its bytes depend on [a] modulo
    the group order only: reducing the scalar first changes nothing. *)
Theorem ge_scalarmult_base_correct a : scalar_ok a ->
  p3_pt (ge_scalarmult_base a) (le_val a ⊙ ed_B) /\
  ge_p3_tobytes (ge_scalarmult_base (sc_reduce32 a)) = ge_p3_tobytes (ge_scalarmult_base a).
Proof.
  intros (Ha & La & Hv). pose proof (ge_scalarmult_base_spec a Ha La Hv) as H. split; [exact H|].
  rewrite sc_reduce32_spec by done.
  destruct (scalar_ok_bytes _ (sc_mod_range (le_val a))) as (Ha' & La' & Hv').
  pose proof (ge_scalarmult_base_spec _ Ha' La' Hv') as H'.
  rewrite scalar_val_bytes in H' by apply sc_mod_range.
  rewrite (bytes_p3 _ _ H), (bytes_p3 _ _ H'). apply bytes_eq, ed_B_mod.
Qed.

Lemma ge_scalarmult_base_correct_witness :
  p3_pt (ge_scalarmult_base (le_bytes 32 (2 ^ 255 - 1))) ((2 ^ 255 - 1) ⊙ ed_B).
Proof.
  destruct (ge_scalarmult_base_correct (le_bytes 32 (2 ^ 255 - 1))) as [H _];
    [apply scalar_ok_bytes; lia|].
  rewrite scalar_val_bytes in H by lia. exact H.
Defined.

(** C29. [ge_scalarmult] and [ge_scalarmult_p3] compute [a * A], for every point
    [A] and every [a] below [2^255]; the second always writes its result. *)
Theorem ge_scalarmult_correct a h A : scalar_ok a -> p3_pt h A ->
  p2_pt (ge_scalarmult a h) (le_val a ⊙ A) /\
  exists r, ge_scalarmult_p3 a h = Some r /\ p3_pt r (le_val a ⊙ A) /\
            ge_p3_tobytes r = ge_tobytes (ge_scalarmult a h).
Proof.
  intros (Ha & La & Hv) Hh. pose proof (ge_scalarmult_spec a h A Ha La Hv Hh) as H2.
  split; [exact H2|]. destruct (ge_scalarmult_p3_spec a h A Ha La Hv Hh) as (r & E & H3).
  exists r. split; [exact E|]. split; [exact H3|].
  by rewrite (bytes_p3 _ _ H3), (bytes_p2 _ _ H2).
Qed.

Lemma ge_scalarmult_correct_witness :
  p2_pt (ge_scalarmult (le_bytes 32 77) ge_p3_0) (77 ⊙ pt_zero).
Proof.
  destruct (ge_scalarmult_correct (le_bytes 32 77) ge_p3_0 pt_zero) as [H _];
    [apply scalar_ok_bytes; lia | exact ge_p3_0_pt |].
  rewrite scalar_val_bytes in H by lia. exact H.
Defined.

(** C30. The [ge_p2] variants of the double multiplication compute
    [a * A + b * B]: with the base point, with the table [ge_dsm_precomp] makes of
    a point, and with two such tables. *)
Theorem ge_double_scalarmult_correct a b h A Bi B : scalar_ok a -> scalar_ok b ->
  p3_pt h A -> odd_table Bi B ->
  odd_table (ge_dsm_precomp h) A /\
  p2_pt (ge_double_scalarmult_base_vartime a h b) (le_val a ⊙ A ⊕ le_val b ⊙ ed_B) /\
  p2_pt (ge_double_scalarmult_precomp_vartime a h b Bi) (le_val a ⊙ A ⊕ le_val b ⊙ B) /\
  p2_pt (ge_double_scalarmult_precomp_vartime2 a (ge_dsm_precomp h) b Bi) (le_val a ⊙ A ⊕ le_val b ⊙ B).
Proof.
  intros (Ha & _ & Va) (Hb & _ & Vb) Hh HB. pose proof (ge_dsm_precomp_pt h A Hh) as HA.
  split; [exact HA|]. split; [by apply dsm_base_vartime_spec|].
  split; [by apply dsm_precomp_vartime_spec | by apply dsm_precomp_vartime2_spec].
Qed.

Lemma ge_double_scalarmult_correct_witness :
  p2_pt (ge_double_scalarmult_base_vartime (le_bytes 32 5) ge_p3_0 (le_bytes 32 9)) (5 ⊙ pt_zero ⊕ 9 ⊙ ed_B).
Proof.
  destruct (ge_double_scalarmult_correct (le_bytes 32 5) (le_bytes 32 9) ge_p3_0 pt_zero
    (ge_dsm_precomp ge_p3_0) pt_zero) as (_ & H & _);
    [apply scalar_ok_bytes; lia | apply scalar_ok_bytes; lia | exact ge_p3_0_pt |
     exact (ge_dsm_precomp_pt _ _ ge_p3_0_pt) |].
  rewrite !scalar_val_bytes in H by lia. exact H.
Defined.

(** C31. The [_p3] variants write the same point, except when both scalars are 0:
    then no iteration runs and the result is never written. *)
Theorem ge_double_scalarmult_p3_written a b h A Bi B : scalar_ok a -> scalar_ok b ->
  p3_pt h A -> odd_table Bi B ->
  (match ge_double_scalarmult_base_vartime_p3 a h b with
   | Some r => p3_pt r (le_val a ⊙ A ⊕ le_val b ⊙ ed_B) /\ (le_val a <> 0 \/ le_val b <> 0)
   | None => le_val a = 0 /\ le_val b = 0
   end) /\
  (match ge_double_scalarmult_precomp_vartime2_p3 a (ge_dsm_precomp h) b Bi with
   | Some r => p3_pt r (le_val a ⊙ A ⊕ le_val b ⊙ B) /\ (le_val a <> 0 \/ le_val b <> 0)
   | None => le_val a = 0 /\ le_val b = 0
   end).
Proof.
  intros (Ha & _ & Va) (Hb & _ & Vb) Hh HB. pose proof (ge_dsm_precomp_pt h A Hh) as HA.
  split; [by apply dsm_base_vartime_p3_spec | by apply dsm_precomp_vartime2_p3_spec].
Qed.

Lemma ge_double_scalarmult_p3_written_witness :
  ge_double_scalarmult_base_vartime_p3 (le_bytes 32 0) ge_p3_0 (le_bytes 32 0) = None.
Proof.
  destruct (ge_double_scalarmult_p3_written (le_bytes 32 0) (le_bytes 32 0) ge_p3_0 pt_zero
    (ge_dsm_precomp ge_p3_0) pt_zero) as [H _];
    [apply scalar_ok_bytes; lia | apply scalar_ok_bytes; lia | exact ge_p3_0_pt |
     exact (ge_dsm_precomp_pt _ _ ge_p3_0_pt) |].
  destruct (ge_double_scalarmult_base_vartime_p3 (le_bytes 32 0) ge_p3_0 (le_bytes 32 0)) as [r|];
    [|reflexivity].
  exfalso. destruct H as [_ H]. revert H. rewrite scalar_val_bytes by lia. lia.
Defined.

(** The digits and the tables fit: the two radix-16 recodings give 64 digits
    in [-8, 8] with the value of the scalar, so every digit is a [signed char],
    and the selection without branches is a lookup: for such a digit [b],
    [select] gives the entry [|b| - 1] of the row (the neutral element for 0),
    negated for [b < 0], which stands for [b * 256^pos * B]. *)
Theorem recodings_correct a pos b : scalar_ok a -> (pos < 32)%nat -> digit16 b ->
  (length (base_digits a) = 64%nat /\ Forall digit16 (base_digits a) /\ evaln 4 64 (base_digits a) = le_val a) /\
  (length (scalarmult_digits 31 0 0 a) = 64%nat /\ Forall digit16 (scalarmult_digits 31 0 0 a) /\
   evaln 4 64 (scalarmult_digits 31 0 0 a) = le_val a) /\
  pre_pt (select pos b) ((b * 256 ^ Z.of_nat pos) ⊙ ed_B) /\
  (0 < b -> select pos b = nth (Z.to_nat b - 1) (nth pos ge_base []) ge_precomp_0).
Proof.
  intros (Ha & La & Hv) Hp Hb. split; [by apply base_digits_spec|]. split.
  - destruct (scalarmult_digits_spec a Ha 31 0 0) as (L & D & V); [lia | auto | by apply top_byte |].
    split; [exact L|]. split; [exact D|]. rewrite drop_0, Z.add_0_r in V.
    rewrite <- V, <- evaln_le16, L. reflexivity.
  - split; [by apply select_pt|]. intros Hpos. rewrite select_eq by exact Hb. cbv zeta.
    unfold lookup_abs. rewrite Z.abs_eq by lia.
    destruct (Z.ltb_spec b 0); [lia|]. destruct (Z.eqb_spec b 0); [lia | reflexivity].
Qed.

Lemma recodings_correct_witness : evaln 4 64 (base_digits (le_bytes 32 (2 ^ 255 - 1))) = 2 ^ 255 - 1 /\
  pre_pt (select 31 (-8)) ((-8 * 256 ^ 31) ⊙ ed_B).
Proof.
  destruct (recodings_correct (le_bytes 32 (2 ^ 255 - 1)) 31 (-8)) as [(_ & _ & ->) (_ & H & _)];
    [apply scalar_ok_bytes; lia | lia | unfold digit16; lia |].
  split; [apply scalar_val_bytes; lia | exact H].
Defined.

(** The equation of the signatures: with the public key [sec * B], the
    challenge [c] and the response [r = k - c * sec] of [sc_mulsub],
    [c * pub + r * B] has the bytes of [k * B]. *)
Theorem signature_equation sec k c : scalar_ok sec -> scalar_ok k -> scalar_ok c ->
  ge_tobytes (ge_double_scalarmult_base_vartime c (ge_scalarmult_base sec) (sc_mulsub c sec k))
  = ge_p3_tobytes (ge_scalarmult_base k).
Proof.
  intros (Hs & Ls & Vs) (Hk & Lk & Vk) (Hc & Lc & Vc).
  rewrite sc_mulsub_spec by done.
  destruct (scalar_ok_bytes _ (sc_mod_range (le_val k - le_val c * le_val sec))) as (Hr & _ & Vr).
  pose proof (ge_scalarmult_base_spec sec Hs Ls Vs) as Hpub.
  pose proof (dsm_base_vartime_spec c _ Hc Hr Vc Vr _ _ Hpub) as H2.
  rewrite scalar_val_bytes in H2 by apply sc_mod_range.
  rewrite (bytes_p2 _ _ H2), (bytes_p3 _ _ (ge_scalarmult_base_spec k Hk Lk Vk)).
  apply bytes_eq. rewrite ed_B_mod, <- pt_mul_mul, <- pt_mul_add.
  replace (le_val c * le_val sec + (le_val k - le_val c * le_val sec)) with (le_val k) by lia. reflexivity.
Qed.

Lemma signature_equation_witness :
  ge_tobytes (ge_double_scalarmult_base_vartime (le_bytes 32 3) (ge_scalarmult_base (le_bytes 32 5))
    (sc_mulsub (le_bytes 32 3) (le_bytes 32 5) (le_bytes 32 7)))
  = ge_p3_tobytes (ge_scalarmult_base (le_bytes 32 7)).
Proof. apply (signature_equation (le_bytes 32 5) (le_bytes 32 7) (le_bytes 32 3)); apply scalar_ok_bytes; lia. Defined.

(** Agreement on a shared point: [8 * a * (b * B)] and [8 * b * (a * B)],
    computed with [ge_scalarmult] and [ge_mul8], have the same bytes. *)
Theorem shared_point a b : scalar_ok a -> scalar_ok b ->
  ge_tobytes (ge_p1p1_to_p2 (ge_mul8 (ge_scalarmult a (ge_scalarmult_base b))))
  = ge_tobytes (ge_p1p1_to_p2 (ge_mul8 (ge_scalarmult b (ge_scalarmult_base a)))).
Proof.
  intros (Ha & La & Va) (Hb & Lb & Vb).
  pose proof (ge_scalarmult_base_spec a Ha La Va) as HA. pose proof (ge_scalarmult_base_spec b Hb Lb Vb) as HB.
  pose proof (ge_p1p1_to_p2_pt _ _ (ge_mul8_spec _ _ (ge_scalarmult_spec a _ _ Ha La Va HB))) as H1.
  pose proof (ge_p1p1_to_p2_pt _ _ (ge_mul8_spec _ _ (ge_scalarmult_spec b _ _ Hb Lb Vb HA))) as H2.
  rewrite (bytes_p2 _ _ H1), (bytes_p2 _ _ H2). apply bytes_eq.
  rewrite <- !pt_mul_mul. match goal with |- ?n ⊙ _ ≡ₑ ?m ⊙ _ => replace n with m by lia end. reflexivity.
Qed.

Lemma shared_point_witness :
  ge_tobytes (ge_p1p1_to_p2 (ge_mul8 (ge_scalarmult (le_bytes 32 3) (ge_scalarmult_base (le_bytes 32 5)))))
  = ge_tobytes (ge_p1p1_to_p2 (ge_mul8 (ge_scalarmult (le_bytes 32 5) (ge_scalarmult_base (le_bytes 32 3))))).
Proof. apply (shared_point (le_bytes 32 3) (le_bytes 32 5)); apply scalar_ok_bytes; lia. Defined.
