(* ===== verification/FromFeCorrect.v ===== *)
(** * What [ge_fromfe_frombytes_vartime] computes *)

From Stdlib Require Import ZArith Lia.
From stdpp Require Import base tactics list.
From S2P Require Import Prelude Radix Fe FeBytes FePow Ge Curve GeBytes Group CurveAssoc Points FromFe.
Open Scope Z_scope.

(** C32. [ge_fromfe_frombytes_vartime] is total: for every 32 bytes no [assert]
    fails and the result is a point of the curve. With [u] the number read,
    [w = 2 u^2 + 1] and [x = w^2 - 2 A^2 u^2], it is the point with
    [y = (z - w)/(z + w)] where [z = - 2 A u^2] and the first coordinate is even if
    [w/x] is a square, [z = - A] and the first coordinate is odd if it is not. *)
Theorem ge_fromfe_correct s : byte_ok s -> length s = 32%nat ->
  exists r P, ge_fromfe_frombytes_vartime s = Some r /\ p2_pt r P /\ map_result (le_val s) P.
Proof. apply ge_fromfe_spec. Qed.

Lemma ge_fromfe_correct_witness : exists r P,
  ge_fromfe_frombytes_vartime (le_bytes 32 9) = Some r /\ p2_pt r P.
Proof.
  destruct (ge_fromfe_correct (le_bytes 32 9)) as (r & P & E & H & _);
    [apply le_bytes_ok | apply length_le_bytes |].
  exists r, P. split; [exact E | exact H].
Defined.
