(* ===== verification/Words.v ===== *)
(** * Words and arrays

    Ranges and bits of the logical operations on unsigned words, rotations, and
    the lemmas on folds and on arrays as lists that the hash functions share. *)

From Stdlib Require Import ZArith Lia.
From stdpp Require Import base tactics list numbers option.
From S2P Require Import Prelude Radix.
Open Scope Z_scope.

(** ** Bits *)

Lemma bits_bound x n : 0 <= n -> 0 <= x -> (forall i, n <= i -> Z.testbit x i = false) -> x < 2 ^ n.
Proof.
  intros Hn Hx H. destruct (Z.eq_dec x 0) as [->|N]; [apply Z.pow_pos_nonneg; lia|].
  destruct (Z.lt_ge_cases x (2 ^ n)) as [L|L]; [exact L|]. exfalso.
  assert (n <= Z.log2 x) by (rewrite <- (Z.log2_pow2 n) by lia; by apply Z.log2_le_mono).
  pose proof (Z.bit_log2 x ltac:(lia)) as B. rewrite H in B by lia. discriminate.
Qed.

Lemma bits_above x n i : 0 <= x < 2 ^ n -> n <= i -> Z.testbit x i = false.
Proof.
  intros Hx Hi. destruct (Z.eq_dec x 0) as [->|N]; [apply Z.testbit_0_l|].
  apply Z.bits_above_log2; [lia|]. apply Z.log2_lt_pow2; [lia|].
  eapply Z.lt_le_trans; [apply Hx|]. apply Z.pow_le_mono_r; [lia|]. exact Hi.
Qed.

Lemma bitop_range n x y (f : bool -> bool -> bool) z : 0 <= n -> f false false = false -> 0 <= z ->
  (forall i, 0 <= i -> Z.testbit z i = f (Z.testbit x i) (Z.testbit y i)) ->
  0 <= x < 2 ^ n -> 0 <= y < 2 ^ n -> 0 <= z < 2 ^ n.
Proof.
  intros Hn Hf Hz Hb Hx Hy. split; [exact Hz|]. apply bits_bound; [exact Hn | exact Hz |].
  intros i Hi. rewrite Hb, (bits_above x n), (bits_above y n) by (assumption || lia). exact Hf.
Qed.

Lemma lxor_range n x y : 0 <= n -> 0 <= x < 2 ^ n -> 0 <= y < 2 ^ n -> 0 <= Z.lxor x y < 2 ^ n.
Proof.
  intros Hn Hx Hy. apply (bitop_range n x y xorb); try done.
  - apply Z.lxor_nonneg. lia.
  - intros. apply Z.lxor_spec.
Qed.
Lemma lor_range n x y : 0 <= n -> 0 <= x < 2 ^ n -> 0 <= y < 2 ^ n -> 0 <= Z.lor x y < 2 ^ n.
Proof.
  intros Hn Hx Hy. apply (bitop_range n x y orb); try done.
  - apply Z.lor_nonneg. lia.
  - intros. apply Z.lor_spec.
Qed.
Lemma land_range n x y : 0 <= n -> 0 <= x < 2 ^ n -> 0 <= y < 2 ^ n -> 0 <= Z.land x y < 2 ^ n.
Proof.
  intros Hn Hx Hy. apply (bitop_range n x y andb); try done.
  - apply Z.land_nonneg. lia.
  - intros. apply Z.land_spec.
Qed.

(** The two halves of a rotation of [w] bits: bit [i] comes from bit [i - y]
    modulo [w]. *)
Lemma rot_testbit w x y i : 0 <= x < 2 ^ w -> 0 <= y < w -> 0 <= i < w ->
  Z.testbit (Z.lor (Z.shiftl x y mod 2 ^ w) (Z.shiftr x (w - y))) i = Z.testbit x ((i - y) mod w).
Proof.
  intros Hx Hy Hi. rewrite Z.lor_spec, Z.mod_pow2_bits_low, Z.shiftl_spec, Z.shiftr_spec by lia.
  destruct (Z.le_gt_cases y i).
  - rewrite (Z.mod_small (i - y)) by lia. rewrite (bits_above x w (i + _)) by (assumption || lia).
    apply orb_false_r.
  - rewrite (Z.testbit_neg_r x (i - y)) by lia. cbn [orb].
    replace ((i - y) mod w) with (i + (w - y)); [done|].
    apply (Z.mod_unique _ _ (-1)); lia.
Qed.

Lemma rot_range w x y : 0 <= x < 2 ^ w -> 0 <= y <= w ->
  0 <= Z.lor (Z.shiftl x y mod 2 ^ w) (Z.shiftr x (w - y)) < 2 ^ w.
Proof.
  intros Hx Hy. apply lor_range; [lia | apply Z.mod_pos_bound, Z.pow_pos_nonneg; lia |].
  pose proof (shiftr_range x w (w - y) Hx ltac:(lia)) as H.
  split; [apply H|]. eapply Z.lt_le_trans; [apply H|]. apply Z.pow_le_mono_r; lia.
Qed.

(** ** Folds *)

Lemma fold_left_inv {A B} (P : A -> Prop) (f : A -> B -> A) l a :
  P a -> (forall a b, In b l -> P a -> P (f a b)) -> P (fold_left f l a).
Proof.
  revert a. induction l as [|b l IH]; intros a Ha H; [exact Ha|]. cbn [fold_left].
  apply IH; [apply H; [left; reflexivity | exact Ha]|]. intros a' b' Hb. apply H. by right.
Qed.

Lemma in_seq_lt n i : In i (seq 0 n) -> (i < n)%nat.
Proof. rewrite in_seq. lia. Qed.

Lemma fold_left_ext_in {A B} (P : A -> Prop) (f g : A -> B -> A) l a :
  P a -> (forall a b, In b l -> P a -> f a b = g a b /\ P (f a b)) -> fold_left f l a = fold_left g l a.
Proof.
  revert a. induction l as [|b l IH]; intros a Ha H; [done|]. cbn [fold_left].
  destruct (H a b ltac:(now left) Ha) as [E Hf]. rewrite <- E. apply IH; [exact Hf|].
  intros a' b' Hb. apply H. by right.
Qed.

(** ** Lists *)

Lemma list_eq_total (l1 l2 : list Z) : length l1 = length l2 ->
  (forall i, (i < length l1)%nat -> l1 !!! i = l2 !!! i) -> l1 = l2.
Proof.
  intros L H. apply (list_eq_same_length _ _ (length l1)); [done | done|]. intros i x y Hi Hx Hy.
  specialize (H i Hi). rewrite !list_lookup_total_alt, Hx, Hy in H. exact H.
Qed.

Lemma lookup_total_map_seq (f : nat -> Z) n i : (i < n)%nat -> map f (seq 0 n) !!! i = f i.
Proof.
  intros H. rewrite list_lookup_total_alt. change (map f (seq 0 n)) with (f <$> seq 0 n).
  rewrite list_lookup_fmap, lookup_seq_lt by exact H. reflexivity.
Qed.

Lemma div_le_self n r : (0 < r)%nat -> (n / r <= n)%nat.
Proof. intros H. apply Nat.Div0.div_le_upper_bound. nia. Qed.

Lemma div_sub_1 n r : (0 < r <= n)%nat -> (n / r = S ((n - r) / r))%nat.
Proof.
  intros H. replace n with (n - r + 1 * r)%nat at 1 by lia. rewrite Nat.div_add by lia. lia.
Qed.

(** ** Blocks of an array *)

Fixpoint blocks (r n : nat) (m : list Z) : list (list Z) :=
  match n with O => [] | S n => take r m :: blocks r n (drop r m) end.

Lemma blocks_app r n k (m m' : list Z) : length m = (r * n)%nat ->
  blocks r (n + k) (m ++ m') = blocks r n m ++ blocks r k m'.
Proof.
  revert m. induction n as [|n IH]; intros m L.
  - rewrite Nat.mul_0_r in L. apply nil_length_inv in L. by subst m.
  - cbn [blocks Nat.add app]. rewrite take_app_le, drop_app_le by lia. f_equal. apply IH.
    rewrite length_drop. lia.
Qed.

Lemma blocks_ok r n m : byte_ok m -> Forall byte_ok (blocks r n m).
Proof.
  revert m. induction n as [|n IH]; intros m H; cbn [blocks]; constructor.
  - by apply Forall_take.
  - by apply IH, Forall_drop.
Qed.

(** ** Buffers *)

(** [buf[off ..]] overwritten with [bytes], as [memcpy] does. *)
Definition write_at (off : nat) (bytes buf : list Z) : list Z := take off buf ++ bytes ++ drop (off + length bytes) buf.

Lemma write_at_app pre D x : write_at (length pre) x (pre ++ D) = pre ++ x ++ drop (length x) D.
Proof.
  unfold write_at. rewrite take_app_length, drop_app, drop_ge by lia. cbn [app]. do 3 f_equal. lia.
Qed.

(** * Words bit by bit

    Equality of words from equality of their bits, by enumeration of the bits. *)

Lemma bits_eq w x y : 0 <= w -> 0 <= x < 2 ^ w -> 0 <= y < 2 ^ w ->
  (forall i, 0 <= i < w -> Z.testbit x i = Z.testbit y i) -> x = y.
Proof.
  intros Hw Hx Hy H. apply Z.bits_inj'. intros i Hi. destruct (Z.lt_ge_cases i w); [by apply H|].
  by rewrite !(bits_above _ w) by lia.
Qed.

Lemma shiftr_word n x k : 0 <= n -> 0 <= k -> 0 <= x < 2 ^ n -> 0 <= Z.shiftr x k < 2 ^ n.
Proof.
  intros Hn Hk Hx. rewrite Z.shiftr_div_pow2 by lia. assert (0 < 2 ^ k) by (apply Z.pow_pos_nonneg; lia).
  split; [apply Z.div_pos; lia|]. apply Z.div_lt_upper_bound; [lia|]. nia.
Qed.

(** A bound of a word made of operations on words. *)
Ltac word_range :=
  repeat first
    [ apply lor_range; [lia| |] | apply lxor_range; [lia| |] | apply land_range; [lia| |]
    | apply shiftr_word; [lia|lia|] | apply Z.mod_pos_bound; lia | assumption | lia ].

(** Loops that write one word after the other, in place and from another array. *)
Lemma foldl_in_place (g : Z -> Z) n : forall pre rest, (n <= length rest)%nat ->
  foldl (fun mem i => <[i := g (mem !!! i)]> mem) (pre ++ rest) (seq (length pre) n) = pre ++ map g (take n rest) ++ drop n rest.
Proof.
  induction n as [|n IH]; intros pre rest H; [by destruct rest|]. destruct rest as [|x rest]; [cbn in H; lia|].
  cbn [seq foldl take drop map length] in *. rewrite lookup_total_app_r, Nat.sub_diag by lia. cbn [lookup_total list_lookup_total].
  rewrite insert_app_r_alt, Nat.sub_diag by lia. cbn [insert list_insert].
  specialize (IH (pre ++ [g x]) rest ltac:(lia)). rewrite length_app, Nat.add_1_r, <- !app_assoc in IH. exact IH.
Qed.
Lemma foldl_copy (f : nat -> Z) n : forall pre rest, (n <= length rest)%nat ->
  foldl (fun dst i => <[i := f i]> dst) (pre ++ rest) (seq (length pre) n) = pre ++ map f (seq (length pre) n) ++ drop n rest.
Proof.
  induction n as [|n IH]; intros pre rest H; [by destruct rest|]. destruct rest as [|x rest]; [cbn in H; lia|].
  cbn [seq foldl drop map length] in *. rewrite insert_app_r_alt, Nat.sub_diag by lia. cbn [insert list_insert].
  specialize (IH (pre ++ [f (length pre)]) rest ltac:(lia)). rewrite length_app, Nat.add_1_r, <- !app_assoc in IH. exact IH.
Qed.
Lemma map_lookup_seq (g : Z -> Z) src n : (n <= length src)%nat -> map (fun i => g (src !!! i)) (seq 0 n) = map g (take n src).
Proof.
  revert n. induction src as [|x src IH]; intros [|n] H; cbn [length] in H; try lia; [reflexivity..|].
  cbn [seq map take]. rewrite <- seq_shift, map_map. f_equal. apply IH. lia.
Qed.

(** A property of the numbers below [n], one by one. *)
Lemma z_enum (n : nat) (P : Z -> Prop) : Forall P (map Z.of_nat (seq 0 n)) -> forall i, 0 <= i < Z.of_nat n -> P i.
Proof. intros H i Hi. rewrite Forall_forall in H. apply H. apply in_map_iff. exists (Z.to_nat i). rewrite in_seq. lia. Qed.

(** One step of the evaluation of [Z.testbit] at a literal. *)
Ltac bit_step :=
  match goal with
  | |- context [Z.testbit ?x (Z.sub (Zpos ?a) ?b)] => let v := eval vm_compute in (Z.sub (Zpos a) b) in change (Z.sub (Zpos a) b) with v
  | |- context [Z.testbit ?x (Z.sub 0 ?b)] => let v := eval vm_compute in (Z.sub 0 b) in change (Z.sub 0 b) with v
  | |- context [Z.testbit ?x (Z.add ?a ?b)] => let v := eval vm_compute in (Z.add a b) in change (Z.add a b) with v
  | |- context [Z.testbit (Zpos ?m) ?i] => let v := eval vm_compute in (Z.testbit (Zpos m) i) in change (Z.testbit (Zpos m) i) with v
  | |- context [Z.testbit ?x (Zneg ?p)] => rewrite (Z.testbit_neg_r x (Zneg p)) by reflexivity
  | |- context [Z.testbit (Z.lor _ _) _] => rewrite Z.lor_spec
  | |- context [Z.testbit (Z.land _ _) _] => rewrite Z.land_spec
  | |- context [Z.testbit (Z.shiftr _ _) _] => rewrite Z.shiftr_spec by (vm_compute; discriminate)
  | |- context [Z.testbit (Z.shiftl _ _) _] => rewrite Z.shiftl_spec by (vm_compute; discriminate)
  | |- context [Z.testbit (Z.modulo ?a (2 ^ ?w)) ?i] => first [rewrite (Z.mod_pow2_bits_low a w i) by lia | rewrite (Z.mod_pow2_bits_high a w i) by lia]
  end.
(** An equality of the bits below [n] of two terms of shifts, masks and unions. *)
Ltac bit_cases n :=
  apply (z_enum n); let l := eval vm_compute in (map Z.of_nat (seq 0 n)) in change (map Z.of_nat (seq 0 n)) with l;
  repeat (apply Forall_cons_2; [cbv beta; repeat bit_step; rewrite ?andb_false_r, ?andb_true_r, ?orb_false_r, ?orb_false_l; first [reflexivity | repeat match goal with |- context [Z.testbit ?x ?i] => destruct (Z.testbit x i) end; reflexivity]|]);
  apply Forall_nil_2.
