(* ===== verification/Keccak.v ===== *)
(** * Keccak (src/Native/libcryptonote/crypto/keccak.c, hash.c)

    The permutation [keccakf] on 25 lanes of 64 bits, the hash [keccak] with its
    guards, [keccak1600] and [cn_fast_hash]. A state is a list of 25 integers
    below 2^64; the byte view of it ([in], [memcpy(md, st, ...)]) is
    little-endian, as on the platforms the library is built for. *)

From Stdlib Require Import ZArith Lia.
From stdpp Require Import base tactics list numbers.
From S2P Require Import Prelude Radix.
Open Scope Z_scope.

(** ** Tables *)

Definition keccakf_rndc : list Z :=
  [ 0x0000000000000001; 0x0000000000008082; 0x800000000000808a;
    0x8000000080008000; 0x000000000000808b; 0x0000000080000001;
    0x8000000080008081; 0x8000000000008009; 0x000000000000008a;
    0x0000000000000088; 0x0000000080008009; 0x000000008000000a;
    0x000000008000808b; 0x800000000000008b; 0x8000000000008089;
    0x8000000000008003; 0x8000000000008002; 0x8000000000000080;
    0x000000000000800a; 0x800000008000000a; 0x8000000080008081;
    0x8000000000008080; 0x0000000080000001; 0x8000000080008008 ].

Definition keccakf_rotc : list Z :=
  [ 1;  3;  6;  10; 15; 21; 28; 36; 45; 55; 2;  14;
    27; 41; 56; 8;  25; 43; 62; 18; 39; 61; 20; 44 ].

Definition keccakf_piln : list nat :=
  [ 10; 7;  11; 17; 18; 3; 5;  16; 8;  21; 24; 4;
    15; 23; 19; 13; 12; 2; 20; 14; 22; 9;  6;  1 ]%nat.

(** ** The permutation *)

Definition ROTL64 (x y : Z) : Z := Z.lor (u64 (Z.shiftl x y)) (Z.shiftr x (64 - y)).

(** [~x] on [uint64_t] *)
Definition not64 (x : Z) : Z := u64 (Z.lnot x).

(** [st[i] ^= v] *)
Definition xor_at (i : nat) (v : Z) (st : list Z) : list Z := <[i := Z.lxor (st !!! i) v]> st.

Definition theta_bc (st : list Z) : list Z :=
  map (fun i => Z.lxor (Z.lxor (Z.lxor (Z.lxor (st !!! i) (st !!! (i + 5)%nat)) (st !!! (i + 10)%nat))
                  (st !!! (i + 15)%nat)) (st !!! (i + 20)%nat)) (seq 0 5).

Definition theta (st : list Z) : list Z :=
  let bc := theta_bc st in
  fold_left (fun st i =>
    let t := Z.lxor (bc !!! ((i + 4) mod 5)%nat) (ROTL64 (bc !!! ((i + 1) mod 5)%nat) 1) in
    fold_left (fun st j => xor_at (j + i) t st) [0; 5; 10; 15; 20]%nat st) (seq 0 5) st.

(** [bc[0] = st[j]; st[j] = ROTL64(t, ...); t = bc[0];] *)
Definition rho_pi (st : list Z) : list Z :=
  fst (fold_left (fun '(st, t) i =>
    let j := keccakf_piln !!! i in
    let bc0 := st !!! j in
    (<[j := ROTL64 t (keccakf_rotc !!! i)]> st, bc0)) (seq 0 24) (st, st !!! 1%nat)).

Definition chi (st : list Z) : list Z :=
  fold_left (fun st j =>
    let bc := map (fun i => st !!! (j + i)%nat) (seq 0 5) in
    fold_left (fun st i =>
      xor_at (j + i) (Z.land (not64 (bc !!! ((i + 1) mod 5)%nat)) (bc !!! ((i + 2) mod 5)%nat)) st)
      (seq 0 5) st) [0; 5; 10; 15; 20]%nat st.

Definition iota (round : nat) (st : list Z) : list Z := xor_at 0 (keccakf_rndc !!! round) st.

Definition keccakf_round (st : list Z) (round : nat) : list Z :=
  iota round (chi (rho_pi (theta st))).

(** [for (round = 0; round < rounds; round++)]; [rounds] is at most 24. *)
Definition keccakf (st : list Z) (rounds : nat) : list Z := fold_left keccakf_round (seq 0 rounds) st.

(** ** The hash *)

Definition HASH_DATA_AREA : nat := 136.
Definition KECCAK_ROUNDS : nat := 24.

(** [((uint64_t * ) p)[i]], and the bytes of a state. *)
Definition word64 (p : list Z) (i : nat) : Z := le_val (take 8 (drop (8 * i) p)).
Definition state_bytes (st : list Z) : list Z := concat (map (le_bytes 8) st).

(** [for (i = 0; i < rsizw; i++) st[i] ^= ((uint64_t * ) in)[i];] *)
Definition xor_words (rsizw : nat) (p : list Z) (st : list Z) : list Z :=
  fold_left (fun st i => xor_at i (word64 p i) st) (seq 0 rsizw) st.

(** The loop over full blocks. The fuel bounds the iterations; [None] is a loop
    that has not ended. *)
Fixpoint keccak_absorb (fuel rsiz : nat) (inp st : list Z) : option (list Z * list Z) :=
  if (rsiz <=? length inp)%nat then
    match fuel with
    | O => None
    | S fuel =>
        let st := xor_words (rsiz / 8) inp st in
        keccak_absorb fuel rsiz (drop rsiz inp) (keccakf st KECCAK_ROUNDS)
    end
  else Some (inp, st).

(** What a call does: returns a digest or aborts the process. *)
Inductive keccak_result := Digest (md : list Z) | LocalAbort.

(** The last block in the 144-byte array [temp]: only its first [rsiz] bytes are
    read. *)
Definition keccak_last (rsiz : nat) (inp : list Z) : list Z :=
  let temp := inp ++ [1] ++ replicate (rsiz - (length inp + 1)) 0 in
  <[(rsiz - 1)%nat := Z.lor (temp !!! (rsiz - 1)%nat) 0x80]> temp.

Definition keccak_rsiz (mdlen : Z) : nat :=
  if 200 =? mdlen then HASH_DATA_AREA else Z.to_nat (200 - 2 * mdlen).

(** The guard before the last block; [rsiz - inlen + inlen + 1] is [rsiz + 1]. *)
Definition keccak_bad (rsiz inlen : nat) : bool :=
  (144 <=? inlen + 1)%nat || (rsiz <? inlen)%nat || (144 <=? rsiz + 1)%nat || (rsiz =? 0)%nat ||
  (144 <=? rsiz - 1)%nat || (144 <? rsiz / 8 * 8)%nat.

Definition keccak_fuel (fuel : nat) (inp : list Z) (mdlen : Z) : option keccak_result :=
  if (mdlen <=? 0) || ((100 <? mdlen) && negb (200 =? mdlen)) then Some LocalAbort
  else
    let rsiz := keccak_rsiz mdlen in
    let rsizw := (rsiz / 8)%nat in
    let st := replicate 25 0 in
    match keccak_absorb fuel rsiz inp st with
    | None => None
    | Some (inp, st) =>
        if keccak_bad rsiz (length inp) then Some LocalAbort
        else
          let st := xor_words rsizw (keccak_last rsiz inp) st in
          let st := keccakf st KECCAK_ROUNDS in
          Some (Digest (take (Z.to_nat mdlen) (state_bytes st)))
    end.

(** Every full block has at least one byte. *)
Definition keccak (inp : list Z) (mdlen : Z) : option keccak_result := keccak_fuel (length inp) inp mdlen.

Definition keccak1600 (inp : list Z) : option keccak_result := keccak inp 200.

(** ** hash.c

    [union hash_state] is the 200-byte array. *)
Definition hash_process (buf : list Z) : option keccak_result := keccak1600 buf.
Definition hash_permutation (state : list Z) : list Z :=
  state_bytes (keccakf (map (word64 state) (seq 0 25)) 24).
Definition HASH_SIZE : nat := 32.
Definition cn_fast_hash (data : list Z) : option keccak_result :=
  match hash_process data with
  | Some (Digest state) => Some (Digest (take HASH_SIZE state))
  | r => r
  end.

Definition zeros64 : list Z := replicate 25 0.
