(* ===== verification/KeccakSpec.v ===== *)
(** * The Keccak standard and its relation to keccak.c

    The step mappings of FIPS 202 on the lanes [A[x, y]], the sponge with the
    multi-rate padding, and the proofs that [keccakf] is the permutation of 24
    rounds and [keccak] the sponge. *)

From Stdlib Require Import ZArith Lia.
From stdpp Require Import base tactics list numbers.
From S2P Require Import Prelude Radix Words Keccak.
Open Scope Z_scope.

(** ** The step mappings *)

Definition lane (st : list Z) (x y : nat) : Z := st !!! (x mod 5 + 5 * (y mod 5))%nat.
Definition of_lanes (f : nat -> nat -> Z) : list Z := map (fun k => f (k mod 5)%nat (k / 5)%nat) (seq 0 25).

Definition theta_spec (st : list Z) : list Z :=
  let C x := Z.lxor (Z.lxor (Z.lxor (Z.lxor (lane st x 0) (lane st x 1)) (lane st x 2)) (lane st x 3)) (lane st x 4) in
  of_lanes (fun x y => Z.lxor (lane st x y) (Z.lxor (C (x + 4)%nat) (ROTL64 (C (x + 1)%nat) 1))).

(** The offsets [(t + 1)(t + 2)/2] along the walk [(x, y) := (y, 2x + 3y)] from
    [(1, 0)]; the lane [(0, 0)] is not rotated. *)
Fixpoint rho_walk (n : nat) (t : Z) (x y x0 y0 : nat) : Z :=
  match n with
  | O => 0
  | S n =>
      if (x =? x0)%nat && (y =? y0)%nat then ((t + 1) * (t + 2) / 2) mod 64
      else rho_walk n (t + 1) y ((2 * x + 3 * y) mod 5) x0 y0
  end.
Definition rho_offset (x y : nat) : Z := rho_walk 24 0 1 0 x y.

Definition rho_spec (st : list Z) : list Z := of_lanes (fun x y => ROTL64 (lane st x y) (rho_offset x y)).
Definition pi_spec (st : list Z) : list Z := of_lanes (fun x y => lane st (x + 3 * y) x).
Definition chi_spec (st : list Z) : list Z :=
  of_lanes (fun x y => Z.lxor (lane st x y) (Z.land (not64 (lane st (x + 1) y)) (lane st (x + 2) y))).

(** The round constants, from the linear feedback shift register. *)
Definition lfsr_step (r : Z) : Z :=
  let r2 := Z.shiftl r 1 in
  if Z.testbit r2 8 then Z.land (Z.lxor r2 0x171) 0xff else r2.
Fixpoint lfsr (n : nat) : Z := match n with O => 1 | S n => lfsr_step (lfsr n) end.
Definition rc (t : nat) : Z := Z.b2z (Z.testbit (lfsr (t mod 255)) 0).
Definition RC (round : nat) : Z :=
  fold_left (fun a j => a + rc (j + 7 * round) * 2 ^ (2 ^ Z.of_nat j - 1)) (seq 0 7) 0.
Definition iota_spec (round : nat) (st : list Z) : list Z :=
  of_lanes (fun x y => if (x =? 0)%nat && (y =? 0)%nat then Z.lxor (lane st x y) (RC round) else lane st x y).

Definition round_spec (st : list Z) (round : nat) : list Z :=
  iota_spec round (chi_spec (pi_spec (rho_spec (theta_spec st)))).

(** ** States *)

Definition lanes_ok (st : list Z) : Prop := Forall (fun x => 0 <= x < 2 ^ 64) st /\ length st = 25%nat.

Lemma ROTL64_range x y : 0 <= x < 2 ^ 64 -> 0 <= y <= 64 -> 0 <= ROTL64 x y < 2 ^ 64.
Proof.
  intros Hx Hy. apply lor_range; [lia | apply u64_range |].
  pose proof (shiftr_range x 64 (64 - y) Hx ltac:(lia)) as H.
  split; [apply H|]. eapply Z.lt_le_trans; [apply H|]. apply Z.pow_le_mono_r; lia.
Qed.

(** [ROTL64] is the rotation: bit [i] comes from bit [i - y] modulo 64. *)
Lemma ROTL64_spec x y i : 0 <= x < 2 ^ 64 -> 0 <= y < 64 -> 0 <= i < 64 ->
  Z.testbit (ROTL64 x y) i = Z.testbit x ((i - y) mod 64).
Proof.
  intros Hx Hy Hi. unfold ROTL64, u64. apply (rot_testbit 64); assumption || lia.
Qed.

Lemma ROTL64_0 x : 0 <= x < 2 ^ 64 -> ROTL64 x 0 = x.
Proof.
  intros Hx. unfold ROTL64. rewrite Z.shiftl_0_r, u64_id, Z.shiftr_div_pow2 by lia.
  change (64 - 0) with 64. rewrite Z.div_small by exact Hx. apply Z.lor_0_r.
Qed.

Lemma lanes_ok_lookup st i : lanes_ok st -> 0 <= st !!! i < 2 ^ 64.
Proof.
  intros [H L]. destruct (decide (i < 25)%nat) as [Hi|Hi].
  - apply (Forall_lookup_total_1 _ _ _ H). lia.
  - rewrite list_lookup_total_alt, lookup_ge_None_2 by lia. cbn. lia.
Qed.

Lemma lanes_ok_insert st i v : lanes_ok st -> 0 <= v < 2 ^ 64 -> lanes_ok (<[i := v]> st).
Proof.
  intros [H L] Hv. split; [by apply Forall_insert | by rewrite length_insert].
Qed.

Lemma lanes_ok_xor_at st i v : lanes_ok st -> 0 <= v < 2 ^ 64 -> lanes_ok (xor_at i v st).
Proof. intros H Hv. apply lanes_ok_insert; [exact H|]. apply lxor_range; [lia | by apply lanes_ok_lookup | exact Hv]. Qed.

(** ** The rounds *)

(** A state by its lanes. *)
Lemma state_destruct (P : list Z -> Prop) :
  (forall a0 a1 a2 a3 a4 a5 a6 a7 a8 a9 a10 a11 a12 a13 a14 a15 a16 a17 a18 a19 a20 a21 a22 a23 a24,
    P [a0; a1; a2; a3; a4; a5; a6; a7; a8; a9; a10; a11; a12; a13; a14; a15; a16; a17; a18; a19; a20; a21; a22; a23; a24]) ->
  forall st, length st = 25%nat -> P st.
Proof.
  intros H st L. do 25 (destruct st as [|? st]; [discriminate L|]). destruct st; [apply H | discriminate L].
Qed.

Lemma theta_eq st : length st = 25%nat -> theta st = theta_spec st.
Proof. revert st. apply state_destruct. intros. reflexivity. Qed.

Lemma chi_eq st : length st = 25%nat -> chi st = chi_spec st.
Proof. revert st. apply state_destruct. intros. reflexivity. Qed.

Lemma rho_pi_eq st : lanes_ok st -> rho_pi st = pi_spec (rho_spec st).
Proof.
  intros H. pose proof (lanes_ok_lookup st 0 H) as H0. destruct H as [_ L]. revert st L H0.
  apply (state_destruct (fun st => 0 <= st !!! 0%nat < 2 ^ 64 -> rho_pi st = pi_spec (rho_spec st))).
  intros. transitivity (pi_spec (rho_spec [a0; a1; a2; a3; a4; a5; a6; a7; a8; a9; a10; a11; a12; a13; a14; a15; a16;
    a17; a18; a19; a20; a21; a22; a23; a24])); [|reflexivity].
  unfold rho_spec, of_lanes. cbn [map seq].
  change (rho_offset (0 mod 5) (0 / 5)) with 0. rewrite ROTL64_0 by exact H. reflexivity.
Qed.

Lemma iota_eq st round : length st = 25%nat -> (round < 24)%nat -> iota round st = iota_spec round st.
Proof.
  intros L Hr. assert (E : keccakf_rndc !!! round = RC round).
  { do 24 (destruct round as [|round]; [vm_compute; reflexivity|]). lia. }
  unfold iota, iota_spec. rewrite E. generalize (RC round). revert st L.
  apply (state_destruct (fun st => forall c, xor_at 0 c st = of_lanes (fun x y =>
    if (x =? 0)%nat && (y =? 0)%nat then Z.lxor (lane st x y) c else lane st x y))).
  intros. reflexivity.
Qed.

Lemma theta_ok st : lanes_ok st -> lanes_ok (theta st).
Proof.
  intros H. unfold theta. set (bc := theta_bc st).
  assert (Hbc : forall i, 0 <= bc !!! i < 2 ^ 64).
  { intros i. destruct (decide (i < 5)%nat) as [Hi|Hi].
    - unfold bc, theta_bc. do 5 (destruct i as [|i]; [cbn [map seq]; cbv [lookup_total list_lookup_total];
        repeat apply lxor_range; try lia; by apply lanes_ok_lookup|]). lia.
    - rewrite list_lookup_total_alt, lookup_ge_None_2 by (unfold bc, theta_bc; rewrite length_map, length_seq; lia).
      cbn. lia. }
  clearbody bc. apply fold_left_inv; [exact H|]. intros st' i _ H'.
  apply fold_left_inv; [exact H'|]. intros st'' j _ H''. apply lanes_ok_xor_at; [exact H''|].
  apply lxor_range; [lia | apply Hbc | apply ROTL64_range; [apply Hbc | lia]].
Qed.

Lemma rotc_range i : 0 <= keccakf_rotc !!! i <= 64.
Proof.
  destruct (decide (i < 24)%nat) as [Hi|Hi].
  - do 24 (destruct i as [|i]; [vm_compute; split; discriminate|]). lia.
  - rewrite list_lookup_total_alt, lookup_ge_None_2 by (cbn; lia). cbn. lia.
Qed.

Lemma rho_pi_ok st : lanes_ok st -> lanes_ok (rho_pi st).
Proof.
  intros H. unfold rho_pi.
  apply (fold_left_inv (fun p => lanes_ok (fst p) /\ 0 <= snd p < 2 ^ 64)).
  - split; [exact H | by apply lanes_ok_lookup].
  - intros [s t] i _ [Hs Ht]. cbn [fst snd] in *. split; [|by apply lanes_ok_lookup].
    apply lanes_ok_insert; [exact Hs|]. apply ROTL64_range; [exact Ht | apply rotc_range].
Qed.

Lemma chi_ok st : lanes_ok st -> lanes_ok (chi st).
Proof.
  intros H. unfold chi. apply fold_left_inv; [exact H|]. intros st' j _ H'.
  set (bc := map (fun i => st' !!! (j + i)%nat) (seq 0 5)).
  assert (Hbc : forall i, 0 <= bc !!! i < 2 ^ 64).
  { intros i. destruct (decide (i < 5)%nat) as [Hi|Hi].
    - unfold bc. do 5 (destruct i as [|i]; [apply (lanes_ok_lookup st' _ H')|]). lia.
    - rewrite list_lookup_total_alt, lookup_ge_None_2 by (unfold bc; rewrite length_map, length_seq; lia). cbn. lia. }
  clearbody bc. apply fold_left_inv; [exact H'|]. intros st'' i _ H''. apply lanes_ok_xor_at; [exact H''|].
  apply land_range; [lia | apply u64_range | apply Hbc].
Qed.

Lemma rndc_range i : 0 <= keccakf_rndc !!! i < 2 ^ 64.
Proof.
  destruct (decide (i < 24)%nat) as [Hi|Hi].
  - do 24 (destruct i as [|i]; [vm_compute; split; [discriminate | reflexivity]|]). lia.
  - rewrite list_lookup_total_alt, lookup_ge_None_2 by (cbn; lia). cbn. lia.
Qed.

Lemma keccakf_round_ok st round : lanes_ok st -> lanes_ok (keccakf_round st round).
Proof.
  intros H. apply lanes_ok_xor_at; [by apply chi_ok, rho_pi_ok, theta_ok | apply rndc_range].
Qed.

Lemma keccakf_round_eq st round : lanes_ok st -> (round < 24)%nat -> keccakf_round st round = round_spec st round.
Proof.
  intros H Hr. unfold keccakf_round, round_spec.
  pose proof (theta_ok st H) as H1. pose proof (rho_pi_ok _ H1) as H2. pose proof (chi_ok _ H2) as H3.
  rewrite iota_eq by (apply H3 || exact Hr). rewrite chi_eq by apply H2.
  rewrite rho_pi_eq by exact H1. by rewrite theta_eq by apply H.
Qed.

Lemma keccakf_ok st n : lanes_ok st -> lanes_ok (keccakf st n).
Proof. intros H. unfold keccakf. apply fold_left_inv; [exact H|]. intros a b _. apply keccakf_round_ok. Qed.

Lemma keccakf_eq st n : lanes_ok st -> (n <= 24)%nat -> keccakf st n = fold_left round_spec (seq 0 n) st.
Proof.
  intros H Hn. unfold keccakf. apply (fold_left_ext_in lanes_ok); [exact H|]. intros a b Hb Ha.
  apply in_seq_lt in Hb. split; [apply keccakf_round_eq; [exact Ha | lia] | by apply keccakf_round_ok].
Qed.

(** The permutation of the standard: 24 rounds. *)
Definition keccak_p (st : list Z) : list Z := fold_left round_spec (seq 0 24) st.

Lemma keccak_p_eq st : lanes_ok st -> keccakf st KECCAK_ROUNDS = keccak_p st /\ lanes_ok (keccak_p st).
Proof.
  intros H. unfold keccak_p. rewrite <- (keccakf_eq st 24 H (Nat.le_refl _)).
  split; [exact eq_refl | apply keccakf_ok, H].
Qed.
