(* ===== verification/KeccakSponge.v ===== *)
(** * The sponge construction and keccak.c

    The sponge over an arbitrary permutation [f] with the padding [1 0* 1] of
    Keccak, the loop of [keccak] over [f], and the proof that [keccak] and
    [cn_fast_hash] are the sponge over the standard's permutation. *)

From Stdlib Require Import ZArith Lia.
From stdpp Require Import base tactics list numbers.
From S2P Require Import Prelude Radix Words Keccak KeccakSpec.
Open Scope Z_scope.

(** Padding to a multiple of [r] bytes: [1], zeros, and the top bit of the last
    byte, in one byte if only one is left. *)
Definition keccak_pad (r : nat) (m : list Z) : list Z :=
  let q := (r - length m mod r)%nat in
  m ++ if (q =? 1)%nat then [0x81] else 1 :: replicate (q - 2) 0 ++ [0x80].

Lemma keccak_pad_length r m : (0 < r)%nat -> length (keccak_pad r m) = (r * S (length m / r))%nat.
Proof.
  intros Hr. unfold keccak_pad. cbv zeta. pose proof (Nat.mod_upper_bound (length m) r ltac:(lia)).
  pose proof (Nat.div_mod_eq (length m) r). rewrite length_app.
  destruct (Nat.eqb_spec (r - length m mod r) 1); cbn [length]; [|rewrite length_app, length_replicate; cbn [length]]; lia.
Qed.

(** [word64] looks at eight bytes. *)
Lemma word64_take r p i : (8 * i + 8 <= r)%nat -> word64 (take r p) i = word64 p i.
Proof. intros H. unfold word64. rewrite skipn_firstn_comm, take_take. do 2 f_equal. lia. Qed.

Lemma xor_words_take r n p st : (8 * n <= r)%nat -> xor_words n (take r p) st = xor_words n p st.
Proof.
  intros H. unfold xor_words. apply (fold_left_ext_in (fun _ => True)); [done|]. intros a i Hi _.
  apply in_seq_lt in Hi. split; [|done]. by rewrite word64_take by lia.
Qed.

Lemma div8_le r : (8 * (r / 8) <= r)%nat.
Proof. pose proof (Nat.div_mod_eq r 8). lia. Qed.

(** *** Lookups *)

Lemma length_xor_words n p st : length (xor_words n p st) = length st.
Proof.
  unfold xor_words. apply (fold_left_inv (fun s => length s = length st)); [reflexivity|].
  intros a b _ H. unfold xor_at. by rewrite length_insert.
Qed.

Lemma xor_words_S n p st : xor_words (S n) p st = xor_at n (word64 p n) (xor_words n p st).
Proof. unfold xor_words. rewrite seq_S, fold_left_app. reflexivity. Qed.

Lemma xor_words_lookup n p st i : (i < length st)%nat ->
  xor_words n p st !!! i = if (i <? n)%nat then Z.lxor (st !!! i) (word64 p i) else st !!! i.
Proof.
  intros Hi. induction n as [|n IH]; [reflexivity|]. rewrite xor_words_S. unfold xor_at.
  destruct (Nat.eq_dec i n) as [->|N].
  - rewrite list_lookup_total_insert_eq by (rewrite length_xor_words; exact Hi). rewrite IH, Nat.ltb_irrefl.
    by rewrite (proj2 (Nat.ltb_lt n (S n)) (Nat.lt_succ_diag_r n)).
  - rewrite list_lookup_total_insert_ne by congruence. rewrite IH.
    destruct (Nat.ltb_spec i n), (Nat.ltb_spec i (S n)); try reflexivity; lia.
Qed.

Lemma word64_range p i : byte_ok p -> 0 <= word64 p i < 2 ^ 64.
Proof.
  intros H. unfold word64.
  assert (B : byte_ok (take 8 (drop (8 * i) p))) by (apply Forall_take, Forall_drop, H).
  pose proof (le_val_range _ B) as R. split; [apply R|]. eapply Z.lt_le_trans; [apply R|].
  apply Z.pow_le_mono_r; [lia|]. rewrite length_take. lia.
Qed.

Lemma word64_out p i : (length p <= 8 * i)%nat -> word64 p i = 0.
Proof. intros H. unfold word64. by rewrite drop_ge by exact H. Qed.

(** ** The sponge *)

Section permutation.
Context (f : list Z -> list Z).

(** Absorption of one block: the block, followed by zeros, is xored to the
    200 bytes of the state, lane by lane. *)
Definition absorb_block (st block : list Z) : list Z :=
  f (map (fun i => Z.lxor (st !!! i) (word64 block i)) (seq 0 25)).
Definition sponge (r : nat) (m : list Z) : list Z :=
  let p := keccak_pad r m in fold_left absorb_block (blocks r (length p / r) p) zeros64.

Lemma absorb_block_words r p st : (r mod 8 = 0)%nat -> (r <= 200)%nat -> length st = 25%nat ->
  f (xor_words (r / 8) p st) = absorb_block st (take r p).
Proof.
  intros D R L. unfold absorb_block. f_equal. pose proof (Nat.div_mod_eq r 8) as E.
  rewrite <- (xor_words_take r) by lia.
  apply list_eq_total; [by rewrite length_xor_words, length_map, length_seq|].
  intros i Hi. rewrite length_xor_words in Hi. rewrite lookup_total_map_seq by lia.
  rewrite xor_words_lookup by exact Hi. destruct (Nat.ltb_spec i (r / 8)) as [H|H]; [reflexivity|].
  rewrite word64_out by (rewrite length_take; lia). by rewrite Z.lxor_0_r.
Qed.
End permutation.

(** *** States under absorption *)

Lemma zeros_ok : lanes_ok zeros64.
Proof. split; [|reflexivity]. apply Forall_replicate. lia. Qed.

Lemma xor_lanes_ok st block : lanes_ok st -> byte_ok block ->
  lanes_ok (map (fun i => Z.lxor (st !!! i) (word64 block i)) (seq 0 25)).
Proof.
  intros H B. split; [|by rewrite length_map, length_seq]. apply Forall_map, Forall_forall. intros i _. cbn.
  apply lxor_range; [lia | by apply lanes_ok_lookup | by apply word64_range].
Qed.

Lemma absorb_block_ok st block : lanes_ok st -> byte_ok block -> lanes_ok (absorb_block keccak_p st block).
Proof. intros H B. exact (proj2 (keccak_p_eq _ (xor_lanes_ok st block H B))). Qed.

(** One step of the code is the absorption of a block. *)
Lemma keccakf_absorb r p st : (r mod 8 = 0)%nat -> (r <= 200)%nat -> lanes_ok st -> byte_ok p ->
  keccakf (xor_words (r / 8) p st) KECCAK_ROUNDS = absorb_block keccak_p st (take r p).
Proof.
  intros D R H B.
  rewrite (absorb_block_words (fun s => keccakf s KECCAK_ROUNDS) r p st D R (proj2 H)).
  exact (proj1 (keccak_p_eq _ (xor_lanes_ok st (take r p) H (Forall_take _ _ _ B)))).
Qed.

(** The two cases of the loop. *)
Lemma keccak_absorb_S n r inp st : (r <= length inp)%nat ->
  keccak_absorb (S n) r inp st
  = keccak_absorb n r (drop r inp) (keccakf (xor_words (r / 8) inp st) KECCAK_ROUNDS).
Proof. intros H. apply Nat.leb_le in H. unfold keccak_absorb at 1. rewrite H. exact eq_refl. Qed.
Lemma keccak_absorb_end n r inp st : (length inp < r)%nat -> keccak_absorb n r inp st = Some (inp, st).
Proof. intros H. apply Nat.leb_gt in H. destruct n; unfold keccak_absorb; rewrite H; exact eq_refl. Qed.

(** The loop absorbs the full blocks and leaves the rest. *)
Lemma keccak_absorb_spec r : (0 < r <= 200)%nat -> (r mod 8 = 0)%nat ->
  forall n inp st, lanes_ok st -> byte_ok inp -> (length inp / r <= n)%nat ->
  keccak_absorb n r inp st
  = Some (drop (r * (length inp / r)) inp,
          fold_left (absorb_block keccak_p) (blocks r (length inp / r) inp) st).
Proof.
  intros Hr D. induction n as [|n IH]; intros inp st Hs Hb Hn; destruct (Nat.le_gt_cases r (length inp)) as [L|L];
    try (rewrite (keccak_absorb_end _ r inp st L), Nat.div_small, Nat.mul_0_r, drop_0 by exact L; exact eq_refl).
  - pose proof (Nat.div_str_pos (length inp) r ltac:(lia)). lia.
  - pose proof (div_sub_1 (length inp) r ltac:(lia)) as E. rewrite <- length_drop in E.
    rewrite (keccak_absorb_S n r inp st L), (keccakf_absorb r inp st D (proj2 Hr) Hs Hb).
    rewrite IH; [|apply absorb_block_ok; [exact Hs | apply Forall_take, Hb] | apply Forall_drop, Hb | lia].
    rewrite E. cbn [blocks fold_left]. rewrite drop_drop, Nat.mul_succ_r, (Nat.add_comm _ r). exact eq_refl.
Qed.

Lemma keccak_absorb_0 n inp st : keccak_absorb n 0 inp st = None.
Proof.
  revert inp st. induction n as [|n IH]; intros inp st; [exact eq_refl|].
  rewrite (keccak_absorb_S n 0 inp st (Nat.le_0_l _)). apply (IH (drop 0 inp)).
Qed.

(** Lengths. *)
Lemma length_xor_at i v st : length (xor_at i v st) = length st.
Proof. unfold xor_at. by rewrite length_insert. Qed.

Lemma length_keccakf_round st round : length (keccakf_round st round) = length st.
Proof.
  unfold keccakf_round, iota. rewrite length_xor_at. unfold chi.
  apply (fold_left_inv (fun s => length s = length st)).
  - unfold rho_pi. apply (fold_left_inv (fun p => length (fst p) = length st)).
    + cbn [fst]. unfold theta. apply (fold_left_inv (fun s => length s = length st)); [exact eq_refl|].
      intros a i _ H. apply (fold_left_inv (fun s => length s = length st)); [exact H|].
      intros a' j _ H'. by rewrite length_xor_at.
    + intros [s t] i _ H. cbn [fst] in *. by rewrite length_insert.
  - intros a j _ H. apply (fold_left_inv (fun s => length s = length st)); [exact H|].
    intros a' i _ H'. by rewrite length_xor_at.
Qed.

Lemma length_keccakf st n : length (keccakf st n) = length st.
Proof.
  unfold keccakf. apply (fold_left_inv (fun s => length s = length st)); [exact eq_refl|].
  intros a r _ H. by rewrite length_keccakf_round.
Qed.

Lemma length_state_bytes st : length (state_bytes st) = (8 * length st)%nat.
Proof.
  unfold state_bytes. induction st as [|x st IH]; [exact eq_refl|]. cbn [map concat].
  rewrite length_app, length_le_bytes, IH. cbn [length]. lia.
Qed.

(** The loop ends, whatever the block size. *)
Lemma keccak_absorb_total r : (0 < r)%nat -> forall n inp st, (length inp <= n)%nat ->
  exists st', keccak_absorb n r inp st = Some (drop (r * (length inp / r)) inp, st') /\ length st' = length st.
Proof.
  intros Hr. induction n as [|n IH]; intros inp st Hn; destruct (Nat.le_gt_cases r (length inp)) as [L|L];
    try (exists st; rewrite (keccak_absorb_end _ r inp st L), Nat.div_small, Nat.mul_0_r, drop_0 by exact L;
         split; exact eq_refl);
    [lia|].
  destruct (IH (drop r inp) (keccakf (xor_words (r / 8) inp st) KECCAK_ROUNDS)) as (st' & E & L');
    [rewrite length_drop; lia|].
  exists st'. rewrite (keccak_absorb_S n r inp st L), E, drop_drop, length_drop.
  rewrite (div_sub_1 (length inp) r) by lia. rewrite Nat.mul_succ_r, (Nat.add_comm _ r).
  split; [exact eq_refl|]. by rewrite L', length_keccakf, length_xor_words.
Qed.

(** ** The last block *)

Lemma keccak_last_eq r rest : (length rest < r)%nat ->
  keccak_last r rest
  = rest ++ if (r - length rest =? 1)%nat then [0x81] else 1 :: replicate (r - length rest - 2) 0 ++ [0x80].
Proof.
  intros H. unfold keccak_last. cbv zeta.
  replace (r - 1)%nat with (length rest + (r - length rest - 1))%nat by lia.
  rewrite lookup_total_app_r, insert_app_r by lia.
  replace (length rest + (r - length rest - 1) - length rest)%nat with (r - length rest - 1)%nat by lia.
  f_equal. replace (r - (length rest + 1))%nat with (r - length rest - 1)%nat by lia.
  destruct (r - length rest)%nat as [|[|q]] eqn:E; [lia | reflexivity|].
  replace (S (S q) - 1)%nat with (S q) by lia. replace (S (S q) - 2)%nat with q by lia.
  cbn [Nat.eqb app]. change (<[S q:=?v]> (1 :: ?l)) with (1 :: <[q:=v]> l). f_equal.
  rewrite (replicate_S_end q 0). change ((1 :: ?l) !!! S q) with (l !!! q).
  rewrite lookup_total_app_r, insert_app_r_alt by (rewrite length_replicate; lia).
  rewrite length_replicate, Nat.sub_diag. reflexivity.
Qed.

Lemma keccak_pad_blocks r m : (0 < r)%nat ->
  blocks r (length (keccak_pad r m) / r) (keccak_pad r m)
  = blocks r (length m / r) m ++ [keccak_last r (drop (r * (length m / r)) m)].
Proof.
  intros Hr. rewrite keccak_pad_length by exact Hr. rewrite Nat.mul_comm, Nat.div_mul by lia.
  pose proof (Nat.div_mod_eq (length m) r) as E. pose proof (Nat.mod_upper_bound (length m) r ltac:(lia)) as U.
  set (k := (length m / r)%nat) in *. set (rest := drop (r * k) m).
  assert (LR : length rest = (length m mod r)%nat) by (unfold rest; rewrite length_drop; lia).
  rewrite keccak_last_eq by lia. unfold keccak_pad. cbv zeta. rewrite <- LR.
  rewrite <- (take_drop (r * k) m) at 1. fold rest. rewrite <- app_assoc. rewrite <- Nat.add_1_r.
  rewrite blocks_app by (rewrite length_take; lia). f_equal.
  - symmetry. rewrite <- (take_drop (r * k) m) at 1. rewrite <- (Nat.add_0_r k) at 1.
    rewrite blocks_app by (rewrite length_take; lia). by rewrite app_nil_r.
  - cbn [blocks]. f_equal. apply take_ge. rewrite length_app.
    destruct (Nat.eqb_spec (r - length rest) 1); cbn [length]; [|rewrite length_app, length_replicate; cbn [length]]; lia.
Qed.

Lemma keccak_last_ok r rest : (length rest < r)%nat -> byte_ok rest -> byte_ok (keccak_last r rest).
Proof.
  intros H B. rewrite keccak_last_eq by exact H. apply Forall_app. split; [exact B|].
  destruct (_ =? _)%nat; repeat constructor; try lia.
  apply Forall_app. split; [apply Forall_replicate; lia | repeat constructor; lia].
Qed.

Lemma length_keccak_last r rest : (length rest < r)%nat -> length (keccak_last r rest) = r.
Proof.
  intros H. rewrite keccak_last_eq, length_app by exact H.
  destruct (Nat.eqb_spec (r - length rest) 1); cbn [length]; [|rewrite length_app, length_replicate; cbn [length]]; lia.
Qed.

(** ** The hash *)

(** The widths of digest for which the code computes a Keccak hash: a
    block is a whole number of lanes and passes the guard. *)
Definition keccak_width (mdlen : Z) : Prop := mdlen = 200 \/ (29 <= mdlen < 100 /\ mdlen mod 4 = 0).

Lemma keccak_rsiz_width mdlen : keccak_width mdlen ->
  (0 < keccak_rsiz mdlen <= 136)%nat /\ (keccak_rsiz mdlen mod 8 = 0)%nat.
Proof.
  intros [->|[R D]]; [vm_compute; lia|]. unfold keccak_rsiz.
  destruct (Z.eqb_spec 200 mdlen) as [E|E]; [lia|].
  pose proof (Z.div_mod mdlen 4 ltac:(lia)) as Q. rewrite D in Q.
  set (k := mdlen / 4) in *. assert (8 <= k < 25) by lia.
  replace (Z.to_nat (200 - 2 * mdlen)) with (Z.to_nat (25 - k) * 8)%nat by lia.
  rewrite Nat.Div0.mod_mul. lia.
Qed.

Definition keccak_guard (mdlen : Z) : bool := (mdlen <=? 0) || ((100 <? mdlen) && negb (200 =? mdlen)).

Lemma keccak_guard_width mdlen : keccak_width mdlen -> keccak_guard mdlen = false.
Proof. unfold keccak_width, keccak_guard. lia. Qed.

Lemma keccak_bad_false r l : (0 < r < 143)%nat -> (l < r)%nat -> keccak_bad r l = false.
Proof.
  intros H L. unfold keccak_bad. pose proof (Nat.div_mod_eq r 8).
  rewrite !orb_false_iff, !Nat.leb_gt, !Nat.ltb_ge, Nat.eqb_neq. lia.
Qed.

Lemma keccak_bad_true r l : (143 <= r)%nat -> keccak_bad r l = true.
Proof.
  intros H. unfold keccak_bad. rewrite (proj2 (Nat.leb_le 144 (r + 1))) by lia.
  by rewrite orb_true_r.
Qed.

(** What a call returns, once the loop has returned. *)
Lemma keccak_fuel_eq fuel inp mdlen : keccak_fuel fuel inp mdlen =
  if keccak_guard mdlen then Some LocalAbort
  else match keccak_absorb fuel (keccak_rsiz mdlen) inp zeros64 with
       | None => None
       | Some (rest, st) =>
           if keccak_bad (keccak_rsiz mdlen) (length rest) then Some LocalAbort
           else Some (Digest (take (Z.to_nat mdlen) (state_bytes (keccakf
             (xor_words (keccak_rsiz mdlen / 8) (keccak_last (keccak_rsiz mdlen) rest) st) KECCAK_ROUNDS))))
       end.
Proof. unfold keccak_fuel. fold (keccak_guard mdlen). exact eq_refl. Qed.

Lemma sponge_step r m : (0 < r)%nat ->
  sponge keccak_p r m
  = absorb_block keccak_p (fold_left (absorb_block keccak_p) (blocks r (length m / r) m) zeros64)
      (keccak_last r (drop (r * (length m / r)) m)).
Proof. intros H. unfold sponge. cbv zeta. rewrite keccak_pad_blocks, fold_left_app by exact H. exact eq_refl. Qed.

Lemma length_blocks_rest r (m : list Z) : (0 < r)%nat -> (length (drop (r * (length m / r)) m) < r)%nat.
Proof.
  intros H. rewrite length_drop. pose proof (Nat.div_mod_eq (length m) r).
  pose proof (Nat.mod_upper_bound (length m) r). lia.
Qed.

Lemma absorb_blocks_ok l st : Forall byte_ok l -> lanes_ok st -> lanes_ok (fold_left (absorb_block keccak_p) l st).
Proof.
  intros H Hs. apply fold_left_inv; [exact Hs|]. intros a b Hb Ha. apply absorb_block_ok; [exact Ha|].
  rewrite List.Forall_forall in H. exact (H b Hb).
Qed.

Lemma keccak_is_sponge inp mdlen : keccak_width mdlen -> byte_ok inp ->
  keccak inp mdlen = Some (Digest (take (Z.to_nat mdlen) (state_bytes (sponge keccak_p (keccak_rsiz mdlen) inp)))).
Proof.
  intros W B. pose proof (keccak_rsiz_width mdlen W) as [R D]. unfold keccak.
  rewrite keccak_fuel_eq, keccak_guard_width by exact W. set (r := keccak_rsiz mdlen) in *.
  assert (R' : (0 < r <= 200)%nat) by (clear - R; lia).
  assert (L : (length inp / r <= length inp)%nat) by (apply div_le_self, R).
  rewrite (keccak_absorb_spec r R' D (length inp) inp _ zeros_ok B L).
  pose proof (length_blocks_rest r inp (proj1 R)) as LR.
  rewrite keccak_bad_false by lia.
  assert (B' : byte_ok (drop (r * (length inp / r)) inp)) by (apply Forall_drop, B).
  rewrite (keccakf_absorb r _ _ D (proj2 R') (absorb_blocks_ok _ _ (blocks_ok r _ inp B) zeros_ok)
    (keccak_last_ok r _ LR B')).
  rewrite (take_ge (keccak_last _ _) r) by (rewrite (length_keccak_last r _ LR); exact (Nat.le_refl _)).
  rewrite sponge_step by exact (proj1 R). exact eq_refl.
Qed.

(** Every other width returns as many bytes. *)
Lemma keccak_digest inp mdlen : 29 <= mdlen < 100 \/ mdlen = 200 ->
  exists md, keccak inp mdlen = Some (Digest md) /\ length md = Z.to_nat mdlen.
Proof.
  intros H. assert (G : keccak_guard mdlen = false) by (unfold keccak_guard; lia).
  assert (R : (0 < keccak_rsiz mdlen < 143)%nat).
  { unfold keccak_rsiz, HASH_DATA_AREA. destruct (Z.eqb_spec 200 mdlen); lia. }
  unfold keccak. rewrite keccak_fuel_eq, G.
  destruct (keccak_absorb_total (keccak_rsiz mdlen) (proj1 R) (length inp) inp zeros64 (Nat.le_refl _)) as (st' & E & L').
  rewrite E, keccak_bad_false by (exact R || apply length_blocks_rest, R).
  eexists. split; [exact eq_refl|].
  rewrite length_take, length_state_bytes, length_keccakf, length_xor_words, L'. unfold zeros64.
  rewrite length_replicate. lia.
Qed.

Lemma cn_fast_hash_total inp : exists md, cn_fast_hash inp = Some (Digest md) /\ length md = HASH_SIZE.
Proof.
  destruct (keccak_digest inp 200 (or_intror eq_refl)) as (md & E & L).
  exists (take HASH_SIZE md). unfold cn_fast_hash, hash_process, keccak1600. rewrite E.
  split; [exact eq_refl|]. rewrite length_take, L. exact eq_refl.
Qed.

(** The padding determines the message. *)
Lemma keccak_pad_lookup_1 r m m' : (0 < r)%nat -> (length m < length m' < length m + (r - length m mod r))%nat ->
  keccak_pad r m !!! length m' <> keccak_pad r m' !!! length m'.
Proof.
  intros Hr H. unfold keccak_pad. cbv zeta. pose proof (Nat.mod_upper_bound (length m) r ltac:(lia)).
  pose proof (Nat.div_mod_eq (length m) r). pose proof (Nat.div_mod_eq (length m') r).
  rewrite !lookup_total_app_r, Nat.sub_diag by lia.
  assert (E : (length m' / r = length m / r)%nat) by (symmetry; apply (Nat.div_unique _ _ _ (length m' - r * (length m / r))); lia).
  rewrite E in *. destruct (Nat.eqb_spec (r - length m mod r) 1) as [N|N]; [lia|].
  replace (length m' - length m)%nat with (S (length m' - length m - 1)) by lia.
  change ((1 :: ?l) !!! S ?q) with (l !!! q).
  destruct (Nat.eqb_spec (r - length m' mod r) 1) as [N'|N'].
  - rewrite lookup_total_app_r by (rewrite length_replicate; lia). rewrite length_replicate.
    replace (length m' - length m - 1 - (r - length m mod r - 2))%nat with 0%nat by lia.
    change (0x80 <> 0x81). discriminate.
  - rewrite lookup_total_app_l by (rewrite length_replicate; lia).
    rewrite lookup_total_replicate_2 by lia. change (0 <> 1). discriminate.
Qed.

Lemma keccak_pad_inj_le r m m' : (0 < r)%nat -> (length m <= length m')%nat ->
  keccak_pad r m = keccak_pad r m' -> m = m'.
Proof.
  intros Hr L E. destruct (Nat.eq_dec (length m) (length m')) as [N|N].
  - apply app_inj_1 in E; [apply E | exact N].
  - exfalso. assert (Lp : length (keccak_pad r m) = length (keccak_pad r m')) by by rewrite E.
    rewrite !keccak_pad_length in Lp by exact Hr.
    apply (keccak_pad_lookup_1 r m m' Hr); [|by rewrite E].
    pose proof (Nat.div_mod_eq (length m) r). pose proof (Nat.div_mod_eq (length m') r).
    pose proof (Nat.mod_upper_bound (length m') r ltac:(lia)). nia.
Qed.

(** ** Rates that are not a whole number of lanes *)

Lemma xor_words_agree n p p' st : take (8 * n) p = take (8 * n) p' -> xor_words n p st = xor_words n p' st.
Proof.
  intros H. rewrite <- (xor_words_take (8 * n) n p) by lia. rewrite H. by rewrite xor_words_take by lia.
Qed.

(** A full block is read up to its last whole lane. *)
Lemma keccak_absorb_agree n r p p' m st : (0 < r)%nat -> length p = r -> length p' = r ->
  take (8 * (r / 8)) p = take (8 * (r / 8)) p' ->
  keccak_absorb (S n) r (p ++ m) st = keccak_absorb (S n) r (p' ++ m) st.
Proof.
  intros Hr L L' H. rewrite !keccak_absorb_S by (rewrite length_app; lia).
  pose proof (div8_le r). assert (A : take (8 * (r / 8)) (p ++ m) = take (8 * (r / 8)) (p' ++ m))
    by (rewrite !take_app_le by lia; exact H).
  rewrite (xor_words_agree _ _ _ st A), !drop_app_length' by lia. exact eq_refl.
Qed.
