(* ===== verification/KeccakCorrect.v ===== *)
(** * Properties of Keccak (keccak.c, hash.c)

    The permutation, the hash as a sponge, the guards, and the rates the loop
    does not handle. *)

From Stdlib Require Import ZArith Lia.
From stdpp Require Import base tactics list numbers.
From S2P Require Import Prelude Radix Words Keccak KeccakSpec KeccakSponge.
Open Scope Z_scope.

(** C33. On 25 lanes of 64 bits, the rounds of [keccakf] are those of the
    standard: for at most 24 rounds, each one is iota, chi, pi, rho and theta
    as FIPS 202 states them on [A[x, y]], with the rotation offsets of the walk
    and the round constants of the shift register in place of the tables; the
    lanes stay below 2^64; and [ROTL64] is the rotation of the bits. *)
Theorem keccakf_correct st rounds : lanes_ok st -> (rounds <= 24)%nat ->
  keccakf st rounds = fold_left round_spec (seq 0 rounds) st /\ lanes_ok (keccakf st rounds) /\
  (forall x y i, 0 <= x < 2 ^ 64 -> 0 <= y < 64 -> 0 <= i < 64 ->
     Z.testbit (ROTL64 x y) i = Z.testbit x ((i - y) mod 64)).
Proof.
  intros H R. split; [exact (keccakf_eq st rounds H R)|]. split; [exact (keccakf_ok st rounds H)|].
  intros x y i. apply ROTL64_spec.
Qed.

Lemma keccakf_correct_witness : lanes_ok zeros64 /\ (24 <= 24)%nat /\
  keccakf zeros64 24 = fold_left round_spec (seq 0 24) zeros64.
Proof.
  split; [exact zeros_ok|]. split; [exact (Nat.le_refl 24)|].
  exact (proj1 (keccakf_correct zeros64 24 zeros_ok (Nat.le_refl 24))).
Defined.

(** C34. For the widths whose block is a whole number of lanes (200, and the
    multiples of four from 32 to 96), [keccak] returns the first [mdlen] bytes
    of the state of the sponge: the message is padded with [1 0* 1] to a
    multiple of the rate, each block is xored to the 200 bytes of the state, and
    the standard's permutation follows each block. [cn_fast_hash] is the digest
    of 32 bytes, and the padding is injective. *)
Theorem keccak_correct inp mdlen : keccak_width mdlen -> byte_ok inp ->
  keccak inp mdlen = Some (Digest (take (Z.to_nat mdlen) (state_bytes (sponge keccak_p (keccak_rsiz mdlen) inp)))) /\
  cn_fast_hash inp = keccak inp 32 /\
  (forall m', keccak_pad (keccak_rsiz mdlen) inp = keccak_pad (keccak_rsiz mdlen) m' -> inp = m').
Proof.
  intros W B. split; [exact (keccak_is_sponge inp mdlen W B)|]. split.
  - unfold cn_fast_hash, hash_process, keccak1600.
    rewrite (keccak_is_sponge inp 200 (or_introl eq_refl) B).
    rewrite (keccak_is_sponge inp 32) by (first [exact B | right; split; [lia | reflexivity]]).
    rewrite take_take. exact eq_refl.
  - intros m' E. pose proof (keccak_rsiz_width mdlen W) as [R _].
    destruct (Nat.le_ge_cases (length inp) (length m')) as [L|L].
    + exact (keccak_pad_inj_le _ inp m' (proj1 R) L E).
    + symmetry. exact (keccak_pad_inj_le _ m' inp (proj1 R) L (eq_sym E)).
Qed.

Lemma keccak_correct_witness : keccak_width 32 /\ byte_ok [97; 98; 99] /\
  keccak [97; 98; 99] 32 = Some (Digest (take 32 (state_bytes (sponge keccak_p 136 [97; 98; 99])))).
Proof.
  assert (W : keccak_width 32) by (right; split; [lia | reflexivity]).
  assert (B : byte_ok [97; 98; 99]) by (repeat constructor; lia).
  split; [exact W|]. split; [exact B|]. exact (proj1 (keccak_correct [97; 98; 99] 32 W B)).
Defined.

(** C35. Which calls of [keccak] return a digest, abort or do not return: a
    width of 0 or less, or above 100 and not 200, aborts at once; a width from 1
    to 28 has a rate above 142 and aborts after the loop; 100 has the rate 0 and
    stays in the loop, before the test of a zero rate, whatever the number of
    iterations; every other width returns [mdlen] bytes. *)
Theorem keccak_outcome inp mdlen :
  ((mdlen <= 0 \/ (100 < mdlen /\ mdlen <> 200) \/ 1 <= mdlen <= 28) -> keccak inp mdlen = Some LocalAbort) /\
  (forall fuel, keccak_fuel fuel inp 100 = None) /\
  ((29 <= mdlen < 100 \/ mdlen = 200) ->
   exists md, keccak inp mdlen = Some (Digest md) /\ length md = Z.to_nat mdlen).
Proof.
  split; [|split].
  - intros H. unfold keccak. rewrite keccak_fuel_eq. destruct (keccak_guard mdlen) eqn:G; [exact eq_refl|].
    assert (M : 1 <= mdlen <= 28) by (unfold keccak_guard in G; lia).
    assert (R : (143 <= keccak_rsiz mdlen)%nat).
    { unfold keccak_rsiz. destruct (Z.eqb_spec 200 mdlen); lia. }
    destruct (keccak_absorb_total (keccak_rsiz mdlen) ltac:(lia) (length inp) inp zeros64 (Nat.le_refl _)) as (st' & E & L').
    rewrite E, keccak_bad_true by exact R. exact eq_refl.
  - intros fuel. rewrite keccak_fuel_eq. change (keccak_guard 100) with false. cbn iota.
    change (keccak_rsiz 100) with 0%nat. rewrite keccak_absorb_0. exact eq_refl.
  - apply keccak_digest.
Qed.

Lemma keccak_outcome_witness : 1 <= 28 <= 28 /\ keccak [1] 28 = Some LocalAbort /\
  exists md, keccak [1] 30 = Some (Digest md) /\ length md = 30%nat.
Proof.
  assert (H28 : 1 <= 28 <= 28) by lia. assert (H30 : 29 <= 30 < 100) by lia.
  split; [exact H28|]. split.
  - exact (proj1 (keccak_outcome [1] 28) (or_intror (or_intror H28))).
  - exact (proj2 (proj2 (keccak_outcome [1] 30)) (or_introl H30)).
Defined.

(** When the rate is not a whole number of lanes (a width from 29 to 99 that
    is not a multiple of four), the bytes of a full block after its last whole
    lane are not absorbed: two messages that differ there have the same
    digest. *)
Theorem keccak_partial_lane mdlen p p' m : 29 <= mdlen < 100 ->
  length p = keccak_rsiz mdlen -> length p' = keccak_rsiz mdlen ->
  take (8 * (keccak_rsiz mdlen / 8)) p = take (8 * (keccak_rsiz mdlen / 8)) p' ->
  keccak (p ++ m) mdlen = keccak (p' ++ m) mdlen.
Proof.
  intros M L L' H. unfold keccak. rewrite !keccak_fuel_eq, !length_app, L, L'.
  assert (R : (0 < keccak_rsiz mdlen)%nat).
  { unfold keccak_rsiz, HASH_DATA_AREA. destruct (Z.eqb_spec 200 mdlen); lia. }
  destruct (keccak_rsiz mdlen + length m)%nat as [|n] eqn:E; [lia|].
  rewrite (keccak_absorb_agree n _ p p' m zeros64 R L L' H). exact eq_refl.
Qed.

(** At 30 bytes, the rate is 140 and the last four bytes of a block do not
    count. *)
Lemma keccak_partial_lane_witness : 29 <= 30 < 100 /\
  keccak (replicate 136 7 ++ [1; 2; 3; 4] ++ [9]) 30 = keccak (replicate 136 7 ++ [5; 6; 7; 8] ++ [9]) 30.
Proof.
  split; [lia|]. rewrite !app_assoc.
  exact (keccak_partial_lane 30 (replicate 136 7 ++ [1; 2; 3; 4]) (replicate 136 7 ++ [5; 6; 7; 8]) [9]
    ltac:(lia) eq_refl eq_refl eq_refl).
Defined.

