(* ===== verification/TreeHash.v ===== *)
(** * The Merkle tree of transaction hashes (src/Native/libcryptonote/crypto/tree-hash.c)

    [tree_hash_cnt] and [tree_hash] over a flat array of bytes, [HASH_SIZE] for
    each hash. [None] is a failed [assert], a loop out of fuel or an abort of
    [cn_fast_hash]; TreeProofs.v proves that within the bounds of the asserts
    none occurs. *)

From Stdlib Require Import ZArith Lia.
From stdpp Require Import base tactics list numbers option.
From S2P Require Import Prelude Radix Keccak.
Open Scope Z_scope.

(** [cn_fast_hash(p, length, out)] as its digest. *)
Definition fast_hash (p : list Z) : option (list Z) :=
  match cn_fast_hash p with Some (Digest d) => Some d | _ => None end.

(** [while(pow < count) pow <<= 1;], on 64 bits *)
Fixpoint tree_pow (fuel : nat) (pow count : Z) : option Z :=
  if pow <? count then
    match fuel with O => None | S fuel => tree_pow fuel (u64 (Z.shiftl pow 1)) count end
  else Some pow.

Definition tree_hash_cnt (count : Z) : option Z :=
  if negb (3 <=? count) then None
  else if negb (count <=? 0x10000000) then None
  else pow ← tree_pow 28 2 count; Some (Z.shiftr pow 1).

(** [cn_fast_hash(p[i], 64, ...)] reads two hashes; a store of [d] to [p[j]]. *)
Definition hash_at (p : list Z) (i : nat) : option (list Z) := fast_hash (take 64 (drop (HASH_SIZE * i) p)).
Definition store_at (p : list Z) (j : nat) (d : list Z) : list Z :=
  take (HASH_SIZE * j) p ++ d ++ drop (HASH_SIZE * j + length d) p.

(** [for (...; j < cnt; i += 2, ++j) cn_fast_hash(hashes[i], 64, ints[j]);] with
    [n = cnt - j] iterations left; the last [i] and the array. *)
Fixpoint tree_first (n : nat) (hashes : list Z) (i j : nat) (ints : list Z) : option (nat * list Z) :=
  match n with
  | O => Some (i, ints)
  | S n => d ← hash_at hashes i; tree_first n hashes (i + 2) (S j) (store_at ints j d)
  end.

(** The same loop with source and destination in one array. *)
Fixpoint tree_level (n i j : nat) (ints : list Z) : option (list Z) :=
  match n with
  | O => Some ints
  | S n => d ← hash_at ints i; tree_level n (i + 2) (S j) (store_at ints j d)
  end.

(** [while (cnt > 2) { cnt >>= 1; ... }] *)
Fixpoint tree_up (fuel cnt : nat) (ints : list Z) : option (list Z) :=
  if (2 <? cnt)%nat then
    match fuel with
    | O => None
    | S fuel => let cnt := (cnt / 2)%nat in ints ← tree_level cnt 0 0 ints; tree_up fuel cnt ints
    end
  else Some ints.

Definition tree_hash (hashes : list Z) (count : Z) : option (list Z) :=
  if negb (0 <? count) then None
  else if count =? 1 then Some (take HASH_SIZE hashes)
  else if count =? 2 then fast_hash (take (2 * HASH_SIZE) hashes)
  else
    cnt ← tree_hash_cnt count;
    let start := Z.to_nat (2 * cnt - count) in
    let cnt := Z.to_nat cnt in
    let ints := take (start * HASH_SIZE) hashes ++ replicate ((cnt - start) * HASH_SIZE) 0 in
    '(i, ints) ← tree_first (cnt - start) hashes start start ints;
    if negb (Z.of_nat i =? count) then None
    else ints ← tree_up 28 cnt ints; fast_hash (take 64 ints).

(** ** The abstract tree *)

Inductive mtree (A : Type) := Leaf (a : A) | Node (l r : mtree A).
Arguments Leaf {A} a.
Arguments Node {A} l r.

Fixpoint mmap {A B} (f : A -> B) (t : mtree A) : mtree B :=
  match t with Leaf a => Leaf (f a) | Node l r => Node (mmap f l) (mmap f r) end.
Fixpoint mleaves {A} (t : mtree A) : list A :=
  match t with Leaf a => [a] | Node l r => mleaves l ++ mleaves r end.

(** Every leaf has depth [d] or [d + 1]. *)
Fixpoint mdepth {A} (d : nat) (t : mtree A) : Prop :=
  match d, t with
  | O, Leaf _ => True
  | O, Node (Leaf _) (Leaf _) => True
  | S d, Node l r => mdepth d l /\ mdepth d r
  | _, _ => False
  end.

(** Neighbours are paired. *)
Fixpoint mpairs {A} (l : list (mtree A)) : list (mtree A) :=
  match l with t1 :: t2 :: l => Node t1 t2 :: mpairs l | _ => l end.

(** The tree for [n] leaves: the first [2c - n] leaves stay, the others are paired,
    where [c = 2^k] is the power of two with [c < n <= 2c]; then [k] times all
    neighbours are paired. *)
Definition merkle_level {A} (k : nat) (l : list A) : list (mtree A) :=
  let start := (2 * 2 ^ k - length l)%nat in
  map Leaf (take start l) ++ mpairs (map Leaf (drop start l)).
Definition merkle_trees {A} (k : nat) (l : list A) : list (mtree A) := Nat.iter k mpairs (merkle_level k l).
Definition merkle_tree {A} (l : list A) (default : A) : mtree A :=
  if (length l <=? 1)%nat then Leaf (hd default l)
  else hd (Leaf default) (merkle_trees (Nat.log2 (length l - 1)) l).

(** The root, for a hash function on pairs of hashes. *)
Fixpoint mroot (H : list Z -> list Z) (t : mtree (list Z)) : list Z :=
  match t with Leaf a => a | Node l r => H (mroot H l ++ mroot H r) end.
(** The strings that are hashed to compute it. *)
Fixpoint mcalls (H : list Z -> list Z) (t : mtree (list Z)) : list (list Z) :=
  match t with Leaf a => [] | Node l r => (mroot H l ++ mroot H r) :: mcalls H l ++ mcalls H r end.

Definition digest (p : list Z) : list Z := default [] (fast_hash p).
