(* ===== verification/TreeProofs.v ===== *)
(** * Proofs about the Merkle tree

    The loops of [tree_hash] on arrays of hashes are pairings of neighbours,
    the pairings build the tree of [merkle_tree], and the tree binds its
    leaves. *)

From Stdlib Require Import ZArith Lia.
From stdpp Require Import base tactics list numbers option.
From S2P Require Import Prelude Radix Words Keccak KeccakSpec KeccakSponge TreeHash.
Open Scope Z_scope.

#[local] Opaque keccakf.

(** ** [fast_hash] *)

Lemma fast_hash_digest p : fast_hash p = Some (digest p) /\ length (digest p) = HASH_SIZE.
Proof.
  unfold digest, fast_hash. destruct (cn_fast_hash_total p) as (md & E & L). rewrite E. split; [exact eq_refl | exact L].
Qed.

(** A list of 32-byte hashes. *)
Definition hashes_ok (bs : list (list Z)) : Prop := Forall (fun b => length b = HASH_SIZE) bs.

Lemma hashes_ok_cons b bs : hashes_ok (b :: bs) <-> length b = HASH_SIZE /\ hashes_ok bs.
Proof. split; [by inversion 1 | intros [? ?]; by constructor]. Qed.
Lemma hashes_ok_take n bs : hashes_ok bs -> hashes_ok (take n bs).
Proof. apply Forall_take. Qed.
Lemma hashes_ok_drop n bs : hashes_ok bs -> hashes_ok (drop n bs).
Proof. apply Forall_drop. Qed.
Lemma hashes_ok_app a b : hashes_ok a -> hashes_ok b -> hashes_ok (a ++ b).
Proof. intros. by apply Forall_app. Qed.
#[local] Hint Resolve hashes_ok_take hashes_ok_drop hashes_ok_app : core.

Lemma length_concat bs : hashes_ok bs -> length (concat bs) = (HASH_SIZE * length bs)%nat.
Proof.
  induction 1 as [|b bs H _ IH]; [exact eq_refl|]. cbn [concat length]. rewrite length_app, H, IH. lia.
Qed.

Lemma concat_take_drop n bs : hashes_ok bs ->
  take (HASH_SIZE * n) (concat bs) = concat (take n bs) /\ drop (HASH_SIZE * n) (concat bs) = concat (drop n bs).
Proof.
  revert bs. induction n as [|n IH]; intros bs H.
  - rewrite Nat.mul_0_r. split; exact eq_refl.
  - destruct H as [|b bs Hb H]; [split; [apply firstn_nil | apply skipn_nil]|].
    cbn [concat take drop]. replace (HASH_SIZE * S n)%nat with (length b + HASH_SIZE * n)%nat by lia.
    rewrite take_app_add, drop_app_add. destruct (IH bs H) as [-> ->]. split; exact eq_refl.
Qed.

Lemma drop_2 (bs : list (list Z)) i : (i + 1 < length bs)%nat ->
  drop i bs = bs !!! i :: bs !!! (i + 1)%nat :: drop (i + 2) bs.
Proof.
  intros H. rewrite (drop_S bs (bs !!! i) i) by (apply list_lookup_lookup_total_lt; lia).
  replace (i + 2)%nat with (S (i + 1)) by lia. rewrite <- Nat.add_1_r. f_equal.
  apply drop_S, list_lookup_lookup_total_lt, H.
Qed.

Lemma hash_at_concat bs i : hashes_ok bs -> (i + 1 < length bs)%nat ->
  hash_at (concat bs) i = Some (digest (bs !!! i ++ bs !!! (i + 1)%nat)).
Proof.
  intros H Hi. unfold hash_at. rewrite (proj2 (concat_take_drop i bs H)).
  change 64%nat with (HASH_SIZE * 2)%nat. rewrite (proj1 (concat_take_drop 2 _ (hashes_ok_drop i bs H))).
  rewrite drop_2 by exact Hi.
  cbn [take concat]. rewrite app_nil_r. apply fast_hash_digest.
Qed.

Lemma store_at_concat bs j d : hashes_ok bs -> (j < length bs)%nat -> length d = HASH_SIZE ->
  store_at (concat bs) j d = concat (<[j := d]> bs).
Proof.
  intros H Hj L. unfold store_at. rewrite L. replace (HASH_SIZE * j + HASH_SIZE)%nat with (HASH_SIZE * S j)%nat by lia.
  rewrite (proj1 (concat_take_drop j bs H)), (proj2 (concat_take_drop (S j) bs H)).
  rewrite insert_take_drop by exact Hj. rewrite concat_app. exact eq_refl.
Qed.

Lemma hashes_ok_insert bs j d : hashes_ok bs -> length d = HASH_SIZE -> hashes_ok (<[j := d]> bs).
Proof. intros. by apply Forall_insert. Qed.

(** ** Pairs *)

Fixpoint pairs (bs : list (list Z)) : list (list Z) :=
  match bs with a :: b :: l => digest (a ++ b) :: pairs l | _ => bs end.

Lemma pair_ind {A} (P : list A -> Prop) :
  P [] -> (forall a, P [a]) -> (forall a b l, P l -> P (a :: b :: l)) -> forall l, P l.
Proof.
  intros H0 H1 H2. fix IH 1. intros [|a [|b l]]; [exact H0 | apply H1 | apply H2, IH].
Qed.

Lemma pairs_step bs i n : (i + 2 * S n <= length bs)%nat ->
  pairs (take (2 * S n) (drop i bs))
  = digest (bs !!! i ++ bs !!! (i + 1)%nat) :: pairs (take (2 * n) (drop (i + 2) bs)).
Proof.
  intros H. rewrite drop_2 by lia. replace (2 * S n)%nat with (S (S (2 * n))) by lia. exact eq_refl.
Qed.

Lemma pairs_ok bs : hashes_ok bs -> hashes_ok (pairs bs).
Proof.
  revert bs. apply (pair_ind (fun bs => hashes_ok bs -> hashes_ok (pairs bs))); [done | done|].
  intros a b l IH H. apply hashes_ok_cons in H as [_ H]. apply hashes_ok_cons in H as [_ H].
  apply hashes_ok_cons. split; [apply fast_hash_digest | exact (IH H)].
Qed.

Lemma length_pairs bs n : length bs = (2 * n)%nat -> length (pairs bs) = n.
Proof.
  revert bs. induction n as [|n IH]; intros bs L.
  - apply nil_length_inv in L. by subst bs.
  - destruct bs as [|a [|b l]]; cbn [length] in L; [lia | lia|]. cbn [pairs length]. f_equal. apply IH. lia.
Qed.

Lemma take_S_insert (bs : list (list Z)) j d : (j < length bs)%nat -> take (S j) (<[j := d]> bs) = take j bs ++ [d].
Proof.
  intros H. rewrite (take_S_r _ j d) by (apply list_lookup_insert_eq, H). by rewrite take_insert_ge by lia.
Qed.

(** ** The loops *)

Lemma tree_first_spec hs : hashes_ok hs -> forall n i j bs, hashes_ok bs -> (i + 2 * n <= length hs)%nat ->
  length bs = (j + n)%nat ->
  tree_first n (concat hs) i j (concat bs)
  = Some ((i + 2 * n)%nat, concat (take j bs ++ pairs (take (2 * n) (drop i hs)))).
Proof.
  intros Hh. induction n as [|n IH]; intros i j bs Hb Hi L.
  - cbn [tree_first]. rewrite take_0. cbn [pairs]. rewrite app_nil_r, take_ge, Nat.add_0_r by lia. exact eq_refl.
  - cbn [tree_first]. rewrite hash_at_concat by (exact Hh || lia). cbn [mbind option_bind].
    set (d := digest (hs !!! i ++ hs !!! (i + 1)%nat)).
    assert (Ld : length d = HASH_SIZE) by apply fast_hash_digest.
    rewrite store_at_concat by (exact Hb || exact Ld || lia).
    rewrite IH by (exact (hashes_ok_insert bs j d Hb Ld) || rewrite ?length_insert; lia).
    rewrite pairs_step by lia. fold d. rewrite take_S_insert by lia.
    f_equal. f_equal; [lia|]. by rewrite <- app_assoc.
Qed.

Lemma tree_level_spec : forall n i j bs, hashes_ok bs -> (j <= i)%nat -> (i + 2 * n <= length bs)%nat ->
  tree_level n i j (concat bs)
  = Some (concat (take j bs ++ pairs (take (2 * n) (drop i bs)) ++ drop (j + n) bs)).
Proof.
  induction n as [|n IH]; intros i j bs Hb Hij Hi.
  - cbn [tree_level]. rewrite take_0, Nat.add_0_r. cbn [pairs app]. by rewrite take_drop.
  - cbn [tree_level]. rewrite hash_at_concat by (exact Hb || lia). cbn [mbind option_bind].
    set (d := digest (bs !!! i ++ bs !!! (i + 1)%nat)).
    assert (Ld : length d = HASH_SIZE) by apply fast_hash_digest.
    rewrite store_at_concat by (exact Hb || exact Ld || lia).
    rewrite IH by (exact (hashes_ok_insert bs j d Hb Ld) || rewrite ?length_insert; lia).
    rewrite pairs_step by lia. fold d. rewrite take_S_insert by lia.
    rewrite !drop_insert_lt by lia. f_equal. f_equal. rewrite <- app_assoc. cbn [app].
    do 4 f_equal. lia.
Qed.

Lemma tree_up_spec k : forall fuel bs, (k <= fuel)%nat -> hashes_ok bs -> (2 ^ S k <= length bs)%nat ->
  exists bs', tree_up fuel (2 ^ S k) (concat bs) = Some (concat bs') /\ hashes_ok bs' /\
    take 2 bs' = Nat.iter k pairs (take (2 ^ S k) bs).
Proof.
  induction k as [|k IH]; intros fuel bs Hf Hb L.
  - exists bs. destruct fuel; split_and!; exact eq_refl || exact Hb.
  - destruct fuel as [|fuel]; [lia|].
    assert (P : (2 ^ S (S k) = 2 * 2 ^ S k)%nat) by apply Nat.pow_succ_r'.
    assert (Q : (2 <= 2 ^ S k)%nat) by (rewrite Nat.pow_succ_r'; pose proof (Nat.pow_nonzero 2 k); lia).
    cbn [tree_up]. rewrite (proj2 (Nat.ltb_lt 2 (2 ^ S (S k)))) by lia.
    assert (D : (2 ^ S (S k) / 2 = 2 ^ S k)%nat) by (rewrite P, Nat.mul_comm; apply Nat.div_mul; lia).
    cbv zeta. rewrite D.
    rewrite tree_level_spec by (exact Hb || lia). cbn [take app drop mbind option_bind].
    set (bs1 := pairs (take (2 * 2 ^ S k) bs) ++ drop (0 + 2 ^ S k) bs).
    assert (L1 : length (pairs (take (2 * 2 ^ S k) bs)) = (2 ^ S k)%nat) by (apply length_pairs; rewrite length_take; lia).
    destruct (IH fuel bs1) as (bs' & E & H' & T); [lia | | |].
    + apply hashes_ok_app; [apply pairs_ok|]; auto.
    + unfold bs1. rewrite length_app. lia.
    + exists bs'. split; [exact E|]. split; [exact H'|]. rewrite T, P. unfold bs1.
      rewrite (take_app_length' _ _ _ (eq_sym L1)), Nat.iter_succ_r. exact eq_refl.
Qed.

(** ** Pairings of trees *)

Lemma mpairs_map {A B} (f : A -> B) (T : list (mtree A)) : map (mmap f) (mpairs T) = mpairs (map (mmap f) T).
Proof.
  revert T. apply (pair_ind (fun T => map (mmap f) (mpairs T) = mpairs (map (mmap f) T))); [done | done|].
  intros a b l IH. cbn [mpairs map mmap]. by rewrite IH.
Qed.

Lemma mpairs_root (T : list (mtree (list Z))) :
  map (mroot digest) (mpairs T) = pairs (map (mroot digest) T).
Proof.
  revert T. apply (pair_ind (fun T => map (mroot digest) (mpairs T) = pairs (map (mroot digest) T))); [done | done|].
  intros a b l IH. cbn [mpairs map mroot pairs]. by rewrite IH.
Qed.

Lemma mpairs_leaves {A} (T : list (mtree A)) : concat (map mleaves (mpairs T)) = concat (map mleaves T).
Proof.
  revert T. apply (pair_ind (fun T => concat (map mleaves (mpairs T)) = concat (map mleaves T))); [done | done|].
  intros a b l IH. cbn [mpairs map mleaves concat]. rewrite IH. by rewrite <- app_assoc.
Qed.

Lemma length_mpairs {A} (T : list (mtree A)) n : length T = (2 * n)%nat -> length (mpairs T) = n.
Proof.
  revert T. induction n as [|n IH]; intros T L.
  - apply nil_length_inv in L. by subst T.
  - destruct T as [|a [|b l]]; cbn [length] in L; [lia | lia|]. cbn [mpairs length]. f_equal. apply IH. lia.
Qed.

Lemma mpairs_depth {A} d n (T : list (mtree A)) : length T = (2 * n)%nat -> Forall (mdepth d) T ->
  Forall (mdepth (S d)) (mpairs T).
Proof.
  revert T. induction n as [|n IH]; intros T L H.
  - apply nil_length_inv in L. subst T. constructor.
  - destruct T as [|a [|b l]]; cbn [length] in L; [lia | lia|]. apply Forall_cons_1 in H as [Ha H].
    apply Forall_cons_1 in H as [Hb H]. cbn [mpairs]. constructor; [split; assumption|]. apply IH; [lia | exact H].
Qed.

Lemma mpairs_leaf_depth {A} n (l : list A) : length l = (2 * n)%nat -> Forall (mdepth 0) (mpairs (map Leaf l)).
Proof.
  revert l. induction n as [|n IH]; intros l L.
  - apply nil_length_inv in L. subst l. constructor.
  - destruct l as [|a [|b l]]; cbn [length] in L; [lia | lia|]. cbn [map mpairs]. constructor; [exact I|].
    apply IH. lia.
Qed.

(** *** The first level *)

Section level.
Context {A : Type} (k : nat) (l : list A) (L : (2 ^ k < length l <= 2 * 2 ^ k)%nat).

Lemma merkle_level_length : length (merkle_level k l) = (2 ^ k)%nat.
Proof using L.
  unfold merkle_level. rewrite length_app, length_map, length_take.
  rewrite (length_mpairs _ (length l - 2 ^ k)) by (rewrite length_map, length_drop; lia). lia.
Qed.

Lemma merkle_level_depth : Forall (mdepth 0) (merkle_level k l).
Proof using L.
  unfold merkle_level. apply Forall_app. split.
  - apply Forall_map, Forall_true. intros x. exact I.
  - apply (mpairs_leaf_depth (length l - 2 ^ k)). rewrite length_drop. lia.
Qed.

Lemma merkle_level_leaves : concat (map mleaves (merkle_level k l)) = l.
Proof using.
  clear L. unfold merkle_level. rewrite map_app, concat_app, mpairs_leaves, !map_map. cbn [mleaves].
  rewrite <- concat_app, <- map_app, take_drop. induction l as [|x l' IH]; [done|]. cbn [map concat app]. by rewrite IH.
Qed.

(** [j] pairings later. *)
Lemma merkle_iter j : (j <= k)%nat ->
  length (Nat.iter j mpairs (merkle_level k l)) = (2 ^ (k - j))%nat /\
  Forall (mdepth j) (Nat.iter j mpairs (merkle_level k l)).
Proof using L.
  induction j as [|j IH]; intros H.
  - rewrite Nat.sub_0_r. split; [exact merkle_level_length | exact merkle_level_depth].
  - destruct (IH ltac:(lia)) as [E D].
    assert (P : (2 ^ (k - j) = 2 * 2 ^ (k - S j))%nat)
      by (replace (k - j)%nat with (S (k - S j)) by lia; apply Nat.pow_succ_r').
    rewrite P in E. cbn [Nat.iter nat_rect]. split; [exact (length_mpairs _ _ E) | exact (mpairs_depth _ _ _ E D)].
Qed.

Lemma merkle_iter_leaves j : concat (map mleaves (Nat.iter j mpairs (merkle_level k l))) = l.
Proof using.
  clear L. induction j as [|j IH]; [exact merkle_level_leaves|]. cbn [Nat.iter nat_rect]. by rewrite mpairs_leaves.
Qed.
End level.

Lemma log2_bounds (n : nat) : (2 <= n)%nat -> (2 ^ Nat.log2 (n - 1) < n <= 2 * 2 ^ Nat.log2 (n - 1))%nat.
Proof. intros H. pose proof (Nat.log2_spec (n - 1) ltac:(lia)) as S. rewrite Nat.pow_succ_r' in S. lia. Qed.

(** The last pairing leaves one tree. *)
Lemma merkle_tree_one {A} (l : list A) a : (2 <= length l)%nat ->
  merkle_trees (Nat.log2 (length l - 1)) l = [merkle_tree l a].
Proof.
  intros H. pose proof (log2_bounds (length l) H) as B. set (k := Nat.log2 (length l - 1)) in *.
  destruct (merkle_iter k l B k (Nat.le_refl _)) as [E _]. rewrite Nat.sub_diag in E.
  unfold merkle_tree. rewrite (proj2 (Nat.leb_gt (length l) 1)) by lia. fold k. unfold merkle_trees in *.
  destruct (Nat.iter k mpairs (merkle_level k l)) as [|t [|? ?]]; [discriminate E | done | discriminate E].
Qed.

Lemma merkle_tree_leaves {A} (l : list A) a : (1 <= length l)%nat -> mleaves (merkle_tree l a) = l.
Proof.
  intros H. destruct (Nat.le_gt_cases 2 (length l)) as [N|N].
  - pose proof (merkle_iter_leaves (Nat.log2 (length l - 1)) l (Nat.log2 (length l - 1))) as E.
    pose proof (merkle_tree_one l a N) as O. unfold merkle_trees in O. rewrite O in E. cbn [map concat] in E.
    by rewrite app_nil_r in E.
  - destruct l as [|x [|y l]]; cbn [length] in *; [lia | done | lia].
Qed.

Lemma merkle_tree_depth {A} (l : list A) a : (2 <= length l)%nat ->
  mdepth (Nat.log2 (length l - 1)) (merkle_tree l a).
Proof.
  intros N. pose proof (proj2 (merkle_iter (Nat.log2 (length l - 1)) l (log2_bounds _ N) _ (Nat.le_refl _))) as D.
  pose proof (merkle_tree_one l a N) as O. unfold merkle_trees in O. rewrite O in D.
  by apply Forall_cons_1 in D as [D _].
Qed.

(** The shape depends on the number of leaves only. *)
Lemma merkle_level_map {A B} (f : A -> B) k l : merkle_level k (map f l) = map (mmap f) (merkle_level k l).
Proof.
  unfold merkle_level. rewrite length_map, firstn_map, skipn_map, map_app, mpairs_map, !map_map. exact eq_refl.
Qed.

Lemma merkle_tree_map {A B} (f : A -> B) l a : merkle_tree (map f l) (f a) = mmap f (merkle_tree l a).
Proof.
  unfold merkle_tree. rewrite length_map. destruct (length l <=? 1)%nat.
  - destruct l; exact eq_refl.
  - unfold merkle_trees. rewrite merkle_level_map. generalize (Nat.log2 (length l - 1)) at 1 3 as j.
    intros j. assert (E : forall T, Nat.iter j mpairs (map (mmap f) T) = map (mmap f) (Nat.iter j mpairs T)).
    { intros T. induction j as [|j IH]; [done|]. rewrite !Nat.iter_succ. by rewrite IH, mpairs_map. }
    rewrite E. by destruct (Nat.iter j mpairs (merkle_level _ l)).
Qed.

(** ** The functions *)

Lemma tree_pow_spec k count : 2 ^ k < count <= 2 ^ (k + 1) -> 0 <= k < 63 ->
  forall fuel j, 0 <= j <= k + 1 -> k + 1 - j <= Z.of_nat fuel -> tree_pow fuel (2 ^ j) count = Some (2 ^ (k + 1)).
Proof.
  intros C K. induction fuel as [|fuel IH]; intros j J F.
  - replace j with (k + 1) by lia. cbn [tree_pow]. by rewrite (proj2 (Z.ltb_ge _ _)) by lia.
  - cbn [tree_pow]. destruct (Z.eq_dec j (k + 1)) as [->|N].
    + by rewrite (proj2 (Z.ltb_ge _ _)) by lia.
    + assert (M : 2 ^ j <= 2 ^ k) by (apply Z.pow_le_mono_r; lia).
      rewrite (proj2 (Z.ltb_lt _ _)) by lia. rewrite Z.shiftl_mul_pow2, <- Z.pow_add_r by lia.
      assert (P : 2 ^ (j + 1) < 2 ^ 64) by (apply Z.pow_lt_mono_r; lia).
      rewrite u64_id by (split; [apply Z.pow_nonneg; lia | exact P]). apply IH; lia.
Qed.

Lemma log2_count count : 3 <= count <= 2 ^ 28 ->
  2 ^ Z.log2 (count - 1) < count <= 2 ^ (Z.log2 (count - 1) + 1) /\ 1 <= Z.log2 (count - 1) < 28.
Proof.
  intros H. pose proof (Z.log2_spec (count - 1) ltac:(lia)) as S.
  split; [unfold Z.succ in S; lia|]. split.
  - apply (Z.log2_le_mono 2). lia.
  - apply Z.log2_lt_pow2; lia.
Qed.

Lemma tree_hash_cnt_spec count : 3 <= count <= 2 ^ 28 -> tree_hash_cnt count = Some (2 ^ Z.log2 (count - 1)).
Proof.
  intros H. destruct (log2_count count H) as [C K]. set (k := Z.log2 (count - 1)) in *. unfold tree_hash_cnt.
  rewrite (proj2 (Z.leb_le 3 count)), (proj2 (Z.leb_le count 0x10000000)) by lia. cbn [negb].
  change 2 with (2 ^ 1) at 1. rewrite (tree_pow_spec k count C) by lia. cbn [mbind option_bind].
  rewrite Z.shiftr_div_pow2, Z.pow_add_r, Z.pow_1_r, Z.div_mul by lia. exact eq_refl.
Qed.

(** The zero bytes behind the copied hashes are hashes of zeros. *)
Lemma zero_hashes n : replicate (n * HASH_SIZE) (0 : Z) = concat (replicate n (replicate HASH_SIZE 0)).
Proof.
  induction n as [|n IH]; [exact eq_refl|]. rewrite Nat.mul_succ_l, Nat.add_comm, replicate_add, IH. exact eq_refl.
Qed.

Lemma take_2_lookup (bs : list (list Z)) t1 t2 : take 2 bs = [t1; t2] -> take 2 bs = [t1] ++ [t2].
Proof. intros ->. exact eq_refl. Qed.

(** The general case. *)
Lemma tree_hash_large hs k : hashes_ok hs -> (S k <= 28)%nat -> (2 ^ S k < length hs <= 2 * 2 ^ S k)%nat ->
  let start := (2 * 2 ^ S k - length hs)%nat in
  let ints := take (start * HASH_SIZE) (concat hs) ++ replicate ((2 ^ S k - start) * HASH_SIZE) 0 in
  exists ints1 ints2,
    tree_first (2 ^ S k - start) (concat hs) start start ints = Some (length hs, ints1) /\
    tree_up 28 (2 ^ S k) ints1 = Some ints2 /\
    fast_hash (take 64 ints2) = Some (mroot digest (merkle_tree hs [])).
Proof.
  intros Hh K B start ints.
  assert (S' : (2 ^ S k = start + (length hs - 2 ^ S k))%nat) by (unfold start; lia).
  set (zs := replicate (2 ^ S k - start) (replicate HASH_SIZE (0 : Z))).
  set (bs := take start hs ++ zs).
  assert (Hb : hashes_ok bs) by (apply hashes_ok_app; [auto | apply Forall_replicate; exact eq_refl]).
  assert (Lt : length (take start hs) = start) by (rewrite length_take; lia).
  assert (Ei : ints = concat bs).
  { unfold ints, bs, zs. rewrite (Nat.mul_comm start), (proj1 (concat_take_drop start hs Hh)), zero_hashes.
    by rewrite concat_app. }
  set (bs1 := map (mroot digest) (merkle_level (S k) hs)).
  exists (concat bs1).
  assert (E1 : tree_first (2 ^ S k - start) (concat hs) start start ints = Some (length hs, concat bs1)).
  { rewrite Ei, tree_first_spec; [|exact Hh | exact Hb | lia | unfold bs, zs; rewrite length_app, length_replicate; lia].
    replace (start + 2 * (2 ^ S k - start))%nat with (length hs) by lia. f_equal. f_equal. f_equal.
    unfold bs1, merkle_level. fold start. rewrite map_app, mpairs_root, !map_map. cbn [mroot]. rewrite !map_id.
    unfold bs. rewrite (take_app_length' _ _ _ (eq_sym Lt)). f_equal. f_equal.
    apply take_ge. rewrite length_drop. lia. }
  assert (Hb1 : hashes_ok bs1).
  { unfold bs1, merkle_level. rewrite map_app, mpairs_root, !map_map. cbn [mroot]. rewrite !map_id.
    apply hashes_ok_app; [|apply pairs_ok]; auto. }
  assert (L1 : length bs1 = (2 ^ S k)%nat) by (unfold bs1; rewrite length_map; apply merkle_level_length, B).
  destruct (tree_up_spec k 28 bs1 ltac:(lia) Hb1 ltac:(lia)) as (bs2 & E2 & Hb2 & T2).
  exists (concat bs2). split; [exact E1|]. split; [exact E2|].
  change 64%nat with (HASH_SIZE * 2)%nat. rewrite (proj1 (concat_take_drop 2 bs2 Hb2)), T2, take_ge by lia.
  assert (Ek : Nat.log2 (length hs - 1) = S k) by (apply Nat.log2_unique; [lia|]; rewrite (Nat.pow_succ_r' 2 (S k)); lia).
  assert (N : (2 <= length hs)%nat) by (pose proof (Nat.pow_nonzero 2 (S k)); lia).
  pose proof (merkle_tree_one hs [] N) as O. rewrite Ek in O. unfold merkle_trees in O. rewrite Nat.iter_succ in O.
  assert (M : Nat.iter k pairs bs1 = map (mroot digest) (Nat.iter k mpairs (merkle_level (S k) hs))).
  { unfold bs1. generalize (merkle_level (S k) hs) as T. intros T. clear. induction k as [|k IH]; [exact eq_refl|].
    by rewrite !Nat.iter_succ, IH, mpairs_root. }
  rewrite M. destruct (merkle_iter (S k) hs B k ltac:(lia)) as [E _].
  replace (2 ^ (S k - k))%nat with 2%nat in E by (replace (S k - k)%nat with 1%nat by lia; exact eq_refl).
  destruct (Nat.iter k mpairs (merkle_level (S k) hs)) as [|t1 [|t2 [|? ?]]]; try discriminate E.
  cbn [mpairs] in O. injection O as O. rewrite <- O. cbn [map concat mroot]. rewrite app_nil_r.
  apply fast_hash_digest.
Qed.

Lemma tree_hash_spec hs : hashes_ok hs -> (1 <= length hs)%nat -> Z.of_nat (length hs) <= 2 ^ 28 ->
  tree_hash (concat hs) (Z.of_nat (length hs)) = Some (mroot digest (merkle_tree hs [])).
Proof.
  intros Hh N1 N2. unfold tree_hash. rewrite (proj2 (Z.ltb_lt 0 _)) by lia. cbn [negb].
  destruct (Z.eqb_spec (Z.of_nat (length hs)) 1) as [E|N3].
  { destruct hs as [|h [|? ?]]; cbn [length] in *; try lia. apply hashes_ok_cons in Hh as [Lh _].
    cbn [concat]. rewrite app_nil_r, take_ge by lia. exact eq_refl. }
  destruct (Z.eqb_spec (Z.of_nat (length hs)) 2) as [E|N4].
  { destruct hs as [|h1 [|h2 [|? ?]]]; cbn [length] in *; try lia.
    rewrite take_ge by (rewrite (length_concat [h1; h2]) by exact Hh; exact (Nat.le_refl 64)).
    cbn [concat]. rewrite app_nil_r. apply fast_hash_digest. }
  destruct (log2_count (Z.of_nat (length hs)) ltac:(lia)) as [C K].
  rewrite tree_hash_cnt_spec by lia. cbn [mbind option_bind].
  destruct (Z.to_nat (Z.log2 (Z.of_nat (length hs) - 1))) as [|k] eqn:Ek; [lia|].
  replace (Z.log2 (Z.of_nat (length hs) - 1)) with (Z.of_nat (S k)) in * by lia.
  replace (2 ^ Z.of_nat (S k)) with (Z.of_nat (2 ^ S k)) in * by (rewrite Nat2Z.inj_pow; exact eq_refl).
  replace (2 ^ (Z.of_nat (S k) + 1)) with (2 * Z.of_nat (2 ^ S k)) in C
    by (rewrite Z.pow_add_r, Nat2Z.inj_pow by lia; lia).
  destruct (tree_hash_large hs k Hh ltac:(lia) ltac:(lia)) as (ints1 & ints2 & E1 & E2 & E3).
  cbv zeta. rewrite Nat2Z.id. replace (Z.to_nat (2 * Z.of_nat (2 ^ S k) - Z.of_nat (length hs)))
    with (2 * 2 ^ S k - length hs)%nat by lia.
  rewrite E1. cbn [mbind option_bind]. rewrite Z.eqb_refl. cbn [negb]. rewrite E2. exact E3.
Qed.

(** ** Binding *)

(** Two hash calls at the same place whose inputs differ and whose digests agree. *)
Definition collision_in (c c' : list (list Z)) : Prop :=
  exists x y, In (x, y) (combine c c') /\ x <> y /\ digest x = digest y.

Lemma mroot_length (t : mtree (list Z)) : hashes_ok (mleaves t) -> length (mroot digest t) = HASH_SIZE.
Proof.
  destruct t as [a|l r]; cbn [mleaves mroot]; intros H.
  - exact (proj1 (proj1 (hashes_ok_cons a []) H)).
  - apply fast_hash_digest.
Qed.

Lemma length_mcalls {A} (f g : A -> list Z) t :
  length (mcalls digest (mmap f t)) = length (mcalls digest (mmap g t)).
Proof. induction t as [a|l IHl r IHr]; [done|]. cbn [mmap mcalls length]. by rewrite !length_app, IHl, IHr. Qed.

Lemma combine_app {A B} (l1 l2 : list A) (m1 m2 : list B) : length l1 = length m1 ->
  combine (l1 ++ l2) (m1 ++ m2) = combine l1 m1 ++ combine l2 m2.
Proof.
  revert m1. induction l1 as [|a l1 IH]; intros [|b m1] L; try discriminate L; [done|].
  cbn [app combine]. f_equal. apply IH. by injection L.
Qed.

Lemma mtree_binding {A} (f g : A -> list Z) (t : mtree A) :
  hashes_ok (map f (mleaves t)) -> hashes_ok (map g (mleaves t)) ->
  mroot digest (mmap f t) = mroot digest (mmap g t) ->
  map f (mleaves t) = map g (mleaves t) \/ collision_in (mcalls digest (mmap f t)) (mcalls digest (mmap g t)).
Proof.
  induction t as [a|l IHl r IHr]; cbn [mmap mroot mleaves mcalls map]; intros Hf Hg E; [left; by rewrite E|].
  rewrite map_app in Hf, Hg. apply Forall_app in Hf as [Hfl Hfr], Hg as [Hgl Hgr].
  assert (ML : forall (h : A -> list Z) u, mleaves (mmap h u) = map h (mleaves u)).
  { intros h u. induction u as [|u1 IH1 u2 IH2]; [done|]. cbn [mmap mleaves]. by rewrite IH1, IH2, map_app. }
  destruct (decide (mroot digest (mmap f l) ++ mroot digest (mmap f r)
                    = mroot digest (mmap g l) ++ mroot digest (mmap g r))) as [S|N].
  - apply app_inj_1 in S as [S1 S2]; [|by rewrite !mroot_length by (rewrite ML; assumption)].
    destruct (IHl Hfl Hgl S1) as [El|Cl]; [destruct (IHr Hfr Hgr S2) as [Er|Cr]|].
    + left. by rewrite !map_app, El, Er.
    + right. destruct Cr as (x & y & I & C). exists x, y. split; [|exact C]. cbn [combine]. right.
      rewrite combine_app by apply length_mcalls. apply in_or_app. by right.
    + right. destruct Cl as (x & y & I & C). exists x, y. split; [|exact C]. cbn [combine]. right.
      rewrite combine_app by apply length_mcalls. apply in_or_app. by left.
  - right. eexists _, _. split; [left; exact eq_refl|]. split; [exact N | exact E].
Qed.

Lemma merkle_binding hs hs' : hashes_ok hs -> hashes_ok hs' -> length hs = length hs' -> (1 <= length hs)%nat ->
  mroot digest (merkle_tree hs []) = mroot digest (merkle_tree hs' []) ->
  hs = hs' \/ collision_in (mcalls digest (merkle_tree hs [])) (mcalls digest (merkle_tree hs' [])).
Proof.
  intros H H' L N E. set (t := merkle_tree (zip hs hs') ([], [])).
  assert (F : forall l1 l2 : list (list Z), length l1 = length l2 -> map fst (zip l1 l2) = l1 /\ map snd (zip l1 l2) = l2).
  { induction l1 as [|a l1 IH]; intros [|b l2] Ll; try discriminate Ll; [done|].
    cbn. destruct (IH l2 ltac:(by injection Ll)) as [E1 E2]. by rewrite E1, E2. }
  destruct (F hs hs' L) as [F1 F2].
  assert (T1 : merkle_tree hs [] = mmap fst t) by (unfold t; rewrite <- F1 at 1; apply (merkle_tree_map fst _ ([], []))).
  assert (T2 : merkle_tree hs' [] = mmap snd t) by (unfold t; rewrite <- F2 at 1; apply (merkle_tree_map snd _ ([], []))).
  assert (ML : mleaves t = zip hs hs').
  { apply merkle_tree_leaves. rewrite <- (length_map fst). fold (zip hs hs'). by rewrite F1. }
  rewrite T1, T2 in E |- *. pose proof (mtree_binding fst snd t) as M. rewrite ML, F1, F2 in M. by apply M.
Qed.
