(* ===== verification/TreeCorrect.v ===== *)
(** * Properties of the Merkle tree (tree-hash.c)

    The power of two of [tree_hash_cnt], the tree [tree_hash] computes, and its
    commitment to the leaves. *)

From Stdlib Require Import ZArith Lia.
From stdpp Require Import base tactics list numbers option.
From S2P Require Import Prelude Radix Words Keccak KeccakSpec KeccakSponge TreeHash TreeProofs.
Open Scope Z_scope.

#[local] Opaque keccakf.

(** [tree_hash_cnt] returns for each count from 3 to 2^28 the one power of
    two [p] with [p < count <= 2p], so that half of [count] for a power of two;
    its loop ends within 28 steps. Outside of the range an assertion of
    [tree_hash_cnt], and one of [tree_hash] for a count above 2^28 or not above
    0, fails. *)
Theorem tree_hash_cnt_correct count :
  (3 <= count <= 2 ^ 28 -> exists k, 1 <= k < 28 /\ tree_hash_cnt count = Some (2 ^ k) /\
     2 ^ k < count <= 2 * 2 ^ k /\
     (forall j, count = 2 ^ j -> 2 * 2 ^ k = count)) /\
  (count < 3 \/ 2 ^ 28 < count -> tree_hash_cnt count = None) /\
  (forall hashes, count <= 0 \/ 2 ^ 28 < count -> tree_hash hashes count = None).
Proof.
  assert (N : count < 3 \/ 2 ^ 28 < count -> tree_hash_cnt count = None).
  { intros H. unfold tree_hash_cnt. destruct (Z.leb_spec 3 count); [|done].
    destruct (Z.leb_spec count 0x10000000); [lia | done]. }
  split; [|split; [exact N|]].
  - intros H. destruct (log2_count count H) as [C K]. exists (Z.log2 (count - 1)).
    assert (P : 2 ^ (Z.log2 (count - 1) + 1) = 2 * 2 ^ Z.log2 (count - 1)) by (rewrite Z.pow_add_r by lia; lia).
    split; [exact K|]. split; [exact (tree_hash_cnt_spec count H)|]. split; [lia|].
    intros j E. destruct (Z.lt_ge_cases j 0) as [J|J]; [rewrite Z.pow_neg_r in E by exact J; lia|].
    rewrite <- P. transitivity (2 ^ j); [|exact (eq_sym E)].
    f_equal. apply Z.le_antisymm.
    + assert (Z.log2 (count - 1) < j) by (apply (Z.pow_lt_mono_r_iff 2); lia). lia.
    + apply (Z.pow_le_mono_r_iff 2); lia.
  - intros hashes H. unfold tree_hash. destruct (Z.ltb_spec 0 count); [cbn [negb]|done].
    destruct (Z.eqb_spec count 1); [lia|]. destruct (Z.eqb_spec count 2); [lia|]. by rewrite N by lia.
Qed.

(** Eight hashes give four, not [1 << floor(log2(8))]. *)
Lemma tree_hash_cnt_correct_witness : 3 <= 8 <= 2 ^ 28 /\ tree_hash_cnt 8 = Some 4.
Proof.
  assert (H : 3 <= 8 <= 2 ^ 28) by lia. split; [exact H|].
  destruct (proj1 (tree_hash_cnt_correct 8) H) as (k & K & E & _ & P). specialize (P 3 eq_refl).
  rewrite E. f_equal. lia.
Defined.

(** C36. For one to 2^28 hashes of 32 bytes, [tree_hash] passes its assertions and
    returns the root of a binary tree over [cn_fast_hash] whose leaves are the
    hashes in their order, each once, all at one of two neighbouring depths; the
    working array never mixes hashes of two levels. *)
Theorem tree_hash_correct hs : hashes_ok hs -> 1 <= Z.of_nat (length hs) <= 2 ^ 28 ->
  exists t, tree_hash (concat hs) (Z.of_nat (length hs)) = Some (mroot digest t) /\
    t = merkle_tree hs [] /\ mleaves t = hs /\ (hs = [hd [] hs] \/ mdepth (Nat.log2 (length hs - 1)) t).
Proof.
  intros H N. exists (merkle_tree hs []). split; [exact (tree_hash_spec hs H ltac:(lia) (proj2 N))|].
  split; [exact eq_refl|]. split; [apply merkle_tree_leaves; lia|].
  destruct (Nat.le_gt_cases 2 (length hs)) as [L|L]; [right; by apply merkle_tree_depth|]. left.
  destruct hs as [|h [|? ?]]; cbn [length] in *; [lia | exact eq_refl | lia].
Qed.

Lemma tree_hash_correct_witness :
  hashes_ok [replicate 32 1; replicate 32 2; replicate 32 3] /\
  tree_hash (concat [replicate 32 1; replicate 32 2; replicate 32 3]) 3
  = Some (mroot digest (Node (Leaf (replicate 32 1)) (Node (Leaf (replicate 32 2)) (Leaf (replicate 32 3))))).
Proof.
  assert (H : hashes_ok [replicate 32 1; replicate 32 2; replicate 32 3]) by (repeat constructor).
  split; [exact H|]. assert (N : 1 <= Z.of_nat 3 <= 2 ^ 28) by lia.
  destruct (tree_hash_correct _ H N) as (t & E & T & _). rewrite T in E. exact E.
Defined.

(** The root commits to the hashes: two lists of the same number of hashes
    with the same root are equal, or at one and the same node of the two trees
    [cn_fast_hash] is called on different strings and returns one digest. *)
Theorem tree_hash_binding hs hs' r : hashes_ok hs -> hashes_ok hs' -> length hs = length hs' ->
  1 <= Z.of_nat (length hs) <= 2 ^ 28 ->
  tree_hash (concat hs) (Z.of_nat (length hs)) = Some r ->
  tree_hash (concat hs') (Z.of_nat (length hs')) = Some r ->
  hs = hs' \/ collision_in (mcalls digest (merkle_tree hs [])) (mcalls digest (merkle_tree hs' [])).
Proof.
  intros H H' L N E E'. rewrite tree_hash_spec in E, E' by (exact H || exact H' || lia).
  apply merkle_binding; [exact H | exact H' | exact L | lia | congruence].
Qed.

Lemma tree_hash_binding_witness : hashes_ok [replicate 32 1] /\ tree_hash (replicate 32 1) 1 = Some (replicate 32 1) /\
  ([replicate 32 1] = [replicate 32 1] \/ collision_in [] []).
Proof.
  assert (H : hashes_ok [replicate 32 1]) by (repeat constructor).
  assert (N : 1 <= Z.of_nat 1 <= 2 ^ 28) by lia.
  split; [exact H|]. split; [exact eq_refl|].
  exact (tree_hash_binding [replicate 32 1] [replicate 32 1] (replicate 32 1) H H eq_refl N eq_refl eq_refl).
Defined.
