(* ===== verification/IntUtil.v ===== *)
(** * Arithmetic helpers (src/Native/libcryptonote/common/int-util.h)

    Rotations of 32 and 64 bits, the product of two 64-bit words, the long
    division of a 128-bit number by a 32-bit one, and the byte swaps. *)

From Stdlib Require Import ZArith Lia.
From stdpp Require Import base tactics list numbers option.
From S2P Require Import Prelude Radix Words.
Open Scope Z_scope.

Definition rol32 (x r : Z) : Z := Z.lor (u32 (Z.shiftl x (Z.land r 31))) (Z.shiftr x (Z.land (- r) 31)).
Definition rol64 (x r : Z) : Z := Z.lor (u64 (Z.shiftl x (Z.land r 63))) (Z.shiftr x (Z.land (- r) 63)).

Definition hi_dword (val : Z) : Z := Z.shiftr val 32.
Definition lo_dword (val : Z) : Z := Z.land val 0xFFFFFFFF.

(** [product_lo] and [*product_hi]; [None] is the failed assertion. *)
Definition mul128 (multiplier multiplicand : Z) : option (Z * Z) :=
  let a := hi_dword multiplier in
  let b := lo_dword multiplier in
  let c := hi_dword multiplicand in
  let d := lo_dword multiplicand in
  let ac := u64 (a * c) in
  let ad := u64 (a * d) in
  let bc := u64 (b * c) in
  let bd := u64 (b * d) in
  let adbc := u64 (ad + bc) in
  let adbc_carry := if adbc <? ad then 1 else 0 in
  let product_lo := u64 (bd + u64 (Z.shiftl adbc 32)) in
  let product_lo_carry := if product_lo <? bd then 1 else 0 in
  let product_hi := u64 (ac + Z.shiftr adbc 32 + u64 (Z.shiftl adbc_carry 32) + product_lo_carry) in
  if negb (ac <=? product_hi) then None else Some (product_lo, product_hi).

(** The quotient and the new remainder; [None] is a division by zero. *)
Definition div_with_reminder (dividend divisor remainder : Z) : option (Z * Z) :=
  let dividend := Z.lor dividend (u64 (Z.shiftl remainder 32)) in
  if divisor =? 0 then None else Some (dividend / divisor, u32 (dividend mod divisor)).

(** The quotient's halves and the remainder. *)
Definition div128_32 (dividend_hi dividend_lo divisor : Z) : option (Z * Z * Z) :=
  '(q3, remainder) ← div_with_reminder (hi_dword dividend_hi) divisor 0;
  '(q2, remainder) ← div_with_reminder (lo_dword dividend_hi) divisor remainder;
  '(q1, remainder) ← div_with_reminder (hi_dword dividend_lo) divisor remainder;
  '(q0, remainder) ← div_with_reminder (lo_dword dividend_lo) divisor remainder;
  Some (Z.lor (u64 (Z.shiftl q3 32)) q2, Z.lor (u64 (Z.shiftl q1 32)) q0, remainder).

Definition SWAP32 (x : Z) : Z :=
  Z.lor (Z.lor (Z.lor (u32 (Z.shiftl (Z.land x 0x000000ff) 24)) (u32 (Z.shiftl (Z.land x 0x0000ff00) 8)))
    (Z.shiftr (Z.land x 0x00ff0000) 8)) (Z.shiftr (Z.land x 0xff000000) 24).
Definition SWAP64 (x : Z) : Z :=
  Z.lor (Z.lor (Z.lor (Z.lor (Z.lor (Z.lor (Z.lor
    (u64 (Z.shiftl (Z.land x 0x00000000000000ff) 56)) (u64 (Z.shiftl (Z.land x 0x000000000000ff00) 40)))
    (u64 (Z.shiftl (Z.land x 0x0000000000ff0000) 24))) (u64 (Z.shiftl (Z.land x 0x00000000ff000000) 8)))
    (Z.shiftr (Z.land x 0x000000ff00000000) 8)) (Z.shiftr (Z.land x 0x0000ff0000000000) 24))
    (Z.shiftr (Z.land x 0x00ff000000000000) 40)) (Z.shiftr (Z.land x 0xff00000000000000) 56).

(** The functions; [SWAP32] and [SWAP64] are macros. *)
Definition ident32 (x : Z) : Z := x.
Definition ident64 (x : Z) : Z := x.
Definition swap32 (x : Z) : Z :=
  let x := Z.lor (u32 (Z.shiftl (Z.land x 0x00ff00ff) 8)) (Z.shiftr (Z.land x 0xff00ff00) 8) in
  Z.lor (u32 (Z.shiftl x 16)) (Z.shiftr x 16).
Definition swap64 (x : Z) : Z :=
  let x := Z.lor (u64 (Z.shiftl (Z.land x 0x00ff00ff00ff00ff) 8)) (Z.shiftr (Z.land x 0xff00ff00ff00ff00) 8) in
  let x := Z.lor (u64 (Z.shiftl (Z.land x 0x0000ffff0000ffff) 16)) (Z.shiftr (Z.land x 0xffff0000ffff0000) 16) in
  Z.lor (u64 (Z.shiftl x 32)) (Z.shiftr x 32).

(** The loops over [n] words of [mem], or from [src] to [dst]: lists of words. *)
Definition mem_inplace_ident (mem : list Z) (n : nat) : list Z := mem.
Definition mem_inplace_swap32 (mem : list Z) (n : nat) : list Z :=
  foldl (fun mem i => <[i := swap32 (mem !!! i)]> mem) mem (seq 0 n).
Definition mem_inplace_swap64 (mem : list Z) (n : nat) : list Z :=
  foldl (fun mem i => <[i := swap64 (mem !!! i)]> mem) mem (seq 0 n).
Definition memcpy_ident32 (dst src : list Z) (n : nat) : list Z := take n src ++ drop n dst.
Definition memcpy_ident64 (dst src : list Z) (n : nat) : list Z := take n src ++ drop n dst.
Definition memcpy_swap32 (dst src : list Z) (n : nat) : list Z :=
  foldl (fun dst i => <[i := swap32 (src !!! i)]> dst) dst (seq 0 n).
Definition memcpy_swap64 (dst src : list Z) (n : nat) : list Z :=
  foldl (fun dst i => <[i := swap64 (src !!! i)]> dst) dst (seq 0 n).

(** ** Rotations *)

Lemma land_neg_31 r : 0 < r < 32 -> Z.land r 31 = r /\ Z.land (- r) 31 = 32 - r.
Proof.
  intros H. change 31 with (Z.ones 5). rewrite !Z.land_ones by lia. split; [apply Z.mod_small; lia|].
  symmetry. apply (Z.mod_unique _ _ (-1)); lia.
Qed.

Lemma rol32_eq x r : 0 < r < 32 -> rol32 x r = Z.lor (Z.shiftl x r mod 2 ^ 32) (Z.shiftr x (32 - r)).
Proof. intros H. unfold rol32, u32. by destruct (land_neg_31 r H) as [-> ->]. Qed.

Lemma rol32_range x r : 0 <= x < 2 ^ 32 -> 0 < r < 32 -> 0 <= rol32 x r < 2 ^ 32.
Proof. intros Hx Hr. rewrite rol32_eq by exact Hr. apply rot_range; [exact Hx | lia]. Qed.

Lemma rol32_testbit x r i : 0 <= x < 2 ^ 32 -> 0 < r < 32 -> 0 <= i < 32 ->
  Z.testbit (rol32 x r) i = Z.testbit x ((i - r) mod 32).
Proof. intros Hx Hr Hi. rewrite rol32_eq by exact Hr. apply rot_testbit; [exact Hx | lia | exact Hi]. Qed.

(** ** Products and quotients *)

Lemma dword_split x : 0 <= x < 2 ^ 64 ->
  x = hi_dword x * 2 ^ 32 + lo_dword x /\ 0 <= hi_dword x < 2 ^ 32 /\ 0 <= lo_dword x < 2 ^ 32.
Proof.
  intros H. unfold hi_dword, lo_dword. change 0xFFFFFFFF with (Z.ones 32). rewrite Z.land_ones, Z.shiftr_div_pow2 by lia.
  pose proof (Z.div_mod x (2 ^ 32) ltac:(lia)). pose proof (Z.mod_pos_bound x (2 ^ 32) ltac:(lia)). lia.
Qed.

(** An unsigned sum wraps exactly when it is below an operand. *)
Lemma u64_carry x y : 0 <= x < 2 ^ 64 -> 0 <= y < 2 ^ 64 ->
  u64 (x + y) = x + y - (if u64 (x + y) <? x then 1 else 0) * 2 ^ 64.
Proof.
  intros Hx Hy. unfold u64. destruct (Z.lt_ge_cases (x + y) (2 ^ 64)) as [L|L].
  - rewrite Z.mod_small by lia. destruct (Z.ltb_spec (x + y) x); lia.
  - replace ((x + y) mod 2 ^ 64) with (x + y - 2 ^ 64) by (apply (Z.mod_unique _ _ 1); lia).
    destruct (Z.ltb_spec (x + y - 2 ^ 64) x); lia.
Qed.

Lemma mul128_spec x y : 0 <= x < 2 ^ 64 -> 0 <= y < 2 ^ 64 ->
  mul128 x y = Some ((x * y) mod 2 ^ 64, x * y / 2 ^ 64).
Proof.
  intros Hx Hy. destruct (dword_split x Hx) as (Ex & Ha & Hb), (dword_split y Hy) as (Ey & Hc & Hd).
  unfold mul128. cbv zeta.
  set (a := hi_dword x) in *. set (b := lo_dword x) in *. set (c := hi_dword y) in *. set (d := lo_dword y) in *.
  assert (M : forall u v, 0 <= u < 2 ^ 32 -> 0 <= v < 2 ^ 32 -> 0 <= u * v <= (2 ^ 32 - 1) * (2 ^ 32 - 1)) by (intros; nia).
  pose proof (M a c Ha Hc) as Mac. pose proof (M a d Ha Hd) as Mad. pose proof (M b c Hb Hc) as Mbc.
  pose proof (M b d Hb Hd) as Mbd.
  rewrite (u64_id (a * c)), (u64_id (a * d)), (u64_id (b * c)), (u64_id (b * d)) by lia.
  pose proof (u64_carry (a * d) (b * c) ltac:(lia) ltac:(lia)) as C1.
  set (adbc := u64 (a * d + b * c)) in *. set (k := if adbc <? a * d then 1 else 0) in *.
  assert (R1 : 0 <= adbc < 2 ^ 64) by apply u64_range.
  assert (K : 0 <= k <= 1) by (unfold k; destruct (adbc <? a * d); lia).
  assert (S : u64 (Z.shiftl adbc 32) = (adbc mod 2 ^ 32) * 2 ^ 32).
  { unfold u64. rewrite Z.shiftl_mul_pow2 by lia. change (2 ^ 64) with (2 ^ 32 * 2 ^ 32).
    apply Z.mul_mod_distr_r; lia. }
  pose proof (Z.div_mod adbc (2 ^ 32) ltac:(lia)) as D. pose proof (Z.mod_pos_bound adbc (2 ^ 32) ltac:(lia)) as D'.
  pose proof (Z.div_pos adbc (2 ^ 32) ltac:(lia) ltac:(lia)) as D0.
  rewrite S. pose proof (u64_carry (b * d) (adbc mod 2 ^ 32 * 2 ^ 32) ltac:(lia) ltac:(lia)) as C2.
  set (lo := u64 (b * d + adbc mod 2 ^ 32 * 2 ^ 32)) in *. set (k2 := if lo <? b * d then 1 else 0) in *.
  assert (R2 : 0 <= lo < 2 ^ 64) by apply u64_range.
  assert (K2 : 0 <= k2 <= 1) by (unfold k2; destruct (lo <? b * d); lia).
  rewrite (u64_id (Z.shiftl k 32)) by (rewrite Z.shiftl_mul_pow2 by lia; lia).
  rewrite Z.shiftr_div_pow2, Z.shiftl_mul_pow2 by lia.
  set (hi := a * c + adbc / 2 ^ 32 + k * 2 ^ 32 + k2).
  assert (P : x * y = hi * 2 ^ 64 + lo).
  { rewrite Ex, Ey. unfold hi. rewrite C2.
    transitivity (a * c * 2 ^ 64 + (a * d + b * c) * 2 ^ 32 + b * d); [ring|].
    replace (a * d + b * c) with (adbc + k * 2 ^ 64) by lia. rewrite D at 1. ring. }
  assert (Hh : 0 <= hi < 2 ^ 64) by (split; [unfold hi; lia|]; nia).
  rewrite (u64_id hi Hh). destruct (Z.leb_spec (a * c) hi) as [_|N]; [|exfalso; unfold hi in N; lia].
  cbn [negb]. f_equal. f_equal.
  - apply (Z.mod_unique _ _ hi); lia.
  - apply (Z.div_unique _ _ _ lo); lia.
Qed.

(** One step of the long division. *)
Lemma div_with_reminder_spec x d r : 0 < d < 2 ^ 32 -> 0 <= r < d -> 0 <= x < 2 ^ 32 ->
  exists q r', div_with_reminder x d r = Some (q, r') /\ r * 2 ^ 32 + x = q * d + r' /\ 0 <= r' < d /\ 0 <= q < 2 ^ 32.
Proof.
  intros Hd Hr Hx. unfold div_with_reminder. rewrite (proj2 (Z.eqb_neq d 0)) by lia.
  rewrite u64_id by (rewrite Z.shiftl_mul_pow2 by lia; lia). rewrite lor_shiftl_add by lia.
  set (n := x + 2 ^ 32 * r). pose proof (Z.div_mod n d ltac:(lia)) as D.
  pose proof (Z.mod_pos_bound n d ltac:(lia)) as B.
  exists (n / d), (n mod d). rewrite u32_id by lia. split; [done|].
  split; [unfold n in *; lia|]. split; [exact B|]. split; [apply Z.div_pos; lia|].
  apply Z.div_lt_upper_bound; [lia|]. unfold n. nia.
Qed.

Lemma div128_32_spec hi lo d : 0 <= hi < 2 ^ 64 -> 0 <= lo < 2 ^ 64 -> 0 < d < 2 ^ 32 ->
  exists qh ql, div128_32 hi lo d = Some (qh, ql, (hi * 2 ^ 64 + lo) mod d) /\
    qh * 2 ^ 64 + ql = (hi * 2 ^ 64 + lo) / d /\ 0 <= qh < 2 ^ 64 /\ 0 <= ql < 2 ^ 64.
Proof.
  intros Hh Hl Hd. destruct (dword_split hi Hh) as (Eh & H3 & H2), (dword_split lo Hl) as (El & H1 & H0).
  unfold div128_32.
  destruct (div_with_reminder_spec (hi_dword hi) d 0) as (q3 & r3 & E3 & D3 & R3 & Q3); [lia..|].
  destruct (div_with_reminder_spec (lo_dword hi) d r3) as (q2 & r2 & E2 & D2 & R2 & Q2); [lia..|].
  destruct (div_with_reminder_spec (hi_dword lo) d r2) as (q1 & r1 & E1 & D1 & R1 & Q1); [lia..|].
  destruct (div_with_reminder_spec (lo_dword lo) d r1) as (q0 & r0 & E0 & D0 & R0 & Q0); [lia..|].
  rewrite E3. cbn [mbind option_bind]. rewrite E2. cbn [mbind option_bind]. rewrite E1. cbn [mbind option_bind].
  rewrite E0. cbn [mbind option_bind].
  rewrite !u64_id by (rewrite Z.shiftl_mul_pow2 by lia; lia).
  rewrite !(Z.lor_comm (Z.shiftl _ _)), !lor_shiftl_add by lia.
  assert (P : hi * 2 ^ 64 + lo = ((q2 + 2 ^ 32 * q3) * 2 ^ 64 + (q0 + 2 ^ 32 * q1)) * d + r0).
  { rewrite Eh, El. change (2 ^ 64) with (2 ^ 32 * 2 ^ 32).
    replace (hi_dword hi) with (q3 * d + r3) by lia.
    replace (lo_dword hi) with (q2 * d + r2 - r3 * 2 ^ 32) by lia.
    replace (hi_dword lo) with (q1 * d + r1 - r2 * 2 ^ 32) by lia.
    replace (lo_dword lo) with (q0 * d + r0 - r1 * 2 ^ 32) by lia. ring. }
  exists (q2 + 2 ^ 32 * q3), (q0 + 2 ^ 32 * q1). split.
  - do 2 f_equal. apply (Z.mod_unique _ _ ((q2 + 2 ^ 32 * q3) * 2 ^ 64 + (q0 + 2 ^ 32 * q1))); [lia|]. rewrite P. ring.
  - split; [|lia]. apply (Z.div_unique _ _ _ r0); [lia|]. rewrite P. ring.
Qed.

(** ** Byte swaps *)

Lemma byte_mask x k : 0 <= k -> Z.land x (255 * 2 ^ k) = (x / 2 ^ k) mod 2 ^ 8 * 2 ^ k.
Proof.
  intros Hk. apply Z.bits_inj'. intros i Hi. rewrite <- !Z.shiftl_mul_pow2, Z.land_spec, !Z.shiftl_spec by lia.
  change 255 with (Z.ones 8). rewrite <- Z.shiftr_div_pow2 by lia. destruct (Z.lt_ge_cases i k) as [L|L].
  - rewrite !(Z.testbit_neg_r _ (i - k)) by lia. by rewrite andb_false_r.
  - destruct (Z.lt_ge_cases (i - k) 8) as [L8|L8].
    + rewrite Z.ones_spec_low, Z.mod_pow2_bits_low, Z.shiftr_spec by lia. rewrite andb_true_r. f_equal. lia.
    + rewrite Z.ones_spec_high, Z.mod_pow2_bits_high by lia. apply andb_false_r.
Qed.

Lemma lor_step h t m : 0 <= m -> 0 <= t < 2 ^ 8 -> Z.lor (h * 2 ^ (m + 8)) (t * 2 ^ m) = (h * 2 ^ 8 + t) * 2 ^ m.
Proof.
  intros Hm Ht. rewrite Z.lor_comm, <- (Z.shiftl_mul_pow2 h) by lia.
  assert (0 < 2 ^ m) by (apply Z.pow_pos_nonneg; lia).
  rewrite lor_shiftl_add by (rewrite ?Z.pow_add_r by lia; nia). rewrite Z.pow_add_r by lia. ring.
Qed.

(** A byte of [x] moved from bit [k] to bit [m]. *)
Lemma move_up w x k m : 0 <= k <= m -> m + 8 <= w ->
  Z.shiftl (Z.land x (255 * 2 ^ k)) (m - k) mod 2 ^ w = (x / 2 ^ k) mod 2 ^ 8 * 2 ^ m.
Proof.
  intros H Hw. rewrite byte_mask, Z.shiftl_mul_pow2, <- Z.mul_assoc, <- Z.pow_add_r by lia.
  replace (k + (m - k)) with m by lia. apply Z.mod_small.
  pose proof (Z.mod_pos_bound (x / 2 ^ k) (2 ^ 8) ltac:(lia)).
  assert (0 < 2 ^ m) by (apply Z.pow_pos_nonneg; lia).
  assert (2 ^ 8 * 2 ^ m <= 2 ^ w) by (rewrite <- Z.pow_add_r by lia; apply Z.pow_le_mono_r; lia). nia.
Qed.

Lemma move_down x k m : 0 <= m <= k ->
  Z.shiftr (Z.land x (255 * 2 ^ k)) (k - m) = (x / 2 ^ k) mod 2 ^ 8 * 2 ^ m.
Proof.
  intros H. rewrite byte_mask, Z.shiftr_div_pow2 by lia. replace k with (m + (k - m)) at 2 by lia.
  rewrite Z.pow_add_r, Z.mul_assoc, Z.div_mul by (try (apply Z.pow_nonzero); lia). exact eq_refl.
Qed.

(** [SWAP32] and [SWAP64] write the bytes of a word in the opposite order. *)
Lemma SWAP32_spec x : 0 <= x < 2 ^ 32 -> SWAP32 x = le_val (rev (le_bytes 4 x)).
Proof.
  intros H. unfold SWAP32, u32.
  assert (A0 : Z.shiftl (Z.land x 0xff) 24 mod 2 ^ 32 = (x / 2 ^ 0) mod 2 ^ 8 * 2 ^ 24) by exact (move_up 32 x 0 24 ltac:(lia) ltac:(lia)).
  assert (A1 : Z.shiftl (Z.land x 0xff00) 8 mod 2 ^ 32 = (x / 2 ^ 8) mod 2 ^ 8 * 2 ^ 16) by exact (move_up 32 x 8 16 ltac:(lia) ltac:(lia)).
  assert (A2 : Z.shiftr (Z.land x 0xff0000) 8 = (x / 2 ^ 16) mod 2 ^ 8 * 2 ^ 8) by exact (move_down x 16 8 ltac:(lia)).
  assert (A3 : Z.shiftr (Z.land x 0xff000000) 24 = (x / 2 ^ 24) mod 2 ^ 8 * 2 ^ 0) by exact (move_down x 24 0 ltac:(lia)).
  rewrite A0, A1, A2, A3.
  assert (B : forall k, 0 <= (x / 2 ^ k) mod 2 ^ 8 < 2 ^ 8) by (intros; apply Z.mod_pos_bound; lia).
  rewrite (lor_step _ _ 16), (lor_step _ _ 8), (lor_step _ _ 0) by (lia || apply B).
  cbn [le_bytes rev app le_val]. change (x / 2 ^ 0) with (x / 1). rewrite !div_div_pow, Z.div_1_r by lia.
  change (8 + 8) with 16. change (8 + 16) with 24. change (8 + 24) with 32.
  change (8 + 32) with 40. change (8 + 40) with 48. change (8 + 48) with 56. ring.
Qed.

Lemma SWAP64_spec x : 0 <= x < 2 ^ 64 -> SWAP64 x = le_val (rev (le_bytes 8 x)).
Proof.
  intros H. unfold SWAP64, u64.
  assert (A0 : Z.shiftl (Z.land x 0xff) 56 mod 2 ^ 64 = (x / 2 ^ 0) mod 2 ^ 8 * 2 ^ 56) by exact (move_up 64 x 0 56 ltac:(lia) ltac:(lia)).
  assert (A1 : Z.shiftl (Z.land x 0xff00) 40 mod 2 ^ 64 = (x / 2 ^ 8) mod 2 ^ 8 * 2 ^ 48) by exact (move_up 64 x 8 48 ltac:(lia) ltac:(lia)).
  assert (A2 : Z.shiftl (Z.land x 0xff0000) 24 mod 2 ^ 64 = (x / 2 ^ 16) mod 2 ^ 8 * 2 ^ 40) by exact (move_up 64 x 16 40 ltac:(lia) ltac:(lia)).
  assert (A3 : Z.shiftl (Z.land x 0xff000000) 8 mod 2 ^ 64 = (x / 2 ^ 24) mod 2 ^ 8 * 2 ^ 32) by exact (move_up 64 x 24 32 ltac:(lia) ltac:(lia)).
  assert (A4 : Z.shiftr (Z.land x 0xff00000000) 8 = (x / 2 ^ 32) mod 2 ^ 8 * 2 ^ 24) by exact (move_down x 32 24 ltac:(lia)).
  assert (A5 : Z.shiftr (Z.land x 0xff0000000000) 24 = (x / 2 ^ 40) mod 2 ^ 8 * 2 ^ 16) by exact (move_down x 40 16 ltac:(lia)).
  assert (A6 : Z.shiftr (Z.land x 0xff000000000000) 40 = (x / 2 ^ 48) mod 2 ^ 8 * 2 ^ 8) by exact (move_down x 48 8 ltac:(lia)).
  assert (A7 : Z.shiftr (Z.land x 0xff00000000000000) 56 = (x / 2 ^ 56) mod 2 ^ 8 * 2 ^ 0) by exact (move_down x 56 0 ltac:(lia)).
  rewrite A0, A1, A2, A3, A4, A5, A6, A7.
  assert (B : forall k, 0 <= (x / 2 ^ k) mod 2 ^ 8 < 2 ^ 8) by (intros; apply Z.mod_pos_bound; lia).
  rewrite (lor_step _ _ 48), (lor_step _ _ 40), (lor_step _ _ 32), (lor_step _ _ 24), (lor_step _ _ 16), (lor_step _ _ 8), (lor_step _ _ 0) by (lia || apply B).
  cbn [le_bytes rev app le_val]. change (x / 2 ^ 0) with (x / 1). rewrite !div_div_pow, Z.div_1_r by lia.
  change (8 + 8) with 16. change (8 + 16) with 24. change (8 + 24) with 32.
  change (8 + 32) with 40. change (8 + 40) with 48. change (8 + 48) with 56. ring.
Qed.

(** The functions [swap32] and [swap64] are the macros. *)
Lemma swap32_SWAP32 x : 0 <= x < 2 ^ 32 -> swap32 x = SWAP32 x.
Proof.
  intros Hx. apply (bits_eq 32); [lia | | |].
  - unfold swap32, u32. cbv zeta. word_range.
  - rewrite SWAP32_spec by exact Hx. apply (le_val_range (rev (le_bytes 4 x))). apply Forall_rev, le_bytes_ok.
  - unfold swap32, SWAP32, u32. cbv zeta. change 32 with (Z.of_nat 32) at 1. bit_cases 32%nat.
Qed.
Lemma swap64_SWAP64 x : 0 <= x < 2 ^ 64 -> swap64 x = SWAP64 x.
Proof.
  intros Hx. apply (bits_eq 64); [lia | | |].
  - unfold swap64, u64. cbv zeta. word_range.
  - rewrite SWAP64_spec by exact Hx. apply (le_val_range (rev (le_bytes 8 x))). apply Forall_rev, le_bytes_ok.
  - unfold swap64, SWAP64, u64. cbv zeta. change 64 with (Z.of_nat 64) at 1. bit_cases 64%nat.
Qed.

(** The loops: the first [n] words swapped, the rest of the target unchanged. *)
Lemma mem_inplace_swap32_eq mem n : (n <= length mem)%nat -> mem_inplace_swap32 mem n = map swap32 (take n mem) ++ drop n mem.
Proof. exact (foldl_in_place swap32 n [] mem). Qed.
Lemma mem_inplace_swap64_eq mem n : (n <= length mem)%nat -> mem_inplace_swap64 mem n = map swap64 (take n mem) ++ drop n mem.
Proof. exact (foldl_in_place swap64 n [] mem). Qed.
Lemma memcpy_swap32_eq dst src n : (n <= length dst)%nat -> (n <= length src)%nat ->
  memcpy_swap32 dst src n = map swap32 (take n src) ++ drop n dst.
Proof.
  intros Hd Hs. rewrite <- (map_lookup_seq swap32 src n Hs). exact (foldl_copy (fun i => swap32 (src !!! i)) n [] dst Hd).
Qed.
Lemma memcpy_swap64_eq dst src n : (n <= length dst)%nat -> (n <= length src)%nat ->
  memcpy_swap64 dst src n = map swap64 (take n src) ++ drop n dst.
Proof.
  intros Hd Hs. rewrite <- (map_lookup_seq swap64 src n Hs). exact (foldl_copy (fun i => swap64 (src !!! i)) n [] dst Hd).
Qed.
