(* ===== verification/Matrix.v ===== *)
(** * Quarter rounds on a matrix of 4 x 4 words

    ChaCha and BLAKE mix a list of sixteen words, four at a time: the columns of
    the matrix, then its diagonals. This file relates the sequences of stores of
    the code to functions on the whole matrix, for any mixing function. *)

From Stdlib Require Import ZArith Lia.
From stdpp Require Import base tactics list numbers.
From S2P Require Import Prelude Radix Words.
Open Scope Z_scope.

(** The word in row [r] and column [c]. *)
Definition cell (x : list Z) (r c : nat) : Z := x !!! (4 * r + c mod 4)%nat.
Definition matrix (f : nat -> nat -> Z) : list Z := map (fun k => f (k / 4) (k mod 4))%nat (seq 0 16).

(** A function of four words, for each of the four columns. *)
Definition mixer : Type := Z -> Z -> Z -> Z -> Z * Z * Z * Z.
Definition columns (q : nat -> mixer) (x : list Z) : list Z :=
  matrix (fun r c =>
    let '(va, vb, vc, vd) := q c (cell x 0 c) (cell x 1 c) (cell x 2 c) (cell x 3 c) in
    match r with 0%nat => va | 1%nat => vb | 2%nat => vc | _ => vd end).
(** Row [r] rotated by [r] places to the left, and back. *)
Definition shift_rows (x : list Z) : list Z := matrix (fun r c => cell x r (c + r)).
Definition unshift_rows (x : list Z) : list Z := matrix (fun r c => cell x r (c + 4 - r)).
Definition diagonals (q : nat -> mixer) (x : list Z) : list Z := unshift_rows (columns q (shift_rows x)).

Lemma length_matrix f : length (matrix f) = 16%nat.
Proof. unfold matrix. by rewrite length_map, length_seq. Qed.
Lemma length_columns q x : length (columns q x) = 16%nat.
Proof. apply length_matrix. Qed.
Lemma length_diagonals q x : length (diagonals q x) = 16%nat.
Proof. apply length_matrix. Qed.

(** The stores of one quarter round. *)
Definition store4 (a b c d : nat) (va vb vc vd : Z) (x : list Z) : list Z :=
  <[b := vb]> (<[c := vc]> (<[d := vd]> (<[a := va]> x))).
Definition quarter (q : mixer) (a b c d : nat) (x : list Z) : list Z :=
  let '(va, vb, vc, vd) := q (x !!! a) (x !!! b) (x !!! c) (x !!! d) in store4 a b c d va vb vc vd x.

(** Half of it, as the code does it: each word in place. *)
Definition half (f g p g' : Z -> Z -> Z) (a b c d : nat) (x : list Z) : list Z :=
  let x := <[a := f (x !!! a) (x !!! b)]> x in
  let x := <[d := g (x !!! d) (x !!! a)]> x in
  let x := <[c := p (x !!! c) (x !!! d)]> x in
  <[b := g' (x !!! b) (x !!! c)]> x.

(** The mixing function of two halves. *)
Definition mix (f1 g1 g2 f2 g3 g4 p : Z -> Z -> Z) : mixer := fun a b c d =>
  let a := f1 a b in let d := g1 d a in let c := p c d in let b := g2 b c in
  let a := f2 a b in let d := g3 d a in let c := p c d in let b := g4 b c in (a, b, c, d).

Lemma mix_ext f1 g1 g2 f2 g3 g4 p f1' g1' g2' f2' g3' g4' p' :
  (forall x y, f1 x y = f1' x y) -> (forall x y, g1 x y = g1' x y) -> (forall x y, g2 x y = g2' x y) ->
  (forall x y, f2 x y = f2' x y) -> (forall x y, g3 x y = g3' x y) -> (forall x y, g4 x y = g4' x y) ->
  (forall x y, p x y = p' x y) -> forall a b c d,
  mix f1 g1 g2 f2 g3 g4 p a b c d = mix f1' g1' g2' f2' g3' g4' p' a b c d.
Proof. intros E1 E2 E3 E4 E5 E6 E7 a b c d. unfold mix. cbv zeta. by rewrite ?E1, ?E2, ?E7, ?E3, ?E4, ?E5, ?E6. Qed.

Section quarter.
Context (a b c d : nat) (x : list Z).
Context (D : a <> b /\ a <> c /\ a <> d /\ b <> c /\ b <> d /\ c <> d).
Context (L : (a < length x /\ b < length x /\ c < length x /\ d < length x)%nat).

Lemma store4_lookup va vb vc vd y : length y = length x ->
  store4 a b c d va vb vc vd y !!! a = va /\ store4 a b c d va vb vc vd y !!! b = vb /\
  store4 a b c d va vb vc vd y !!! c = vc /\ store4 a b c d va vb vc vd y !!! d = vd.
Proof using D L.
  intros E. unfold store4. split_and!;
    repeat (rewrite list_lookup_total_insert_ne by lia);
    apply list_lookup_total_insert_eq; rewrite ?length_insert; lia.
Qed.

Lemma store4_store4 va vb vc vd wa wb wc wd :
  store4 a b c d wa wb wc wd (store4 a b c d va vb vc vd x) = store4 a b c d wa wb wc wd x.
Proof using D L.
  unfold store4. rewrite (list_insert_insert_ne _ a b), (list_insert_insert_ne _ a c), (list_insert_insert_ne _ a d) by lia.
  rewrite list_insert_insert_eq.
  rewrite (list_insert_insert_ne _ d b), (list_insert_insert_ne _ d c) by lia. rewrite list_insert_insert_eq.
  rewrite (list_insert_insert_ne _ c b) by lia. rewrite list_insert_insert_eq.
  rewrite list_insert_insert_eq. exact eq_refl.
Qed.

Lemma half_eq f g p g' y : length y = length x ->
  half f g p g' a b c d y =
  let va := f (y !!! a) (y !!! b) in let vd := g (y !!! d) va in
  let vc := p (y !!! c) vd in store4 a b c d va (g' (y !!! b) vc) vc vd y.
Proof using D L.
  intros E. unfold half, store4. cbv zeta.
  repeat first [rewrite list_lookup_total_insert_ne by lia
               | rewrite list_lookup_total_insert_eq by (rewrite ?length_insert; lia)].
  exact eq_refl.
Qed.

(** Two halves in place are a quarter round. *)
Lemma halves_quarter f1 g1 g2 f2 g3 g4 p :
  half f2 g3 p g4 a b c d (half f1 g1 p g2 a b c d x) = quarter (mix f1 g1 g2 f2 g3 g4 p) a b c d x.
Proof using D L.
  rewrite (half_eq f1 g1 p g2 x eq_refl). unfold quarter, mix. cbv zeta.
  set (va := f1 (x !!! a) (x !!! b)). set (vd := g1 (x !!! d) va).
  set (vc := p (x !!! c) vd). set (vb := g2 (x !!! b) vc).
  rewrite half_eq by (unfold store4; by rewrite !length_insert). cbv zeta.
  destruct (store4_lookup va vb vc vd x eq_refl) as (-> & -> & -> & ->). by rewrite store4_store4.
Qed.
End quarter.

(** ** Four quarter rounds *)

Lemma matrix_destruct (P : list Z -> Prop) :
  (forall a0 a1 a2 a3 a4 a5 a6 a7 a8 a9 a10 a11 a12 a13 a14 a15,
    P [a0; a1; a2; a3; a4; a5; a6; a7; a8; a9; a10; a11; a12; a13; a14; a15]) ->
  forall x, length x = 16%nat -> P x.
Proof.
  intros H x L. do 16 (destruct x as [|? x]; [discriminate L|]). destruct x; [apply H | discriminate L].
Qed.

(** On a list of sixteen variables: the four results as variables, then both
    sides as lists. *)
Ltac quarters_eval q :=
  cbv [quarter columns diagonals shift_rows unshift_rows matrix map seq cell lookup_total list_lookup_total
       Nat.div Nat.modulo Nat.divmod Nat.add Nat.mul Nat.sub fst snd];
  repeat match goal with |- context [q ?i ?u ?v ?w ?z] =>
    is_var u; is_var v; is_var w; is_var z; destruct (q i u v w z) as [[[? ?] ?] ?]; cbv [store4 insert list_insert] end;
  exact eq_refl.

Section matrix.
Context (q : nat -> mixer).

Lemma quarters_columns x : length x = 16%nat ->
  quarter (q 3%nat) 3 7 11 15 (quarter (q 2%nat) 2 6 10 14 (quarter (q 1%nat) 1 5 9 13
    (quarter (q 0%nat) 0 4 8 12 x))) = columns q x.
Proof. revert x. apply matrix_destruct. intros. quarters_eval q. Qed.

Lemma quarters_diagonals x : length x = 16%nat ->
  quarter (q 3%nat) 3 4 9 14 (quarter (q 2%nat) 2 7 8 13 (quarter (q 1%nat) 1 6 11 12
    (quarter (q 0%nat) 0 5 10 15 x))) = diagonals q x.
Proof. revert x. apply matrix_destruct. intros. quarters_eval q. Qed.

(** The diagonals in the order of BLAKE's code. *)
Lemma quarters_diagonals_32 x : length x = 16%nat ->
  quarter (q 1%nat) 1 6 11 12 (quarter (q 0%nat) 0 5 10 15 (quarter (q 2%nat) 2 7 8 13
    (quarter (q 3%nat) 3 4 9 14 x))) = diagonals q x.
Proof. revert x. apply matrix_destruct. intros. quarters_eval q. Qed.
End matrix.

Lemma length_quarter q a b c d x : length (quarter q a b c d x) = length x.
Proof. unfold quarter. destruct (q _ _ _ _) as [[[? ?] ?] ?]. unfold store4. by rewrite !length_insert. Qed.
