(* ===== verification/ChaCha.v ===== *)
(** * The stream cipher of wallet files (src/Native/libcryptonote/crypto/chacha.c)

    [chacha] with a number of rounds, and the two entry points [chacha8] and
    [chacha20]. Data are lists of bytes; the function returns what it stores in
    [cipher]. The stack buffer [tmp] of a last, partial block is uninitialised
    behind the data copied to it: its bytes are an argument [tmp] of the model,
    of which the result turns out to be independent. *)

From Stdlib Require Import ZArith Lia.
From stdpp Require Import base tactics list numbers.
From S2P Require Import Prelude Radix Words IntUtil.
Open Scope Z_scope.

(** [U8TO32_LITTLE(p + o)] and [PLUS] *)
Definition U8TO32_LITTLE (p : list Z) (o : nat) : Z := le_val (take 4 (drop o p)).
Definition U32TO8_LITTLE (v : Z) : list Z := le_bytes 4 v.
Definition PLUS (v w : Z) : Z := u32 (v + w).

(** [QUARTERROUND(xa, xb, xc, xd)] on the 16 words *)
Definition QUARTERROUND (a b c d : nat) (x : list Z) : list Z :=
  let x := <[a := PLUS (x !!! a) (x !!! b)]> x in
  let x := <[d := rol32 (Z.lxor (x !!! d) (x !!! a)) 16]> x in
  let x := <[c := PLUS (x !!! c) (x !!! d)]> x in
  let x := <[b := rol32 (Z.lxor (x !!! b) (x !!! c)) 12]> x in
  let x := <[a := PLUS (x !!! a) (x !!! b)]> x in
  let x := <[d := rol32 (Z.lxor (x !!! d) (x !!! a)) 8]> x in
  let x := <[c := PLUS (x !!! c) (x !!! d)]> x in
  <[b := rol32 (Z.lxor (x !!! b) (x !!! c)) 7]> x.

Definition doubleround (x : list Z) : list Z :=
  let x := QUARTERROUND 0 4 8 12 x in
  let x := QUARTERROUND 1 5 9 13 x in
  let x := QUARTERROUND 2 6 10 14 x in
  let x := QUARTERROUND 3 7 11 15 x in
  let x := QUARTERROUND 0 5 10 15 x in
  let x := QUARTERROUND 1 6 11 12 x in
  let x := QUARTERROUND 2 7 8 13 x in
  QUARTERROUND 3 4 9 14 x.

(** [for (i = rounds; i > 0; i -= 2)]: half as many iterations, rounded up *)
Definition chacha_rounds (rounds : nat) (x : list Z) : list Z := Nat.iter ((rounds + 1) / 2) doubleround x.

(** "expand 32-byte k" *)
Definition sigma : list Z :=
  [0x65; 0x78; 0x70; 0x61; 0x6e; 0x64; 0x20; 0x33; 0x32; 0x2d; 0x62; 0x79; 0x74; 0x65; 0x20; 0x6b].

Definition chacha_setup (key iv : list Z) : list Z :=
  map (fun i => U8TO32_LITTLE sigma (4 * i)) (seq 0 4) ++ map (fun i => U8TO32_LITTLE key (4 * i)) (seq 0 8) ++
  [0; 0] ++ map (fun i => U8TO32_LITTLE iv (4 * i)) (seq 0 2).

(** The block: rounds, feed-forward, xor with the data; 64 bytes. *)
Definition chacha_block (rounds : nat) (j data : list Z) : list Z :=
  let x := chacha_rounds rounds j in
  let x := map (fun i => PLUS (x !!! i) (j !!! i)) (seq 0 16) in
  let x := map (fun i => Z.lxor (x !!! i) (U8TO32_LITTLE data (4 * i))) (seq 0 16) in
  concat (map U32TO8_LITTLE x).

(** [j12 = PLUSONE(j12); if (!j12) j13 = PLUSONE(j13);] *)
Definition chacha_next (j : list Z) : list Z :=
  let j := <[12%nat := PLUS (j !!! 12%nat) 1]> j in
  if j !!! 12%nat =? 0 then <[13%nat := PLUS (j !!! 13%nat) 1]> j else j.

(** The loop; the fuel bounds the blocks. *)
Fixpoint chacha_loop (fuel rounds : nat) (tmp j data : list Z) : option (list Z) :=
  match fuel with
  | O => None
  | S fuel =>
      let length := length data in
      if (length <? 64)%nat then
        (* the block is read from and written to [tmp], then copied *)
        Some (take length (chacha_block rounds j (data ++ drop length tmp)))
      else
        let out := chacha_block rounds j (take 64 data) in
        if (length <=? 64)%nat then Some out
        else match chacha_loop fuel rounds tmp (chacha_next j) (drop 64 data) with
             | Some rest => Some (out ++ rest)
             | None => None
             end
  end.

Definition chacha (rounds : nat) (tmp data key iv : list Z) : option (list Z) :=
  if (length data =? 0)%nat then Some []
  else chacha_loop (S (length data / 64)) rounds tmp (chacha_setup key iv) data.

Definition chacha8 (tmp data key iv : list Z) : option (list Z) := chacha 8 tmp data key iv.
Definition chacha20 (tmp data key iv : list Z) : option (list Z) := chacha 20 tmp data key iv.
