(* ===== verification/ChaChaProofs.v ===== *)
(** * Proofs about the stream cipher

    The core on the 4 x 4 matrix, the key stream with its 64-bit counter, and
    the loop over the blocks. *)

From Stdlib Require Import ZArith Lia.
From stdpp Require Import base tactics list numbers.
From S2P Require Import Prelude Radix Words IntUtil Matrix ChaCha.
Open Scope Z_scope.

(** ** The core by columns and diagonals *)

Definition quarterround (a b c d : Z) : Z * Z * Z * Z :=
  let a := u32 (a + b) in let d := rol32 (Z.lxor d a) 16 in
  let c := u32 (c + d) in let b := rol32 (Z.lxor b c) 12 in
  let a := u32 (a + b) in let d := rol32 (Z.lxor d a) 8 in
  let c := u32 (c + d) in let b := rol32 (Z.lxor b c) 7 in (a, b, c, d).

Definition doubleround_spec (x : list Z) : list Z :=
  diagonals (fun _ => quarterround) (columns (fun _ => quarterround) x).

(** [QUARTERROUND] stores the four words of [quarterround]. *)
Lemma QUARTERROUND_eq a b c d x : a <> b /\ a <> c /\ a <> d /\ b <> c /\ b <> d /\ c <> d ->
  (a < length x /\ b < length x /\ c < length x /\ d < length x)%nat ->
  QUARTERROUND a b c d x = quarter quarterround a b c d x.
Proof.
  intros D L. exact (halves_quarter a b c d x D L PLUS (fun u v => rol32 (Z.lxor u v) 16) (fun u v => rol32 (Z.lxor u v) 12)
    PLUS (fun u v => rol32 (Z.lxor u v) 8) (fun u v => rol32 (Z.lxor u v) 7) PLUS).
Qed.

Lemma length_QUARTERROUND a b c d x : length (QUARTERROUND a b c d x) = length x.
Proof. unfold QUARTERROUND. cbv zeta. by rewrite !length_insert. Qed.

Lemma doubleround_eq x : length x = 16%nat -> doubleround x = doubleround_spec x.
Proof.
  intros L. unfold doubleround. cbv zeta. rewrite !QUARTERROUND_eq by (rewrite ?length_quarter, ?length_QUARTERROUND, ?L; lia).
  rewrite (quarters_columns (fun _ => quarterround) x L).
  apply (quarters_diagonals (fun _ => quarterround)), length_columns.
Qed.

Lemma length_doubleround x : length x = 16%nat -> length (doubleround x) = 16%nat.
Proof. intros L. rewrite doubleround_eq by exact L. apply length_diagonals. Qed.

Lemma length_iter n x : length x = 16%nat -> length (Nat.iter n doubleround x) = 16%nat.
Proof. intros L. induction n as [|n IH]; [exact L|]. rewrite Nat.iter_succ. by apply length_doubleround. Qed.

Lemma iter_doubleround n x : length x = 16%nat -> Nat.iter n doubleround x = Nat.iter n doubleround_spec x.
Proof.
  intros L. induction n as [|n IH]; [exact eq_refl|]. rewrite !Nat.iter_succ, <- IH.
  apply doubleround_eq, length_iter, L.
Qed.

(** ** The key stream *)

(** The state of block [k]: the counter is [k] modulo 2^64 in two words. *)
Definition chacha_state (key iv : list Z) (k : Z) : list Z :=
  map (fun i => U8TO32_LITTLE sigma (4 * i)) (seq 0 4) ++ map (fun i => U8TO32_LITTLE key (4 * i)) (seq 0 8) ++
  [k mod 2 ^ 32; k / 2 ^ 32 mod 2 ^ 32] ++ map (fun i => U8TO32_LITTLE iv (4 * i)) (seq 0 2).

(** Its 64 bytes: the rounds and the feed-forward. *)
Definition keystream_block (rounds : nat) (j : list Z) : list Z :=
  let x := Nat.iter ((rounds + 1) / 2) doubleround_spec j in
  concat (map (fun i => le_bytes 4 ((x !!! i + j !!! i) mod 2 ^ 32)) (seq 0 16)).
Definition keystream (rounds : nat) (key iv : list Z) (n : nat) : list Z :=
  concat (map (fun k => keystream_block rounds (chacha_state key iv (Z.of_nat k))) (seq 0 n)).

Lemma chacha_setup_state key iv : chacha_setup key iv = chacha_state key iv 0.
Proof. exact eq_refl. Qed.

Lemma length_state key iv k : length (chacha_state key iv k) = 16%nat.
Proof. exact eq_refl. Qed.

Lemma state_lookup key iv k :
  chacha_state key iv k !!! 12%nat = k mod 2 ^ 32 /\ chacha_state key iv k !!! 13%nat = k / 2 ^ 32 mod 2 ^ 32.
Proof. split; exact eq_refl. Qed.

Lemma state_insert key iv k a b :
  <[13%nat := b]> (<[12%nat := a]> (chacha_state key iv k))
  = map (fun i => U8TO32_LITTLE sigma (4 * i)) (seq 0 4) ++ map (fun i => U8TO32_LITTLE key (4 * i)) (seq 0 8) ++
    [a; b] ++ map (fun i => U8TO32_LITTLE iv (4 * i)) (seq 0 2).
Proof. exact eq_refl. Qed.

Lemma chacha_next_state key iv k : 0 <= k -> chacha_next (chacha_state key iv k) = chacha_state key iv (k + 1).
Proof.
  intros Hk. unfold chacha_next. cbv zeta. rewrite (proj1 (state_lookup key iv k)).
  assert (P : PLUS (k mod 2 ^ 32) 1 = (k + 1) mod 2 ^ 32) by (unfold PLUS, u32; apply Zplus_mod_idemp_l). rewrite P.
  rewrite list_lookup_total_insert_eq by (rewrite length_state; lia).
  rewrite list_lookup_total_insert_ne by lia. rewrite (proj2 (state_lookup key iv k)).
  pose proof (Z.div_mod k (2 ^ 32) ltac:(lia)). pose proof (Z.mod_pos_bound k (2 ^ 32) ltac:(lia)).
  pose proof (Z.div_mod (k + 1) (2 ^ 32) ltac:(lia)). pose proof (Z.mod_pos_bound (k + 1) (2 ^ 32) ltac:(lia)).
  destruct (Z.eqb_spec ((k + 1) mod 2 ^ 32) 0) as [E|N].
  - assert (Q : k / 2 ^ 32 + 1 = (k + 1) / 2 ^ 32) by lia. rewrite state_insert. unfold chacha_state.
    do 4 f_equal. unfold PLUS, u32. by rewrite Zplus_mod_idemp_l, Q.
  - assert (D : (k + 1) / 2 ^ 32 = k / 2 ^ 32) by lia.
    transitivity (<[13%nat := k / 2 ^ 32 mod 2 ^ 32]> (<[12%nat := (k + 1) mod 2 ^ 32]> (chacha_state key iv k))).
    + exact eq_refl.
    + rewrite state_insert. unfold chacha_state. by rewrite D.
Qed.

(** ** Blocks *)

Lemma lxor_mod_pow2 x y n : 0 <= n -> Z.lxor x y mod 2 ^ n = Z.lxor (x mod 2 ^ n) (y mod 2 ^ n).
Proof.
  intros Hn. apply Z.bits_inj'. intros i Hi. rewrite Z.lxor_spec. destruct (Z.lt_ge_cases i n).
  - rewrite !Z.mod_pow2_bits_low, Z.lxor_spec by lia. exact eq_refl.
  - rewrite !Z.mod_pow2_bits_high by lia. exact eq_refl.
Qed.

Lemma le_bytes_lxor n x y : le_bytes n (Z.lxor x y) = zip_with Z.lxor (le_bytes n x) (le_bytes n y).
Proof.
  revert x y. induction n as [|n IH]; intros x y; [exact eq_refl|]. cbn [le_bytes zip_with]. f_equal.
  - apply lxor_mod_pow2. lia.
  - rewrite <- !Z.shiftr_div_pow2, Z.shiftr_lxor by lia. rewrite !Z.shiftr_div_pow2 by lia. apply IH.
Qed.

(** A word of data is four bytes of it. *)
Lemma words_lxor f p n m : byte_ok p -> length p = (4 * (m + n))%nat ->
  concat (map (fun i => le_bytes 4 (Z.lxor (f i) (U8TO32_LITTLE p (4 * i)))) (seq m n))
  = zip_with Z.lxor (concat (map (fun i => le_bytes 4 (f i)) (seq m n))) (drop (4 * m) p).
Proof.
  intros B. revert m. induction n as [|n IH]; intros m L; [exact eq_refl|]. cbn [seq map concat].
  rewrite (IH (S m)) by lia. rewrite le_bytes_lxor.
  assert (L4 : length (take 4 (drop (4 * m) p)) = 4%nat) by (rewrite length_take, length_drop; lia).
  assert (E : le_bytes 4 (U8TO32_LITTLE p (4 * m)) = take 4 (drop (4 * m) p)).
  { unfold U8TO32_LITTLE. rewrite <- L4 at 1. apply le_bytes_le_val. by apply Forall_take, Forall_drop. }
  rewrite E. rewrite <- (take_drop 4 (drop (4 * m) p)) at 2.
  rewrite zip_with_app by (rewrite length_le_bytes; lia). f_equal. f_equal. rewrite drop_drop. f_equal. lia.
Qed.

Lemma chacha_block_eq rounds j data : length j = 16%nat -> byte_ok data -> length data = 64%nat ->
  chacha_block rounds j data = zip_with Z.lxor (keystream_block rounds j) data.
Proof.
  intros Lj B L. unfold chacha_block, chacha_rounds, keystream_block. cbv zeta. rewrite iter_doubleround by exact Lj.
  set (x := Nat.iter _ doubleround_spec j).
  transitivity (concat (map (fun i => le_bytes 4 (Z.lxor (PLUS (x !!! i) (j !!! i)) (U8TO32_LITTLE data (4 * i)))) (seq 0 16))).
  - rewrite map_map. apply (f_equal (@concat Z)), map_ext_in. intros i Hi. apply in_seq_lt in Hi. unfold U32TO8_LITTLE.
    by rewrite lookup_total_map_seq by exact Hi.
  - rewrite (words_lxor _ data 16 0) by assumption. exact eq_refl.
Qed.

Lemma length_concat_const {A} (l : list (list A)) n : Forall (fun b => length b = n) l -> length (concat l) = (length l * n)%nat.
Proof. induction 1 as [|b l H _ IH]; [exact eq_refl|]. cbn [concat length]. by rewrite length_app, H, IH. Qed.

Lemma length_keystream_block rounds j : length (keystream_block rounds j) = 64%nat.
Proof.
  unfold keystream_block. cbv zeta. rewrite (length_concat_const _ 4), length_map, length_seq; [exact eq_refl|].
  apply Forall_map, Forall_true. intros i. exact (length_le_bytes 4 _).
Qed.

(** [n] blocks from block [k] on. *)
Definition keystream_from (rounds : nat) (key iv : list Z) (k n : nat) : list Z :=
  concat (map (fun k => keystream_block rounds (chacha_state key iv (Z.of_nat k))) (seq k n)).

Lemma length_keystream_from rounds key iv k n : length (keystream_from rounds key iv k n) = (n * 64)%nat.
Proof.
  unfold keystream_from. rewrite (length_concat_const _ 64), length_map, length_seq; [exact eq_refl|].
  apply Forall_map, Forall_true. intros i. apply length_keystream_block.
Qed.

Lemma zip_with_take_l (f : Z -> Z -> Z) a b : zip_with f (take (length b) a) b = zip_with f a b.
Proof. revert b. induction a as [|x a IH]; intros [|y b]; try exact eq_refl. cbn. by rewrite IH. Qed.

(** The loop is the xor with the key stream. *)
Lemma chacha_loop_spec rounds tmp key iv : byte_ok tmp -> length tmp = 64%nat ->
  forall fuel k data, byte_ok data -> (length data / 64 < fuel)%nat ->
  chacha_loop fuel rounds tmp (chacha_state key iv (Z.of_nat k)) data
  = Some (zip_with Z.lxor (keystream_from rounds key iv k fuel) data).
Proof.
  intros Bt Lt. induction fuel as [|fuel IH]; intros k data B F; [lia|]. cbn [chacha_loop].
  assert (KS : keystream_from rounds key iv k (S fuel)
    = keystream_block rounds (chacha_state key iv (Z.of_nat k)) ++ keystream_from rounds key iv (S k) fuel) by exact eq_refl.
  set (ks := keystream_block rounds (chacha_state key iv (Z.of_nat k))) in *.
  assert (Lk : length ks = 64%nat) by apply length_keystream_block.
  destruct (Nat.ltb_spec (length data) 64) as [L|L].
  - rewrite chacha_block_eq; [|exact eq_refl | apply Forall_app; split; [exact B | by apply Forall_drop] |
      rewrite length_app, length_drop; lia].
    fold ks. f_equal. rewrite <- (take_drop (length data) ks), zip_with_app
      by (rewrite length_take; lia). rewrite take_app_length' by (rewrite length_zip_with, length_take; lia).
    rewrite KS. rewrite <- (zip_with_take_l _ (ks ++ _) data). rewrite take_app_le by lia. exact eq_refl.
  - assert (E1 : chacha_block rounds (chacha_state key iv (Z.of_nat k)) (take 64 data) = zip_with Z.lxor ks (take 64 data)).
    { apply chacha_block_eq; [exact eq_refl | by apply Forall_take | rewrite length_take; lia]. }
    rewrite E1. destruct (Nat.leb_spec (length data) 64) as [L'|L'].
    + f_equal. rewrite take_ge by lia. rewrite KS. rewrite <- (zip_with_take_l _ (ks ++ _) data).
      by rewrite take_app_length' by lia.
    + rewrite chacha_next_state by lia. replace (Z.of_nat k + 1) with (Z.of_nat (S k)) by lia.
      rewrite IH; [|by apply Forall_drop|].
      * f_equal. symmetry. rewrite KS. rewrite <- (take_drop 64 data) at 1. rewrite zip_with_app by (rewrite length_take; lia). exact eq_refl.
      * rewrite (div_sub_1 (length data) 64) in F by lia. rewrite length_drop. lia.
Qed.

Lemma keystream_eq rounds key iv n : keystream rounds key iv n = keystream_from rounds key iv 0 n.
Proof. exact eq_refl. Qed.

Lemma chacha_spec rounds tmp data key iv : byte_ok tmp -> length tmp = 64%nat -> byte_ok data ->
  chacha rounds tmp data key iv = Some (zip_with Z.lxor (keystream rounds key iv (S (length data / 64))) data).
Proof.
  intros Bt Lt B. unfold chacha. destruct (Nat.eqb_spec (length data) 0) as [E|N].
  - apply nil_length_inv in E. subst data. f_equal.
  - rewrite chacha_setup_state, keystream_eq. apply (chacha_loop_spec rounds tmp key iv Bt Lt _ 0); [exact B | lia].
Qed.

Lemma keystream_ok rounds key iv n : byte_ok (keystream rounds key iv n).
Proof.
  unfold keystream. apply Forall_concat, Forall_map, Forall_true. intros k. unfold keystream_block. cbv zeta.
  apply Forall_concat, Forall_map, Forall_true. intros i. apply le_bytes_ok.
Qed.

(** ** The xor with a key stream *)

Lemma length_keystream rounds key iv n : length (keystream rounds key iv n) = (n * 64)%nat.
Proof. rewrite keystream_eq. apply length_keystream_from. Qed.

Lemma block_bound n : (n <= S (n / 64) * 64)%nat.
Proof. pose proof (Nat.div_mod_eq n 64). pose proof (Nat.mod_upper_bound n 64). lia. Qed.

Lemma length_zip_keystream rounds key iv data :
  length (zip_with Z.lxor (keystream rounds key iv (S (length data / 64))) data) = length data.
Proof. rewrite length_zip_with, length_keystream. pose proof (block_bound (length data)). lia. Qed.

Lemma zip_lxor_ok a b : byte_ok a -> byte_ok b -> byte_ok (zip_with Z.lxor a b).
Proof.
  intros Ha. revert b. induction Ha as [|x a Hx _ IH]; intros [|y b] Hb; try constructor.
  - inversion Hb; subst. apply lxor_range; [lia | exact Hx | assumption].
  - apply IH. by inversion Hb.
Qed.

Lemma zip_keystream_ok rounds key iv n data : byte_ok data -> byte_ok (zip_with Z.lxor (keystream rounds key iv n) data).
Proof. intros B. apply zip_lxor_ok; [apply keystream_ok | exact B]. Qed.

Lemma zip_lxor_involutive k data : (length data <= length k)%nat ->
  zip_with Z.lxor k (zip_with Z.lxor k data) = data.
Proof.
  revert data. induction k as [|x k IH]; intros [|y data] L; cbn in *; try lia; [done | done|].
  rewrite IH by lia. by rewrite <- Z.lxor_assoc, Z.lxor_nilpotent, Z.lxor_0_l.
Qed.

Lemma keystream_prefix rounds key iv n m : keystream rounds key iv (n + m)
  = keystream rounds key iv n ++ keystream_from rounds key iv n m.
Proof. rewrite keystream_eq. unfold keystream_from, keystream. by rewrite seq_app, map_app, concat_app. Qed.

Lemma zip_keystream_take rounds key iv n data :
  take n (zip_with Z.lxor (keystream rounds key iv (S (length data / 64))) data)
  = zip_with Z.lxor (keystream rounds key iv (S (length (take n data) / 64))) (take n data).
Proof.
  rewrite zip_with_take, length_take. set (l := (n `min` length data)%nat).
  assert (E : exists m, S (length data / 64) = (S (l / 64) + m)%nat).
  { exists (length data / 64 - l / 64)%nat. pose proof (Nat.Div0.div_le_mono l (length data) 64 ltac:(lia)). lia. }
  destruct E as [m ->]. rewrite keystream_prefix.
  assert (Ll : length (take n data) = l) by (rewrite length_take; lia).
  pose proof (block_bound l) as Bl. set (k := keystream rounds key iv (S (l / 64))).
  assert (Lk : length k = (S (l / 64) * 64)%nat) by apply length_keystream.
  clearbody k. rewrite <- (zip_with_take_l _ (take n _)), <- (zip_with_take_l _ k), Ll.
  rewrite take_take. destruct (decide (n <= length data)%nat).
  - replace (l `min` n)%nat with l by lia. by rewrite take_app_le by lia.
  - replace (l `min` n)%nat with l by lia. by rewrite take_app_le by lia.
Qed.
