(* ===== verification/ChaChaCorrect.v ===== *)
(** * Properties of the stream cipher and of the arithmetic helpers
    (chacha.c, int-util.h) *)

From Stdlib Require Import ZArith Lia.
From stdpp Require Import base tactics list numbers option.
From S2P Require Import Prelude Radix Words IntUtil Matrix ChaCha ChaChaProofs.
Open Scope Z_scope.



(** [mul128] returns the low and the high word of the product of two 64-bit
    words and never fails its assertion; [div128_32] divides a 128-bit number by a
    non-zero 32-bit one, with the quotient's high word and low word and the
    remainder. *)
Theorem int_util_correct x y d : 0 <= x < 2 ^ 64 -> 0 <= y < 2 ^ 64 -> 0 < d < 2 ^ 32 ->
  mul128 x y = Some ((x * y) mod 2 ^ 64, x * y / 2 ^ 64) /\
  (exists qh ql, div128_32 x y d = Some (qh, ql, (x * 2 ^ 64 + y) mod d) /\
     qh * 2 ^ 64 + ql = (x * 2 ^ 64 + y) / d /\ 0 <= qh < 2 ^ 64 /\ 0 <= ql < 2 ^ 64) /\
  SWAP64 x = le_val (rev (le_bytes 8 x)).
Proof.
  intros Hx Hy Hd. split; [exact (mul128_spec x y Hx Hy)|]. split; [exact (div128_32_spec x y d Hx Hy Hd)|].
  exact (SWAP64_spec x Hx).
Qed.

Lemma int_util_correct_witness : 0 <= 2 ^ 64 - 1 < 2 ^ 64 /\ 0 < 10 < 2 ^ 32 /\
  mul128 (2 ^ 64 - 1) (2 ^ 64 - 1) = Some (1, 2 ^ 64 - 2).
Proof.
  assert (X : 0 <= 2 ^ 64 - 1 < 2 ^ 64) by lia. assert (D : 0 < 10 < 2 ^ 32) by lia.
  split; [exact X|]. split; [exact D|]. exact (proj1 (int_util_correct _ _ 10 X X D)).
Defined.
