(* ===== verification/Blake256.v ===== *)
(** * BLAKE-256 and BLAKE-224 (src/Native/libcryptonote/crypto/blake256.c)

    The compression function, the streaming interface on the C [state] with its
    bit lengths, counters and buffer, and HMAC. A function that changes a state
    returns the new one; a digest is the list of the bytes stored. *)

From Stdlib Require Import ZArith Lia.
From stdpp Require Import base tactics list numbers.
From S2P Require Import Prelude Radix Words.
Open Scope Z_scope.

Definition U8TO32 (p : list Z) : Z :=
  Z.lor (Z.lor (Z.lor (u32 (Z.shiftl (p !!! 0%nat) 24)) (u32 (Z.shiftl (p !!! 1%nat) 16)))
    (u32 (Z.shiftl (p !!! 2%nat) 8))) (p !!! 3%nat).
Definition U32TO8 (v : Z) : list Z :=
  [u8 (Z.shiftr v 24); u8 (Z.shiftr v 16); u8 (Z.shiftr v 8); u8 v].

Definition sigma : list (list nat) :=
  [ [ 0; 1; 2; 3; 4; 5; 6; 7; 8; 9;10;11;12;13;14;15];
    [14;10; 4; 8; 9;15;13; 6; 1;12; 0; 2;11; 7; 5; 3];
    [11; 8;12; 0; 5; 2;15;13;10;14; 3; 6; 7; 1; 9; 4];
    [ 7; 9; 3; 1;13;12;11;14; 2; 6; 5;10; 4; 0;15; 8];
    [ 9; 0; 5; 7; 2; 4;10;15;14; 1;11;12; 6; 8; 3;13];
    [ 2;12; 6;10; 0;11; 8; 3; 4;13; 7; 5;15;14; 1; 9];
    [12; 5; 1;15;14;13; 4;10; 0; 7; 6; 3; 9; 2; 8;11];
    [13;11; 7;14;12; 1; 3; 9; 5; 0;15; 4; 8; 6; 2;10];
    [ 6;15;14; 9;11; 3; 0; 8;12; 2;13; 7; 1; 4;10; 5];
    [10; 2; 8; 4; 7; 6; 1; 5;15;11; 9;14; 3;12;13; 0];
    [ 0; 1; 2; 3; 4; 5; 6; 7; 8; 9;10;11;12;13;14;15];
    [14;10; 4; 8; 9;15;13; 6; 1;12; 0; 2;11; 7; 5; 3];
    [11; 8;12; 0; 5; 2;15;13;10;14; 3; 6; 7; 1; 9; 4];
    [ 7; 9; 3; 1;13;12;11;14; 2; 6; 5;10; 4; 0;15; 8] ]%nat.

Definition cst : list Z :=
  [ 0x243F6A88; 0x85A308D3; 0x13198A2E; 0x03707344;
    0xA4093822; 0x299F31D0; 0x082EFA98; 0xEC4E6C89;
    0x452821E6; 0x38D01377; 0xBE5466CF; 0x34E90C6C;
    0xC0AC29B7; 0xC97C50DD; 0x3F84D5B5; 0xB5470917 ].

Definition padding : list Z := 0x80 :: replicate 63 0.

(** [typedef struct { uint32_t h[8], s[4], t[2]; int buflen, nullt; uint8_t buf[64]; } state;] *)
Record state := { h : list Z; s : list Z; t0 : Z; t1 : Z; buflen : Z; nullt : Z; buf : list Z }.

Definition set_h (h' : list Z) (St : state) : state :=
  {| h := h'; s := s St; t0 := t0 St; t1 := t1 St; buflen := buflen St; nullt := nullt St; buf := buf St |}.
Definition set_t0 (t : Z) (St : state) : state :=
  {| h := h St; s := s St; t0 := t; t1 := t1 St; buflen := buflen St; nullt := nullt St; buf := buf St |}.
Definition set_t1 (t : Z) (St : state) : state :=
  {| h := h St; s := s St; t0 := t0 St; t1 := t; buflen := buflen St; nullt := nullt St; buf := buf St |}.
Definition set_buflen (n : Z) (St : state) : state :=
  {| h := h St; s := s St; t0 := t0 St; t1 := t1 St; buflen := n; nullt := nullt St; buf := buf St |}.
Definition set_nullt (n : Z) (St : state) : state :=
  {| h := h St; s := s St; t0 := t0 St; t1 := t1 St; buflen := buflen St; nullt := n; buf := buf St |}.
(** [memcpy(S->buf + left, data, n)] *)
Definition set_buf (left n : nat) (data : list Z) (St : state) : state :=
  {| h := h St; s := s St; t0 := t0 St; t1 := t1 St; buflen := buflen St; nullt := nullt St;
     buf := take left (buf St) ++ take n data ++ drop (left + n) (buf St) |}.

(** ** Compression *)

Definition ROT (x n : Z) : Z := Z.lor (u32 (Z.shiftl x (32 - n))) (Z.shiftr x n).

Definition G (m : list Z) (i a b c d e : nat) (v : list Z) : list Z :=
  let sig k := (sigma !!! i) !!! k in
  let v := <[a := u32 (v !!! a + u32 (Z.lxor (m !!! sig e) (cst !!! sig (e + 1)%nat) + v !!! b))]> v in
  let v := <[d := ROT (Z.lxor (v !!! d) (v !!! a)) 16]> v in
  let v := <[c := u32 (v !!! c + v !!! d)]> v in
  let v := <[b := ROT (Z.lxor (v !!! b) (v !!! c)) 12]> v in
  let v := <[a := u32 (v !!! a + u32 (Z.lxor (m !!! sig (e + 1)%nat) (cst !!! sig e) + v !!! b))]> v in
  let v := <[d := ROT (Z.lxor (v !!! d) (v !!! a)) 8]> v in
  let v := <[c := u32 (v !!! c + v !!! d)]> v in
  <[b := ROT (Z.lxor (v !!! b) (v !!! c)) 7]> v.

Definition blake256_round (m v : list Z) (i : nat) : list Z :=
  let v := G m i 0 4 8 12 0 v in
  let v := G m i 1 5 9 13 2 v in
  let v := G m i 2 6 10 14 4 v in
  let v := G m i 3 7 11 15 6 v in
  let v := G m i 3 4 9 14 14 v in
  let v := G m i 2 7 8 13 12 v in
  let v := G m i 0 5 10 15 8 v in
  G m i 1 6 11 12 10 v.

Definition blake256_v (St : state) : list Z :=
  let v := map (fun i => h St !!! i) (seq 0 8) ++
    [ Z.lxor (s St !!! 0%nat) 0x243F6A88; Z.lxor (s St !!! 1%nat) 0x85A308D3;
      Z.lxor (s St !!! 2%nat) 0x13198A2E; Z.lxor (s St !!! 3%nat) 0x03707344;
      0xA4093822; 0x299F31D0; 0x082EFA98; 0xEC4E6C89 ] in
  if nullt St =? 0 then
    let v := <[12%nat := Z.lxor (v !!! 12%nat) (t0 St)]> v in
    let v := <[13%nat := Z.lxor (v !!! 13%nat) (t0 St)]> v in
    let v := <[14%nat := Z.lxor (v !!! 14%nat) (t1 St)]> v in
    <[15%nat := Z.lxor (v !!! 15%nat) (t1 St)]> v
  else v.

Definition blake256_compress (St : state) (block : list Z) : state :=
  let m := map (fun i => U8TO32 (drop (i * 4) block)) (seq 0 16) in
  let v := fold_left (blake256_round m) (seq 0 14) (blake256_v St) in
  let h' := fold_left (fun h i => <[(i mod 8)%nat := Z.lxor (h !!! (i mod 8)%nat) (v !!! i)]> h) (seq 0 16) (h St) in
  let h' := fold_left (fun h i => <[i := Z.lxor (h !!! i) (s St !!! (i mod 4)%nat)]> h) (seq 0 8) h' in
  set_h h' St.

(** ** The streaming interface *)

(** [S->buf] keeps its bytes. *)
Definition blake256_init (buf : list Z) : state :=
  {| h := [0x6A09E667; 0xBB67AE85; 0x3C6EF372; 0xA54FF53A; 0x510E527F; 0x9B05688C; 0x1F83D9AB; 0x5BE0CD19];
     s := [0; 0; 0; 0]; t0 := 0; t1 := 0; buflen := 0; nullt := 0; buf := buf |}.
Definition blake224_init (buf : list Z) : state :=
  {| h := [0xC1059ED8; 0x367CD507; 0x3070DD17; 0xF70E5939; 0xFFC00B31; 0x68581511; 0x64F98FA7; 0xBEFA4FA4];
     s := [0; 0; 0; 0]; t0 := 0; t1 := 0; buflen := 0; nullt := 0; buf := buf |}.

(** [S->t[0] += 512; if (S->t[0] == 0) S->t[1]++;] *)
Definition blake256_tick (St : state) : state :=
  let St := set_t0 (u32 (t0 St + 512)) St in
  if t0 St =? 0 then set_t1 (u32 (t1 St + 1)) St else St.

(** [while (datalen >= 512)]; the rest of the data and of its length. *)
Fixpoint blake256_loop (fuel : nat) (St : state) (data : list Z) (datalen : Z) : state * list Z * Z :=
  if 512 <=? datalen then
    match fuel with
    | O => (St, data, datalen)
    | S fuel => blake256_loop fuel (blake256_compress (blake256_tick St) (take 64 data)) (drop 64 data) (datalen - 512)
    end
  else (St, data, datalen).

Definition blake256_update (St : state) (data : list Z) (datalen : Z) : state :=
  let left := Z.shiftr (buflen St) 3 in
  let fill := 64 - left in
  let '(St, data, datalen, left0) :=
    if negb (left =? 0) && (fill <=? Z.shiftr datalen 3) then
      let St := set_buf (Z.to_nat left) (Z.to_nat fill) data St in
      let St := blake256_compress (blake256_tick St) (buf St) in
      (St, drop (Z.to_nat fill) data, u64 (datalen - Z.shiftl fill 3), 0)
    else (St, data, datalen, left) in
  let '(St, data, datalen) := blake256_loop (Z.to_nat (datalen / 512)) St data datalen in
  if 0 <? datalen then
    let St := set_buf (Z.to_nat left0) (Z.to_nat (Z.shiftr datalen 3)) data St in
    set_buflen (Z.shiftl left0 3 + datalen) St
  else set_buflen 0 St.

Definition blake224_update (St : state) (data : list Z) (datalen : Z) : state := blake256_update St data datalen.

Definition blake256_final_h (St : state) (pa pb : Z) : state * list Z :=
  let lo := u32 (t0 St + buflen St) in
  let hi := if lo <? buflen St then u32 (t1 St + 1) else t1 St in
  let msglen := U32TO8 hi ++ U32TO8 lo in
  let St :=
    if buflen St =? 440 then
      let St := set_t0 (u32 (t0 St - 8)) St in
      blake256_update St [pa] 8
    else
      let St :=
        if buflen St <? 440 then
          let St := if buflen St =? 0 then set_nullt 1 St else St in
          let St := set_t0 (u32 (t0 St - (440 - buflen St))) St in
          blake256_update St padding (440 - buflen St)
        else
          let St := set_t0 (u32 (t0 St - (512 - buflen St))) St in
          let St := blake256_update St padding (512 - buflen St) in
          let St := set_t0 (u32 (t0 St - 440)) St in
          let St := blake256_update St (drop 1 padding) 440 in
          set_nullt 1 St in
      let St := blake256_update St [pb] 8 in
      set_t0 (u32 (t0 St - 8)) St in
  let St := set_t0 (u32 (t0 St - 64)) St in
  let St := blake256_update St msglen 64 in
  (St, concat (map (fun i => U32TO8 (h St !!! i)) (seq 0 8))).

Definition blake256_final (St : state) : state * list Z := blake256_final_h St 0x81 0x01.
Definition blake224_final (St : state) : state * list Z := blake256_final_h St 0x80 0x00.

(** The states on the stack are uninitialised: [buf0] is the first content of
    their buffer. *)
Definition blake256_hash (buf0 inp : list Z) (inlen : Z) : list Z :=
  snd (blake256_final (blake256_update (blake256_init buf0) inp (u64 (inlen * 8)))).
Definition blake224_hash (buf0 inp : list Z) (inlen : Z) : list Z :=
  snd (blake224_final (blake224_update (blake224_init buf0) inp (u64 (inlen * 8)))).

(** hash-extra-blake.c *)
Definition hash_extra_blake (buf0 data : list Z) (length : Z) : list Z := blake256_hash buf0 data length.

(** ** HMAC *)

Record hmac_state := { inner : state; outer : state }.

(** [memset(pad, c, 64); for (i = 0; i < keylen; ++i) pad[i] ^= key[i];] *)
Definition hmac_pad (c : Z) (key : list Z) (keylen : nat) : list Z :=
  fold_left (fun pad i => <[i := Z.lxor (pad !!! i) (key !!! i)]> pad) (seq 0 keylen) (replicate 64 c).

Definition hmac_blake256_init (buf0 key : list Z) (keylen : Z) : hmac_state :=
  let '(key, keylen) := if 64 <? keylen then (blake256_hash buf0 key keylen, 32) else (key, keylen) in
  {| inner := blake256_update (blake256_init buf0) (hmac_pad 0x36 key (Z.to_nat keylen)) 512;
     outer := blake256_update (blake256_init buf0) (hmac_pad 0x5c key (Z.to_nat keylen)) 512 |}.
Definition hmac_blake224_init (buf0 key : list Z) (keylen : Z) : hmac_state :=
  let '(key, keylen) := if 64 <? keylen then (blake256_hash buf0 key keylen, 28) else (key, keylen) in
  {| inner := blake224_update (blake224_init buf0) (hmac_pad 0x36 key (Z.to_nat keylen)) 512;
     outer := blake224_update (blake224_init buf0) (hmac_pad 0x5c key (Z.to_nat keylen)) 512 |}.

Definition hmac_blake256_update (St : hmac_state) (data : list Z) (datalen : Z) : hmac_state :=
  {| inner := blake256_update (inner St) data datalen; outer := outer St |}.
Definition hmac_blake224_update (St : hmac_state) (data : list Z) (datalen : Z) : hmac_state :=
  {| inner := blake224_update (inner St) data datalen; outer := outer St |}.

Definition hmac_blake256_final (St : hmac_state) : list Z :=
  let ihash := snd (blake256_final (inner St)) in
  snd (blake256_final (blake256_update (outer St) ihash 256)).
Definition hmac_blake224_final (St : hmac_state) : list Z :=
  let ihash := snd (blake224_final (inner St)) in
  snd (blake224_final (blake224_update (outer St) ihash 224)).

Definition hmac_blake256_hash (buf0 key : list Z) (keylen : Z) (inp : list Z) (inlen : Z) : list Z :=
  hmac_blake256_final (hmac_blake256_update (hmac_blake256_init buf0 key keylen) inp (u64 (inlen * 8))).
Definition hmac_blake224_hash (buf0 key : list Z) (keylen : Z) (inp : list Z) (inlen : Z) : list Z :=
  hmac_blake224_final (hmac_blake224_update (hmac_blake224_init buf0 key keylen) inp (u64 (inlen * 8))).
