(* ===== verification/Blake256Spec.v ===== *)
(** * BLAKE-256 as a function of the message

    The compression function by columns and diagonals with the counter as one
    number, the padding, the chain over the blocks, and the proof that
    [blake256_compress] is that function. *)

From Stdlib Require Import ZArith Lia.
From stdpp Require Import base tactics list numbers.
From S2P Require Import Prelude Radix Words IntUtil Matrix Blake256.
Open Scope Z_scope.

(** ** The specification *)

Definition be_val (p : list Z) : Z := le_val (rev p).
Definition be_bytes (n : nat) (z : Z) : list Z := rev (le_bytes n z).

Definition rotr32 (x n : Z) : Z := Z.lor (Z.shiftl x (32 - n) mod 2 ^ 32) (Z.shiftr x n).

(** The mixing of a column with the keys [k1] and [k2]. *)
Definition blake_mix (k1 k2 : Z) : mixer :=
  mix (fun a b => (a + b + k1) mod 2 ^ 32) (fun u v => rotr32 (Z.lxor u v) 16) (fun u v => rotr32 (Z.lxor u v) 12)
      (fun a b => (a + b + k2) mod 2 ^ 32) (fun u v => rotr32 (Z.lxor u v) 8) (fun u v => rotr32 (Z.lxor u v) 7)
      (fun c d => (c + d) mod 2 ^ 32).

(** Round [r] uses the permutation of the message words number [r mod 10]; column
    [c] takes the words [e + 2c] and [e + 2c + 1] of it. *)
Definition blake_keys (m : list Z) (r e c : nat) : mixer :=
  let i := (sigma !!! (r mod 10)%nat) !!! (e + 2 * c)%nat in
  let j := (sigma !!! (r mod 10)%nat) !!! (e + 2 * c + 1)%nat in
  blake_mix (Z.lxor (m !!! i) (cst !!! j)) (Z.lxor (m !!! j) (cst !!! i)).

Definition blake_round (m v : list Z) (r : nat) : list Z :=
  diagonals (blake_keys m r 8) (columns (blake_keys m r 0) v).

(** The new chain value from the old one, the salt, the counter and a block. *)
Definition blake_compress (hh ss : list Z) (counter : Z) (block : list Z) : list Z :=
  let m := map (fun i => be_val (take 4 (drop (4 * i) block))) (seq 0 16) in
  let t0 := counter mod 2 ^ 32 in
  let t1 := counter / 2 ^ 32 in
  let v := hh ++ zip_with Z.lxor (ss ++ [t0; t0; t1; t1]) (take 8 cst) in
  let v := fold_left (blake_round m) (seq 0 14) v in
  map (fun i => Z.lxor (Z.lxor (Z.lxor (hh !!! i) (v !!! i)) (v !!! (i + 8)%nat)) (ss !!! (i mod 4)%nat)) (seq 0 8).

(** The chain over blocks from number [i] on. *)
Fixpoint blake_chain (counter : nat -> Z) (ss hh : list Z) (i : nat) (bs : list (list Z)) : list Z :=
  match bs with
  | [] => hh
  | b :: bs => blake_chain counter ss (blake_compress hh ss (counter i) b) (S i) bs
  end.

(** The message, a one bit, zeros to a multiple of 64 less 8 bytes, the last bit
    of them [one], and the length in bits. *)
Definition blake_pad (one : Z) (m : list Z) : list Z :=
  let q := S ((119 - length m mod 64) mod 64) in
  m ++ (if (q =? 1)%nat then [0x80 + one] else 0x80 :: replicate (q - 2) 0 ++ [one]) ++
  be_bytes 8 (8 * Z.of_nat (length m)).

(** The number of message bits up to the end of block [i], 0 for a block without. *)
Definition blake_counter (len i : nat) : Z :=
  if (64 * i <? len)%nat then 8 * Z.min (Z.of_nat len) (64 * Z.of_nat (S i)) else 0.

Definition blake_hash (iv ss : list Z) (one : Z) (m : list Z) : list Z :=
  let p := blake_pad one m in
  concat (map (be_bytes 4) (blake_chain (blake_counter (length m)) ss iv 0 (blocks 64 (length p / 64) p))).

(** ** Words *)

Lemma U8TO32_be p : byte_ok p -> (4 <= length p)%nat -> U8TO32 p = be_val (take 4 p).
Proof.
  intros B L. destruct p as [|a [|b [|c [|d p]]]]; cbn [length] in L; try lia.
  inversion B as [|? ? Ha B1]; inversion B1 as [|? ? Hb B2]; inversion B2 as [|? ? Hc B3];
    inversion B3 as [|? ? Hd _]; subst.
  change (U8TO32 (a :: b :: c :: d :: p)) with
    (Z.lor (Z.lor (Z.lor (u32 (Z.shiftl a 24)) (u32 (Z.shiftl b 16))) (u32 (Z.shiftl c 8))) d).
  change (be_val (take 4 (a :: b :: c :: d :: p))) with (d + 2 ^ 8 * (c + 2 ^ 8 * (b + 2 ^ 8 * (a + 2 ^ 8 * 0)))).
  rewrite !u32_id by (rewrite Z.shiftl_mul_pow2 by lia; lia).
  rewrite !Z.shiftl_mul_pow2 by lia.
  assert (E1 : Z.lor (a * 2 ^ 24) (b * 2 ^ 16) = (a * 2 ^ 8 + b) * 2 ^ 16) by (apply (lor_step a b 16); lia).
  assert (E2 : forall x, Z.lor (x * 2 ^ 16) (c * 2 ^ 8) = (x * 2 ^ 8 + c) * 2 ^ 8) by (intros x; apply (lor_step x c 8); lia).
  assert (E3 : forall x, Z.lor (x * 2 ^ 8) (d * 1) = (x * 2 ^ 8 + d) * 1) by (intros x; apply (lor_step x d 0); lia).
  rewrite E1, E2, <- (Z.mul_1_r d), E3. ring.
Qed.

Lemma U32TO8_be v : U32TO8 v = be_bytes 4 v.
Proof.
  unfold U32TO8, be_bytes, u8. cbn [le_bytes rev app]. rewrite !Z.shiftr_div_pow2, !Z.div_div by lia. exact eq_refl.
Qed.

(** ** The compression function *)

Lemma add_word x k y : u32 (x + u32 (k + y)) = (x + y + k) mod 2 ^ 32.
Proof. unfold u32. rewrite Zplus_mod_idemp_r. f_equal. ring. Qed.

Lemma G_eq m i a b c d e v : a <> b /\ a <> c /\ a <> d /\ b <> c /\ b <> d /\ c <> d ->
  (a < length v /\ b < length v /\ c < length v /\ d < length v)%nat ->
  G m i a b c d e v =
  quarter (blake_mix (Z.lxor (m !!! ((sigma !!! i) !!! e)) (cst !!! ((sigma !!! i) !!! (e + 1)%nat)))
                     (Z.lxor (m !!! ((sigma !!! i) !!! (e + 1)%nat)) (cst !!! ((sigma !!! i) !!! e)))) a b c d v.
Proof.
  intros D L. unfold G. set (k1 := Z.lxor (m !!! ((sigma !!! i) !!! e)) _). set (k2 := Z.lxor (m !!! ((sigma !!! i) !!! (e + 1)%nat)) _).
  etransitivity.
  - exact (halves_quarter a b c d v D L (fun x y => u32 (x + u32 (k1 + y))) (fun x y => ROT (Z.lxor x y) 16)
      (fun x y => ROT (Z.lxor x y) 12) (fun x y => u32 (x + u32 (k2 + y))) (fun x y => ROT (Z.lxor x y) 8)
      (fun x y => ROT (Z.lxor x y) 7) (fun x y => u32 (x + y))).
  - unfold quarter, blake_mix. erewrite mix_ext; [exact eq_refl|..]; intros x y; try exact eq_refl; apply add_word.
Qed.

Lemma sigma_mod r : (r < 14)%nat -> sigma !!! r = sigma !!! (r mod 10)%nat.
Proof. intros H. do 14 (destruct r as [|r]; [exact eq_refl|]). lia. Qed.

Lemma blake256_round_eq m v r : length v = 16%nat -> (r < 14)%nat -> blake256_round m v r = blake_round m v r.
Proof.
  intros L R. unfold blake256_round, blake_round. cbv zeta.
  rewrite (G_eq m r 0 4 8 12 0) by lia. rewrite (G_eq m r 1 5 9 13 2) by (rewrite ?length_quarter; lia).
  rewrite (G_eq m r 2 6 10 14 4) by (rewrite ?length_quarter; lia).
  rewrite (G_eq m r 3 7 11 15 6) by (rewrite ?length_quarter; lia).
  rewrite (G_eq m r 3 4 9 14 14) by (rewrite ?length_quarter; lia).
  rewrite (G_eq m r 2 7 8 13 12) by (rewrite ?length_quarter; lia).
  rewrite (G_eq m r 0 5 10 15 8) by (rewrite ?length_quarter; lia).
  rewrite (G_eq m r 1 6 11 12 10) by (rewrite ?length_quarter; lia).
  rewrite <- (quarters_diagonals_32 (blake_keys m r 8)) by apply length_columns.
  rewrite <- (quarters_columns (blake_keys m r 0)) by exact L.
  unfold blake_keys. rewrite <- sigma_mod by exact R. exact eq_refl.
Qed.

(** The counter of a state. *)
Definition counter_of (St : state) : Z := if nullt St =? 0 then t0 St + 2 ^ 32 * t1 St else 0.

Record state_ok (St : state) : Prop := {
  ok_h : length (h St) = 8%nat;
  ok_s : length (s St) = 4%nat;
  ok_t0 : 0 <= t0 St < 2 ^ 32;
  ok_t1 : 0 <= t1 St < 2 ^ 32;
  ok_buf : length (buf St) = 64%nat
}.

Lemma list_destruct_4 (l : list Z) : length l = 4%nat -> exists a b c d, l = [a; b; c; d].
Proof. intros L. do 4 (destruct l as [|? l]; [discriminate L|]). destruct l; [eauto | discriminate L]. Qed.
Lemma list_destruct_8 (l : list Z) : length l = 8%nat ->
  exists a b c d e f g i, l = [a; b; c; d; e; f; g; i].
Proof. intros L. do 8 (destruct l as [|? l]; [discriminate L|]). destruct l; [repeat eexists | discriminate L]. Qed.

Lemma blake256_v_eq St : state_ok St ->
  blake256_v St = h St ++ zip_with Z.lxor (s St ++ [counter_of St mod 2 ^ 32; counter_of St mod 2 ^ 32;
    counter_of St / 2 ^ 32; counter_of St / 2 ^ 32]) (take 8 cst).
Proof.
  intros [Lh Ls Ht0 Ht1 _].
  destruct (list_destruct_8 _ Lh) as (a0 & a1 & a2 & a3 & a4 & a5 & a6 & a7 & Eh).
  destruct (list_destruct_4 _ Ls) as (s0 & s1 & s2 & s3 & Es).
  unfold blake256_v, counter_of. rewrite Eh, Es. destruct (nullt St =? 0).
  - assert (E : (t0 St + 2 ^ 32 * t1 St) mod 2 ^ 32 = t0 St).
    { rewrite Z.mul_comm, Z.mod_add by lia. apply Z.mod_small, Ht0. }
    assert (E' : (t0 St + 2 ^ 32 * t1 St) / 2 ^ 32 = t1 St).
    { rewrite Z.mul_comm, Z.div_add by lia. rewrite Z.div_small by exact Ht0. apply Z.add_0_l. }
    rewrite E, E'.
    change (zip_with Z.lxor ([s0; s1; s2; s3] ++ [t0 St; t0 St; t1 St; t1 St]) (take 8 cst)) with
      [Z.lxor s0 0x243F6A88; Z.lxor s1 0x85A308D3; Z.lxor s2 0x13198A2E; Z.lxor s3 0x03707344;
       Z.lxor (t0 St) 0xA4093822; Z.lxor (t0 St) 0x299F31D0; Z.lxor (t1 St) 0x082EFA98; Z.lxor (t1 St) 0xEC4E6C89].
    rewrite !(Z.lxor_comm (t0 St)), !(Z.lxor_comm (t1 St)). exact eq_refl.
  - exact eq_refl.
Qed.

Lemma blake_rounds_eq m n v : length v = 16%nat -> (n <= 14)%nat ->
  fold_left (blake256_round m) (seq 0 n) v = fold_left (blake_round m) (seq 0 n) v.
Proof.
  intros L N. apply (fold_left_ext_in (fun v => length v = 16%nat)); [exact L|]. intros v' r Hr Lv.
  apply in_seq_lt in Hr. split; [apply blake256_round_eq; [exact Lv | lia]|].
  rewrite blake256_round_eq by (exact Lv || lia). apply length_diagonals.
Qed.

Lemma blake256_compress_eq St block : state_ok St -> byte_ok block -> length block = 64%nat ->
  blake256_compress St block = set_h (blake_compress (h St) (s St) (counter_of St) block) St.
Proof.
  intros O B L. unfold blake256_compress. cbv zeta. f_equal. unfold blake_compress. cbv zeta.
  rewrite <- (blake256_v_eq St O). set (v := blake256_v St).
  assert (Lv : length v = 16%nat).
  { unfold v. rewrite blake256_v_eq by exact O. destruct O as [Lh Ls _ _ _].
    rewrite length_app, length_zip_with, length_app, Lh, Ls. exact eq_refl. }
  assert (M : map (fun i => U8TO32 (drop (i * 4) block)) (seq 0 16)
              = map (fun i => be_val (take 4 (drop (4 * i) block))) (seq 0 16)).
  { apply map_ext_in. intros i Hi. apply in_seq_lt in Hi. rewrite (Nat.mul_comm i 4).
    apply U8TO32_be; [by apply Forall_drop | rewrite length_drop; lia]. }
  rewrite M, (blake_rounds_eq _ 14 v Lv (Nat.le_refl _)). set (v' := fold_left _ _ v). clearbody v'.
  destruct (list_destruct_8 _ (ok_h St O)) as (a0 & a1 & a2 & a3 & a4 & a5 & a6 & a7 & ->).
  destruct (list_destruct_4 _ (ok_s St O)) as (s0 & s1 & s2 & s3 & ->). exact eq_refl.
Qed.

Lemma length_blake_compress hh ss c b : length (blake_compress hh ss c b) = 8%nat.
Proof. unfold blake_compress. cbv zeta. by rewrite length_map, length_seq. Qed.
