(* ===== verification/Blake256Proofs.v ===== *)
(** * Proofs about the streaming interface of BLAKE-256

    A state represents the message absorbed so far: the chain over its full
    blocks, the rest of it in the buffer, its length in the counter and in
    [buflen]. Each update and the final padding keep to it. *)

From Stdlib Require Import ZArith Lia.
From stdpp Require Import base tactics list numbers.
From S2P Require Import Prelude Radix Words IntUtil Matrix Blake256 Blake256Spec.
Open Scope Z_scope.

#[local] Opaque blake_compress blake256_compress.

Lemma take_plus {A} n m (l : list A) : take (n + m) l = take n l ++ take m (drop n l).
Proof.
  revert l. induction n as [|n IH]; intros l; [done|]. destruct l as [|x l]; [cbn; by rewrite !firstn_nil|].
  cbn [Nat.add take drop app]. by rewrite IH.
Qed.

(** The counter of a full block. *)
Definition full_counter (i : nat) : Z := 512 * Z.of_nat (S i).

Lemma blake_chain_app c ss hh i bs bs' :
  blake_chain c ss hh i (bs ++ bs') = blake_chain c ss (blake_chain c ss hh i bs) (i + length bs) bs'.
Proof.
  revert hh i. induction bs as [|b bs IH]; intros hh i; cbn [app blake_chain length].
  - by rewrite Nat.add_0_r.
  - rewrite IH. by replace (S i + length bs)%nat with (i + S (length bs))%nat by lia.
Qed.

Lemma length_blocks r n m : length (blocks r n m) = n.
Proof. revert m. induction n as [|n IH]; intros m; [done|]. cbn [blocks length]. by rewrite IH. Qed.

Lemma length_blake_chain c ss hh i bs : length hh = 8%nat -> length (blake_chain c ss hh i bs) = 8%nat.
Proof.
  revert hh i. induction bs as [|b bs IH]; intros hh i L; [exact L|]. cbn [blake_chain].
  apply IH, length_blake_compress.
Qed.

Lemma blake_chain_ext c c' ss hh i bs : (forall j, (i <= j < i + length bs)%nat -> c j = c' j) ->
  blake_chain c ss hh i bs = blake_chain c' ss hh i bs.
Proof.
  revert hh i. induction bs as [|b bs IH]; intros hh i H; [done|]. cbn [blake_chain length] in *.
  rewrite (H i) by lia. apply IH. intros j Hj. apply H. lia.
Qed.

(** ** Full blocks *)

Section stream.
Context (iv ss : list Z) (Liv : length iv = 8%nat) (Lss : length ss = 4%nat).

(** [k] blocks are absorbed; nothing is said of the buffer but its size. *)
Record absorbed (m : list Z) (k : nat) (St : state) : Prop := {
  ab_len : length m = (64 * k)%nat;
  ab_bytes : byte_ok m;
  ab_h : h St = blake_chain full_counter ss iv 0 (blocks 64 k m);
  ab_s : s St = ss;
  ab_t0 : t0 St = (512 * Z.of_nat k) mod 2 ^ 32;
  ab_t1 : t1 St = 512 * Z.of_nat k / 2 ^ 32;
  ab_nullt : nullt St = 0;
  ab_buf : length (buf St) = 64%nat
}.

Lemma absorbed_ok m k St : 512 * Z.of_nat k < 2 ^ 64 -> absorbed m k St -> state_ok St.
Proof using Liv Lss.
  intros K A. split.
  - rewrite (ab_h _ _ _ A). apply length_blake_chain, Liv.
  - rewrite (ab_s _ _ _ A). exact Lss.
  - rewrite (ab_t0 _ _ _ A). apply Z.mod_pos_bound. lia.
  - rewrite (ab_t1 _ _ _ A). split; [apply Z.div_pos; lia | apply Z.div_lt_upper_bound; lia].
  - exact (ab_buf _ _ _ A).
Qed.

(** The counter after one more block. *)
Lemma tick_counter k : 512 * Z.of_nat (S k) < 2 ^ 64 ->
  let c := 512 * Z.of_nat k in
  u32 (c mod 2 ^ 32 + 512) = (512 * Z.of_nat (S k)) mod 2 ^ 32 /\
  (if u32 (c mod 2 ^ 32 + 512) =? 0 then u32 (c / 2 ^ 32 + 1) else c / 2 ^ 32) = 512 * Z.of_nat (S k) / 2 ^ 32.
Proof using.
  clear. intros K c. assert (E : u32 (c mod 2 ^ 32 + 512) = (512 * Z.of_nat (S k)) mod 2 ^ 32).
  { unfold u32. rewrite Zplus_mod_idemp_l. f_equal. lia. }
  split; [exact E|]. rewrite E. replace (512 * Z.of_nat (S k)) with (c + 512) in * by lia.
  pose proof (Z.div_mod c (2 ^ 32) ltac:(lia)). pose proof (Z.mod_pos_bound c (2 ^ 32) ltac:(lia)).
  pose proof (Z.div_mod (c + 512) (2 ^ 32) ltac:(lia)). pose proof (Z.mod_pos_bound (c + 512) (2 ^ 32) ltac:(lia)).
  assert (M : c mod 2 ^ 32 mod 512 = 0).
  { replace c with (Z.of_nat k * 512) by lia. change (2 ^ 32) with (2 ^ 23 * 512). rewrite Z.mul_mod_distr_r by lia.
    apply Z.mod_mul. lia. }
  pose proof (Z.div_mod (c mod 2 ^ 32) 512 ltac:(lia)) as Q. rewrite M in Q.
  destruct (Z.eqb_spec ((c + 512) mod 2 ^ 32) 0).
  - rewrite u32_id; [lia|]. split; [apply Z.add_nonneg_nonneg; [apply Z.div_pos; lia | lia]|].
    assert ((c + 512) / 2 ^ 32 < 2 ^ 32) by (apply Z.div_lt_upper_bound; lia). lia.
  - lia.
Qed.

Lemma absorbed_block m k St b : absorbed m k St -> byte_ok b -> length b = 64%nat ->
  512 * Z.of_nat (S k) < 2 ^ 64 ->
  absorbed (m ++ b) (S k) (blake256_compress (blake256_tick St) b).
Proof using Liv Lss.
  intros A B L K. pose proof (absorbed_ok m k St ltac:(lia) A) as O.
  destruct (tick_counter k K) as [T0 T1]. rewrite <- (ab_t0 _ _ _ A) in T0, T1. rewrite <- (ab_t1 _ _ _ A) in T1.
  set (St1 := blake256_tick St).
  assert (F : h St1 = h St /\ s St1 = s St /\ nullt St1 = 0 /\ buf St1 = buf St /\
              t0 St1 = (512 * Z.of_nat (S k)) mod 2 ^ 32 /\ t1 St1 = 512 * Z.of_nat (S k) / 2 ^ 32).
  { unfold St1, blake256_tick. cbv zeta. cbn [set_t0 t0 t1]. rewrite T0 in T1 |- *. rewrite <- T1.
    destruct (_ =? 0); cbn; split_and!; try exact eq_refl; exact (ab_nullt _ _ _ A). }
  destruct F as (Fh & Fs & Fn & Fb & F0 & F1).
  assert (O1 : state_ok St1).
  { split; rewrite ?Fh, ?Fs, ?F0, ?F1, ?Fb; [apply O | apply O | apply Z.mod_pos_bound; lia | | apply O].
    split; [apply Z.div_pos; lia | apply Z.div_lt_upper_bound; lia]. }
  assert (C : counter_of St1 = full_counter k).
  { unfold counter_of, full_counter. rewrite Fn, F0, F1. cbn [Z.eqb].
    pose proof (Z.div_mod (512 * Z.of_nat (S k)) (2 ^ 32)). lia. }
  rewrite (blake256_compress_eq St1 b O1 B L), C, Fh, Fs.
  split; cbn [set_h h s t0 t1 nullt buf]; try assumption.
  - rewrite length_app, (ab_len _ _ _ A), L. lia.
  - apply Forall_app. split; [exact (ab_bytes _ _ _ A) | exact B].
  - replace (S k) with (k + 1)%nat by lia. rewrite blocks_app by exact (ab_len _ _ _ A). rewrite blake_chain_app, length_blocks.
    rewrite <- (ab_h _ _ _ A), (ab_s _ _ _ A). cbn [blocks blake_chain Nat.add]. rewrite take_ge by lia. exact eq_refl.
  - rewrite Fs. exact (ab_s _ _ _ A).
  - rewrite Fb. exact (ab_buf _ _ _ A).
Qed.

(** The loop absorbs the full blocks of the data. *)
Lemma blake256_loop_spec fuel : forall m k St data, absorbed m k St -> byte_ok data ->
  (length data / 64 <= fuel)%nat -> 8 * Z.of_nat (64 * k + length data) < 2 ^ 64 ->
  exists St', blake256_loop fuel St data (8 * Z.of_nat (length data))
    = (St', drop (64 * (length data / 64)) data, 8 * Z.of_nat (length data mod 64)) /\
    absorbed (m ++ take (64 * (length data / 64)) data) (k + length data / 64) St'.
Proof using Liv Lss.
  assert (Base : forall m k St data, absorbed m k St -> (length data < 64)%nat ->
    (St, data, 8 * Z.of_nat (length data))
    = (St, drop (64 * (length data / 64)) data, 8 * Z.of_nat (length data mod 64)) /\
    absorbed (m ++ take (64 * (length data / 64)) data) (k + length data / 64) St).
  { intros m k St data A L. rewrite Nat.div_small, Nat.mod_small by exact L. rewrite Nat.mul_0_r, Nat.add_0_r.
    split; [exact eq_refl|]. rewrite take_0, app_nil_r. exact A. }
  induction fuel as [|fuel IH]; intros m k St data A B F K; cbn [blake256_loop];
    destruct (Z.leb_spec 512 (8 * Z.of_nat (length data))) as [L|L];
    try (exists St; apply Base; [exact A | lia]).
  - pose proof (Nat.div_str_pos (length data) 64 ltac:(lia)). lia.
  - pose proof (div_sub_1 (length data) 64 ltac:(lia)) as E. rewrite <- length_drop in E.
    assert (Lt : length (take 64 data) = 64%nat) by (rewrite length_take; lia).
    pose proof (absorbed_block m k St (take 64 data) A (Forall_take _ _ _ B) Lt ltac:(lia)) as A'.
    destruct (IH _ _ _ (drop 64 data) A') as (St' & E' & R).
    + by apply Forall_drop.
    + lia.
    + rewrite length_drop. lia.
    + exists St'. replace (8 * Z.of_nat (length data) - 512) with (8 * Z.of_nat (length (drop 64 data)))
        by (rewrite length_drop; lia).
      rewrite E', E, drop_drop, Nat.mul_succ_r, (Nat.add_comm _ 64).
      assert (M : (length (drop 64 data) mod 64 = length data mod 64)%nat).
      { rewrite length_drop. replace (length data) with (length data - 64 + 1 * 64)%nat at 2 by lia.
        by rewrite Nat.Div0.mod_add. }
      rewrite M. split; [exact eq_refl|].
      rewrite <- app_assoc in R. rewrite <- Nat.add_succ_comm.
      rewrite take_plus. exact R.
Qed.
(** ** Updates *)

(** The state of the message [m]. *)
Record repr (m : list Z) (St : state) : Prop := {
  rp_absorbed : absorbed (take (64 * (length m / 64)) m) (length m / 64) St;
  rp_buflen : buflen St = 8 * Z.of_nat (length m mod 64);
  rp_buf : take (length m mod 64) (buf St) = drop (64 * (length m / 64)) m;
  rp_bytes : byte_ok m
}.

Lemma absorbed_ext m k St St' : absorbed m k St -> h St' = h St -> s St' = s St -> t0 St' = t0 St ->
  t1 St' = t1 St -> nullt St' = nullt St -> length (buf St') = 64%nat -> absorbed m k St'.
Proof using. clear. intros [] ? ? ? ? ? ?. split; congruence. Qed.

Lemma length_set_buf l d St : (l + length d <= 64)%nat -> length (buf St) = 64%nat ->
  length (buf (set_buf l (length d) d St)) = 64%nat.
Proof using.
  clear. intros H L. cbn [set_buf buf]. rewrite !length_app, !length_take, length_drop. lia.
Qed.

(** The full blocks of [m] and at most 63 bytes more make a representation. *)
Lemma repr_intro m k r St : absorbed m k St -> (length r < 64)%nat -> byte_ok r ->
  buflen St = 8 * Z.of_nat (length r) -> take (length r) (buf St) = r -> repr (m ++ r) St.
Proof using.
  clear. intros A L B E F. pose proof (ab_len _ _ _ A) as Lm.
  assert (D : (length (m ++ r) / 64 = k)%nat).
  { rewrite length_app, Lm. symmetry. apply (Nat.div_unique _ _ _ (length r)); lia. }
  assert (M : (length (m ++ r) mod 64 = length r)%nat).
  { rewrite length_app, Lm. symmetry. apply (Nat.mod_unique _ _ k); lia. }
  split; rewrite ?D, ?M.
  - by rewrite <- Lm, take_app_length.
  - exact E.
  - by rewrite <- Lm, drop_app_length.
  - apply Forall_app. split; [apply A | exact B].
Qed.

(** The end of an update: fewer than 64 bytes [d] behind [r] in the buffer. *)
Lemma update_tail m k r d St : absorbed m k St -> (length r + length d < 64)%nat -> byte_ok r -> byte_ok d ->
  take (length r) (buf St) = r ->
  (d <> [] \/ r = []) ->
  repr (m ++ r ++ d)
    (if 0 <? 8 * Z.of_nat (length d)
     then set_buflen (Z.shiftl (Z.of_nat (length r)) 3 + 8 * Z.of_nat (length d))
            (set_buf (length r) (length d) d St)
     else set_buflen 0 St).
Proof using.
  clear. intros A L Br Bd F N. pose proof (ab_buf _ _ _ A) as Lb. rewrite Z.shiftl_mul_pow2 by lia.
  destruct (Z.ltb_spec 0 (8 * Z.of_nat (length d))) as [P|P].
  - apply (repr_intro m k).
    + apply (absorbed_ext m k St); try exact eq_refl; [exact A|]. apply length_set_buf; [lia | exact Lb].
    + rewrite length_app. lia.
    + apply Forall_app. by split.
    + cbn [set_buflen buflen]. rewrite length_app. lia.
    + cbn [set_buflen set_buf buf]. rewrite length_app, (take_ge d), F by lia. rewrite app_assoc, <- length_app.
      apply take_app_length.
  - assert (d = []) as -> by (apply nil_length_inv; lia). destruct N as [N| ->]; [congruence|].
    apply (repr_intro m k); [apply (absorbed_ext m k St); try exact eq_refl; [exact A | exact Lb] | cbn; lia |
      constructor | exact eq_refl | exact eq_refl].
Qed.

Lemma update_spec m St data : repr m St -> byte_ok data -> 8 * Z.of_nat (length m + length data) < 2 ^ 64 ->
  (data <> [] \/ (length m mod 64 = 0)%nat) ->
  repr (m ++ data) (blake256_update St data (8 * Z.of_nat (length data))).
Proof using Liv Lss.
  intros R B K N. destruct R as [A E F Bm].
  pose proof (Nat.div_mod_eq (length m) 64) as Dm. pose proof (Nat.mod_upper_bound (length m) 64 ltac:(lia)) as Lm.
  set (k := (length m / 64)%nat) in *. set (l := (length m mod 64)%nat) in *.
  set (m0 := take (64 * k) m) in *. set (r := drop (64 * k) m) in *.
  assert (Em : m = m0 ++ r) by (symmetry; apply take_drop).
  assert (Lr : length r = l) by (unfold r; rewrite length_drop; lia).
  assert (Br : byte_ok r) by (by apply Forall_drop).
  pose proof (ab_buf _ _ _ A) as Lb.
  unfold blake256_update. rewrite E.
  replace (Z.shiftr (8 * Z.of_nat l) 3) with (Z.of_nat l)
    by (rewrite Z.shiftr_div_pow2, Z.mul_comm by lia; symmetry; apply (Z.div_mul _ 8); lia).
  replace (Z.shiftr (8 * Z.of_nat (length data)) 3) with (Z.of_nat (length data))
    by (rewrite Z.shiftr_div_pow2, Z.mul_comm by lia; symmetry; apply (Z.div_mul _ 8); lia).
  cbv zeta.
  assert (Fuel : forall d : list Z, (length d / 64 <= Z.to_nat (8 * Z.of_nat (length d) / 512))%nat).
  { intros d. pose proof (Nat.div_mod_eq (length d) 64).
    pose proof (Z.div_mod (8 * Z.of_nat (length d)) 512 ltac:(lia)).
    pose proof (Z.mod_pos_bound (8 * Z.of_nat (length d)) 512 ltac:(lia)). lia. }
  assert (Shift : forall d : list Z, Z.to_nat (Z.shiftr (8 * Z.of_nat (length d mod 64)) 3) = (length d mod 64)%nat).
  { intros d. rewrite Z.shiftr_div_pow2, Z.mul_comm by lia. change (2 ^ 3) with 8. rewrite Z.div_mul by lia. lia. }
  assert (Rest : forall d : list Z, length (drop (64 * (length d / 64)) d) = (length d mod 64)%nat).
  { intros d. rewrite length_drop. pose proof (Nat.div_mod_eq (length d) 64). lia. }
  destruct (Z.eqb_spec (Z.of_nat l) 0) as [L0|L0]; cbn [negb andb].
  2: destruct (Z.leb_spec (64 - Z.of_nat l) (Z.of_nat (length data))) as [Lf|Lf].
  - (* an empty buffer *)
    destruct (blake256_loop_spec _ m0 k St data A B (Fuel data) ltac:(lia)) as (St' & -> & A').
    rewrite (L0 : Z.of_nat l = Z.of_nat (@length Z [])).
    pose proof (update_tail _ _ [] (drop (64 * (length data / 64)) data) St' A') as U. rewrite Rest in U.
    rewrite Shift, Nat2Z.id. assert (r = []) as Er by (apply nil_length_inv; lia).
    rewrite Em, Er, app_nil_r. cbn [app] in U. rewrite <- app_assoc, take_drop in U.
    apply U; [exact (Nat.mod_upper_bound _ 64 (Nat.neq_succ_0 63)) | constructor | by apply Forall_drop | exact eq_refl | by right].
  - (* the data complete the buffer *)
    set (fill := Z.to_nat (64 - Z.of_nat l)).
    replace (64 - Z.of_nat l) with (Z.of_nat fill) in * by lia. rewrite !Nat2Z.id.
    assert (Lt : length (take fill data) = fill) by (rewrite length_take; lia).
    assert (Eb : buf (set_buf l fill data St) = r ++ take fill data).
    { cbn [set_buf buf]. rewrite F. rewrite (drop_ge (buf St)) by lia. by rewrite app_nil_r. }
    rewrite Eb.
    assert (A1 : absorbed m0 k (set_buf l fill data St)).
    { apply (absorbed_ext m0 k St); try exact eq_refl; [exact A|]. rewrite Eb, length_app. lia. }
    pose proof (absorbed_block m0 k _ (r ++ take fill data) A1) as A2.
    assert (X : absorbed (m0 ++ r ++ take fill data) (S k)
      (blake256_compress (blake256_tick (set_buf l fill data St)) (r ++ take fill data))).
    { apply A2; [apply Forall_app; split; [exact Br | by apply Forall_take] | rewrite length_app; lia | lia]. }
    set (St1 := blake256_compress _ _) in *. clearbody St1. clear A2.
    replace (u64 (8 * Z.of_nat (length data) - Z.shiftl (Z.of_nat fill) 3))
      with (8 * Z.of_nat (length (drop fill data)))
      by (rewrite Z.shiftl_mul_pow2, u64_id, length_drop by lia; lia).
    destruct (blake256_loop_spec _ _ _ St1 (drop fill data) X ltac:(by apply Forall_drop) (Fuel (drop fill data)))
      as (St' & -> & A'); [rewrite length_drop; lia|].
    set (d := drop fill data) in *. change 0 with (Z.of_nat (@length Z [])) at 2 3.
    pose proof (update_tail _ _ [] (drop (64 * (length d / 64)) d) St' A') as U. rewrite Rest in U.
    rewrite Shift, Nat2Z.id. cbn [app] in U. rewrite <- app_assoc, take_drop in U.
    assert (Ed : m ++ data = (m0 ++ r ++ take fill data) ++ d).
    { rewrite Em at 1. unfold d. rewrite <- !app_assoc, take_drop. exact eq_refl. }
    rewrite Ed.
    apply U; [exact (Nat.mod_upper_bound _ 64 (Nat.neq_succ_0 63)) | constructor | apply Forall_drop; by apply Forall_drop | exact eq_refl | by right].
  - (* the data fit *)
    assert (Ed : m ++ data = m0 ++ r ++ data) by (rewrite Em at 1; by rewrite <- app_assoc).
    rewrite Ed. replace (Z.to_nat (8 * Z.of_nat (length data) / 512)) with 0%nat
      by (rewrite Z.div_small by lia; exact eq_refl).
    cbn [blake256_loop]. rewrite (proj2 (Z.leb_gt 512 _)) by lia.
    replace (Z.to_nat (Z.shiftr (8 * Z.of_nat (length data)) 3)) with (length data)
      by (rewrite Z.shiftr_div_pow2, Z.mul_comm by lia; change (2 ^ 3) with 8; rewrite Z.div_mul by lia; lia).
    rewrite Nat2Z.id, <- Lr. apply (update_tail m0 k r data St A); [lia | exact Br | exact B | by rewrite Lr|].
    destruct N as [N|N]; [by left | lia].
Qed.
End stream.
