(* ===== verification/Blake256Final.v ===== *)
(** * The final padding of BLAKE-256

    [blake256_final_h] on the state of a message returns the hash of the message:
    the padding updates, which subtract their own length from the counter, store
    the padded blocks, and the counters of the last one or two blocks come out
    as the number of message bits. *)

From Stdlib Require Import ZArith Lia.
From stdpp Require Import base tactics list numbers.
From S2P Require Import Prelude Radix Words IntUtil Matrix Blake256 Blake256Spec Blake256Proofs.
Open Scope Z_scope.

#[local] Opaque blake_compress blake256_compress.

(** ** Two kinds of update *)

Lemma shiftr_8 n : Z.shiftr (8 * Z.of_nat n) 3 = Z.of_nat n.
Proof. rewrite Z.shiftr_div_pow2, Z.mul_comm by lia. apply (Z.div_mul _ 8). lia. Qed.

(** The data stay in the buffer. *)
Lemma update_small l n d St : buflen St = 8 * Z.of_nat l -> (0 < n)%nat -> (l + n < 64)%nat ->
  blake256_update St d (8 * Z.of_nat n) = set_buflen (8 * Z.of_nat (l + n)) (set_buf l n d St).
Proof.
  intros E N L. unfold blake256_update. rewrite E, !shiftr_8. cbv zeta.
  rewrite (proj2 (Z.leb_gt (64 - Z.of_nat l) (Z.of_nat n))) by lia. rewrite andb_false_r.
  replace (Z.to_nat (8 * Z.of_nat n / 512)) with 0%nat by (rewrite Z.div_small by lia; exact eq_refl).
  cbn [blake256_loop]. rewrite (proj2 (Z.leb_gt 512 _)), (proj2 (Z.ltb_lt 0 _)) by lia.
  rewrite shiftr_8, !Nat2Z.id, Z.shiftl_mul_pow2 by lia. f_equal. lia.
Qed.

(** The data complete the buffer. *)
Lemma update_fill l n d St : buflen St = 8 * Z.of_nat l -> (0 < l)%nat -> (l + n = 64)%nat ->
  blake256_update St d (8 * Z.of_nat n)
  = set_buflen 0 (blake256_compress (blake256_tick (set_buf l n d St)) (buf (set_buf l n d St))).
Proof.
  intros E N L. unfold blake256_update. rewrite E, !shiftr_8. cbv zeta.
  rewrite (proj2 (Z.eqb_neq (Z.of_nat l) 0)), (proj2 (Z.leb_le (64 - Z.of_nat l) (Z.of_nat n))) by lia. cbn [negb andb].
  replace (64 - Z.of_nat l) with (Z.of_nat n) by lia. rewrite !Nat2Z.id.
  replace (u64 (8 * Z.of_nat n - Z.shiftl (Z.of_nat n) 3)) with 0
    by (rewrite Z.shiftl_mul_pow2, u64_id by lia; lia).
  exact eq_refl.
Qed.

(** A block whose counter is the sum of the counter and the 512 bits. *)
Lemma compress_tick X b c : state_ok X -> byte_ok b -> length b = 64%nat ->
  (nullt X <> 0 /\ c = 0) \/ (nullt X = 0 /\ u32 (t0 X + 512) <> 0 /\ c = u32 (t0 X + 512) + 2 ^ 32 * t1 X) ->
  blake256_compress (blake256_tick X) b = set_h (blake_compress (h X) (s X) c b) (blake256_tick X).
Proof.
  intros O B L C. set (Y := blake256_tick X).
  assert (F : h Y = h X /\ s Y = s X /\ nullt Y = nullt X /\ buf Y = buf X /\ t0 Y = u32 (t0 X + 512) /\
              t1 Y = if u32 (t0 X + 512) =? 0 then u32 (t1 X + 1) else t1 X).
  { unfold Y, blake256_tick. cbv zeta. change (t0 (set_t0 (u32 (t0 X + 512)) X)) with (u32 (t0 X + 512)).
    destruct (u32 (t0 X + 512) =? 0); cbn [set_t0 set_t1 h s nullt buf t0 t1];
      exact (conj eq_refl (conj eq_refl (conj eq_refl (conj eq_refl (conj eq_refl eq_refl))))). }
  destruct F as (Fh & Fs & Fn & Fb & F0 & F1).
  assert (OY : state_ok Y).
  { split; rewrite ?Fh, ?Fs, ?F0, ?F1, ?Fb; [apply O | apply O | apply u32_range | | apply O].
    destruct (_ =? 0); [apply u32_range | apply O]. }
  rewrite (blake256_compress_eq Y b OY B L). rewrite Fh, Fs.
  apply (f_equal (fun z => set_h (blake_compress (h X) (s X) z b) Y)). unfold counter_of. rewrite Fn, F0, F1.
  destruct C as [[N ->]|(N & Z0 & ->)].
  - by rewrite (proj2 (Z.eqb_neq _ _) N).
  - rewrite N. by rewrite (proj2 (Z.eqb_neq _ _) Z0).
Qed.

Lemma u32_sub_sub x a b : u32 (u32 (x - a) - b) = u32 (x - (a + b)).
Proof. unfold u32. rewrite Zminus_mod_idemp_l. f_equal. lia. Qed.
Lemma u32_sub_add x a b : u32 (u32 (x - a) + b) = u32 (x - a + b).
Proof. unfold u32. by rewrite Zplus_mod_idemp_l. Qed.

(** The last update: the eight bytes of the length behind 56 bytes. *)
Lemma last_update X msg T c : buflen X = 448 -> length (h X) = 8%nat -> length (s X) = 4%nat ->
  0 <= t1 X < 2 ^ 32 -> length (buf X) = 64%nat -> byte_ok (take 56 (buf X)) -> byte_ok msg -> length msg = 8%nat ->
  t0 X = u32 (T - 448) -> 0 <= T < 2 ^ 32 ->
  (nullt X <> 0 /\ c = 0) \/ (nullt X = 0 /\ T <> 0 /\ c = T + 2 ^ 32 * t1 X) ->
  h (blake256_update (set_t0 (u32 (t0 X - 64)) X) msg 64) = blake_compress (h X) (s X) c (take 56 (buf X) ++ msg).
Proof.
  intros E Lh Ls T1 Lb Bb Bm Lm T0 RT C. set (Y := set_t0 (u32 (t0 X - 64)) X).
  assert (EY : buflen Y = 8 * Z.of_nat 56) by exact E.
  change 64 with (8 * Z.of_nat 8). rewrite (update_fill 56 8 msg Y EY) by lia.
  set (W := set_buf 56 8 msg Y).
  assert (Eb : buf W = take 56 (buf X) ++ msg).
  { unfold W. cbn [set_buf buf]. change (buf Y) with (buf X). rewrite (take_ge msg), (drop_ge (buf X)) by lia.
    by rewrite app_nil_r. }
  assert (Lw : length (buf W) = 64%nat) by (rewrite Eb, length_app, length_take; lia).
  assert (Tw : u32 (t0 W + 512) = T).
  { change (t0 W) with (u32 (t0 X - 64)). rewrite T0, u32_sub_sub, u32_sub_add.
    replace (T - (448 + 64) + 512) with T by lia. apply u32_id, RT. }
  rewrite (compress_tick W (buf W) c); [| |rewrite Eb; apply Forall_app; by split | exact Lw|].
  - cbn [set_buflen set_h h]. rewrite Eb. exact eq_refl.
  - split; [exact Lh | exact Ls | apply u32_range | exact T1 | exact Lw].
  - rewrite Tw. exact C.
Qed.

(** ** The padding *)

Lemma le_bytes_app a b z : le_bytes (a + b) z = le_bytes a z ++ le_bytes b (z / 2 ^ (8 * Z.of_nat a)).
Proof.
  revert z. induction a as [|a IH]; intros z.
  - cbn. by rewrite Z.div_1_r.
  - cbn [Nat.add le_bytes app]. rewrite IH. do 3 f_equal. rewrite Z.div_div, <- Z.pow_add_r by (try apply Z.pow_pos_nonneg; lia).
    f_equal. f_equal. lia.
Qed.

Lemma le_bytes_mod n z : le_bytes n (z mod 2 ^ (8 * Z.of_nat n)) = le_bytes n z.
Proof.
  apply le_val_inj; [apply le_bytes_ok | apply le_bytes_ok | by rewrite !length_le_bytes |].
  rewrite !le_val_le_bytes. apply Z.mod_mod. pose proof (Z.pow_pos_nonneg 2 (8 * Z.of_nat n)). lia.
Qed.

Lemma be_bytes_split lo hi : 0 <= lo < 2 ^ 32 -> be_bytes 4 hi ++ be_bytes 4 lo = be_bytes 8 (lo + 2 ^ 32 * hi).
Proof.
  intros H. unfold be_bytes. rewrite <- rev_app_distr. f_equal. change 8%nat with (4 + 4)%nat. rewrite le_bytes_app.
  rewrite <- (le_bytes_mod 4 (lo + 2 ^ 32 * hi)). change (2 ^ (8 * Z.of_nat 4)) with (2 ^ 32).
  rewrite (Z.mul_comm _ hi), Z.mod_add, Z.mod_small by lia. rewrite Z.div_add, Z.div_small by lia. exact eq_refl.
Qed.

Lemma be_bytes_ok n z : byte_ok (be_bytes n z).
Proof. apply Forall_rev, le_bytes_ok. Qed.
Lemma length_be_bytes n z : length (be_bytes n z) = n.
Proof. unfold be_bytes. by rewrite length_rev, length_le_bytes. Qed.

(** The padding behind [l] bytes: its first 56 - l bytes if they fit in a block,
    or 120 - l. *)
Definition pad_bits (one : Z) (q : nat) : list Z :=
  if (q =? 1)%nat then [0x80 + one] else 0x80 :: replicate (q - 2) 0 ++ [one].

Lemma blake_pad_eq one m : let l := (length m mod 64)%nat in
  blake_pad one m = m ++ pad_bits one (if (l <? 56)%nat then 56 - l else 120 - l) ++ be_bytes 8 (8 * Z.of_nat (length m)).
Proof.
  intros l. pose proof (Nat.mod_upper_bound (length m) 64 ltac:(lia)) as L. fold l in L.
  unfold blake_pad. fold l. cbv zeta. unfold pad_bits.
  assert (E : S ((119 - l) mod 64) = if (l <? 56)%nat then (56 - l)%nat else (120 - l)%nat).
  { destruct (Nat.ltb_spec l 56).
    - f_equal. rewrite <- (Nat.mod_unique (119 - l) 64 1 (55 - l)) by lia. lia.
    - rewrite Nat.mod_small by lia. lia. }
  by rewrite E.
Qed.

Lemma length_pad_bits one q : (0 < q)%nat -> length (pad_bits one q) = q.
Proof.
  intros H. unfold pad_bits. destruct (Nat.eqb_spec q 1) as [->|N]; [exact eq_refl|].
  cbn [length]. rewrite length_app, length_replicate. cbn [length]. lia.
Qed.

Lemma take_padding n : (0 < n <= 64)%nat -> take n padding = 0x80 :: replicate (n - 1) 0.
Proof. intros H. destruct n as [|n]; [lia|]. unfold padding. cbn [take]. rewrite take_replicate. do 2 f_equal. lia. Qed.
Lemma drop_padding : drop 1 padding = replicate 63 0.
Proof. exact eq_refl. Qed.

(** ** The state before the length *)

(** [blake256_final_h] up to the update with the length. *)
Definition padded (St : state) (pa pb : Z) : state :=
  if buflen St =? 440 then blake256_update (set_t0 (u32 (t0 St - 8)) St) [pa] 8
  else
    let St :=
      if buflen St <? 440 then
        let St := if buflen St =? 0 then set_nullt 1 St else St in
        blake256_update (set_t0 (u32 (t0 St - (440 - buflen St))) St) padding (440 - buflen St)
      else
        let St := blake256_update (set_t0 (u32 (t0 St - (512 - buflen St))) St) padding (512 - buflen St) in
        set_nullt 1 (blake256_update (set_t0 (u32 (t0 St - 440)) St) (drop 1 padding) 440) in
    let St := blake256_update St [pb] 8 in
    set_t0 (u32 (t0 St - 8)) St.

Definition length_bytes (St : state) : list Z :=
  let lo := u32 (t0 St + buflen St) in
  U32TO8 (if lo <? buflen St then u32 (t1 St + 1) else t1 St) ++ U32TO8 lo.

Lemma final_h_padded St pa pb :
  snd (blake256_final_h St pa pb)
  = concat (map (fun i => U32TO8 (h (blake256_update (set_t0 (u32 (t0 (padded St pa pb) - 64)) (padded St pa pb))
      (length_bytes St) 64) !!! i)) (seq 0 8)).
Proof.
  unfold blake256_final_h, padded, length_bytes. cbv zeta.
  destruct (buflen St =? 440); [exact eq_refl|]. destruct (buflen St <? 440); exact eq_refl.
Qed.

(** What the last update needs of it: the block it leads to has the counter [c]. *)
Record ready (X : state) (hh ss : list Z) (c : Z) (b : list Z) : Prop := {
  rd_buflen : buflen X = 448;
  rd_h : h X = hh;
  rd_hlen : length hh = 8%nat;
  rd_s : s X = ss;
  rd_t1 : 0 <= t1 X < 2 ^ 32;
  rd_buf : length (buf X) = 64%nat;
  rd_block : take 56 (buf X) = b;
  rd_bytes : byte_ok b;
  rd_count : exists T, t0 X = u32 (T - 448) /\ 0 <= T < 2 ^ 32 /\
    ((nullt X <> 0 /\ c = 0) \/ (nullt X = 0 /\ T <> 0 /\ c = T + 2 ^ 32 * t1 X))
}.

Lemma ready_last X hh ss c b msg : ready X hh ss c b -> length ss = 4%nat -> byte_ok msg -> length msg = 8%nat ->
  h (blake256_update (set_t0 (u32 (t0 X - 64)) X) msg 64) = blake_compress hh ss c (b ++ msg).
Proof.
  intros [E <- Lh <- T1 Lb <- Bb (T & T0 & RT & C)] Ls Bm Lm.
  exact (last_update X msg T c E Lh Ls T1 Lb Bb Bm Lm T0 RT C).
Qed.

(** [n] bytes of [d] behind [l] bytes of the buffer. *)
Lemma buf_after l n d St : length (buf St) = 64%nat -> (n <= length d)%nat -> (l + n <= 64)%nat ->
  take (l + n) (buf (set_buf l n d St)) = take l (buf St) ++ take n d /\ length (buf (set_buf l n d St)) = 64%nat.
Proof.
  intros L D N. cbn [set_buf buf]. split.
  - rewrite app_assoc, take_app_length'; [exact eq_refl|]. rewrite length_app, !length_take. lia.
  - rewrite !length_app, !length_take, length_drop. lia.
Qed.

(** The eight words of the digest. *)
Lemma digest_words hh : length hh = 8%nat ->
  concat (map (fun i => U32TO8 (hh !!! i)) (seq 0 8)) = concat (map (be_bytes 4) hh).
Proof.
  intros L. destruct (list_destruct_8 hh L) as (a & b & c & d & e & f & g & i & ->).
  cbn [map seq]. rewrite !U32TO8_be. exact eq_refl.
Qed.

Section final.
Context (iv ss : list Z) (Liv : length iv = 8%nat) (Lss : length ss = 4%nat).
Context (m : list Z) (St : state) (R : repr iv ss m St) (K : 8 * Z.of_nat (length m) < 2 ^ 64).
Context (one : Z) (One : 0 <= one <= 1).

Let k : nat := (length m / 64)%nat.
Let l : nat := (length m mod 64)%nat.
Let r : list Z := drop (64 * k) m.

Lemma final_facts :
  (l < 64)%nat /\ length m = (64 * k + l)%nat /\ length r = l /\ byte_ok r /\ buflen St = 8 * Z.of_nat l /\
  take l (buf St) = r /\ length (buf St) = 64%nat /\ nullt St = 0 /\ s St = ss /\ length (h St) = 8%nat /\
  0 <= t0 St <= 2 ^ 32 - 512 /\ 0 <= t1 St < 2 ^ 32 /\
  t0 St + 8 * Z.of_nat l + 2 ^ 32 * t1 St = 8 * Z.of_nat (length m).
Proof using Liv Lss R K.
  destruct R as [A E F B]. fold k l in A, E, F. fold r in F.
  pose proof (Nat.div_mod_eq (length m) 64) as D. pose proof (Nat.mod_upper_bound (length m) 64 ltac:(lia)) as U.
  fold k l in D. fold l in U.
  assert (K' : 512 * Z.of_nat k < 2 ^ 64) by lia.
  pose proof (absorbed_ok iv ss Liv Lss _ k St K' A) as O.
  split; [exact U|]. split; [exact D|]. split; [unfold r; rewrite length_drop; lia|].
  split; [unfold r; by apply Forall_drop|]. split; [exact E|]. split; [exact F|]. split; [apply O|].
  split; [apply A|]. split; [apply A|]. split; [apply O|].
  pose proof (ok_t1 St O) as T1. pose proof (ab_t0 _ _ _ _ _ A) as T0. pose proof (ab_t1 _ _ _ _ _ A) as T1'.
  pose proof (Z.div_mod (512 * Z.of_nat k) (2 ^ 32) ltac:(lia)) as Q. rewrite <- T0, <- T1' in Q.
  assert (M : t0 St = 512 * (Z.of_nat k mod 2 ^ 23)).
  { rewrite T0. change (2 ^ 32) with (512 * 2 ^ 23). apply Z.mul_mod_distr_l; lia. }
  pose proof (Z.mod_pos_bound (Z.of_nat k) (2 ^ 23) ltac:(lia)). lia.
Qed.

(** The length in eight bytes. *)
Lemma length_bytes_eq : length_bytes St = be_bytes 8 (8 * Z.of_nat (length m)).
Proof using Liv Lss R K.
  destruct final_facts as (U & D & _ & _ & E & _ & _ & _ & _ & _ & T0 & T1 & Q).
  unfold length_bytes. cbv zeta. rewrite E, u32_id by lia. rewrite (proj2 (Z.ltb_ge _ _)) by lia.
  rewrite !U32TO8_be, be_bytes_split by lia. f_equal. exact Q.
Qed.

Lemma counter_rest : blake_counter (length m) k = if (0 <? l)%nat then 8 * Z.of_nat (length m) else 0.
Proof using Liv Lss R K.
  destruct final_facts as (U & D & _). unfold blake_counter.
  destruct (Nat.ltb_spec (64 * k) (length m)), (Nat.ltb_spec 0 l); lia.
Qed.

(** One byte of padding. *)
Lemma pad_one : l = 55%nat ->
  ready (padded St (0x80 + one) one) (h St) ss (blake_counter (length m) k) (r ++ pad_bits one 1).
Proof using Liv Lss R K One.
  intros l55. pose proof counter_rest as C.
  destruct final_facts as (_ & D & Lr & Br & E & F & Lb & N & Es & Lh & T0 & T1 & Q). rewrite l55 in *.
  unfold padded. rewrite E. change (8 * Z.of_nat 55 =? 440) with true. cbn iota.
  set (Y := set_t0 (u32 (t0 St - 8)) St). change 8 with (8 * Z.of_nat 1).
  rewrite (update_small 55 1 _ Y) by (exact E || lia).
  destruct (buf_after 55 1 [0x80 + one] Y Lb (Nat.le_refl _) ltac:(lia)) as [Eb Lb'].
  split; try assumption; try exact eq_refl.
  - cbn [set_buflen buf]. change 56%nat with (55 + 1)%nat. rewrite Eb. change (buf Y) with (buf St). by rewrite F.
  - apply Forall_app. split; [exact Br|]. repeat constructor; lia.
  - exists (t0 St + 440). split; [replace (t0 St + 440 - 448) with (t0 St - 8) by lia; exact eq_refl|].
    split; [lia|]. right. split; [exact N|]. split; [lia|].
    rewrite C. change (0 <? 55)%nat with true. cbn iota. cbn [set_buflen set_buf t1]. change (t1 Y) with (t1 St). lia.
Qed.

(** The two updates behind a buffer of [l'] bytes that leave room for the length:
    [55 - l'] bytes of [d] and the last byte. *)
Lemma pad_updates l' d Y : (l' < 55)%nat -> buflen Y = 8 * Z.of_nat l' -> length (buf Y) = 64%nat -> (55 - l' <= length d)%nat ->
  exists X, blake256_update (blake256_update Y d (8 * Z.of_nat (55 - l'))) [one] 8 = X /\
    h X = h Y /\ s X = s Y /\ t0 X = t0 Y /\ t1 X = t1 Y /\ nullt X = nullt Y /\ buflen X = 448 /\
    length (buf X) = 64%nat /\ take 56 (buf X) = take l' (buf Y) ++ take (55 - l') d ++ [one].
Proof using.
  clear. intros Hl E L D.
  assert (E1 : blake256_update Y d (8 * Z.of_nat (55 - l')) = set_buflen (8 * Z.of_nat 55) (set_buf l' (55 - l') d Y)).
  { rewrite (update_small l' (55 - l') d Y E) by lia. by replace (l' + (55 - l'))%nat with 55%nat by lia. }
  rewrite E1. assert (L55 : (l' + (55 - l') <= 64)%nat) by lia.
  destruct (buf_after l' (55 - l') d Y L D L55) as [Eb1 Lb1].
  replace (l' + (55 - l'))%nat with 55%nat in Eb1 by lia.
  set (Y1 := set_buflen (8 * Z.of_nat 55) (set_buf l' (55 - l') d Y)) in *.
  change (buf (set_buf l' (55 - l') d Y)) with (buf Y1) in Eb1, Lb1.
  destruct (buf_after 55 1 [one] Y1 Lb1 (Nat.le_refl _) ltac:(lia)) as [Eb2 Lb2].
  change 8 with (8 * Z.of_nat 1) at 1. rewrite (update_small 55 1 [one] Y1 eq_refl) by lia.
  eexists. do 7 (split; [exact eq_refl|]). split; [exact Lb2|].
  change 56%nat with (55 + 1)%nat. cbn [set_buflen buf]. rewrite Eb2, Eb1, <- app_assoc. exact eq_refl.
Qed.

(** The padding fits in the last block. *)
Lemma pad_fits : (l < 55)%nat ->
  ready (padded St (0x80 + one) one) (h St) ss (blake_counter (length m) k) (r ++ pad_bits one (56 - l)).
Proof using Liv Lss R K One.
  intros Hl. pose proof counter_rest as C.
  destruct final_facts as (_ & D & Lr & Br & E & F & Lb & N & Es & Lh & T0 & T1 & Q).
  unfold padded. rewrite E, (proj2 (Z.eqb_neq (8 * Z.of_nat l) 440)), (proj2 (Z.ltb_lt (8 * Z.of_nat l) 440)) by lia.
  cbv zeta. set (Y0 := if 8 * Z.of_nat l =? 0 then set_nullt 1 St else St).
  assert (F0 : h Y0 = h St /\ s Y0 = s St /\ buf Y0 = buf St /\ buflen Y0 = buflen St /\ t0 Y0 = t0 St /\ t1 Y0 = t1 St /\
               nullt Y0 = if (0 <? l)%nat then 0 else 1).
  { unfold Y0. destruct (Z.eqb_spec (8 * Z.of_nat l) 0), (Nat.ltb_spec 0 l); try lia;
      cbn [set_nullt h s buf buflen t0 t1 nullt]; rewrite ?N;
      exact (conj eq_refl (conj eq_refl (conj eq_refl (conj eq_refl (conj eq_refl (conj eq_refl eq_refl)))))). }
  clearbody Y0. destruct F0 as (F0h & F0s & F0b & F0l & F0t & F0u & F0n). rewrite F0l, E, F0t.
  replace (440 - 8 * Z.of_nat l) with (8 * Z.of_nat (55 - l)) by lia.
  set (Y := set_t0 (u32 (t0 St - 8 * Z.of_nat (55 - l))) Y0).
  assert (EY : buflen Y = 8 * Z.of_nat l) by (change (buflen Y) with (buflen Y0); lia).
  assert (LY : length (buf Y) = 64%nat) by (change (buf Y) with (buf Y0); by rewrite F0b).
  assert (LP : (55 - l <= length padding)%nat) by (change (length padding) with 64%nat; lia).
  destruct (pad_updates l padding Y Hl EY LY LP) as (X & -> & Xh & Xs & X0 & X1 & Xn & Xl & Xb & Xt).
  assert (P : take (55 - l) padding ++ [one] = pad_bits one (56 - l)).
  { rewrite take_padding by lia. unfold pad_bits. rewrite (proj2 (Nat.eqb_neq _ _)) by lia.
    replace (56 - l - 2)%nat with (55 - l - 1)%nat by lia. exact eq_refl. }
  split; cbn [set_t0 h s t0 t1 nullt buflen buf]; try assumption.
  - by rewrite Xh.
  - rewrite Xs. by rewrite <- F0s in Es.
  - rewrite X1. change (t1 Y) with (t1 Y0). by rewrite F0u.
  - rewrite Xt. change (buf Y) with (buf Y0). by rewrite F0b, F, P.
  - apply Forall_app. split; [exact Br|]. rewrite <- P. apply Forall_app. split.
    + rewrite take_padding by lia. constructor; [lia|]. apply Forall_replicate. lia.
    + repeat constructor; lia.
  - exists (t0 St + 8 * Z.of_nat l). split.
    + rewrite X0. change (t0 Y) with (u32 (t0 St - 8 * Z.of_nat (55 - l))). rewrite u32_sub_sub.
      apply (f_equal u32). lia.
    + split; [lia|]. rewrite C, Xn, X1. change (nullt Y) with (nullt Y0). change (t1 Y) with (t1 Y0). rewrite F0n, F0u.
      destruct (Nat.ltb_spec 0 l); [right; lia | left; lia].
Qed.

(** It does not: a block of its first bytes, then one of zeros. *)
Lemma pad_two : (56 <= l)%nat ->
  ready (padded St (0x80 + one) one)
    (blake_compress (h St) ss (8 * Z.of_nat (length m)) (r ++ take (64 - l) padding)) ss 0 (replicate 55 0 ++ [one]).
Proof using Liv Lss R K One.
  intros Hl. destruct final_facts as (U & D & Lr & Br & E & F & Lb & N & Es & Lh & T0 & T1 & Q).
  unfold padded. rewrite E, (proj2 (Z.eqb_neq (8 * Z.of_nat l) 440)), (proj2 (Z.ltb_ge (8 * Z.of_nat l) 440)) by lia.
  cbv zeta. replace (512 - 8 * Z.of_nat l) with (8 * Z.of_nat (64 - l)) by lia.
  set (Y := set_t0 (u32 (t0 St - 8 * Z.of_nat (64 - l))) St).
  assert (EY : buflen Y = 8 * Z.of_nat l) by exact E.
  rewrite (update_fill l (64 - l) padding Y EY) by lia. set (W := set_buf l (64 - l) padding Y).
  assert (LP : (64 - l <= length padding)%nat) by (change (length padding) with 64%nat; lia).
  assert (L64 : (l + (64 - l) <= 64)%nat) by lia.
  destruct (buf_after l (64 - l) padding Y Lb LP L64) as [Eb LW].
  replace (l + (64 - l))%nat with 64%nat in Eb by lia. rewrite take_ge in Eb by lia.
  change (buf Y) with (buf St) in Eb. rewrite F in Eb. fold W in Eb, LW. rewrite Eb.
  assert (Tw : u32 (t0 W + 512) = t0 St + 8 * Z.of_nat l).
  { change (t0 W) with (u32 (t0 St - 8 * Z.of_nat (64 - l))). rewrite u32_sub_add.
    replace (t0 St - 8 * Z.of_nat (64 - l) + 512) with (t0 St + 8 * Z.of_nat l) by lia. apply u32_id. lia. }
  assert (Bb : byte_ok (r ++ take (64 - l) padding)).
  { apply Forall_app. split; [exact Br|]. rewrite take_padding by lia. constructor; [lia|]. apply Forall_replicate. lia. }
  assert (O : state_ok W) by (split; [exact Lh | by rewrite <- Lss, <- Es | apply u32_range | exact T1 | exact LW]).
  rewrite (compress_tick W _ (8 * Z.of_nat (length m)) O Bb) by (rewrite <- ?Eb; first [exact LW |
    right; split; [exact N|]; rewrite Tw; split; [lia|]; change (t1 W) with (t1 St); lia]).
  set (V := blake256_tick W).
  assert (FV : s V = s St /\ nullt V = 0 /\ buf V = buf W /\ t0 V = t0 St + 8 * Z.of_nat l /\ t1 V = t1 St).
  { unfold V, blake256_tick. cbv zeta. change (t0 (set_t0 (u32 (t0 W + 512)) W)) with (u32 (t0 W + 512)).
    rewrite Tw, (proj2 (Z.eqb_neq _ 0)) by lia. cbn [set_t0 s nullt buf t0 t1].
    exact (conj eq_refl (conj N (conj eq_refl (conj eq_refl eq_refl)))). }
  destruct FV as (Vs & Vn & Vb & V0 & V1). change (h W) with (h St). change (s W) with (s St). rewrite Es.
  clearbody V W.
  set (hh := blake_compress (h St) ss (8 * Z.of_nat (length m)) (r ++ take (64 - l) padding)).
  set (Z0 := set_t0 (u32 (t0 (set_buflen 0 (set_h hh V)) - 440)) (set_buflen 0 (set_h hh V))).
  assert (LD : (55 - 0 <= length (drop 1 padding))%nat) by (change (length (drop 1 padding)) with 63%nat; lia).
  assert (LZ : length (buf (set_nullt 1 Z0)) = 64%nat) by (change (buf (set_nullt 1 Z0)) with (buf V); by rewrite Vb).
  assert (EN : set_nullt 1 (blake256_update Z0 (drop 1 padding) 440)
               = blake256_update (set_nullt 1 Z0) (drop 1 padding) (8 * Z.of_nat (55 - 0))).
  { change 440 with (8 * Z.of_nat (55 - 0)).
    rewrite (update_small 0 (55 - 0) _ Z0 eq_refl), (update_small 0 (55 - 0) _ (set_nullt 1 Z0) eq_refl) by lia. exact eq_refl. }
  rewrite EN.
  destruct (pad_updates 0 (drop 1 padding) (set_nullt 1 Z0) ltac:(lia) eq_refl LZ LD)
    as (X & -> & Xh & Xs & X0 & X1 & Xn & Xl & Xb & Xt).
  split; cbn [set_t0 h s t0 t1 nullt buflen buf]; try assumption.
  - apply length_blake_compress.
  - rewrite Xs. exact (eq_trans Vs Es).
  - rewrite X1. change (t1 (set_nullt 1 Z0)) with (t1 V). by rewrite V1.
  - apply Forall_app. split; [apply Forall_replicate; lia | repeat constructor; lia].
  - exists (t0 St + 8 * Z.of_nat l). split; [|split; [lia|]].
    + rewrite X0. change (t0 (set_nullt 1 Z0)) with (u32 (t0 V - 440)). rewrite u32_sub_sub, V0. exact eq_refl.
    + left. rewrite Xn. split; [discriminate | exact eq_refl].
Qed.

(** The chain of the specification from the first block that is not absorbed. *)
Lemma hash_tail tail j : blake_pad one m = take (64 * k) m ++ tail -> length tail = (64 * j)%nat ->
  blake_hash iv ss one m
  = concat (map (be_bytes 4) (blake_chain (blake_counter (length m)) ss (h St) k (blocks 64 j tail))).
Proof using Liv Lss R K.
  intros P L. destruct final_facts as (U & D & _). destruct R as [A _ _ _]. fold k in A.
  pose proof (ab_len _ _ _ _ _ A) as Lm.
  unfold blake_hash. cbv zeta. rewrite P.
  assert (N : (length (take (64 * k) m ++ tail) / 64 = k + j)%nat).
  { rewrite length_app, Lm, L, <- Nat.mul_add_distr_l, Nat.mul_comm. apply Nat.div_mul. lia. }
  rewrite N, blocks_app by exact Lm. rewrite blake_chain_app, length_blocks. cbn [Nat.add].
  rewrite (blake_chain_ext (blake_counter (length m)) full_counter _ iv).
  - rewrite <- (ab_h _ _ _ _ _ A). exact eq_refl.
  - rewrite length_blocks. intros i Hi. unfold blake_counter, full_counter.
    rewrite (proj2 (Nat.ltb_lt _ _)) by lia. lia.
Qed.

(** The digest of the message. *)
Lemma final_digest : snd (blake256_final_h St (0x80 + one) one) = blake_hash iv ss one m.
Proof using Liv Lss R K One.
  destruct final_facts as (U & D & Lr & _).
  rewrite final_h_padded, length_bytes_eq.
  set (msg := be_bytes 8 (8 * Z.of_nat (length m))).
  assert (Bm : byte_ok msg) by apply be_bytes_ok. assert (Lm : length msg = 8%nat) by apply length_be_bytes.
  pose proof (blake_pad_eq one m) as P. cbv zeta in P. fold l msg in P.
  rewrite <- (take_drop (64 * k) m) in P at 2. fold r in P. rewrite <- app_assoc in P.
  destruct (Nat.ltb_spec l 56) as [Hl|Hl].
  - assert (Rd : ready (padded St (0x80 + one) one) (h St) ss (blake_counter (length m) k) (r ++ pad_bits one (56 - l))).
    { destruct (Nat.eq_dec l 55%nat) as [E|N]; [|apply pad_fits; lia]. rewrite E. apply pad_one, E. }
    rewrite (ready_last _ _ _ _ _ msg Rd Lss Bm Lm), digest_words by apply length_blake_compress.
    rewrite (hash_tail _ 1 P) by (rewrite !length_app, length_pad_bits; lia).
    cbn [blocks blake_chain]. rewrite take_ge by (rewrite !length_app, length_pad_bits; lia).
    by rewrite <- app_assoc.
  - rewrite (ready_last _ _ _ _ _ msg (pad_two Hl) Lss Bm Lm), digest_words by apply length_blake_compress.
    assert (Q : pad_bits one (120 - l) = take (64 - l) padding ++ replicate 55 0 ++ [one]).
    { rewrite take_padding by lia. unfold pad_bits. rewrite (proj2 (Nat.eqb_neq _ _)) by lia.
      replace (120 - l - 2)%nat with ((64 - l - 1) + 55)%nat by lia. rewrite replicate_add, <- !app_assoc. exact eq_refl. }
    rewrite Q in P.
    assert (L1 : length (r ++ take (64 - l) padding) = 64%nat)
      by (rewrite length_app, length_take; change (length padding) with 64%nat; lia).
    assert (T : r ++ (take (64 - l) padding ++ replicate 55 0 ++ [one]) ++ msg
              = (r ++ take (64 - l) padding) ++ (replicate 55 0 ++ [one]) ++ msg) by (by rewrite <- !app_assoc).
    rewrite T in P.
    assert (L2 : length ((replicate 55 0 ++ [one]) ++ msg) = 64%nat) by (rewrite length_app, Lm; exact eq_refl).
    rewrite (hash_tail _ 2 P) by (rewrite length_app, L1, L2; exact eq_refl).
    cbn [blocks blake_chain].
    rewrite (take_app_length' _ _ _ (eq_sym L1)), (drop_app_length' _ _ _ (eq_sym L1)), (take_ge (_ ++ msg)) by lia.
    assert (C1 : blake_counter (length m) k = 8 * Z.of_nat (length m)) by (rewrite counter_rest, (proj2 (Nat.ltb_lt 0 l)) by lia; exact eq_refl).
    assert (C2 : blake_counter (length m) (S k) = 0) by (unfold blake_counter; rewrite (proj2 (Nat.ltb_ge _ _)) by lia; exact eq_refl).
    rewrite C1, C2. exact eq_refl.
Qed.
End final.

(** ** From the initial states *)

Lemma repr_init iv buf0 : length iv = 8%nat -> length buf0 = 64%nat ->
  repr iv [0; 0; 0; 0] [] {| h := iv; s := [0; 0; 0; 0]; t0 := 0; t1 := 0; buflen := 0; nullt := 0; buf := buf0 |}.
Proof.
  intros L B. split; try exact eq_refl; [|constructor].
  split; try exact eq_refl; [constructor | exact B].
Qed.
