(* ===== verification/Blake256Hmac.v ===== *)
(** * Hashes of whole messages and HMAC

    The one-call functions of blake256.c, updates in pieces, and the keyed hash,
    from the lemmas on one update and on the padding. *)

From Stdlib Require Import ZArith Lia.
From stdpp Require Import base tactics list numbers.
From S2P Require Import Prelude Radix Words IntUtil Matrix Blake256 Blake256Spec Blake256Proofs Blake256Final.
Open Scope Z_scope.

#[local] Opaque blake_compress blake256_compress.

Definition iv256 : list Z :=
  [0x6A09E667; 0xBB67AE85; 0x3C6EF372; 0xA54FF53A; 0x510E527F; 0x9B05688C; 0x1F83D9AB; 0x5BE0CD19].
Definition iv224 : list Z :=
  [0xC1059ED8; 0x367CD507; 0x3070DD17; 0xF70E5939; 0xFFC00B31; 0x68581511; 0x64F98FA7; 0xBEFA4FA4].

(** BLAKE-256, and BLAKE-224 before its truncation to 28 bytes. *)
Definition blake256 (m : list Z) : list Z := blake_hash iv256 [0; 0; 0; 0] 1 m.
Definition blake224_32 (m : list Z) : list Z := blake_hash iv224 [0; 0; 0; 0] 0 m.

(** The state of a message for the two functions. *)
Abbreviation repr256 := (repr iv256 [0; 0; 0; 0]).
Abbreviation repr224 := (repr iv224 [0; 0; 0; 0]).

Lemma update256 m St data : repr256 m St -> byte_ok data -> 8 * Z.of_nat (length m + length data) < 2 ^ 64 ->
  (data <> [] \/ (length m mod 64 = 0)%nat) ->
  repr256 (m ++ data) (blake256_update St data (8 * Z.of_nat (length data))).
Proof. exact (update_spec iv256 [0; 0; 0; 0] eq_refl eq_refl m St data). Qed.
Lemma update224 m St data : repr224 m St -> byte_ok data -> 8 * Z.of_nat (length m + length data) < 2 ^ 64 ->
  (data <> [] \/ (length m mod 64 = 0)%nat) ->
  repr224 (m ++ data) (blake224_update St data (8 * Z.of_nat (length data))).
Proof. exact (update_spec iv224 [0; 0; 0; 0] eq_refl eq_refl m St data). Qed.

Lemma final256 m St : repr256 m St -> 8 * Z.of_nat (length m) < 2 ^ 64 -> snd (blake256_final St) = blake256 m.
Proof.
  intros R K. assert (O : 0 <= 1 <= 1) by lia. exact (final_digest iv256 [0; 0; 0; 0] eq_refl eq_refl m St R K 1 O).
Qed.
Lemma final224 m St : repr224 m St -> 8 * Z.of_nat (length m) < 2 ^ 64 -> snd (blake224_final St) = blake224_32 m.
Proof.
  intros R K. assert (O : 0 <= 0 <= 1) by lia. exact (final_digest iv224 [0; 0; 0; 0] eq_refl eq_refl m St R K 0 O).
Qed.

Lemma init256 buf0 : length buf0 = 64%nat -> repr256 [] (blake256_init buf0).
Proof. exact (repr_init iv256 buf0 eq_refl). Qed.
Lemma init224 buf0 : length buf0 = 64%nat -> repr224 [] (blake224_init buf0).
Proof. exact (repr_init iv224 buf0 eq_refl). Qed.

Lemma bit_length n : 8 * Z.of_nat n < 2 ^ 64 -> u64 (Z.of_nat n * 8) = 8 * Z.of_nat n.
Proof. intros H. rewrite Z.mul_comm. apply u64_id. lia. Qed.

Lemma hash256 buf0 inp : length buf0 = 64%nat -> byte_ok inp -> 8 * Z.of_nat (length inp) < 2 ^ 64 ->
  blake256_hash buf0 inp (Z.of_nat (length inp)) = blake256 inp.
Proof.
  intros L B K. unfold blake256_hash. rewrite bit_length by exact K.
  exact (final256 _ _ (update256 [] _ inp (init256 buf0 L) B K (or_intror eq_refl)) K).
Qed.
Lemma hash224 buf0 inp : length buf0 = 64%nat -> byte_ok inp -> 8 * Z.of_nat (length inp) < 2 ^ 64 ->
  blake224_hash buf0 inp (Z.of_nat (length inp)) = blake224_32 inp.
Proof.
  intros L B K. unfold blake224_hash. rewrite bit_length by exact K.
  exact (final224 _ _ (update224 [] _ inp (init224 buf0 L) B K (or_intror eq_refl)) K).
Qed.

Lemma length_blake_hash iv ss one m : length iv = 8%nat -> length (blake_hash iv ss one m) = 32%nat.
Proof.
  intros L. unfold blake_hash. cbv zeta.
  destruct (list_destruct_8 _ (length_blake_chain (blake_counter (length m)) ss iv 0
    (blocks 64 (length (blake_pad one m) / 64) (blake_pad one m)) L)) as (a & b & c & d & e & f & g & i & ->).
  cbn [map concat]. by rewrite !length_app, !length_be_bytes.
Qed.

Lemma blake_hash_ok iv ss one m : byte_ok (blake_hash iv ss one m).
Proof.
  unfold blake_hash. cbv zeta. apply Forall_concat, Forall_map, Forall_true. intros x. apply be_bytes_ok.
Qed.

(** ** Pieces *)

(** Updates with one piece after the other. *)
Definition updates (St : state) (pieces : list (list Z)) : state :=
  fold_left (fun St d => blake256_update St d (8 * Z.of_nat (length d))) pieces St.

Lemma updates_repr m St pieces : repr256 m St -> Forall byte_ok pieces -> Forall (fun d => d <> []) pieces ->
  8 * Z.of_nat (length m + length (concat pieces)) < 2 ^ 64 -> repr256 (m ++ concat pieces) (updates St pieces).
Proof.
  intros R B N. revert m St R B. induction N as [|d ds Nd _ IH]; intros m St R B K.
  - cbn. by rewrite app_nil_r.
  - inversion B; subst. cbn [concat] in K |- *. rewrite length_app in K. rewrite app_assoc. apply IH; [|assumption|].
    + apply update256; [exact R | assumption | lia | by left].
    + rewrite length_app. lia.
Qed.

(** An update without data drops the buffered bytes. *)
Lemma update_empty m St : repr256 m St ->
  repr256 (take (64 * (length m / 64)) m) (blake256_update St [] 0).
Proof.
  intros [A E F B]. pose proof (Nat.mod_upper_bound (length m) 64 ltac:(lia)) as U.
  assert (Eu : blake256_update St [] 0 = set_buflen 0 St).
  { unfold blake256_update. rewrite E, shiftr_8. cbv zeta. change (Z.shiftr 0 3) with 0.
    rewrite (proj2 (Z.leb_gt (64 - _) 0)) by lia. rewrite andb_false_r. exact eq_refl. }
  rewrite Eu, <- (app_nil_r (take _ m)). apply (repr_intro iv256 [0; 0; 0; 0] _ (length m / 64) []).
  - apply (absorbed_ext _ _ _ _ St); try exact eq_refl; [exact A | apply A].
  - cbn. lia.
  - constructor.
  - exact eq_refl.
  - exact eq_refl.
Qed.

(** ** HMAC *)

(** The key in a block of 64 bytes, from a hash for long keys. *)
Definition hmac_key (hash : list Z -> list Z) (key : list Z) : list Z :=
  let key := if (64 <? length key)%nat then hash key else key in key ++ replicate (64 - length key) 0.
(** RFC 2104. *)
Definition hmac (hash key_hash : list Z -> list Z) (key m : list Z) : list Z :=
  hash (map (Z.lxor 0x5c) (hmac_key key_hash key) ++ hash (map (Z.lxor 0x36) (hmac_key key_hash key) ++ m)).

Lemma hmac_pad_lookup c key n i : (n <= 64)%nat -> (i < 64)%nat ->
  hmac_pad c key n !!! i = (if (i <? n)%nat then Z.lxor c (key !!! i) else c) /\ length (hmac_pad c key n) = 64%nat.
Proof.
  intros N I. induction n as [|n IH].
  - split; [apply lookup_total_replicate_2, I | exact eq_refl].
  - destruct (IH ltac:(lia)) as [E L].
    assert (S' : hmac_pad c key (S n) = <[n := Z.lxor (hmac_pad c key n !!! n) (key !!! n)]> (hmac_pad c key n)).
    { unfold hmac_pad. rewrite seq_S, fold_left_app. exact eq_refl. }
    rewrite S', length_insert. split; [|exact L]. destruct (Nat.eq_dec i n) as [->|Ne].
    + rewrite list_lookup_total_insert_eq by lia. rewrite E, Nat.ltb_irrefl.
      by rewrite (proj2 (Nat.ltb_lt n (S n)) (Nat.lt_succ_diag_r n)).
    + rewrite list_lookup_total_insert_ne by congruence. rewrite E.
      destruct (Nat.ltb_spec i n), (Nat.ltb_spec i (S n)); try reflexivity; lia.
Qed.

Lemma map_lookup_total (f : Z -> Z) l i : (i < length l)%nat -> map f l !!! i = f (l !!! i).
Proof.
  revert i. induction l as [|x l IH]; intros [|i] H; cbn [length] in H; try lia; [exact eq_refl|].
  cbn [map]. apply (IH i). lia.
Qed.

Lemma hmac_pad_eq c key n : (n <= 64)%nat -> (n <= length key)%nat ->
  hmac_pad c key n = map (Z.lxor c) (take n key ++ replicate (64 - n) 0).
Proof.
  intros N L. destruct (hmac_pad_lookup c key n 0 N ltac:(lia)) as [_ Lp]. apply list_eq_total.
  - rewrite Lp, length_map, length_app, length_take, length_replicate. lia.
  - intros i Hi. rewrite Lp in Hi. rewrite (proj1 (hmac_pad_lookup c key n i N Hi)).
    rewrite map_lookup_total by (rewrite length_app, length_take, length_replicate; lia).
    destruct (Nat.ltb_spec i n).
    + rewrite lookup_total_app_l, lookup_total_take_lt by (rewrite ?length_take; lia). exact eq_refl.
    + rewrite lookup_total_app_r, lookup_total_replicate_2 by (rewrite length_take; lia). by rewrite Z.lxor_0_r.
Qed.

Lemma lxor_pad_ok c l : 0 <= c < 2 ^ 8 -> byte_ok l -> byte_ok (map (Z.lxor c) l).
Proof.
  intros C H. apply Forall_map. induction H as [|x l Hx _ IH]; constructor; [|exact IH].
  apply lxor_range; [lia | exact C | exact Hx].
Qed.

(** The pads of a key of at most 64 bytes. *)
Lemma key_pad (key : list Z) n : (n <= 64)%nat -> (n <= length key)%nat -> byte_ok key -> forall c, 0 <= c < 2 ^ 8 ->
  length (hmac_pad c key n) = 64%nat /\ byte_ok (hmac_pad c key n) /\
  hmac_pad c key n = map (Z.lxor c) (take n key ++ replicate (64 - n) 0).
Proof.
  intros N L B c C. split; [exact (proj2 (hmac_pad_lookup c key n 0 N ltac:(lia)))|].
  rewrite (hmac_pad_eq c key n N L). split; [|exact eq_refl].
  apply lxor_pad_ok; [exact C|]. apply Forall_app. split; [by apply Forall_take | apply Forall_replicate; lia].
Qed.

Section hmac.
(** The bytes of the pads and of the message are counted in 64 bits. *)
Context (buf0 m : list Z) (Lb : length buf0 = 64%nat) (Bm : byte_ok m) (K : 8 * Z.of_nat (64 + length m) < 2 ^ 64).
Context (p1 p2 : list Z) (L1 : length p1 = 64%nat) (L2 : length p2 = 64%nat) (B1 : byte_ok p1) (B2 : byte_ok p2).

Lemma small_bound : 8 * Z.of_nat (length m) < 2 ^ 64.
Proof using K. clear - K. lia. Qed.

Lemma hmac256_states :
  hmac_blake256_final (hmac_blake256_update
    {| inner := blake256_update (blake256_init buf0) p1 512; outer := blake256_update (blake256_init buf0) p2 512 |}
    m (u64 (Z.of_nat (length m) * 8))) = blake256 (p2 ++ blake256 (p1 ++ m)).
Proof using All.
  rewrite bit_length by exact small_bound. unfold hmac_blake256_final, hmac_blake256_update. cbn [inner outer].
  replace (blake256_update (blake256_init buf0) p1 512)
    with (blake256_update (blake256_init buf0) p1 (8 * Z.of_nat (length p1))) by (rewrite L1; exact eq_refl).
  replace (blake256_update (blake256_init buf0) p2 512)
    with (blake256_update (blake256_init buf0) p2 (8 * Z.of_nat (length p2))) by (rewrite L2; exact eq_refl).
  pose proof (update256 [] _ p1 (init256 buf0 Lb) B1 ltac:(cbn [length]; lia) (or_intror eq_refl)) as R1.
  pose proof (update256 [] _ p2 (init256 buf0 Lb) B2 ltac:(cbn [length]; lia) (or_intror eq_refl)) as R2.
  cbn [app] in R1, R2. assert (M1 : (length p1 mod 64 = 0)%nat) by (rewrite L1; exact eq_refl).
  pose proof (update256 p1 _ m R1 Bm ltac:(lia) (or_intror M1)) as R1'.
  rewrite (final256 (p1 ++ m) _ R1') by (rewrite length_app; lia).
  set (ih := blake256 (p1 ++ m)). assert (Li : length ih = 32%nat) by apply length_blake_hash, eq_refl.
  change 256 with (8 * Z.of_nat 32). rewrite <- Li.
  apply final256; [|rewrite length_app; lia].
  apply update256; [exact R2 | apply blake_hash_ok | lia | right; by rewrite L2].
Qed.

Lemma hmac224_states :
  hmac_blake224_final (hmac_blake224_update
    {| inner := blake224_update (blake224_init buf0) p1 512; outer := blake224_update (blake224_init buf0) p2 512 |}
    m (u64 (Z.of_nat (length m) * 8))) = blake224_32 (p2 ++ take 28 (blake224_32 (p1 ++ m))).
Proof using All.
  rewrite bit_length by exact small_bound. unfold hmac_blake224_final, hmac_blake224_update. cbn [inner outer].
  replace (blake224_update (blake224_init buf0) p1 512)
    with (blake224_update (blake224_init buf0) p1 (8 * Z.of_nat (length p1))) by (rewrite L1; exact eq_refl).
  replace (blake224_update (blake224_init buf0) p2 512)
    with (blake224_update (blake224_init buf0) p2 (8 * Z.of_nat (length p2))) by (rewrite L2; exact eq_refl).
  pose proof (update224 [] _ p1 (init224 buf0 Lb) B1 ltac:(cbn [length]; lia) (or_intror eq_refl)) as R1.
  pose proof (update224 [] _ p2 (init224 buf0 Lb) B2 ltac:(cbn [length]; lia) (or_intror eq_refl)) as R2.
  cbn [app] in R1, R2. assert (M1 : (length p1 mod 64 = 0)%nat) by (rewrite L1; exact eq_refl).
  pose proof (update224 p1 _ m R1 Bm ltac:(lia) (or_intror M1)) as R1'.
  rewrite (final224 (p1 ++ m) _ R1') by (rewrite length_app; lia).
  set (ih := blake224_32 (p1 ++ m)). assert (Li : length ih = 32%nat) by apply length_blake_hash, eq_refl.
  set (O := blake224_update (blake224_init buf0) p2 _) in *.
  assert (E0 : buflen O = 8 * Z.of_nat 0) by (rewrite (rp_buflen _ _ _ _ R2), L2; exact eq_refl).
  assert (Et : blake224_update O ih 224 = blake224_update O (take 28 ih) (8 * Z.of_nat (length (take 28 ih)))).
  { assert (Lt : length (take 28 ih) = 28%nat) by (rewrite length_take; lia). rewrite Lt.
    unfold blake224_update. change 224 with (8 * Z.of_nat 28).
    rewrite !(update_small 0 28 _ O E0) by lia. unfold set_buf. by rewrite take_take. }
  rewrite Et. apply final224; [|rewrite length_app, length_take; lia].
  apply update224; [exact R2 | apply Forall_take, blake_hash_ok | rewrite length_take; lia | right; by rewrite L2].
Qed.
End hmac.

Lemma hmac256_spec buf0 key m : length buf0 = 64%nat -> byte_ok key -> byte_ok m ->
  8 * Z.of_nat (length key) < 2 ^ 64 -> 8 * Z.of_nat (64 + length m) < 2 ^ 64 ->
  hmac_blake256_hash buf0 key (Z.of_nat (length key)) m (Z.of_nat (length m)) = hmac blake256 blake256 key m.
Proof.
  intros Lb Bk Bm Kk K. unfold hmac_blake256_hash, hmac_blake256_init, hmac, hmac_key. cbv zeta.
  rewrite (hash256 buf0 key Lb Bk Kk).
  assert (Lh : length (blake256 key) = 32%nat) by apply length_blake_hash, eq_refl.
  destruct (Z.ltb_spec 64 (Z.of_nat (length key))) as [L|L].
  - rewrite (proj2 (Nat.ltb_lt 64 (length key))) by lia. change (Z.to_nat 32) with 32%nat.
    pose proof (key_pad (blake256 key) 32 ltac:(lia) ltac:(lia) (blake_hash_ok _ _ _ _)) as P.
    destruct (P 0x36 ltac:(lia)) as (P1 & P2 & P3), (P 0x5c ltac:(lia)) as (Q1 & Q2 & Q3).
    rewrite (hmac256_states buf0 m Lb Bm K _ _ P1 Q1 P2 Q2), P3, Q3, Lh, take_ge by lia. exact eq_refl.
  - rewrite (proj2 (Nat.ltb_ge 64 (length key))) by lia. rewrite Nat2Z.id.
    pose proof (key_pad key (length key) ltac:(lia) (Nat.le_refl _) Bk) as P.
    destruct (P 0x36 ltac:(lia)) as (P1 & P2 & P3), (P 0x5c ltac:(lia)) as (Q1 & Q2 & Q3).
    rewrite (hmac256_states buf0 m Lb Bm K _ _ P1 Q1 P2 Q2), P3, Q3, take_ge by lia. exact eq_refl.
Qed.

(** HMAC with BLAKE-224: a long key is hashed with BLAKE-256 and cut. *)
Lemma hmac224_spec buf0 key m : length buf0 = 64%nat -> byte_ok key -> byte_ok m ->
  8 * Z.of_nat (length key) < 2 ^ 64 -> 8 * Z.of_nat (64 + length m) < 2 ^ 64 ->
  take 28 (hmac_blake224_hash buf0 key (Z.of_nat (length key)) m (Z.of_nat (length m)))
  = hmac (fun m => take 28 (blake224_32 m)) (fun k => take 28 (blake256 k)) key m.
Proof.
  intros Lb Bk Bm Kk K. unfold hmac_blake224_hash, hmac_blake224_init, hmac, hmac_key. cbv zeta.
  rewrite (hash256 buf0 key Lb Bk Kk).
  assert (Lh : length (blake256 key) = 32%nat) by apply length_blake_hash, eq_refl.
  destruct (Z.ltb_spec 64 (Z.of_nat (length key))) as [L|L].
  - rewrite (proj2 (Nat.ltb_lt 64 (length key))) by lia. change (Z.to_nat 28) with 28%nat.
    pose proof (key_pad (blake256 key) 28 ltac:(lia) ltac:(lia) (blake_hash_ok _ _ _ _)) as P.
    destruct (P 0x36 ltac:(lia)) as (P1 & P2 & P3), (P 0x5c ltac:(lia)) as (Q1 & Q2 & Q3).
    rewrite (hmac224_states buf0 m Lb Bm K _ _ P1 Q1 P2 Q2), P3, Q3, length_take, Lh. exact eq_refl.
  - rewrite (proj2 (Nat.ltb_ge 64 (length key))) by lia. rewrite Nat2Z.id.
    pose proof (key_pad key (length key) ltac:(lia) (Nat.le_refl _) Bk) as P.
    destruct (P 0x36 ltac:(lia)) as (P1 & P2 & P3), (P 0x5c ltac:(lia)) as (Q1 & Q2 & Q3).
    rewrite (hmac224_states buf0 m Lb Bm K _ _ P1 Q1 P2 Q2), P3, Q3, (take_ge key) by lia. exact eq_refl.
Qed.
