(* ===== verification/Blake256Correct.v ===== *)
(** * Properties of BLAKE-256, BLAKE-224 and HMAC (blake256.c) *)

From Stdlib Require Import ZArith Lia.
From stdpp Require Import base tactics list numbers.
From S2P Require Import Prelude Radix Words IntUtil Matrix Blake256 Blake256Spec Blake256Proofs Blake256Final Blake256Hmac.
Open Scope Z_scope.

#[local] Opaque blake_compress blake256_compress.



(** C39. Updates with the pieces of a message, none of them empty, give the hash
    of the message, wherever it is cut. An update without data is not a no-op:
    after it the digest is that of the full blocks of the message only. *)
Theorem blake256_update_pieces buf0 pieces : length buf0 = 64%nat -> Forall byte_ok pieces ->
  8 * Z.of_nat (length (concat pieces)) < 2 ^ 64 ->
  (Forall (fun d => d <> []) pieces ->
   snd (blake256_final (updates (blake256_init buf0) pieces))
   = blake256_hash buf0 (concat pieces) (Z.of_nat (length (concat pieces)))) /\
  (forall m, pieces = [m; []] ->
   snd (blake256_final (updates (blake256_init buf0) pieces)) = blake256 (take (64 * (length m / 64)) m)).
Proof.
  intros L B K. split.
  - intros N. assert (Bc : byte_ok (concat pieces)) by (apply Forall_concat, B).
    rewrite (hash256 buf0 (concat pieces) L Bc K). apply final256; [|exact K].
    exact (updates_repr [] _ pieces (init256 buf0 L) B N K).
  - intros m E. subst pieces. inversion B as [|? ? Bm _]; subst. cbn [concat] in K. rewrite app_nil_r in K.
    apply final256; [|rewrite length_take; lia].
    exact (update_empty m _ (update256 [] _ m (init256 buf0 L) Bm K (or_intror eq_refl))).
Qed.

(** A byte is lost. *)
Lemma blake256_update_pieces_witness : Forall byte_ok [[1]; []] /\
  snd (blake256_final (updates (blake256_init (replicate 64 0)) [[1]; []])) = blake256 [].
Proof.
  assert (B : Forall byte_ok [[1]; []]) by (repeat constructor; lia). split; [exact B|].
  assert (K : 8 * Z.of_nat (length (concat [[1]; []])) < 2 ^ 64) by (cbn; lia).
  exact (proj2 (blake256_update_pieces (replicate 64 0) [[1]; []] eq_refl B K) [1] eq_refl).
Defined.

(** C40. [hmac_blake256_hash] is HMAC of RFC 2104 over BLAKE-256, for keys of every
    length, short, of one block or longer. [hmac_blake224_hash] is HMAC over
    BLAKE-224 for keys of at most 64 bytes; a longer key is replaced by the first
    28 bytes of its BLAKE-256, not by its BLAKE-224. *)
Theorem hmac_correct buf0 key m : length buf0 = 64%nat -> byte_ok key -> byte_ok m ->
  8 * Z.of_nat (length key) < 2 ^ 64 -> 8 * Z.of_nat (64 + length m) < 2 ^ 64 ->
  hmac_blake256_hash buf0 key (Z.of_nat (length key)) m (Z.of_nat (length m)) = hmac blake256 blake256 key m /\
  take 28 (hmac_blake224_hash buf0 key (Z.of_nat (length key)) m (Z.of_nat (length m)))
  = hmac (fun m => take 28 (blake224_32 m)) (fun k => take 28 (blake256 k)) key m.
Proof.
  intros L Bk Bm Kk K. split; [exact (hmac256_spec buf0 key m L Bk Bm Kk K) | exact (hmac224_spec buf0 key m L Bk Bm Kk K)].
Qed.

Lemma hmac_correct_witness : byte_ok [1; 2] /\ byte_ok [3] /\
  hmac_blake256_hash (replicate 64 0) [1; 2] 2 [3] 1 = hmac blake256 blake256 [1; 2] [3].
Proof.
  assert (B : byte_ok [1; 2]) by (repeat constructor; lia). assert (B' : byte_ok [3]) by (repeat constructor; lia).
  split; [exact B|]. split; [exact B'|].
  assert (K1 : 8 * Z.of_nat 2 < 2 ^ 64) by lia. assert (K2 : 8 * Z.of_nat (64 + 1) < 2 ^ 64) by lia.
  exact (proj1 (hmac_correct (replicate 64 0) [1; 2] [3] eq_refl B B' K1 K2)).
Defined.
