(* ===== verification/Random.v ===== *)
(** * The random generator (src/Native/libcryptonote/crypto/random.c)

    The loop over read(2) that fetches the seed, the generator with the variable
    [curstate] that its assertions test, and its use by several threads, with
    the mutex [random_lock] of crypto.h and crypto.cpp and without it. *)

From Stdlib Require Import ZArith Lia.
From stdpp Require Import base tactics list numbers option.
From S2P Require Import Prelude Radix Words Keccak.
Open Scope Z_scope.

(** ** The seed: [generate_system_random_bytes] *)

(** What a call of read(2) gives: bytes, or -1 with [errno] equal to [EINTR] or
    to something else. *)
Inductive read_result := ReadBytes (l : list Z) | ReadEintr | ReadFails.
Definition read_ssize (r : read_result) : Z :=
  match r with ReadBytes l => Z.of_nat (length l) | _ => -1 end.

(** The bytes at [result], or an [err] or [errx] that ends the process. *)
Inductive sys_outcome := SysBytes (result : list Z) | SysExit.

(** The loop; [read k n] is the [k]-th call, with the count [n], and [result] holds
    the bytes written so far. [None]: not ended after [fuel] calls. *)
Fixpoint system_loop (read : nat -> Z -> read_result) (fuel k : nat) (n : Z) (result : list Z) : option sys_outcome :=
  match fuel with
  | O => None
  | S fuel =>
      let r := read k n in
      let res := read_ssize r in
      let written := match r with ReadBytes l => result ++ l | _ => result end in
      if u64 res =? n then Some (SysBytes written)
      else if res <? 0 then
        match r with
        | ReadEintr => system_loop read fuel (S k) n written
        | _ => Some SysExit
        end
      else if res =? 0 then Some SysExit
      else system_loop read fuel (S k) (u64 (n - res)) written
  end.

(** [fd] is the result of open(2), [rc] that of close(2). *)
Definition generate_system_random_bytes (read : nat -> Z -> read_result) (fd rc : Z) (fuel : nat) (n : Z)
    : option sys_outcome :=
  if fd <? 0 then Some SysExit
  else
    match system_loop read fuel 0 n [] with
    | Some (SysBytes result) => if rc <? 0 then Some SysExit else Some (SysBytes result)
    | r => r
    end.

(** ** The generator *)

(** The static variables: [state], the 200 bytes of a [union hash_state], and
    [curstate]; both start as zeros. *)
Record random_state := RandomState { rs_state : list Z; rs_curstate : Z }.
Definition random_static : random_state := RandomState (replicate 200 0) 0.

(** [assert(curstate == v); curstate = v';] *)
Definition assert_set (v v' : Z) (r : random_state) : option random_state :=
  if rs_curstate r =? v then Some (RandomState (rs_state r) v') else None.

Definition deinit_random (r : random_state) : option random_state :=
  r ← assert_set 1 0 r;
  Some (RandomState (replicate 200 0) (rs_curstate r)).

(** [seed] is what [generate_system_random_bytes(32, &state)] writes. *)
Definition init_random (seed : list Z) (r : random_state) : option random_state :=
  let r := RandomState (seed ++ drop 32 (rs_state r)) (rs_curstate r) in
  assert_set 0 1 r.

(** The loop: the bytes copied and the last state. *)
Fixpoint random_loop (fuel n : nat) (state : list Z) : option (list Z * list Z) :=
  match fuel with
  | O => None
  | S fuel =>
      let state := hash_permutation state in
      if (n <=? HASH_DATA_AREA)%nat then Some (take n state, state)
      else
        '(result, state') ← random_loop fuel (n - HASH_DATA_AREA) state;
        Some (take HASH_DATA_AREA state ++ result, state')
  end.

(** [None] is a failed assertion; the loop has at most [n] iterations. *)
Definition generate_random_bytes_not_thread_safe (n : nat) (r : random_state) : option (list Z * random_state) :=
  r ← assert_set 1 2 r;
  if (n =? 0)%nat then r ← assert_set 2 1 r; Some ([], r)
  else
    '(result, state) ← random_loop n n (rs_state r);
    r ← assert_set 2 1 (RandomState state (rs_curstate r));
    Some (result, r).

(** Calls one after the other. *)
Fixpoint generate_calls (ns : list nat) (r : random_state) : option (list (list Z) * random_state) :=
  match ns with
  | [] => Some ([], r)
  | n :: ns =>
      '(out, r) ← generate_random_bytes_not_thread_safe n r;
      '(outs, r) ← generate_calls ns r;
      Some (out :: outs, r)
  end.

(** ** Threads

    A call as a sequence of steps: each access to [curstate] is one, and so are
    the permutation and the copy, which is the coarsest reading of the code. The
    argument [out] holds the bytes copied so far. *)
Inductive call_pc :=
  | PcEnter (n : nat)                    (* assert(curstate == 1) *)
  | PcMark (n : nat)                     (* curstate = 2, and the test of n *)
  | PcPermute (n : nat) (out : list Z)   (* hash_permutation(&state) *)
  | PcCopy (n : nat) (out : list Z)      (* memcpy, result and n advance *)
  | PcLeave (out : list Z)               (* assert(curstate == 2) *)
  | PcUnmark (out : list Z)              (* curstate = 1 *)
  | PcReturn (out : list Z)
  | PcAbort.                             (* a failed assertion *)

(** The next step of a call; [None] at its end. *)
Definition call_step (p : call_pc) (r : random_state) : option (call_pc * random_state) :=
  match p with
  | PcEnter n => Some (if rs_curstate r =? 1 then PcMark n else PcAbort, r)
  | PcMark n => Some (if (n =? 0)%nat then PcLeave [] else PcPermute n [], RandomState (rs_state r) 2)
  | PcPermute n out => Some (PcCopy n out, RandomState (hash_permutation (rs_state r)) (rs_curstate r))
  | PcCopy n out =>
      if (n <=? HASH_DATA_AREA)%nat then Some (PcLeave (out ++ take n (rs_state r)), r)
      else Some (PcPermute (n - HASH_DATA_AREA) (out ++ take HASH_DATA_AREA (rs_state r)), r)
  | PcLeave out => Some (if rs_curstate r =? 2 then PcUnmark out else PcAbort, r)
  | PcUnmark out => Some (PcReturn out, RandomState (rs_state r) 1)
  | PcReturn _ | PcAbort => None
  end.

(** A thread that asks for [n] bytes: before the call, in it, and after it. *)
Inductive thread := TWait (n : nat) | TIn (p : call_pc) | TDone (out : list Z).

(** The threads, the static variables and the holder of [random_lock]. *)
Record system := System { threads : list thread; vars : random_state; lock : option nat }.

(** The steps of [rand]: a thread takes the mutex when it is free, runs the call,
    and the destructor of the [lock_guard] releases it. *)
Inductive rand_step : system -> system -> Prop :=
  | rand_acquire i n ts r :
      ts !! i = Some (TWait n) ->
      rand_step (System ts r None) (System (<[i := TIn (PcEnter n)]> ts) r (Some i))
  | rand_call i p p' ts r r' l :
      ts !! i = Some (TIn p) -> call_step p r = Some (p', r') ->
      rand_step (System ts r l) (System (<[i := TIn p']> ts) r' l)
  | rand_release i out ts r :
      ts !! i = Some (TIn (PcReturn out)) ->
      rand_step (System ts r (Some i)) (System (<[i := TDone out]> ts) r None).

(** The same calls without the mutex. *)
Inductive bare_step : system -> system -> Prop :=
  | bare_begin i n ts r l :
      ts !! i = Some (TWait n) ->
      bare_step (System ts r l) (System (<[i := TIn (PcEnter n)]> ts) r l)
  | bare_call i p p' ts r r' l :
      ts !! i = Some (TIn p) -> call_step p r = Some (p', r') ->
      bare_step (System ts r l) (System (<[i := TIn p']> ts) r' l)
  | bare_end i out ts r l :
      ts !! i = Some (TIn (PcReturn out)) ->
      bare_step (System ts r l) (System (<[i := TDone out]> ts) r l).

(** Threads about to ask for the sizes [ns], with the generator ready. *)
Definition ready (ns : list nat) (r : random_state) : system := System (map TWait ns) r None.
