(* ===== verification/RandomProofs.v ===== *)
(** * The random generator: the stream it outputs, and calls under the mutex *)

From Stdlib Require Import ZArith Lia.
From stdpp Require Import base tactics list numbers option relations.
From S2P Require Import Prelude Radix Words Keccak KeccakSpec KeccakSponge Random.
Open Scope Z_scope.

(** ** The stream

    The state moves by one permutation for each started block of 136 bytes. *)

Definition random_blocks (n : nat) : nat := ((n + 135) / 136)%nat.

Lemma random_blocks_bound n : (n <= 136 * random_blocks n)%nat.
Proof. unfold random_blocks. pose proof (Nat.div_mod (n + 135) 136). pose proof (Nat.mod_upper_bound (n + 135) 136). lia. Qed.

Lemma random_blocks_one n : (0 < n <= 136)%nat -> random_blocks n = 1%nat.
Proof. intros H. unfold random_blocks. symmetry. apply (Nat.div_unique _ _ _ (n - 1)); lia. Qed.

Lemma random_blocks_add k n : random_blocks (136 * k + n) = (k + random_blocks n)%nat.
Proof.
  unfold random_blocks. replace (136 * k + n + 135)%nat with (n + 135 + k * 136)%nat by lia.
  rewrite Nat.div_add by lia. lia.
Qed.

Lemma random_blocks_S n : (136 < n)%nat -> random_blocks n = S (random_blocks (n - 136)).
Proof. intros H. rewrite <- (random_blocks_add 1). f_equal. lia. Qed.

(** The stream of a permutation, which stays abstract here. *)
Section Stream.
Context (perm : list Z -> list Z) (Hlen : forall st, length (perm st) = 200%nat).

Fixpoint advance (k : nat) (st : list Z) : list Z :=
  match k with O => st | S k => advance k (perm st) end.

Fixpoint stream (k : nat) (st : list Z) : list Z :=
  match k with O => [] | S k => take 136 (perm st) ++ stream k (perm st) end.

Definition stream_out (n : nat) (st : list Z) : list Z := take n (stream (random_blocks n) st).
Definition stream_next (n : nat) (st : list Z) : list Z := advance (random_blocks n) st.

Lemma length_stream k st : length (stream k st) = (136 * k)%nat.
Proof using Hlen.
  revert st. induction k as [|k IH]; intros st; [done|]. cbn [stream].
  rewrite length_app, IH, length_take, Hlen. lia.
Qed.

Lemma length_stream_out n st : length (stream_out n st) = n.
Proof using Hlen. unfold stream_out. rewrite length_take, length_stream. pose proof (random_blocks_bound n). lia. Qed.

(** One iteration of the loop. *)
Lemma stream_out_one n st : (0 < n <= 136)%nat ->
  stream_out n st = take n (perm st) /\ stream_next n st = perm st.
Proof using Type.
  intros H. unfold stream_out, stream_next. rewrite random_blocks_one by exact H.
  cbn [stream advance]. rewrite app_nil_r, take_take. split; [f_equal; lia | done].
Qed.

Lemma stream_out_S n st : (136 < n)%nat ->
  stream_out n st = take 136 (perm st) ++ stream_out (n - 136) (perm st) /\
  stream_next n st = stream_next (n - 136) (perm st).
Proof using Hlen.
  intros H. unfold stream_out, stream_next. rewrite random_blocks_S by exact H.
  cbn [stream advance]. split; [|done]. pose proof (length_take_le (perm st) 136) as L.
  rewrite Hlen in L. rewrite take_app_ge, L by lia. reflexivity.
Qed.

(** A request splits at a multiple of 136. *)
Lemma advance_add j k st : advance (j + k) st = advance k (advance j st).
Proof using Type. revert st. induction j; intros st; cbn; auto. Qed.
Lemma stream_add j k st : stream (j + k) st = stream j st ++ stream k (advance j st).
Proof using Type.
  revert st. induction j as [|j IH]; intros st; [done|]. cbn [Nat.add stream advance].
  by rewrite IH, <- app_assoc.
Qed.

Lemma stream_out_add k n st :
  stream_out (136 * k + n) st = stream_out (136 * k) st ++ stream_out n (stream_next (136 * k) st) /\
  stream_next (136 * k + n) st = stream_next n (stream_next (136 * k) st).
Proof using Hlen.
  assert (E : random_blocks (136 * k) = k).
  { rewrite <- (Nat.add_0_r (136 * k)), random_blocks_add. change (random_blocks 0) with 0%nat. lia. }
  unfold stream_out, stream_next. rewrite random_blocks_add, stream_add, advance_add, E.
  split; [|done]. rewrite take_app_ge, length_stream, (take_ge (stream k st)) by (rewrite length_stream; lia).
  do 2 f_equal. lia.
Qed.
End Stream.

Lemma length_hash_permutation st : length (hash_permutation st) = 200%nat.
Proof. unfold hash_permutation. rewrite length_state_bytes, length_keccakf, length_map, length_seq. exact eq_refl. Qed.
#[local] Opaque hash_permutation.

(** The bytes of a request and the state after it. *)
Abbreviation random_out := (stream_out hash_permutation).
Abbreviation random_next := (stream_next hash_permutation).

Lemma length_random_out n st : length (random_out n st) = n.
Proof. apply length_stream_out, length_hash_permutation. Qed.

Lemma random_loop_spec fuel : forall n st, (0 < n <= fuel)%nat ->
  random_loop fuel n st = Some (random_out n st, random_next n st).
Proof.
  induction fuel as [|fuel IH]; intros n st H; [lia|]. cbn [random_loop]. unfold HASH_DATA_AREA.
  destruct (Nat.leb_spec n 136).
  - destruct (stream_out_one hash_permutation n st ltac:(lia)) as [E1 E2]. rewrite E1, E2. exact eq_refl.
  - destruct (stream_out_S _ length_hash_permutation n st ltac:(lia)) as [E1 E2]. rewrite E1, E2, IH by lia. exact eq_refl.
Qed.

Lemma generate_spec n st :
  generate_random_bytes_not_thread_safe n (RandomState st 1) = Some (random_out n st, RandomState (random_next n st) 1).
Proof.
  unfold generate_random_bytes_not_thread_safe, assert_set. cbn.
  destruct (Nat.eqb_spec n 0) as [->|N]; [reflexivity|]. cbn. rewrite random_loop_spec by lia. reflexivity.
Qed.

Fixpoint calls_out (ns : list nat) (st : list Z) : list (list Z) :=
  match ns with [] => [] | n :: ns => random_out n st :: calls_out ns (random_next n st) end.
Fixpoint calls_state (ns : list nat) (st : list Z) : list Z :=
  match ns with [] => st | n :: ns => calls_state ns (random_next n st) end.

Lemma generate_calls_spec ns st :
  generate_calls ns (RandomState st 1) = Some (calls_out ns st, RandomState (calls_state ns st) 1).
Proof.
  revert st. induction ns as [|n ns IH]; intros st; [done|]. cbn [generate_calls].
  rewrite generate_spec. cbn [mbind option_bind]. rewrite IH. reflexivity.
Qed.

Lemma length_calls_out ns st : length (calls_out ns st) = length ns.
Proof. revert st. induction ns; intros st; cbn; auto. Qed.

Lemma calls_out_lengths ns st : map length (calls_out ns st) = ns.
Proof. revert st. induction ns; intros st; cbn; [done|]. by rewrite length_random_out, IHns. Qed.

Lemma calls_snoc ns n st :
  calls_out (ns ++ [n]) st = calls_out ns st ++ [random_out n (calls_state ns st)] /\
  calls_state (ns ++ [n]) st = random_next n (calls_state ns st).
Proof.
  revert st. induction ns as [|m ns IH]; intros st; [done|].
  cbn [app calls_out calls_state]. destruct (IH (random_next m st)) as [-> ->]. done.
Qed.

(** ** The loop over read(2) *)

(** What POSIX says of a count that is not 0: -1, or at least one byte and at most
    the count; /dev/urandom has no end of file. *)
Definition posix_read (r : read_result) (n : Z) : Prop :=
  match r with ReadBytes l => 0 < Z.of_nat (length l) <= n | _ => True end.

Lemma u64_small x : 0 <= x < 2 ^ 64 -> u64 x = x.
Proof. apply u64_id. Qed.

Section Read.
Context (read : nat -> Z -> read_result).
Context (Hposix : forall k n, 0 < n -> posix_read (read k n) n).

(** An [EINTR] only moves to the next call. *)
Lemma system_loop_eintr fuel k n result : 0 < n < 2 ^ 64 - 1 -> read k n = ReadEintr ->
  system_loop read (S fuel) k n result = system_loop read fuel (S k) n result.
Proof using Type.
  intros Hn E. cbn [system_loop]. rewrite E. cbn [read_ssize].
  destruct (Z.eqb_spec (u64 (-1)) n) as [Bad|_]; [|reflexivity]. change (u64 (-1)) with (2 ^ 64 - 1) in Bad. lia.
Qed.

Lemma system_loop_bytes fuel k n result l : 0 < n < 2 ^ 63 -> read k n = ReadBytes l ->
  system_loop read (S fuel) k n result =
    if Z.of_nat (length l) =? n then Some (SysBytes (result ++ l))
    else system_loop read fuel (S k) (n - Z.of_nat (length l)) (result ++ l).
Proof using Hposix.
  intros Hn E. pose proof (Hposix k n ltac:(lia)) as P. rewrite E in P. cbn [posix_read] in P.
  cbn [system_loop]. rewrite E. cbn [read_ssize]. rewrite u64_small by lia.
  destruct (Z.eqb_spec (Z.of_nat (length l)) n); [reflexivity|].
  destruct (Z.ltb_spec (Z.of_nat (length l)) 0); [lia|].
  destruct (Z.eqb_spec (Z.of_nat (length l)) 0); [lia|]. rewrite u64_small by lia. reflexivity.
Qed.

(** More fuel does not change the result. *)
Lemma system_loop_mono fuel fuel' : (fuel <= fuel')%nat -> forall k n result o,
  system_loop read fuel k n result = Some o -> system_loop read fuel' k n result = Some o.
Proof using Type.
  revert fuel'. induction fuel as [|fuel IH]; intros fuel' H k n result o; [discriminate|].
  destruct fuel' as [|fuel']; [lia|]. cbn [system_loop].
  destruct (u64 _ =? n); [done|]. destruct (_ <? 0).
  - destruct (read k n); try done; apply IH; lia.
  - destruct (_ =? 0); [done|]. apply IH. lia.
Qed.

(** No error, and after every point of the run some call is not interrupted. *)
Context (Hfair : forall k, exists d, forall n, 0 < n -> exists l, read (k + d)%nat n = ReadBytes l).
Context (Hnofail : forall k n, 0 < n -> read k n <> ReadFails).

Lemma system_loop_progress n k result : 0 < n < 2 ^ 63 ->
  exists fuel k' l, 0 < Z.of_nat (length l) <= n /\
    forall fuel', system_loop read (fuel + fuel') k n result =
      if Z.of_nat (length l) =? n then Some (SysBytes (result ++ l))
      else system_loop read fuel' k' (n - Z.of_nat (length l)) (result ++ l).
Proof using All.
  intros Hn. destruct (Hfair k) as [d Hd]. revert k Hd.
  induction d as [|d IH]; intros k Hd; (destruct (read k n) as [l| |] eqn:E;
    [ | | destruct (Hnofail k n ltac:(lia) E)]).
  1, 3: exists 1%nat, (S k), l; split; [pose proof (Hposix k n ltac:(lia)) as P; rewrite E in P; exact P |
    intros fuel'; by apply system_loop_bytes].
  - destruct (Hd n ltac:(lia)) as [l E']. rewrite Nat.add_0_r in E'. congruence.
  - destruct (IH (S k)) as (fuel & k' & l & Hl & H).
    { intros m Hm. destruct (Hd m Hm) as [l E']. exists l. rewrite <- E'. f_equal. lia. }
    exists (S fuel), k', l. split; [exact Hl|]. intros fuel'.
    change (S fuel + fuel')%nat with (S (fuel + fuel')). rewrite system_loop_eintr by (assumption || lia). apply H.
Qed.

Lemma system_loop_returns n k result : 0 < n < 2 ^ 63 ->
  exists fuel bytes, length bytes = Z.to_nat n /\ system_loop read fuel k n result = Some (SysBytes (result ++ bytes)).
Proof using All.
  intros Hn. rewrite <- (Z2Nat.id n) in Hn |- * by lia. set (m := Z.to_nat n) in *. clearbody m. clear n.
  rewrite Nat2Z.id. revert k result Hn. induction (lt_wf m) as [m _ IH]. intros k result Hn.
  destruct (system_loop_progress (Z.of_nat m) k result) as (fuel & k' & l & Hl & H); [lia|].
  destruct (Z.eqb_spec (Z.of_nat (length l)) (Z.of_nat m)) as [E|N].
  - exists (fuel + 0)%nat, l. split; [lia | apply H].
  - destruct (IH (m - length l)%nat ltac:(lia) k' (result ++ l)) as (fuel' & bytes & L & H'); [lia|].
    exists (fuel + fuel')%nat, (l ++ bytes). split; [rewrite length_app; lia|].
    rewrite H, app_assoc, <- H'. f_equal. lia.
Qed.
End Read.

(** * The random generator under its mutex

    Every reachable state of the threads is explained by calls made one after
    the other, and every run ends. *)

#[local] Opaque hash_permutation.

(** ** One call *)

(** Where a call for [n] bytes from the state [st] is, and what the variables hold. *)
Definition call_inv (n : nat) (st : list Z) (p : call_pc) (r : random_state) : Prop :=
  match p with
  | PcEnter m | PcMark m => m = n /\ r = RandomState st 1
  | PcPermute m out =>
      (0 < m)%nat /\ rs_curstate r = 2 /\
      out ++ random_out m (rs_state r) = random_out n st /\ random_next m (rs_state r) = random_next n st
  | PcCopy m out =>
      (0 < m)%nat /\ rs_curstate r = 2 /\ exists s, rs_state r = hash_permutation s /\
      out ++ random_out m s = random_out n st /\ random_next m s = random_next n st
  | PcLeave out | PcUnmark out => out = random_out n st /\ r = RandomState (random_next n st) 2
  | PcReturn out => out = random_out n st /\ r = RandomState (random_next n st) 1
  | PcAbort => False
  end.

Lemma call_inv_step n st p r p' r' :
  call_inv n st p r -> call_step p r = Some (p', r') -> call_inv n st p' r'.
Proof.
  intros H E. destruct p; cbn [call_step] in E; cbn [call_inv] in H; try discriminate.
  - destruct H as [-> ->]. cbn in E. by injection E as <- <-.
  - destruct H as [-> ->]. injection E as <- <-. destruct (Nat.eqb_spec n 0) as [->|N]; [done|].
    cbn [call_inv rs_curstate rs_state]. split; [lia|]. done.
  - destruct H as (Hm & Hc & Ho & Hn). injection E as <- <-. cbn [call_inv rs_curstate rs_state].
    split; [exact Hm|]. split; [exact Hc|]. exists (rs_state r). done.
  - destruct H as (Hm & Hc & s & Hs & Ho & Hn). unfold HASH_DATA_AREA in E.
    destruct (Nat.leb_spec n0 136) as [L|L]; injection E as <- <-; cbn [call_inv].
    + destruct (stream_out_one hash_permutation n0 s ltac:(lia)) as [E1 E2].
      rewrite Hs, <- E1. split; [exact Ho|]. destruct r as [s' c]. cbn in *. subst c. f_equal. congruence.
    + destruct (stream_out_S _ length_hash_permutation n0 s L) as [E1 E2].
      split; [lia|]. split; [exact Hc|]. rewrite Hs, <- app_assoc, <- E1, <- E2. split; [exact Ho | exact Hn].
  - destruct H as [-> ->]. cbn in E. by injection E as <- <-.
  - destruct H as [-> ->]. by injection E as <- <-.
Qed.

(** A call in progress has a next step until it returns. *)
Lemma call_inv_next n st p r : call_inv n st p r ->
  (exists p' r', call_step p r = Some (p', r')) \/
  (exists out, p = PcReturn out /\ out = random_out n st /\ r = RandomState (random_next n st) 1).
Proof.
  intros H. destruct p; cbn [call_step call_inv] in *; try (left; eauto; fail); try tauto.
  - left. destruct (n0 <=? HASH_DATA_AREA)%nat; eauto.
  - right. exists out. tauto.
Qed.

(** ** All threads *)

Section Lock.
Context (ns : list nat) (st : list Z).

(** The sizes the threads of [log] ask for, in the order of [log]. *)
Definition sizes (log : list nat) : list nat := map (fun i => ns !!! i) log.

(** The calls in [log] are complete, with the results of calls in that order; the
    holder of the mutex runs the next one; the other threads wait. *)
Record lock_inv (log : list nat) (s : system) : Prop := {
  li_nodup : NoDup log;
  li_length : length (threads s) = length ns;
  li_done k i : log !! k = Some i -> threads s !! i = Some (TDone (calls_out (sizes log) st !!! k));
  li_wait i : (i < length ns)%nat -> (i ∉ log) -> lock s <> Some i -> threads s !! i = Some (TWait (ns !!! i));
  li_vars : match lock s with
            | None => vars s = RandomState (calls_state (sizes log) st) 1
            | Some i => (i ∉ log) /\ exists p, threads s !! i = Some (TIn p) /\
                          call_inv (ns !!! i) (calls_state (sizes log) st) p (vars s)
            end
}.

Lemma lock_inv_ready : lock_inv [] (ready ns (RandomState st 1)).
Proof using Type.
  constructor; cbn [ready threads lock vars]; [constructor | apply length_map | | | done].
  - intros k i. rewrite lookup_nil. discriminate.
  - intros i Hi _ _. change (map TWait ns) with (TWait <$> ns).
    rewrite list_lookup_fmap, (list_lookup_lookup_total_lt ns i Hi). reflexivity.
Qed.

(** A thread that has begun is in the log or holds the mutex. *)
Lemma lock_inv_thread log s i t : lock_inv log s -> threads s !! i = Some t ->
  (forall n, t <> TWait n) -> lock s <> Some i -> (i ∈ log).
Proof using Type.
  intros I Ht Hw Hl. destruct (decide (i ∈ log)) as [|N]; [done|]. exfalso.
  pose proof (lookup_lt_Some _ _ _ Ht) as L. rewrite (li_length _ _ I) in L.
  rewrite (li_wait _ _ I i L N Hl) in Ht. injection Ht as <-. by apply (Hw (ns !!! i)).
Qed.

Lemma lock_inv_in log s i p : lock_inv log s -> threads s !! i = Some (TIn p) ->
  lock s = Some i /\ (i ∉ log) /\ call_inv (ns !!! i) (calls_state (sizes log) st) p (vars s).
Proof using Type.
  intros I Ht. destruct (decide (lock s = Some i)) as [E|N].
  - pose proof (li_vars _ _ I) as V. rewrite E in V. destruct V as (Hi & p' & Hp & V).
    rewrite Ht in Hp. injection Hp as <-. done.
  - exfalso. pose proof (lock_inv_thread log s i _ I Ht ltac:(done) N) as Hi.
    apply list_elem_of_lookup in Hi as [k Hk]. rewrite (li_done _ _ I k i Hk) in Ht. discriminate.
Qed.

Lemma lock_inv_lt log s i t : lock_inv log s -> threads s !! i = Some t -> (i < length ns)%nat.
Proof using Type. intros I H. rewrite <- (li_length _ _ I). by apply lookup_lt_Some in H. Qed.

(** Threads other than [i] keep their place. *)
Lemma lookup_other (ts : list thread) i j t : i <> j -> <[i := t]> ts !! j = ts !! j.
Proof using Type. intros H. by apply list_lookup_insert_ne. Qed.
Lemma lookup_self (ts : list thread) i t t' : ts !! i = Some t' -> <[i := t]> ts !! i = Some t.
Proof using Type. intros H. apply list_lookup_insert_eq. by apply lookup_lt_Some in H. Qed.

Lemma lock_inv_acquire log i n ts r : lock_inv log (System ts r None) -> ts !! i = Some (TWait n) ->
  lock_inv log (System (<[i := TIn (PcEnter n)]> ts) r (Some i)).
Proof using Type.
  intros I Ht. pose proof (lock_inv_lt _ _ _ _ I Ht) as L.
  assert (Hi : i ∉ log).
  { intros Hi. apply list_elem_of_lookup in Hi as [k Hk]. pose proof (li_done _ _ I k i Hk) as D.
    cbn [threads] in D. rewrite Ht in D. discriminate. }
  assert (En : n = ns !!! i).
  { pose proof (li_wait _ _ I i L Hi ltac:(done)) as W. cbn [threads] in W. congruence. }
  constructor; cbn [threads lock vars].
  - exact (li_nodup _ _ I).
  - rewrite length_insert. exact (li_length _ _ I).
  - intros k j Hk. rewrite lookup_other; [exact (li_done _ _ I k j Hk)|].
    intros <-. apply Hi. by apply list_elem_of_lookup_2 in Hk.
  - intros j Hj Nj Lj. rewrite lookup_other by congruence. exact (li_wait _ _ I j Hj Nj ltac:(done)).
  - split; [exact Hi|]. exists (PcEnter n). split; [by eapply lookup_self|].
    split; [exact En | exact (li_vars _ _ I)].
Qed.

Lemma lock_inv_call log i p p' ts r r' l : lock_inv log (System ts r l) -> ts !! i = Some (TIn p) ->
  call_step p r = Some (p', r') -> lock_inv log (System (<[i := TIn p']> ts) r' l).
Proof using Type.
  intros I Ht E. destruct (lock_inv_in _ _ _ _ I Ht) as (El & Hi & C). cbn [lock vars] in El, C. subst l.
  constructor; cbn [threads lock vars].
  - exact (li_nodup _ _ I).
  - rewrite length_insert. exact (li_length _ _ I).
  - intros k j Hk. rewrite lookup_other; [exact (li_done _ _ I k j Hk)|].
    intros <-. apply Hi. by apply list_elem_of_lookup_2 in Hk.
  - intros j Hj Nj Lj. rewrite lookup_other by congruence. exact (li_wait _ _ I j Hj Nj Lj).
  - split; [exact Hi|]. exists p'. split; [by eapply lookup_self|]. by eapply call_inv_step.
Qed.

Lemma lock_inv_release log i out ts r : lock_inv log (System ts r (Some i)) ->
  ts !! i = Some (TIn (PcReturn out)) -> lock_inv (log ++ [i]) (System (<[i := TDone out]> ts) r None).
Proof using Type.
  intros I Ht. destruct (lock_inv_in _ _ _ _ I Ht) as (_ & Hi & Ho & Hr). cbn [vars] in Hr.
  destruct (calls_snoc (sizes log) (ns !!! i) st) as [EO ES].
  assert (EZ : sizes (log ++ [i]) = sizes log ++ [ns !!! i]) by apply map_app.
  constructor; cbn [threads lock vars].
  - apply NoDup_app. split; [exact (li_nodup _ _ I)|]. split; [|apply NoDup_singleton].
    intros j Hj Hj'. apply list_elem_of_singleton in Hj'. congruence.
  - rewrite length_insert. exact (li_length _ _ I).
  - intros k j Hk. rewrite EZ, EO. destruct (Nat.lt_ge_cases k (length log)) as [L|L].
    + rewrite lookup_app_l in Hk by exact L. rewrite lookup_other.
      * rewrite lookup_total_app_l by (rewrite length_calls_out; unfold sizes; by rewrite length_map).
        exact (li_done _ _ I k j Hk).
      * intros <-. apply Hi. by apply list_elem_of_lookup_2 in Hk.
    + rewrite lookup_app_r in Hk by exact L. destruct (k - length log)%nat as [|d] eqn:E; [|done].
      injection Hk as <-. assert (k = length log) as -> by lia.
      rewrite lookup_total_app_r by (rewrite length_calls_out; unfold sizes; rewrite length_map; lia).
      rewrite length_calls_out. unfold sizes. rewrite length_map, Nat.sub_diag. cbn [lookup_total list_lookup_total].
      erewrite lookup_self by exact Ht. subst out. exact eq_refl.
  - intros j Hj Nj _. rewrite not_elem_of_app, list_elem_of_singleton in Nj. rewrite lookup_other by (intros <-; tauto).
    apply (li_wait _ _ I j Hj); [tauto | cbn [lock]; intros [= <-]; tauto].
  - rewrite EZ, ES. exact Hr.
Qed.

Lemma lock_inv_step s s' log : lock_inv log s -> rand_step s s' -> exists log', lock_inv log' s'.
Proof using Type.
  intros I H. destruct H.
  - eexists. by apply lock_inv_acquire.
  - eexists. by eapply lock_inv_call.
  - eexists. by apply lock_inv_release.
Qed.

Lemma lock_inv_reachable s : rtc rand_step (ready ns (RandomState st 1)) s -> exists log, lock_inv log s.
Proof using Type.
  revert s. apply rtc_ind_r.
  - exists []. exact lock_inv_ready.
  - intros s s' _ Hs [log I]. by eapply lock_inv_step.
Qed.

(** Until all threads are done, some thread has a step. *)
Lemma lock_inv_progress log s : lock_inv log s ->
  (exists s', rand_step s s') \/
  (lock s = None /\ forall i, (i < length ns)%nat -> i ∈ log).
Proof using Type.
  intros I. destruct s as [ts r [i|]].
  - left. destruct (li_vars _ _ I) as (Hi & p & Hp & C). cbn [threads vars] in *.
    destruct (call_inv_next _ _ _ _ C) as [(p' & r' & E)|(out & -> & _)].
    + eexists. by eapply rand_call.
    + eexists. by apply rand_release.
  - destruct (decide (Forall (fun i => i ∈ log) (seq 0 (length ns)))) as [F|N].
    + right. split; [done|]. intros i Hi. rewrite Forall_forall in F. apply F. apply elem_of_seq. lia.
    + left. apply not_Forall_Exists in N; [|apply _]. apply Exists_exists in N as (i & Hi & N).
      apply elem_of_seq in Hi. eexists. eapply rand_acquire with (i := i).
      exact (li_wait _ _ I i ltac:(lia) N ltac:(done)).
Qed.
End Lock.

(** ** Every run ends *)

Definition call_measure (p : call_pc) : nat :=
  match p with
  | PcEnter n => 2 * n + 6 | PcMark n => 2 * n + 5 | PcPermute n _ => 2 * n + 4 | PcCopy n _ => 2 * n + 3
  | PcLeave _ => 2 | PcUnmark _ => 1 | PcReturn _ | PcAbort => 0
  end.
Definition thread_measure (t : thread) : nat :=
  match t with TWait n => 2 * n + 8 | TIn p => call_measure p + 1 | TDone _ => 0 end.
Definition run_measure (s : system) : nat := sum_list_with thread_measure (threads s).

Lemma call_measure_step p r p' r' : call_step p r = Some (p', r') -> (call_measure p' < call_measure p)%nat.
Proof.
  destruct p as [n|n|n out|n out|out|out|out|]; cbn [call_step]; intros E; try discriminate.
  4: unfold HASH_DATA_AREA in E; destruct (Nat.leb_spec n 136).
  all: injection E as <- _; cbn [call_measure]; try lia.
  - destruct (_ =? _); cbn [call_measure]; lia.
  - destruct (Nat.eqb_spec n 0); cbn [call_measure]; lia.
  - destruct (_ =? _); cbn [call_measure]; lia.
Qed.

Lemma sum_measure_insert (ts : list thread) i t t' : ts !! i = Some t ->
  (sum_list_with thread_measure (<[i := t']> ts) + thread_measure t =
   sum_list_with thread_measure ts + thread_measure t')%nat.
Proof.
  revert i. induction ts as [|u ts IH]; intros i H; [done|]. destruct i as [|i].
  - injection H as ->. cbn [insert list_insert sum_list_with]. lia.
  - pose proof (IH i H). change (<[S i := t']> (u :: ts)) with (u :: <[i := t']> ts).
    cbn [sum_list_with]. lia.
Qed.

Lemma rand_step_measure s s' : rand_step s s' -> (run_measure s' < run_measure s)%nat.
Proof.
  intros H. unfold run_measure.
  destruct H as [i n ts r H | i p p' ts r r' l H E | i out ts r H]; cbn [threads];
    match goal with |- context [<[i := ?t]> ts] => pose proof (sum_measure_insert ts i _ t H) as M end;
    cbn [thread_measure call_measure] in M; try (pose proof (call_measure_step _ _ _ _ E)); lia.
Qed.

Lemma rand_steps_measure k s s' : nsteps rand_step k s s' -> (run_measure s' + k <= run_measure s)%nat.
Proof.
  induction 1 as [s|k s1 s2 s3 H _ IH]; [lia|]. pose proof (rand_step_measure _ _ H). lia.
Qed.

Lemma run_measure_ready ns r : run_measure (ready ns r) = sum_list_with (fun n => 2 * n + 8)%nat ns.
Proof. unfold run_measure, ready. cbn [threads]. induction ns as [|n ns IH]; [done|]. cbn [map sum_list_with]. by rewrite IH. Qed.

(** From every reachable state the threads reach the end. *)
Lemma lock_finishes ns st s : rtc rand_step (ready ns (RandomState st 1)) s ->
  exists s', rtc rand_step s s' /\ lock s' = None /\
    forall i m, ns !! i = Some m -> exists out, threads s' !! i = Some (TDone out) /\ length out = m.
Proof.
  intros H. remember (run_measure s) as k eqn:Ek. revert s H Ek.
  induction (lt_wf k) as [k _ IH]. intros s H ->. destruct (lock_inv_reachable ns st s H) as [log I].
  destruct (lock_inv_progress _ _ _ _ I) as [[s' Hs]|[El Hall]].
  - destruct (IH _ (rand_step_measure _ _ Hs) s' (rtc_r _ _ _ H Hs) eq_refl) as (s'' & Hr & Hd).
    exists s''. split; [by eapply rtc_l | exact Hd].
  - exists s. split; [apply rtc_refl|]. split; [exact El|]. intros i m Hi.
    pose proof (lookup_lt_Some _ _ _ Hi) as L. specialize (Hall i L).
    apply list_elem_of_lookup in Hall as [j Hj]. eexists. split; [exact (li_done _ _ _ _ I j i Hj)|].
    assert (Lj : (j < length log)%nat) by by eapply lookup_lt_Some.
    assert (E : map length (calls_out (sizes ns log) st) !! j = Some m).
    { rewrite calls_out_lengths. unfold sizes. change (map (fun i => ns !!! i) log) with ((fun i => ns !!! i) <$> log).
      rewrite list_lookup_fmap, Hj. cbn. f_equal. by apply list_lookup_total_correct. }
    change (map length (calls_out (sizes ns log) st)) with (length <$> calls_out (sizes ns log) st) in E.
    rewrite list_lookup_fmap in E. destruct (calls_out (sizes ns log) st !! j) eqn:Eo; [|discriminate].
    rewrite (list_lookup_total_correct _ _ _ Eo). by injection E.
Qed.

(** ** Runs without the mutex, from a list of the threads that move *)

Definition bare_next (i : nat) (s : system) : option system :=
  let '(System ts r l) := s in
  match ts !! i with
  | Some (TWait n) => Some (System (<[i := TIn (PcEnter n)]> ts) r l)
  | Some (TIn (PcReturn out)) => Some (System (<[i := TDone out]> ts) r l)
  | Some (TIn p) => '(p', r') ← call_step p r; Some (System (<[i := TIn p']> ts) r' l)
  | _ => None
  end.

Fixpoint schedule (order : list nat) (s : system) : option system :=
  match order with [] => Some s | i :: order => s ← bare_next i s; schedule order s end.

Lemma bare_next_step i s s' : bare_next i s = Some s' -> bare_step s s'.
Proof.
  destruct s as [ts r l]. cbn [bare_next]. destruct (ts !! i) as [[n|p|out]|] eqn:E; try discriminate.
  - intros [= <-]. by apply bare_begin.
  - assert (F : forall o, o = call_step p r -> ('(p', r') ← o; Some (System (<[i := TIn p']> ts) r' l)) = Some s' ->
      bare_step (System ts r l) s').
    { intros [[p' r']|] Eo H; [|discriminate]. injection H as <-. by eapply bare_call. }
    destruct p; try (by apply F). intros [= <-]. by apply bare_end.
Qed.

Lemma schedule_run order s s' : schedule order s = Some s' -> rtc bare_step s s'.
Proof.
  revert s. induction order as [|i order IH]; intros s; cbn [schedule].
  - intros [= <-]. apply rtc_refl.
  - destruct (bare_next i s) as [s1|] eqn:E; [|discriminate]. intros H.
    eapply rtc_l; [by eapply bare_next_step | by apply IH].
Qed.
