(* ===== verification/RandomCorrect.v ===== *)
(** * Properties of the random generator (random.c, crypto.h)

    The protocol of the calls, what the mutex gives to the threads and what they
    lose without it, and that every call returns. *)

From Stdlib Require Import ZArith Lia.
From stdpp Require Import base tactics list numbers option relations.
From S2P Require Import Prelude Radix Words Keccak Random RandomProofs.
Open Scope Z_scope.
#[local] Opaque hash_permutation.

(** The generator between [init_random] and [deinit_random]: after the seed
    no assertion of any sequence of calls fails, each call writes the bytes asked
    for, which are those of one stream per started block of 136 bytes, a request
    splits at every multiple of 136, and [deinit_random] leaves the variables as
    they were at the start. Before [init_random] and after [deinit_random] every
    call fails its assertion, and so does a second initialisation. *)
Theorem random_calls_correct seed : length seed = 32%nat ->
  let st := seed ++ replicate 168 0 in
  init_random seed random_static = Some (RandomState st 1) /\
  (forall ns, exists outs r, generate_calls ns (RandomState st 1) = Some (outs, r) /\
     outs = calls_out ns st /\ map length outs = ns /\ deinit_random r = Some random_static /\
     init_random seed r = None) /\
  (forall k n s, exists a b r r', generate_random_bytes_not_thread_safe (136 * k) (RandomState s 1) = Some (a, r) /\
     generate_random_bytes_not_thread_safe n r = Some (b, r') /\
     generate_random_bytes_not_thread_safe (136 * k + n) (RandomState s 1) = Some (a ++ b, r')) /\
  (forall n, generate_random_bytes_not_thread_safe n random_static = None) /\ deinit_random random_static = None.
Proof.
  intros L st. split; [|split; [|split; [|split]]].
  - unfold init_random, random_static, assert_set, st. cbn [rs_state rs_curstate]. rewrite drop_replicate. reflexivity.
  - intros ns. exists (calls_out ns st), (RandomState (calls_state ns st) 1).
    split; [apply generate_calls_spec|]. split; [reflexivity|]. split; [apply calls_out_lengths|].
    split; reflexivity.
  - intros k n s. destruct (stream_out_add _ length_hash_permutation k n s) as [EO EN].
    exists (random_out (136 * k) s), (random_out n (random_next (136 * k) s)),
      (RandomState (random_next (136 * k) s) 1), (RandomState (random_next (136 * k + n) s) 1).
    rewrite !generate_spec, EO, EN. split; [reflexivity|]. split; reflexivity.
  - intros n. reflexivity.
  - reflexivity.
Qed.

Lemma random_calls_correct_witness : length (replicate 32 7) = 32%nat /\
  exists outs r, generate_calls [0; 64; 200]%nat (RandomState (replicate 32 7 ++ replicate 168 0) 1) = Some (outs, r) /\
    map length outs = [0; 64; 200]%nat.
Proof.
  split; [reflexivity|]. destruct (random_calls_correct (replicate 32 7) eq_refl) as (_ & H & _).
  destruct (H [0; 64; 200]%nat) as (outs & r & E & _ & M & _). exists outs, r. split; [exact E | exact M].
Defined.

(** C10. Under [random_lock] the calls of any number of threads are equivalent to
    calls one after the other: in every reachable state no assertion has failed,
    at most one thread, the holder of the mutex, is in a call, the finished
    threads hold the outputs of a sequence of calls in some order, and when the
    mutex is free the variables are those after that sequence. *)
Theorem random_lock_linearizable ns st s : rtc rand_step (ready ns (RandomState st 1)) s ->
  (forall i, threads s !! i <> Some (TIn PcAbort)) /\
  (forall i p, threads s !! i = Some (TIn p) -> lock s = Some i) /\
  exists log outs r, NoDup log /\ generate_calls (sizes ns log) (RandomState st 1) = Some (outs, r) /\
    (forall i out, threads s !! i = Some (TDone out) <-> exists k, log !! k = Some i /\ outs !! k = Some out) /\
    (lock s = None -> vars s = r).
Proof.
  intros H. destruct (lock_inv_reachable ns st s H) as [log I]. split; [|split].
  - intros i Hi. destruct (lock_inv_in _ _ _ _ _ _ I Hi) as (_ & _ & F). exact F.
  - intros i p Hi. by destruct (lock_inv_in _ _ _ _ _ _ I Hi).
  - exists log, (calls_out (sizes ns log) st), (RandomState (calls_state (sizes ns log) st) 1).
    split; [exact (li_nodup _ _ _ _ I)|]. split; [apply generate_calls_spec|]. split.
    + assert (LO : length (calls_out (sizes ns log) st) = length log)
        by (rewrite length_calls_out; apply length_map).
      intros i out. split.
      * intros Hi. assert (Hl : lock s <> Some i).
        { intros El. pose proof (li_vars _ _ _ _ I) as V. rewrite El in V. destruct V as (_ & p & Hp & _). congruence. }
        pose proof (lock_inv_thread _ _ _ _ _ _ I Hi ltac:(done) Hl) as Hin.
        apply list_elem_of_lookup in Hin as [k Hk]. exists k. split; [exact Hk|].
        pose proof (li_done _ _ _ _ I k i Hk) as D. rewrite Hi in D. injection D as ->.
        apply list_lookup_lookup_total_lt. rewrite LO. by eapply lookup_lt_Some.
      * intros (k & Hk & Ho). rewrite (li_done _ _ _ _ I k i Hk). do 2 f_equal.
        by apply list_lookup_total_correct.
    + intros El. pose proof (li_vars _ _ _ _ I) as V. by rewrite El in V.
Qed.

Lemma random_lock_linearizable_witness :
  rtc rand_step (ready [32; 64]%nat (RandomState (replicate 200 0) 1))
    (System [TIn (PcMark 32); TWait 64] (RandomState (replicate 200 0) 1) (Some 0%nat)) /\
  forall i p, [TIn (PcMark 32); TWait 64] !! i = Some (TIn p) -> Some 0%nat = Some i.
Proof.
  assert (R : rtc rand_step (ready [32; 64]%nat (RandomState (replicate 200 0) 1))
    (System [TIn (PcMark 32); TWait 64] (RandomState (replicate 200 0) 1) (Some 0%nat))).
  { eapply rtc_l; [exact (rand_acquire 0 32 [TWait 32; TWait 64] _ eq_refl)|].
    eapply rtc_l; [|apply rtc_refl].
    exact (rand_call 0 (PcEnter 32) _ [TIn (PcEnter 32); TWait 64] _ _ _ eq_refl eq_refl). }
  split; [exact R|]. exact (proj1 (proj2 (random_lock_linearizable [32; 64]%nat (replicate 200 0) _ R))).
Defined.

(** Without the mutex [curstate] does not catch every interleaving: for two
    threads that ask for [n] bytes, at most 136, one run ends with no failed
    assertion, [curstate] back at 1, and the same bytes in both threads, and
    another run fails an assertion. *)
Theorem random_race n st : (0 < n <= 136)%nat ->
  (exists out r l, rtc bare_step (ready [n; n] (RandomState st 1)) (System [TDone out; TDone out] r l) /\
     length out = n /\ rs_curstate r = 1) /\
  (exists t r l, rtc bare_step (ready [n; n] (RandomState st 1)) (System [t; TIn PcAbort] r l)).
Proof.
  intros Hn. assert (E0 : (n =? 0)%nat = false) by (apply Nat.eqb_neq; lia).
  assert (E : (n <=? HASH_DATA_AREA)%nat = true) by (apply Nat.leb_le; exact (proj2 Hn)).
  split.
  - exists (take n (hash_permutation (hash_permutation st))),
      (RandomState (hash_permutation (hash_permutation st)) 1), None.
    split; [|split; [rewrite length_take_le; [done|]; rewrite length_hash_permutation; lia | reflexivity]].
    apply (schedule_run [0; 1; 0; 1; 0; 1; 0; 1; 0; 1; 0; 1; 0; 1; 0; 1]%nat).
    cbn -[HASH_DATA_AREA Nat.leb Nat.eqb take hash_permutation].
    repeat (rewrite E0 || rewrite E; cbn -[HASH_DATA_AREA Nat.leb Nat.eqb take hash_permutation]). exact eq_refl.
  - do 3 eexists. apply (schedule_run [0; 1; 0; 0; 1]%nat).
    cbn -[Nat.eqb]. rewrite E0. cbn -[Nat.eqb]. exact eq_refl.
Qed.

Lemma random_race_witness : (0 < 32 <= 136)%nat /\
  exists out r l, rtc bare_step (ready [32; 32]%nat (RandomState (replicate 200 0) 1)) (System [TDone out; TDone out] r l) /\
    length out = 32%nat.
Proof.
  assert (H : (0 < 32 <= 136)%nat) by lia. split; [exact H|].
  destruct (random_race 32 (replicate 200 0) H) as [(out & r & l & R & L & _) _]. exists out, r, l. split; [exact R | exact L].
Defined.


