(* ===== verification/Varint.v ===== *)
(** * Variable-length integers (src/Native/libcryptonote/common/varint.h)

    [write_varint] and [read_varint] for a 64-bit unsigned type. *)

From Stdlib Require Import ZArith Lia.
From stdpp Require Import base tactics list numbers option.
From S2P Require Import Prelude Radix Words.
Open Scope Z_scope.

(** The loop writes seven bits at a time; [None] is a loop out of fuel, and ten
    bytes hold 64 bits. *)
Fixpoint write_varint_loop (fuel : nat) (i : Z) : option (list Z) :=
  match fuel with
  | O => None
  | S fuel =>
      if 0x80 <=? i then
        rest ← write_varint_loop fuel (Z.shiftr i 7);
        Some (Z.lor (Z.land (u8 i) 0x7f) 0x80 :: rest)
      else Some [u8 i]
  end.
Definition write_varint (i : Z) : option (list Z) := write_varint_loop 10 i.

(** The result of [read_varint]: the number of bytes read, or an error code. *)
Definition EVARINT_OVERFLOW : Z := -1.
Definition EVARINT_REPRESENT : Z := -2.

(** [first], [read], [shift] and [write] as the loop has them, with [bits] = 64;
    [shift] stays below 64 in the shifts, and the test of an overflow comes first. *)
Fixpoint read_varint_loop (first : list Z) (read shift write : Z) : Z * Z :=
  match first with
  | [] => (read, write)
  | byte :: first =>
      let read := read + 1 in
      if (64 <=? shift + 7) && (Z.shiftl 1 (64 - shift) <=? byte) then (EVARINT_OVERFLOW, write)
      else if (byte =? 0) && negb (shift =? 0) then (EVARINT_REPRESENT, write)
      else
        let write := Z.lor write (u64 (Z.shiftl (Z.land byte 0x7f) shift)) in
        if Z.land byte 0x80 =? 0 then (read, write)
        else read_varint_loop first read (shift + 7) write
  end.
Definition read_varint (first : list Z) : Z * Z := read_varint_loop first 0 0 0.

(** ** The bytes *)

Lemma varint_byte i : 0 <= i ->
  Z.lor (Z.land (u8 i) 0x7f) 0x80 = i mod 128 + 128 /\
  Z.land (i mod 128 + 128) 0x7f = i mod 128 /\ Z.land (i mod 128 + 128) 0x80 = 128.
Proof.
  intros Hi. pose proof (Z.mod_pos_bound i 128). change 0x7f with (Z.ones 7). rewrite !Z.land_ones by lia.
  assert (E : u8 i mod 2 ^ 7 = i mod 128).
  { unfold u8. change (2 ^ 8) with (2 ^ 7 * 2). rewrite Z.rem_mul_r, (Z.mul_comm (2 ^ 7)), Z_mod_plus_full by lia.
    apply Z.mod_mod. lia. }
  assert (L : forall a, 0 <= a < 128 -> Z.lor a 0x80 = a + 128).
  { intros a Ha. pose proof (lor_shiftl_add a 1 7 ltac:(lia) ltac:(lia)) as H1. change (Z.shiftl 1 7) with 0x80 in H1. lia. }
  rewrite E, L by lia. split; [reflexivity|]. change (2 ^ 7) with 128. rewrite <- (Z.mul_1_l 128) at 2.
  rewrite Z.mod_add, Z.mod_mod by lia. split; [reflexivity|].
  rewrite <- L by lia. rewrite Z.land_lor_distr_l. change (Z.land 128 128) with 128.
  replace (Z.land (i mod 128) 128) with 0; [reflexivity|].
  symmetry. apply Z.bits_inj'. intros n Hn. rewrite Z.land_spec, Z.bits_0.
  change 128 with (2 ^ 7) at 2. rewrite Z.pow2_bits_eqb by lia. destruct (Z.eqb_spec 7 n) as [<-|]; [|apply andb_false_r].
  change 128 with (2 ^ 7). rewrite Z.mod_pow2_bits_high by lia. reflexivity.
Qed.

Lemma varint_last i : 0 <= i < 128 -> u8 i = i /\ Z.land i 0x7f = i /\ Z.land i 0x80 = 0.
Proof.
  intros Hi. rewrite u8_id by lia. split; [done|]. change 0x7f with (Z.ones 7). rewrite Z.land_ones by lia.
  split; [apply Z.mod_small; lia|]. apply Z.bits_inj'. intros n Hn. rewrite Z.land_spec, Z.bits_0.
  change 0x80 with (2 ^ 7). rewrite Z.pow2_bits_eqb by lia. destruct (Z.eqb_spec 7 n) as [<-|]; [|apply andb_false_r].
  rewrite (bits_above i 7) by (assumption || lia). reflexivity.
Qed.

Lemma shiftr_7 i : 0 <= i -> Z.shiftr i 7 = i / 128 /\ i = i / 128 * 128 + i mod 128.
Proof.
  intros Hi. rewrite Z.shiftr_div_pow2 by lia. split; [done|]. pose proof (Z.div_mod i 128). lia.
Qed.

(** At most one byte for seven bits. *)
Lemma write_varint_loop_total fuel : forall i, 0 <= i < 2 ^ (7 * Z.of_nat fuel) -> (0 < fuel)%nat ->
  exists l, write_varint_loop fuel i = Some l /\ (1 <= length l <= fuel)%nat /\ byte_ok l.
Proof.
  induction fuel as [|fuel IH]; intros i Hi Hf; [lia|]. cbn [write_varint_loop].
  destruct (Z.leb_spec 0x80 i) as [L|L].
  - destruct (shiftr_7 i) as [E Ei]; [lia|]. pose proof (Z.mod_pos_bound i 128).
    assert (Hp : 2 ^ (7 * Z.of_nat (S fuel)) = 128 * 2 ^ (7 * Z.of_nat fuel)).
    { rewrite Nat2Z.inj_succ, Z.mul_succ_r, Z.pow_add_r by lia. change (2 ^ 7) with 128. ring. }
    destruct fuel as [|fuel]; [change (2 ^ (7 * Z.of_nat 1)) with 128 in Hi; lia|].
    destruct (IH (Z.shiftr i 7)) as (l & El & Ll & Bl).
    + rewrite E. split; [apply Z.div_pos; lia|]. apply Z.div_lt_upper_bound; lia.
    + lia.
    + rewrite El. cbn [mbind option_bind]. eexists. split; [reflexivity|]. cbn [length]. split; [lia|].
      constructor; [|exact Bl]. destruct (varint_byte i) as [-> _]; lia.
  - exists [u8 i]. split; [reflexivity|]. cbn [length]. split; [lia|]. constructor; [apply u8_range | constructor].
Qed.

Lemma write_varint_total i : 0 <= i < 2 ^ 64 ->
  exists l, write_varint i = Some l /\ (1 <= length l <= 10)%nat /\ byte_ok l.
Proof. intros H. apply write_varint_loop_total; [|lia]. change (2 ^ (7 * Z.of_nat 10)) with (2 ^ 70). lia. Qed.

(** ** Reading back *)

Lemma read_write_loop fuel : forall i l rest read s write,
  write_varint_loop fuel i = Some l -> 0 <= i -> 0 <= s -> 0 <= write < 2 ^ s -> s = 0 \/ 0 < i ->
  write + i * 2 ^ s < 2 ^ 64 ->
  read_varint_loop (l ++ rest) read s write = (read + Z.of_nat (length l), write + i * 2 ^ s).
Proof.
  induction fuel as [|fuel IH]; intros i l rest read s write E Hi Hs Hw Hz Hb; [discriminate|].
  assert (P0 : 0 < 2 ^ s) by (apply Z.pow_pos_nonneg; lia).
  assert (Put : forall a, 0 <= a -> write + a * 2 ^ s < 2 ^ 64 ->
    Z.lor write (u64 (Z.shiftl a s)) = write + a * 2 ^ s).
  { intros a Ha Hab. rewrite u64_id by (rewrite Z.shiftl_mul_pow2 by lia; nia). rewrite lor_shiftl_add by lia. ring. }
  cbn [write_varint_loop] in E. destruct (Z.leb_spec 0x80 i) as [L|L].
  - destruct (write_varint_loop fuel (Z.shiftr i 7)) as [l'|] eqn:E'; [|discriminate]. injection E as <-.
    destruct (varint_byte i Hi) as (-> & E1 & E2). destruct (shiftr_7 i Hi) as [ES Ei]. rewrite ES in E'.
    pose proof (Z.mod_pos_bound i 128). assert (Q : 1 <= i / 128) by (apply Z.div_le_lower_bound; lia).
    assert (Sb : s + 7 < 64).
    { assert (2 ^ (s + 7) < 2 ^ 64); [|by apply (Z.pow_lt_mono_r_iff 2); lia].
      rewrite Z.pow_add_r by lia. change (2 ^ 7) with 128. nia. }
    cbn [app read_varint_loop]. rewrite E1, E2.
    destruct (Z.leb_spec 64 (s + 7)); [lia|]. cbn [andb].
    destruct (Z.eqb_spec (i mod 128 + 128) 0); [lia|]. cbn [andb negb Z.eqb].
    rewrite Put by nia. rewrite (IH _ _ rest (read + 1) (s + 7) _ E'); [| lia | lia | | lia |].
    + cbn [length]. rewrite Z.pow_add_r by lia. change (2 ^ 7) with 128. apply f_equal2; [lia|].
      rewrite Ei at 3. ring.
    + rewrite Z.pow_add_r by lia. change (2 ^ 7) with 128. nia.
    + rewrite Z.pow_add_r by lia. change (2 ^ 7) with 128.
      replace (write + i mod 128 * 2 ^ s + i / 128 * (2 ^ s * 128)) with (write + (i / 128 * 128 + i mod 128) * 2 ^ s) by ring.
      rewrite <- Ei. lia.
  - injection E as <-. destruct (varint_last i) as (-> & E1 & E2); [lia|].
    cbn [app read_varint_loop length]. rewrite E1, E2, Put by lia. cbn [Z.eqb].
    assert (C : (64 <=? s + 7) && (Z.shiftl 1 (64 - s) <=? i) = false).
    { apply andb_false_iff. right. apply Z.leb_gt. destruct (Z.lt_ge_cases 64 s) as [Ls|Ls].
      - exfalso. assert (2 ^ 64 <= 2 ^ s) by (apply Z.pow_le_mono_r; lia). assert (0 < i) by lia. nia.
      - rewrite Z.shiftl_1_l. assert (Ep : 2 ^ 64 = 2 ^ (64 - s) * 2 ^ s) by (rewrite <- Z.pow_add_r by lia; f_equal; lia). nia. }
    rewrite C. assert (C' : (i =? 0) && negb (s =? 0) = false).
    { apply andb_false_iff. destruct Hz as [->|Hz]; [right; reflexivity | left; apply Z.eqb_neq; lia]. }
    rewrite C'. reflexivity.
Qed.

Lemma read_write_varint i l rest : 0 <= i < 2 ^ 64 -> write_varint i = Some l ->
  read_varint (l ++ rest) = (Z.of_nat (length l), i).
Proof.
  intros Hi E. unfold read_varint. rewrite (read_write_loop 10 i l rest 0 0 0 E); try lia.
  f_equal. lia.
Qed.

(** ** What is read is what is written *)

(** The result of a loop that ends at a byte below 128. *)
Definition varint_ended (l : list Z) : Prop := Exists (fun b => b < 128) l.

Lemma write_varint_step fuel low i : 0 <= low < 128 -> 0 < i ->
  write_varint_loop (S fuel) (low + 128 * i) =
  (rest ← write_varint_loop fuel i; Some (low + 128 :: rest)).
Proof.
  intros Hl Hi. cbn [write_varint_loop]. destruct (Z.leb_spec 0x80 (low + 128 * i)); [|lia].
  destruct (varint_byte (low + 128 * i)) as [-> _]; [lia|]. destruct (shiftr_7 (low + 128 * i)) as [-> _]; [lia|].
  replace ((low + 128 * i) / 128) with i by (rewrite (Z.mul_comm 128), Z.div_add, Z.div_small; lia).
  replace ((low + 128 * i) mod 128) with low by (rewrite (Z.mul_comm 128), Z.mod_add, Z.mod_small; lia). reflexivity.
Qed.

Lemma read_varint_loop_write : forall l k read write n v, byte_ok l -> varint_ended l -> (k < 10)%nat ->
  0 <= write < 2 ^ (7 * Z.of_nat k) -> 0 <= read ->
  read_varint_loop l read (7 * Z.of_nat k) write = (n, v) -> 0 <= n ->
  exists i, v = write + i * 2 ^ (7 * Z.of_nat k) /\ 0 <= i < 2 ^ (64 - 7 * Z.of_nat k) /\ (k = 0%nat \/ 0 < i) /\
    write_varint_loop (10 - k) i = Some (take (Z.to_nat (n - read)) l) /\ read < n.
Proof.
  induction l as [|b l IH]; intros k read write n v B T Hk Hw Hr E Hn; [inversion T|].
  apply Forall_cons_1 in B as [Hb B]. set (s := 7 * Z.of_nat k) in *.
  assert (Es : s = 7 * Z.of_nat k) by done. assert (P0 : 0 < 2 ^ s) by (apply Z.pow_pos_nonneg; lia).
  assert (Q0 : 0 < 2 ^ (64 - s)) by (apply Z.pow_pos_nonneg; lia).
  assert (EQ : 2 ^ 64 = 2 ^ (64 - s) * 2 ^ s) by (rewrite <- Z.pow_add_r by lia; f_equal; lia).
  cbn [read_varint_loop] in E. destruct ((64 <=? s + 7) && _) eqn:Ov; [injection E as <- _; unfold EVARINT_OVERFLOW, EVARINT_REPRESENT in Hn; lia|].
  destruct ((b =? 0) && _) eqn:Rp; [injection E as <- _; unfold EVARINT_OVERFLOW, EVARINT_REPRESENT in Hn; lia|].
  assert (Hz : k = 0%nat \/ 0 < b).
  { apply andb_false_iff in Rp as [Rp|Rp]; [apply Z.eqb_neq in Rp; lia|].
    apply negb_false_iff, Z.eqb_eq in Rp. lia. }
  assert (Put : forall a, 0 <= a < 2 ^ (64 - s) -> Z.lor write (u64 (Z.shiftl a s)) = write + a * 2 ^ s).
  { intros a Ha. rewrite u64_id by (rewrite Z.shiftl_mul_pow2 by lia; nia). rewrite lor_shiftl_add by lia. ring. }
  destruct (Z.lt_ge_cases b 128) as [Lb|Lb].
  - (* the last byte *)
    destruct (varint_last b) as (E0 & E1 & E2); [lia|]. rewrite E1, E2 in E.
    assert (Hb' : b < 2 ^ (64 - s)).
    { apply andb_false_iff in Ov as [Ov|Ov].
      - apply Z.leb_gt in Ov. assert (2 ^ 7 <= 2 ^ (64 - s)) by (apply Z.pow_le_mono_r; lia). lia.
      - apply Z.leb_gt in Ov. by rewrite Z.shiftl_1_l in Ov. }
    rewrite Put in E by lia. injection E as <- <-. exists b. split; [reflexivity|]. split; [lia|]. split; [exact Hz|].
    replace (read + 1 - read) with 1 by lia. split; [|lia].
    replace (10 - k)%nat with (S (9 - k)) by lia. cbn [write_varint_loop].
    destruct (Z.leb_spec 0x80 b); [lia|]. by rewrite E0.
  - (* a byte with the continuation bit *)
    assert (Hk' : (k < 9)%nat).
    { destruct (Nat.eq_dec k 9%nat) as [->|]; [|lia]. exfalso. apply andb_false_iff in Ov as [Ov|Ov]; apply Z.leb_gt in Ov;
        [subst s; lia | change (Z.shiftl 1 (64 - s)) with 2 in Ov; lia]. }
    assert (T' : varint_ended l) by (inversion T as [? ? H|? ? H]; subst; [lia | exact H]).
    destruct (varint_byte (b - 128)) as (_ & E1 & E2); [lia|]. rewrite (Z.mod_small (b - 128)), Z.sub_add in E1, E2 by lia.
    rewrite E1, E2 in E. cbn [Z.eqb] in E.
    assert (P7 : 2 ^ 7 <= 2 ^ (64 - s)) by (apply Z.pow_le_mono_r; lia). change (2 ^ 7) with 128 in P7.
    rewrite Put in E by lia. replace (s + 7) with (7 * Z.of_nat (S k)) in E by lia.
    assert (ES : 2 ^ (7 * Z.of_nat (S k)) = 2 ^ s * 128)
      by (replace (7 * Z.of_nat (S k)) with (s + 7) by lia; rewrite Z.pow_add_r by lia; reflexivity).
    change (2 ^ 8) with 256 in Hb.
    destruct (IH (S k) (read + 1) (write + (b - 128) * 2 ^ s) n v B T' ltac:(lia) ltac:(rewrite ES; nia) ltac:(lia) E Hn) as (i & -> & Hi & Hi0 & Ew & Hn').
    assert (EQ' : 2 ^ (64 - s) = 2 ^ (64 - 7 * Z.of_nat (S k)) * 128).
    { replace (64 - s) with ((64 - 7 * Z.of_nat (S k)) + 7) by lia. rewrite Z.pow_add_r by lia. reflexivity. }
    exists (b - 128 + 128 * i). split; [rewrite ES; ring|]. split; [nia|]. split; [lia|]. split; [|lia].
    replace (10 - k)%nat with (S (10 - S k)) by lia. rewrite write_varint_step, Ew by lia.
    replace (Z.to_nat (n - read)) with (S (Z.to_nat (n - (read + 1)))) by lia.
    cbn [mbind option_bind take]. do 2 f_equal. lia.
Qed.

(** The only bytes [read_varint] reads a number from are those [write_varint] writes. *)
Lemma read_varint_write l n v : byte_ok l -> varint_ended l -> read_varint l = (n, v) -> 0 <= n ->
  0 <= v < 2 ^ 64 /\ write_varint v = Some (take (Z.to_nat n) l).
Proof.
  intros B T E Hn. destruct (read_varint_loop_write l 0 0 0 n v B T) as (i & -> & Hi & _ & Ew & _); try lia; [exact E|].
  change (7 * Z.of_nat 0) with 0 in *. rewrite Z.sub_0_r in *. change (2 ^ 0) with 1. rewrite Z.mul_1_r, Z.add_0_l.
  split; [lia | exact Ew].
Qed.

(** Without a last byte below 128, ten bytes or more are an error; fewer are read to
    their end, as if the number were complete. *)
Lemma read_varint_loop_open : forall l k read write, byte_ok l -> ~ varint_ended l -> (k < 10)%nat ->
  fst (read_varint_loop l read (7 * Z.of_nat k) write) =
  if (length l <? 10 - k)%nat then read + Z.of_nat (length l) else EVARINT_OVERFLOW.
Proof.
  induction l as [|b l IH]; intros k read write B T Hk.
  - cbn [length]. destruct (Nat.ltb_spec 0 (10 - k)); [|lia]. cbn. lia.
  - apply Forall_cons_1 in B as [Hb B]. assert (Lb : 128 <= b).
    { destruct (Z.lt_ge_cases b 128); [|done]. destruct T. by left. }
    assert (T' : ~ varint_ended l) by (intros H; apply T; by right). cbn [read_varint_loop length].
    destruct (Nat.eq_dec k 9%nat) as [->|N].
    + change ((64 <=? 7 * Z.of_nat 9%nat + 7)) with true. change (Z.shiftl 1 (64 - 7 * Z.of_nat 9%nat)) with 2.
      destruct (Z.leb_spec 2 b); [|lia]. reflexivity.
    + destruct (Z.leb_spec 64 (7 * Z.of_nat k + 7)); [lia|]. cbn [andb].
      destruct (Z.eqb_spec b 0); [lia|]. cbn [andb].
      destruct (varint_byte (b - 128)) as (_ & E1 & E2); [lia|]. rewrite (Z.mod_small (b - 128)), Z.sub_add in E1, E2 by lia.
      rewrite E1, E2. cbn [Z.eqb]. replace (7 * Z.of_nat k + 7) with (7 * Z.of_nat (S k)) by lia. rewrite IH by (done || lia).
      destruct (Nat.ltb_spec (length l) (10 - S k)), (Nat.ltb_spec (S (length l)) (10 - k)); lia.
Qed.

(** ** The properties *)


