(* ===== verification/CurveOrder.v ===== *)
(** * The number of points of the curve

    The group of the curve is finite, its number of points is a multiple of the
    order [l] of the base point and of 8, and it is at most [2 p < 16 l]: so it is
    [8 l], and [8 l] times any point is the neutral element. What [ge_mul8] makes
    of any point has an order that divides [l]. *)

From Stdlib Require Import ZArith Lia List Permutation Znumtheory Finite.
From stdpp Require Import base tactics list.
From S2P Require Import Prelude Radix Fe FeBytes FePow Pocklington Ge Curve GeBytes Group CurveAssoc Points Tables Sc TableProofs.
Open Scope Z_scope.

(** ** The order of an element divides the number of elements *)

Section Finite.
Context {G : Type} {geq : relation G} {op : G -> G -> G} {e : G} {opp : G -> G}.
Context `{HG : !AbGroup G geq op e opp}.
Local Infix "==" := geq (at level 70).
Local Infix "⊕" := op (at level 50, left associativity).
Local Abbreviation gmul := (gmul (op := op) (e := e) (opp := opp)).

(** A code that tells elements apart, and a list with each element once. *)
Context {C : Type} (code : G -> C).
Context (Hcode : forall x y, x == y <-> code x = code y).

Definition gsum (l : list G) : G := fold_right op e l.

Lemma gsum_middle l1 x l2 : gsum (l1 ++ x :: l2) == x ⊕ gsum (l1 ++ l2).
Proof using HG.
  induction l1 as [|y l1 IH]; cbn [gsum fold_right app]; [reflexivity|]. fold (gsum (l1 ++ x :: l2)) (gsum (l1 ++ l2)).
  rewrite IH, <- !(grp_assoc (AbGroup := HG)). apply grp_op; [apply grp_comm | reflexivity].
Qed.

Lemma gsum_perm l1 : forall l2, Permutation (map code l1) (map code l2) -> gsum l1 == gsum l2.
Proof using All.
  induction l1 as [|x l1 IH]; intros l2 P.
  - apply Permutation_nil, map_eq_nil in P. subst l2. reflexivity.
  - assert (Hx : In (code x) (map code l2)) by (apply (Permutation_in _ P); now left).
    apply in_map_iff in Hx as (y & Ey & Hy). apply in_split in Hy as (a & b & ->).
    rewrite gsum_middle. cbn [gsum fold_right]. fold (gsum l1). apply grp_op; [by apply Hcode|].
    apply IH. rewrite map_app in P |- *. cbn [map] in P. rewrite Ey in P.
    exact (Permutation_cons_app_inv _ _ P).
Qed.

Lemma gsum_shift x l : gsum (map (op x) l) == gmul (Z.of_nat (length l)) x ⊕ gsum l.
Proof using HG.
  induction l as [|y l IH].
  - cbn. symmetry. apply grp_e_l.
  - cbn [map length gsum fold_right]. fold (gsum (map (op x) l)) (gsum l). rewrite IH, Nat2Z.inj_succ, gmul_succ.
    rewrite !(grp_assoc (AbGroup := HG)). apply grp_op; [reflexivity|].
    rewrite <- !(grp_assoc (AbGroup := HG)). apply grp_op; [apply grp_comm | reflexivity].
Qed.

Context (els : list G) (Hnd : List.NoDup (map code els)) (Hall : forall x, In (code x) (map code els)).

Lemma gmul_card x : gmul (Z.of_nat (length els)) x == e.
Proof using All.
  assert (P : Permutation (map code (map (op x) els)) (map code els)).
  { apply NoDup_Permutation_bis; [| by rewrite !length_map |].
    - rewrite map_map. revert Hnd. clear - Hcode HG. induction els as [|y l IH]; intros H; [constructor|]. cbn [map] in H |- *.
      inversion_clear H as [|? ? Hy Hl]. constructor; [|by apply IH]. intros Hin. apply Hy.
      apply in_map_iff in Hin as (z & Ez & Hz). apply in_map_iff. exists z. split; [|exact Hz].
      apply Hcode in Ez. apply Hcode. exact (grp_cancel _ _ _ Ez).
    - intros c Hc. apply in_map_iff in Hc as (y & <- & _). apply Hall. }
  apply (grp_cancel (gsum els)). rewrite grp_e_r, grp_comm, <- gsum_shift. exact (gsum_perm _ _ P).
Qed.
End Finite.

(** [g * x] for the greatest common divisor of two exponents that give [e]. *)
Lemma pt_mul_gcd a b P : a ⊙ P ≡ₑ pt_zero -> b ⊙ P ≡ₑ pt_zero -> Z.gcd a b ⊙ P ≡ₑ pt_zero.
Proof.
  intros Ha Hb. destruct (Z.gcd_bezout a b (Z.gcd a b) eq_refl) as (u & v & E).
  rewrite <- E, pt_mul_add, !pt_mul_mul, Ha, Hb, !pt_mul_zero. apply pt_add_0_l.
Qed.

(** ** Pairs of residues *)

Section Pairs.
Context (q : nat) (C : Z -> Z -> Prop) `{HC : forall x y, Decision (C x y)}.
Context (neg : Z -> Z) (Hneg : forall x x' y, C x y -> C x' y -> x = x' \/ x = neg x').

Definition zrange : list Z := map Z.of_nat (seq 0 q).
Definition fiber (y : Z) : list (Z * Z) := map (fun x => (x, y)) (filter (fun x => C x y) zrange).
Definition pairs : list (Z * Z) := flat_map fiber zrange.

Lemma zrange_in x : In x zrange <-> 0 <= x < Z.of_nat q.
Proof using Type.
  unfold zrange. rewrite in_map_iff. split.
  - intros (i & <- & Hi%in_seq). lia.
  - intros H. exists (Z.to_nat x). rewrite in_seq. lia.
Qed.
Lemma zrange_nodup : List.NoDup zrange.
Proof using Type. apply Finite.Injective_map_NoDup; [intros i j; lia | apply seq_NoDup]. Qed.

Lemma pairs_in x y : In (x, y) pairs <-> 0 <= x < Z.of_nat q /\ 0 <= y < Z.of_nat q /\ C x y.
Proof using Type.
  unfold pairs, fiber. rewrite in_flat_map.
  assert (F : forall y' x', In x' (filter (fun x => C x y') zrange) <-> C x' y' /\ 0 <= x' < Z.of_nat q).
  { intros y' x'. by rewrite <- list_elem_of_In, list_elem_of_filter, list_elem_of_In, zrange_in. }
  split.
  - intros (y' & Hy & H). apply in_map_iff in H as (x' & [= <- <-] & [Hc Hx]%F). apply zrange_in in Hy. tauto.
  - intros (Hx & Hy & Hc). exists y. split; [by apply zrange_in|]. apply in_map_iff. exists x.
    split; [done | by apply F].
Qed.

Lemma fiber_nodup y : List.NoDup (fiber y).
Proof using Type.
  apply Finite.Injective_map_NoDup; [intros a b; congruence|].
  apply NoDup_ListNoDup, NoDup_filter, NoDup_ListNoDup, zrange_nodup.
Qed.

Lemma pairs_nodup : List.NoDup pairs.
Proof using Type.
  unfold pairs. pose proof zrange_nodup as N. induction zrange as [|y l IH]; cbn [flat_map]; [constructor|].
  inversion_clear N as [|? ? Hy Hl]. apply List.NoDup_app; [apply fiber_nodup | by apply IH |].
  intros [a b] Ha Hb. apply in_map_iff in Ha as (x & [= _ <-] & _).
  apply in_flat_map in Hb as (y' & Hy' & Hb). apply in_map_iff in Hb as (x' & [= _ ->] & _). done.
Qed.

Lemma length_fiber y : (length (fiber y) <= 2)%nat.
Proof using Hneg.
  destruct (fiber y) as [|[a b] l] eqn:E; [cbn; lia|]. rewrite <- E.
  assert (Hin : forall x y', In (x, y') (fiber y) -> y' = y /\ C x y).
  { intros x y' H. apply in_map_iff in H as (x' & [= <- <-] & H). split; [done|].
    apply list_elem_of_In, list_elem_of_filter in H. tauto. }
  destruct (Hin a b) as [-> Ca]; [rewrite E; now left|].
  change 2%nat with (length [(a, y); (neg a, y)]). apply NoDup_incl_length; [apply fiber_nodup|].
  intros [x y'] H. destruct (Hin _ _ H) as [-> Cx].
  destruct (Hneg x a y Cx Ca) as [-> | ->]; [now left | right; now left].
Qed.

Lemma pairs_bound : (length pairs <= 2 * q)%nat.
Proof using Hneg.
  assert (E : length zrange = q) by (unfold zrange; by rewrite length_map, length_seq).
  rewrite <- E. clear E.
  unfold pairs. generalize zrange as l. intros l. induction l as [|y l IH]; [cbn; lia|].
  cbn [flat_map length]. rewrite length_app. pose proof (length_fiber y). lia.
Qed.
End Pairs.

(** ** The points of the curve *)

(** Canonical coordinates tell points apart. *)
Definition coords (P : point) : Z * Z := (ed_px (pt P) mod fe_p, ed_py (pt P) mod fe_p).

Lemma coords_eq P Q : P ≡ₑ Q <-> coords P = coords Q.
Proof.
  unfold coords. split; [intros [Ex Ey]; unfold eqp in *; by rewrite Ex, Ey|].
  intros [= Ex Ey]. split; [exact Ex | exact Ey].
Qed.

#[export] Instance ed_curve_dec x y : Decision (ed_curve x y).
Proof. unfold ed_curve. apply _. Defined.

(** Pairs of coordinates on the curve below [p] are those of points. *)
Definition curve_pair (x y : Z) : Prop := ed_curve x y /\ 0 <= x < fe_p.
#[export] Instance curve_pair_dec x y : Decision (curve_pair x y).
Proof. unfold curve_pair. apply _. Defined.
Definition neg_mod (x : Z) : Z := (- x) mod fe_p.

Lemma curve_pair_neg x x' y : curve_pair x y -> curve_pair x' y -> x = x' \/ x = neg_mod x'.
Proof.
  intros [C Hx] [C' Hx']. destruct (ed_curve_same_y x x' y C C') as [E|E]; unfold eqp in E.
  - left. by rewrite !Z.mod_small in E.
  - right. unfold neg_mod. by rewrite <- E, Z.mod_small.
Qed.

(** [p] as a natural number, which is never to be computed. *)
Lemma field_size : { q : nat | Z.of_nat q = fe_p }.
Proof. exists (Z.to_nat fe_p). apply Z2Nat.id. discriminate. Qed.

Definition curve_pairs : list (Z * Z) := pairs (proj1_sig field_size) curve_pair.

Lemma curve_pairs_in x y : In (x, y) curve_pairs <-> ed_curve x y /\ 0 <= x < fe_p /\ 0 <= y < fe_p.
Proof.
  unfold curve_pairs. rewrite pairs_in, (proj2_sig field_size). unfold curve_pair. tauto.
Qed.

Lemma length_curve_pairs : Z.of_nat (length curve_pairs) <= 2 * fe_p.
Proof.
  pose proof (pairs_bound (proj1_sig field_size) curve_pair neg_mod curve_pair_neg) as L.
  apply Nat2Z.inj_le in L. rewrite Nat2Z.inj_mul, (proj2_sig field_size) in L. exact L.
Qed.

Lemma coords_in P : In (coords P) curve_pairs.
Proof.
  unfold coords. apply curve_pairs_in. split; [|split; apply Z.mod_pos_bound; done].
  assert (E : forall z, z mod fe_p ≡ₚ z) by (intros z; unfold eqp; by apply Z.mod_mod).
  rewrite !E. apply pt_curve.
Qed.

Lemma points_of_pairs l : (forall x y, In (x, y) l -> ed_curve x y /\ 0 <= x < fe_p /\ 0 <= y < fe_p) ->
  exists els : list point, map coords els = l.
Proof.
  induction l as [|[x y] l IH]; intros H; [by exists []|].
  destruct IH as [els E]; [intros; apply H; by right|]. destruct (H x y) as (C & Hx & Hy); [by left|].
  exists (Point (EdPoint x y) C :: els). cbn [map]. rewrite E. f_equal. unfold coords. cbn [pt ed_px ed_py].
  by rewrite !Z.mod_small.
Qed.

(** All points, each once. *)
Lemma all_points : exists els : list point, List.NoDup (map coords els) /\
  (forall P, In (coords P) (map coords els)) /\ Z.of_nat (length els) <= 2 * fe_p.
Proof.
  destruct (points_of_pairs curve_pairs) as [els E].
  - intros x y H. by apply curve_pairs_in.
  - exists els. rewrite E. split; [apply pairs_nodup|]. split; [exact coords_in|].
    rewrite <- (length_map coords), E. exact length_curve_pairs.
Qed.

(** ** A point of order 8 *)

Definition ed_T8 : Z * Z :=
  (14399317868200118260347934320527232580618823971194345261214217575416788799818,
   55188659117513257062467267217118295137698188065244968500265048394206261417927).
Lemma ed_T8_curve : on_curve (EdPoint (fst ed_T8) (snd ed_T8)).
Proof. vm_compute. reflexivity. Qed.
Definition pt_T8 : point := Point (EdPoint (fst ed_T8) (snd ed_T8)) ed_T8_curve.

Lemma ed_minus1_curve : on_curve (EdPoint 0 (fe_p - 1)).
Proof. vm_compute. reflexivity. Qed.

Lemma pt_T8_order : 8 ⊙ pt_T8 ≡ₑ pt_zero /\ ~ 4 ⊙ pt_T8 ≡ₑ pt_zero.
Proof.
  assert (A : aff_pt ed_T8 pt_T8) by (split; reflexivity).
  split.
  - assert (E : projb (pmul 8 ed_T8) (0, 1) = true) by (vm_compute; reflexivity).
    pose proof (projb_pt _ _ _ (pmul_pt 8 _ _ A) E) as H. eapply aff_pt_unique; [exact H | split; reflexivity].
  - assert (E : projb (pmul 4 ed_T8) (0, fe_p - 1) = true) by (vm_compute; reflexivity).
    pose proof (projb_pt _ _ _ (pmul_pt 4 _ _ A) E) as [_ Hy]. intros [_ Z0]. rewrite Z0 in Hy.
    revert Hy. vm_compute. discriminate.
Qed.

(** ** [l] is prime *)

Lemma prime_51b : Z.prime 1257559732178653.
Proof.
  apply (pocklington_check_prime _ 2 [1224481; 531581]); [vm_compute; reflexivity|].
  repeat constructor; apply small_prime_prime; vm_compute; reflexivity.
Qed.
Lemma prime_62 : Z.prime 4434155615661930479.
Proof.
  apply (pocklington_check_prime _ 2 [1257559732178653]); [vm_compute; reflexivity|].
  constructor; [apply prime_51b | constructor].
Qed.
Lemma prime_88 : Z.prime 172054593956031949258510691.
Proof.
  apply (pocklington_check_prime _ 2 [4434155615661930479]); [vm_compute; reflexivity|].
  constructor; [apply prime_62 | constructor].
Qed.
Lemma prime_134 : Z.prime 19757330305831588566944191468367130476339.
Proof.
  apply (pocklington_check_prime _ 2 [172054593956031949258510691]); [vm_compute; reflexivity|].
  constructor; [apply prime_88 | constructor].
Qed.
Lemma prime_138 : Z.prime 276602624281642239937218680557139826668747.
Proof.
  apply (pocklington_check_prime _ 2 [19757330305831588566944191468367130476339]); [vm_compute; reflexivity|].
  constructor; [apply prime_134 | constructor].
Qed.
Lemma sc_l_prime : Z.prime sc_l.
Proof.
  apply (pocklington_check_prime _ 2 [276602624281642239937218680557139826668747]); [vm_compute; reflexivity|].
  constructor; [apply prime_138 | constructor].
Qed.

(** ** The order of the group *)

Lemma ed_B_nonzero : ~ ed_B ≡ₑ pt_zero.
Proof. intros [E _]. revert E. vm_compute. discriminate. Qed.

(** A number that kills every point is a multiple of [8 l]. *)
Lemma exponent_multiple n : (forall P, n ⊙ P ≡ₑ pt_zero) -> (8 * sc_l | n).
Proof.
  intros H. assert (Dl : (sc_l | n)).
  { destruct (Z.eq_dec (Z.gcd n sc_l) 1) as [E|N].
    - exfalso. apply ed_B_nonzero. rewrite <- (pt_mul_1 ed_B), <- E. apply pt_mul_gcd; [apply H | exact ed_B_order].
    - pose proof (Z.gcd_divide_l n sc_l) as Dn.
      pose proof (Z.gcd_nonneg n sc_l) as G.
      assert (E : Z.gcd n sc_l = 1 \/ Z.gcd n sc_l = sc_l).
      { destruct (Z.divide_prime_r _ _ sc_l_prime (Z.gcd_divide_r n sc_l)) as [E|[E|[E|E]]]; auto; exfalso;
          rewrite E in G; revert G; [vm_compute; congruence | lia]. }
      destruct E as [E|E]; [contradiction|]. by rewrite E in Dn. }
  assert (D8 : (8 | n)).
  { pose proof (pt_mul_gcd n 8 pt_T8 (H pt_T8) (proj1 pt_T8_order)) as E.
    pose proof (Z.gcd_divide_r n 8) as D. pose proof (Z.gcd_divide_l n 8) as Dn. pose proof (Z.gcd_nonneg n 8) as G.
    assert (C : Z.gcd n 8 = 8 \/ (Z.gcd n 8 | 4)).
    { set (g := Z.gcd n 8) in *. assert (L : g <= 8) by (apply Z.divide_pos_le; [lia | exact D]).
      assert (I : g = 0 \/ g = 1 \/ g = 2 \/ g = 3 \/ g = 4 \/ g = 5 \/ g = 6 \/ g = 7 \/ g = 8) by lia.
      clearbody g. destruct D as [k Hk].
      destruct I as [->|[->|[->|[->|[->|[->|[->|[->| ->]]]]]]]]; try lia; right; [exists 4 | exists 2 | exists 1]; lia. }
    destruct C as [C|[k Hk]]; [by rewrite C in Dn|]. exfalso. apply (proj2 pt_T8_order).
    rewrite Hk, pt_mul_mul, E. apply pt_mul_zero. }
  destruct Dl as [a Ha]. assert (D : (8 | a)).
  { apply (Z.gauss 8 sc_l); [|reflexivity]. rewrite Z.mul_comm, <- Ha. exact D8. }
  destruct D as [b Hb]. exists b. rewrite Ha, Hb. ring.
Qed.

Lemma curve_card : exists els : list point, List.NoDup (map coords els) /\
  (forall P, In (coords P) (map coords els)) /\ Z.of_nat (length els) = 8 * sc_l.
Proof.
  destruct all_points as (els & N & A & L). exists els. split; [exact N|]. split; [exact A|].
  pose proof (gmul_card (HG := curve_group) coords coords_eq els N A) as H.
  destruct (exponent_multiple _ H) as [k Hk].
  assert (L0 : 0 < Z.of_nat (length els)).
  { destruct els as [|P els]; [destruct (A pt_zero) | cbn [length]; lia]. }
  assert (B : 2 * fe_p < 16 * sc_l) by (vm_compute; reflexivity).
  assert (P0 : 0 < sc_l) by (vm_compute; reflexivity).
  assert (k = 1) by nia. lia.
Qed.

(** The order of every point divides [8 l]. *)
Lemma curve_exponent P : (8 * sc_l) ⊙ P ≡ₑ pt_zero.
Proof.
  destruct curve_card as (els & N & A & L). rewrite <- L.
  exact (gmul_card (HG := curve_group) coords coords_eq els N A P).
Qed.

Lemma mul8_order P : sc_l ⊙ (8 ⊙ P) ≡ₑ pt_zero.
Proof. rewrite <- pt_mul_mul, Z.mul_comm. apply curve_exponent. Qed.

(** Multiples of a point whose order divides [l] depend on the scalar modulo [l]. *)
Lemma order_mod a P : sc_l ⊙ P ≡ₑ pt_zero -> (a mod sc_l) ⊙ P ≡ₑ a ⊙ P.
Proof.
  intros H. rewrite (Z.div_mod a sc_l) at 2 by done.
  rewrite (Z.mul_comm sc_l), pt_mul_add, pt_mul_mul, H, pt_mul_zero, pt_add_0_l. reflexivity.
Qed.
