(* ===== verification/Crypto.v ===== *)
(** * Keys and signatures of Cryptonote (src/Native/libcryptonote/crypto/crypto.cpp)

    The functions of [crypto_ops]: keys, key derivation, signatures, transaction
    proofs, key images and ring signatures. *)

From Stdlib Require Import ZArith Lia.
From stdpp Require Import base tactics list numbers option.
From S2P Require Import Prelude Radix Fe FeBytes FePow Ge GeBytes Slide Sc Tables ScalarMult FromFe Words Keccak TreeHash Random Varint.
Open Scope Z_scope.

(** ** Effects

    A function that draws random scalars passes the state of the generator; [None]
    is the end of the process, by an [assert], [local_abort] or an exception. *)
Definition rand_m (A : Type) : Type := random_state -> option (A * random_state).
#[export] Instance rand_ret : MRet rand_m := fun A a r => Some (a, r).
#[export] Instance rand_bind : MBind rand_m := fun A B f m r => '(a, r) ← m r; f a r.
Definition lift {A} (o : option A) : rand_m A := fun r => a ← o; Some (a, r).

Definition crypto_assert (b : bool) : option unit := if b then Some tt else None.

(** Comparison of two keys, of two images. *)
Definition bytes_eqb (a b : list Z) : bool := bool_decide (a = b).

(** [sc_reduce] writes the 32 bytes that [memcpy] copies. *)
Definition random_scalar_not_thread_safe : rand_m (list Z) := fun r =>
  '(tmp, r) ← generate_random_bytes_not_thread_safe 64 r;
  Some (sc_reduce tmp, r).
Definition random_scalar : rand_m (list Z) := random_scalar_not_thread_safe.

Definition hash_to_scalar (data : list Z) : option (list Z) :=
  res ← fast_hash data;
  Some (sc_reduce32 res).

(** ** Keys *)

(** [pub], [sec] and the result. *)
Definition generate_keys (recovery_key : list Z) (recover : bool) : rand_m (list Z * list Z * list Z) :=
  rng ← (if recover then mret recovery_key else random_scalar);
  let sec := sc_reduce32 rng in
  let point := ge_scalarmult_base sec in
  let pub := ge_p3_tobytes point in
  mret (pub, sec, rng).

Definition check_key (key : list Z) : bool :=
  match ge_frombytes_vartime key with Some _ => true | None => false end.

(** [None] for [return false]. *)
Definition secret_key_to_public_key (sec : list Z) : option (list Z) :=
  if negb (sc_check sec =? 0) then None
  else
    let point := ge_scalarmult_base sec in
    Some (ge_p3_tobytes point).

(** ** Derivation: inside of the failures, [None] is [return false] *)

Definition generate_key_derivation (key1 key2 : list Z) : option (option (list Z)) :=
  _ ← crypto_assert (sc_check key2 =? 0);
  match ge_frombytes_vartime key1 with
  | None => Some None
  | Some point =>
      let point2 := ge_scalarmult key2 point in
      let point3 := ge_mul8 point2 in
      let point2 := ge_p1p1_to_p2 point3 in
      Some (Some (ge_tobytes point2))
  end.

(** [buf] holds the derivation and at most ten bytes of the index. *)
Definition derivation_to_scalar (derivation : list Z) (output_index : Z) : option (list Z) :=
  index ← write_varint output_index;
  _ ← crypto_assert (length index <=? 10)%nat;
  hash_to_scalar (derivation ++ index).

Definition derive_public_key (derivation : list Z) (output_index : Z) (base : list Z) : option (option (list Z)) :=
  match ge_frombytes_vartime base with
  | None => Some None
  | Some point1 =>
      scalar ← derivation_to_scalar derivation output_index;
      let point2 := ge_scalarmult_base scalar in
      let point3 := ge_p3_to_cached point2 in
      let point4 := ge_add point1 point3 in
      let point5 := ge_p1p1_to_p2 point4 in
      Some (Some (ge_tobytes point5))
  end.

Definition derive_secret_key (derivation : list Z) (output_index : Z) (base : list Z) : option (list Z) :=
  _ ← crypto_assert (sc_check base =? 0);
  scalar ← derivation_to_scalar derivation output_index;
  Some (sc_add base scalar).

Definition derive_subaddress_public_key (out_key derivation : list Z) (output_index : Z) : option (option (list Z)) :=
  match ge_frombytes_vartime out_key with
  | None => Some None
  | Some point1 =>
      scalar ← derivation_to_scalar derivation output_index;
      let point2 := ge_scalarmult_base scalar in
      let point3 := ge_p3_to_cached point2 in
      let point4 := ge_sub point1 point3 in
      let point5 := ge_p1p1_to_p2 point4 in
      Some (Some (ge_tobytes point5))
  end.

(** ** Signatures *)

Record signature := Signature { sig_c : list Z; sig_r : list Z }.

(** [s_comm] is the hash, the key and the commitment, one after the other. *)
Definition generate_signature (prefix_hash pub sec : list Z) : rand_m signature :=
  _ ← lift (crypto_assert (sc_check sec =? 0));
  let t := ge_scalarmult_base sec in
  let t2 := ge_p3_tobytes t in
  _ ← lift (crypto_assert (bytes_eqb pub t2));
  k ← random_scalar;
  let tmp3 := ge_scalarmult_base k in
  let comm := ge_p3_tobytes tmp3 in
  c ← lift (hash_to_scalar (prefix_hash ++ pub ++ comm));
  mret (Signature c (sc_mulsub c sec k)).

Definition check_signature (prefix_hash pub : list Z) (sig : signature) : option bool :=
  _ ← crypto_assert (check_key pub);
  match ge_frombytes_vartime pub with
  | None => Some false
  | Some tmp3 =>
      if negb (sc_check (sig_c sig) =? 0) || negb (sc_check (sig_r sig) =? 0) then Some false
      else
        let tmp2 := ge_double_scalarmult_base_vartime (sig_c sig) tmp3 (sig_r sig) in
        let comm := ge_tobytes tmp2 in
        c ← hash_to_scalar (prefix_hash ++ pub ++ comm);
        let c := sc_sub c (sig_c sig) in
        Some (sc_isnonzero c =? 0)
  end.

(** ** Transaction proofs *)

(** The base of a proof: the optional key [B], decoded, or the base point. *)
Definition decode_opt (B : option (list Z)) : option (option ge_p3) :=
  match B with
  | None => Some None
  | Some B => B_p3 ← ge_frombytes_vartime B; Some (Some B_p3)
  end.

(** The bytes of [n * B], or of [n * G]. *)
Definition mult_bytes (n : list Z) (B_p3 : option ge_p3) : list Z :=
  match B_p3 with
  | Some B_p3 => ge_tobytes (ge_scalarmult n B_p3)
  | None => ge_p3_tobytes (ge_scalarmult_base n)
  end.

(** The exceptions for keys that do not decode end the call like the assertions;
    [s_comm_2] is the message, [D], [X] and [Y]. *)
Definition generate_tx_proof (prefix_hash R A : list Z) (B : option (list Z)) (D r : list Z) : rand_m signature :=
  _ ← lift (ge_frombytes_vartime R);
  A_p3 ← lift (ge_frombytes_vartime A);
  B_p3 ← lift (decode_opt B);
  _ ← lift (ge_frombytes_vartime D);
  _ ← lift (crypto_assert (sc_check r =? 0));
  let dbg_R := mult_bytes r B_p3 in
  _ ← lift (crypto_assert (bytes_eqb R dbg_R));
  let dbg_D := ge_tobytes (ge_scalarmult r A_p3) in
  _ ← lift (crypto_assert (bytes_eqb D dbg_D));
  k ← random_scalar;
  let X := mult_bytes k B_p3 in
  let Y := ge_tobytes (ge_scalarmult k A_p3) in
  c ← lift (hash_to_scalar (prefix_hash ++ D ++ X ++ Y));
  mret (Signature c (sc_mulsub c r k)).

(** The sum of a point and [n * B], or [n * G], and its bytes; [None] when the bytes of
    [n * B] do not decode. *)
Definition add_mult (cR_p3 : ge_p3) (n : list Z) (B_p3 : option ge_p3) : option ge_p1p1 :=
  match B_p3 with
  | Some B_p3 =>
      let rB := ge_tobytes (ge_scalarmult n B_p3) in
      rB_p3 ← ge_frombytes_vartime rB;
      Some (ge_add cR_p3 (ge_p3_to_cached rB_p3))
  | None =>
      let rG_p3 := ge_scalarmult_base n in
      Some (ge_add cR_p3 (ge_p3_to_cached rG_p3))
  end.

(** The points [X = c R + r B] and [Y = c D + r A] of the check; [None] is
    [return false]. *)
Definition tx_proof_points (R A : list Z) (B : option (list Z)) (D : list Z) (sig : signature)
    : option (ge_p2 * ge_p2) :=
  R_p3 ← ge_frombytes_vartime R;
  A_p3 ← ge_frombytes_vartime A;
  B_p3 ← decode_opt B;
  D_p3 ← ge_frombytes_vartime D;
  if negb (sc_check (sig_c sig) =? 0) || negb (sc_check (sig_r sig) =? 0) then None
  else
    let cR := ge_tobytes (ge_scalarmult (sig_c sig) R_p3) in
    cR_p3 ← ge_frombytes_vartime cR;
    X_p1p1 ← add_mult cR_p3 (sig_r sig) B_p3;
    let X_p2 := ge_p1p1_to_p2 X_p1p1 in
    let cD_p2 := ge_scalarmult (sig_c sig) D_p3 in
    let rA_p2 := ge_scalarmult (sig_r sig) A_p3 in
    let cD := ge_tobytes cD_p2 in
    let rA := ge_tobytes rA_p2 in
    cD_p3 ← ge_frombytes_vartime cD;
    rA_p3 ← ge_frombytes_vartime rA;
    let rA_cached := ge_p3_to_cached rA_p3 in
    let Y_p1p1 := ge_add cD_p3 rA_cached in
    let Y_p2 := ge_p1p1_to_p2 Y_p1p1 in
    Some (X_p2, Y_p2).

Definition check_tx_proof (prefix_hash R A : list Z) (B : option (list Z)) (D : list Z) (sig : signature)
    : option bool :=
  match tx_proof_points R A B D sig with
  | None => Some false
  | Some (X_p2, Y_p2) =>
      c2 ← hash_to_scalar (prefix_hash ++ D ++ ge_tobytes X_p2 ++ ge_tobytes Y_p2);
      let c2 := sc_sub c2 (sig_c sig) in
      Some (sc_isnonzero c2 =? 0)
  end.

(** ** Key images *)

Definition hash_to_ec (key : list Z) : option ge_p3 :=
  h ← fast_hash key;
  point ← ge_fromfe_frombytes_vartime h;
  let point2 := ge_mul8 point in
  Some (ge_p1p1_to_p3 point2).

Definition generate_key_image (pub sec : list Z) : option (list Z) :=
  _ ← crypto_assert (sc_check sec =? 0);
  point ← hash_to_ec pub;
  let point2 := ge_scalarmult sec point in
  Some (ge_tobytes point2).

(** ** Ring signatures *)

(** What the loop of the signer has: the sum of the challenges, the scalar [k] of
    the signer (not set before its iteration), the pairs written to [buf] and
    the array [sig]. *)
Record ring_state := RingState { ring_sum : list Z; ring_k : list Z; ring_ab : list Z; ring_sig : list signature }.

(** One iteration, for the key [pub] at the index [i]. *)
Definition ring_sign_step (image_pre : list ge_cached) (sec_index i : nat) (pub : list Z) (st : ring_state)
    : rand_m ring_state :=
  if (i =? sec_index)%nat then
    k ← random_scalar;
    let tmp3 := ge_scalarmult_base k in
    let a := ge_p3_tobytes tmp3 in
    tmp3 ← lift (hash_to_ec pub);
    let tmp2 := ge_scalarmult k tmp3 in
    let b := ge_tobytes tmp2 in
    mret (RingState (ring_sum st) k (ring_ab st ++ a ++ b) (ring_sig st))
  else
    c ← random_scalar;
    r ← random_scalar;
    tmp3 ← lift (ge_frombytes_vartime pub);
    let tmp2 := ge_double_scalarmult_base_vartime c tmp3 r in
    let a := ge_tobytes tmp2 in
    tmp3 ← lift (hash_to_ec pub);
    let tmp2 := ge_double_scalarmult_precomp_vartime r tmp3 c image_pre in
    let b := ge_tobytes tmp2 in
    mret (RingState (sc_add (ring_sum st) c) (ring_k st) (ring_ab st ++ a ++ b)
            (<[i := Signature c r]> (ring_sig st))).

(** [for (i = 0; i < pubs_count; i++)], from [i] on. *)
Fixpoint ring_sign_loop (image_pre : list ge_cached) (sec_index i : nat) (pubs : list (list Z)) (st : ring_state)
    : rand_m ring_state :=
  match pubs with
  | [] => mret st
  | pub :: pubs => st ← ring_sign_step image_pre sec_index i pub st; ring_sign_loop image_pre sec_index (S i) pubs st
  end.

(** [sig] comes in as the array of the caller; [k0] is the scalar before it is set,
    and [malloc_ok] says whether [buf] was allocated. *)
Definition generate_ring_signature (malloc_ok : bool) (k0 prefix_hash image : list Z) (pubs : list (list Z))
    (sec : list Z) (sec_index : nat) (sig : list signature) : rand_m (list signature) :=
  _ ← lift (crypto_assert malloc_ok);
  _ ← lift (crypto_assert (sec_index <? length pubs)%nat);
  _ ← lift (crypto_assert (sc_check sec =? 0));
  let t := ge_scalarmult_base sec in
  let t2 := ge_p3_tobytes t in
  _ ← lift (crypto_assert (bytes_eqb (pubs !!! sec_index) t2));
  t3 ← lift (generate_key_image (pubs !!! sec_index) sec);
  _ ← lift (crypto_assert (bytes_eqb image t3));
  _ ← lift (crypto_assert (forallb check_key pubs));
  image_unp ← lift (ge_frombytes_vartime image);
  let image_pre := ge_dsm_precomp image_unp in
  st ← ring_sign_loop image_pre sec_index 0 pubs (RingState sc_0 k0 [] sig);
  h ← lift (hash_to_scalar (prefix_hash ++ ring_ab st));
  let c := sc_sub h (ring_sum st) in
  let r := sc_mulsub c sec (ring_k st) in
  mret (<[sec_index := Signature c r]> (ring_sig st)).

(** The loop of the check, with [sig] from the index of the key on: the sum and
    the pairs, or [None] inside for [return false]. *)
Fixpoint ring_check_loop (image_pre : list ge_cached) (pubs : list (list Z)) (sig : list signature)
    (sum ab : list Z) : option (option (list Z * list Z)) :=
  match pubs with
  | [] => Some (Some (sum, ab))
  | pub :: pubs =>
      let s := hd (Signature [] []) sig in
      if negb (sc_check (sig_c s) =? 0) || negb (sc_check (sig_r s) =? 0) then Some None
      else
        match ge_frombytes_vartime pub with
        | None => Some None
        | Some tmp3 =>
            let tmp2 := ge_double_scalarmult_base_vartime (sig_c s) tmp3 (sig_r s) in
            let a := ge_tobytes tmp2 in
            tmp3 ← hash_to_ec pub;
            let tmp2 := ge_double_scalarmult_precomp_vartime (sig_r s) tmp3 (sig_c s) image_pre in
            let b := ge_tobytes tmp2 in
            ring_check_loop image_pre pubs (tl sig) (sc_add sum (sig_c s)) (ab ++ a ++ b)
        end
  end.

Definition check_ring_signature (malloc_ok : bool) (prefix_hash image : list Z) (pubs : list (list Z))
    (sig : list signature) : option bool :=
  if negb malloc_ok then Some false
  else
    _ ← crypto_assert (forallb check_key pubs);
    match ge_frombytes_vartime image with
    | None => Some false
    | Some image_unp =>
        let image_pre := ge_dsm_precomp image_unp in
        res ← ring_check_loop image_pre pubs sig sc_0 [];
        match res with
        | None => Some false
        | Some (sum, ab) =>
            h ← hash_to_scalar (prefix_hash ++ ab);
            let h := sc_sub h sum in
            Some (sc_isnonzero h =? 0)
        end
    end.
