(* ===== verification/CryptoProofs.v ===== *)
(** * Keys and signatures: the functions in terms of points and scalars

    Canonical scalars, the bytes of points, and what the hash, the random scalars
    and the key derivations give. *)

From Stdlib Require Import ZArith Lia.
From stdpp Require Import base tactics list numbers option.
From S2P Require Import Prelude Radix Fe FeBytes FePow Pocklington Ge Curve GeBytes Group CurveAssoc Points Slide Tables Sc ScBounds ScProofs TableProofs ScalarMult ScalarMultProofs FromFe GeCorrect ScalarMultCorrect Words Keccak KeccakSpec KeccakSponge TreeHash TreeProofs Random RandomProofs Varint CurveOrder Crypto.
Open Scope Z_scope.

#[local] Opaque keccakf.

(** One step of a computation that may fail; rewriting in place would compare the
    computations themselves. *)
Lemma bind_eq {A B} (o : option A) x (f : A -> option B) r : o = Some x -> f x = r -> (o ≫= f) = r.
Proof. intros -> <-. reflexivity. Qed.

(** ** Bytes *)

Lemma state_bytes_ok st : byte_ok (state_bytes st).
Proof.
  unfold state_bytes. induction st as [|x st IH]; [constructor|]. cbn [map concat].
  apply Forall_app. split; [apply le_bytes_ok | exact IH].
Qed.

Lemma hash_permutation_ok st : byte_ok (hash_permutation st).
Proof. unfold hash_permutation. apply state_bytes_ok. Qed.
#[local] Opaque hash_permutation.

Lemma keccak_bytes_ok inp mdlen md : keccak inp mdlen = Some (Digest md) -> byte_ok md.
Proof.
  unfold keccak. rewrite keccak_fuel_eq. destruct (keccak_guard mdlen); [discriminate|].
  destruct (keccak_absorb _ _ _ _) as [[rest st]|]; [|discriminate].
  destruct (keccak_bad _ _); [discriminate|]. intros E. injection E as <-. apply Forall_take, state_bytes_ok.
Qed.

Lemma digest_ok data : byte_ok (digest data) /\ length (digest data) = 32%nat /\ fast_hash data = Some (digest data).
Proof.
  destruct (fast_hash_digest data) as [E L]. split; [|split; [exact L | exact E]].
  revert E. unfold fast_hash, cn_fast_hash, hash_process, keccak1600.
  destruct (keccak data 200) as [[md|]|] eqn:K; try discriminate. intros E. injection E as <-.
  apply Forall_take. exact (keccak_bytes_ok _ _ _ K).
Qed.

(** ** Canonical scalars *)

Definition canonical (s : list Z) : Prop := byte_ok s /\ length s = 32%nat /\ le_val s < sc_l.
Definition sc_bytes (n : Z) : list Z := le_bytes 32 (n mod sc_l).

Lemma sc_bytes_val n : le_val (sc_bytes n) = n mod sc_l.
Proof.
  unfold sc_bytes. rewrite le_val_le_bytes. apply Z.mod_small. pose proof (sc_mod_range n). lia.
Qed.
Lemma sc_bytes_canonical n : canonical (sc_bytes n).
Proof.
  split; [apply le_bytes_ok|]. split; [apply length_le_bytes|]. rewrite sc_bytes_val.
  apply Z.mod_pos_bound. reflexivity.
Qed.
Lemma canonical_ok s : canonical s -> scalar_ok s.
Proof. intros (B & L & V). split; [exact B|]. split; [exact L|]. unfold sc_l in V. lia. Qed.
Lemma canonical_mod s : canonical s -> le_val s mod sc_l = le_val s.
Proof. intros (B & _ & V). apply Z.mod_small. pose proof (le_val_range s B). lia. Qed.
Lemma canonical_bytes s : canonical s -> sc_bytes (le_val s) = s.
Proof.
  intros H. unfold sc_bytes. rewrite (canonical_mod s H). destruct H as (B & L & _). rewrite <- L. by apply le_bytes_le_val.
Qed.
Lemma canonical_inj s s' : canonical s -> canonical s' -> le_val s = le_val s' -> s = s'.
Proof. intros H H' E. by rewrite <- (canonical_bytes s H), <- (canonical_bytes s' H'), E. Qed.
Create HintDb crypto.
#[export] Hint Resolve sc_bytes_canonical canonical_ok : crypto.

Lemma sc_check_canonical s : byte_ok s -> length s = 32%nat -> (sc_check s =? 0) = true <-> canonical s.
Proof.
  intros B L. rewrite sc_check_spec by done. unfold canonical.
  destruct (Z.ltb_spec (le_val s) sc_l); [done|]. split; [discriminate | lia].
Qed.
Lemma sc_check_true s : canonical s -> (sc_check s =? 0) = true.
Proof. intros H. by apply sc_check_canonical; [apply H..|]. Qed.

(** The operations on 32-byte scalars. *)
Lemma sc_reduce32_bytes s : byte_ok s -> length s = 32%nat -> sc_reduce32 s = sc_bytes (le_val s).
Proof. apply sc_reduce32_spec. Qed.
Lemma sc_add_bytes a b : canonical a -> canonical b -> sc_add a b = sc_bytes (le_val a + le_val b).
Proof. intros (?&?&_) (?&?&_). by apply sc_add_spec. Qed.
Lemma sc_sub_bytes a b : canonical a -> canonical b -> sc_sub a b = sc_bytes (le_val a - le_val b).
Proof. intros (?&?&_) (?&?&_). by apply sc_sub_spec. Qed.
Lemma sc_mulsub_bytes a b c : canonical a -> canonical b -> canonical c ->
  sc_mulsub a b c = sc_bytes (le_val c - le_val a * le_val b).
Proof. intros (?&?&_) (?&?&_) (?&?&_). by apply sc_mulsub_spec. Qed.
Lemma sc_0_canonical : canonical sc_0 /\ le_val sc_0 = 0.
Proof. destruct sc_0_spec as (B & L & V). split; [|exact V]. split; [exact B|]. split; [exact L|]. rewrite V. reflexivity. Qed.

Lemma mod_eq_0_sub a b : (a - b) mod sc_l = 0 -> a mod sc_l = b mod sc_l.
Proof.
  intros E. apply Z.mod_divide in E as [k E]; [|discriminate]. replace a with (b + k * sc_l) by lia. apply Z_mod_plus_full.
Qed.

(** The final test of the verifiers: the difference of two scalars is 0. *)
Lemma sc_sub_zero a b : canonical a -> canonical b -> (sc_isnonzero (sc_sub a b) =? 0) = bool_decide (a = b).
Proof.
  intros Ha Hb. rewrite sc_sub_bytes by done. destruct (sc_bytes_canonical (le_val a - le_val b)) as (B & L & _).
  rewrite sc_isnonzero_spec, sc_bytes_val by done.
  assert (E : (le_val a - le_val b) mod sc_l = 0 <-> a = b).
  { split; [|intros ->; by rewrite Z.sub_diag]. intros E. apply canonical_inj; [done..|].
    pose proof (mod_eq_0_sub _ _ E) as E'. by rewrite !canonical_mod in E' by done. }
  case_bool_decide as H; destruct (Z.eqb_spec ((le_val a - le_val b) mod sc_l) 0); tauto.
Qed.

(** ** Hashes and random scalars *)

Definition scalar_hash (data : list Z) : list Z := sc_bytes (le_val (digest data)).

Lemma hash_to_scalar_eq data : hash_to_scalar data = Some (scalar_hash data).
Proof.
  destruct (digest_ok data) as (B & L & E). apply (bind_eq _ _ _ _ E).
  apply (f_equal Some). by apply sc_reduce32_bytes.
Qed.

(** The scalar a call draws from the state [st] of the generator. *)
Definition scalar_drawn (st : list Z) : list Z := sc_reduce (random_out 64 st).

Lemma random_out_ok n st : (n <= 136)%nat -> byte_ok (random_out n st).
Proof.
  intros H. destruct (Nat.eq_dec n 0%nat) as [->|N]; [constructor|].
  destruct (stream_out_one hash_permutation n st ltac:(lia)) as [-> _]. apply Forall_take, hash_permutation_ok.
Qed.

Lemma scalar_drawn_canonical st : canonical (scalar_drawn st).
Proof.
  unfold scalar_drawn. rewrite sc_reduce_spec; [apply sc_bytes_canonical | apply random_out_ok; lia |].
  apply length_random_out.
Qed.
#[export] Hint Resolve scalar_drawn_canonical : crypto.

Lemma random_scalar_eq st :
  random_scalar (RandomState st 1) = Some (scalar_drawn st, RandomState (random_next 64 st) 1).
Proof. unfold random_scalar, random_scalar_not_thread_safe. rewrite generate_spec. exact eq_refl. Qed.

(** ** Keys as points *)

(** The 32 bytes of a point. *)
Definition encode (P : point) : list Z := ed_encode (ed_px (pt P)) (ed_py (pt P)).

#[export] Instance encode_proper : Proper (pt_eq ==> eq) encode.
Proof. intros P Q E. by apply ed_encode_proper. Qed.

Lemma encode_inj P Q : encode P = encode Q -> P ≡ₑ Q.
Proof. apply ed_encode_inj. Qed.
Lemma encode_ok P : byte_ok (encode P) /\ length (encode P) = 32%nat.
Proof. destruct (ed_encode_ok (ed_px (pt P)) (ed_py (pt P))) as (B & L & _). done. Qed.

Lemma encode_p3 h P : p3_pt h P -> ge_p3_tobytes h = encode P.
Proof. apply ge_p3_tobytes_pt. Qed.
Lemma encode_p2 h P : p2_pt h P -> ge_tobytes h = encode P.
Proof. apply ge_tobytes_pt. Qed.

Lemma decode_encode P : exists h, ge_frombytes_vartime (encode P) = Some h /\ p3_pt h P.
Proof. apply ge_frombytes_complete, pt_curve. Qed.

(** A key that decodes is the encoding of a point. *)
Lemma decode_point key h : byte_ok key -> length key = 32%nat -> ge_frombytes_vartime key = Some h ->
  exists P, key = encode P /\ p3_pt h P.
Proof.
  intros B L E. destruct (ge_frombytes_sound key h B L E) as (x & y & C & R & ->).
  exists (Point (EdPoint x y) C). done.
Qed.

Lemma check_key_encode P : check_key (encode P) = true.
Proof. unfold check_key. destruct (decode_encode P) as (h & -> & _). reflexivity. Qed.

Lemma base_point s : canonical s -> p3_pt (ge_scalarmult_base s) (le_val s ⊙ ed_B).
Proof. intros H. destruct (canonical_ok s H) as (B & L & V). by apply ge_scalarmult_base_spec. Qed.
Lemma base_bytes s : canonical s -> ge_p3_tobytes (ge_scalarmult_base s) = encode (le_val s ⊙ ed_B).
Proof. intros H. by apply encode_p3, base_point. Qed.
Lemma mult_point s h P : canonical s -> p3_pt h P -> p2_pt (ge_scalarmult s h) (le_val s ⊙ P).
Proof. intros H Hh. destruct (canonical_ok s H) as (B & L & V). by apply ge_scalarmult_spec. Qed.
Lemma mult_bytes_eq s h P : canonical s -> p3_pt h P -> ge_tobytes (ge_scalarmult s h) = encode (le_val s ⊙ P).
Proof. intros H Hh. by apply encode_p2, mult_point. Qed.
Lemma dsm_bytes c h P r : canonical c -> canonical r -> p3_pt h P ->
  ge_tobytes (ge_double_scalarmult_base_vartime c h r) = encode (le_val c ⊙ P ⊕ le_val r ⊙ ed_B).
Proof.
  intros Hc Hr Hh. destruct (canonical_ok c Hc) as (Bc & _ & Vc), (canonical_ok r Hr) as (Br & _ & Vr).
  by apply encode_p2, dsm_base_vartime_spec.
Qed.
Lemma dsm_precomp_bytes r h P c h' Q : canonical c -> canonical r -> p3_pt h P -> p3_pt h' Q ->
  ge_tobytes (ge_double_scalarmult_precomp_vartime r h c (ge_dsm_precomp h')) = encode (le_val r ⊙ P ⊕ le_val c ⊙ Q).
Proof.
  intros Hc Hr Hh Hh'. destruct (canonical_ok c Hc) as (Bc & _ & Vc), (canonical_ok r Hr) as (Br & _ & Vr).
  apply encode_p2, dsm_precomp_vartime_spec; auto. by apply ge_dsm_precomp_pt.
Qed.

(** The point of a key image: it lies in the group of order [l]. *)
Lemma hash_to_ec_point key : exists h Q, hash_to_ec key = Some h /\ p3_pt h Q /\ sc_l ⊙ Q ≡ₑ pt_zero.
Proof.
  destruct (digest_ok key) as (B & L & E). destruct (ge_fromfe_spec _ B L) as (r & P & Er & Hr & _).
  exists (ge_p1p1_to_p3 (ge_mul8 r)), (8 ⊙ P). 
  split; [exact (bind_eq _ _ _ _ E (bind_eq _ _ _ _ Er eq_refl))|]. split; [|apply mul8_order].
  by apply ge_p1p1_to_p3_pt, ge_mul8_spec.
Qed.

(** [c X + r Y] for [r = k - c s] and [X = s Y], when the order of [Y] divides [l]. *)
Lemma response_point c s k X Y : sc_l ⊙ Y ≡ₑ pt_zero -> X ≡ₑ s ⊙ Y ->
  c ⊙ X ⊕ ((k - c * s) mod sc_l) ⊙ Y ≡ₑ k ⊙ Y.
Proof.
  intros O ->. rewrite order_mod by exact O. rewrite <- pt_mul_mul, <- pt_mul_add.
  replace (c * s + (k - c * s)) with k by lia. reflexivity.
Qed.

Lemma bytes_eqb_refl a : bytes_eqb a a = true.
Proof. by apply bool_decide_eq_true_2. Qed.
Lemma bytes_eqb_eq a b : bytes_eqb a b = true -> a = b.
Proof. apply bool_decide_eq_true_1. Qed.

(** * Signatures: generation and check

    What the signer computes and what the verifier accepts, and that the verifier
    accepts what the signer computes. *)

#[local] Opaque hash_permutation keccakf digest.

(** ** Steps of a computation with random scalars *)

Lemma rbind_eq {A B} (m : rand_m A) (f : A -> rand_m B) r a r' res :
  m r = Some (a, r') -> f a r' = res -> (m ≫= f) r = res.
Proof. intros E <-. unfold mbind, rand_bind. rewrite E. reflexivity. Qed.

Lemma lift_eq {A} (o : option A) a r : o = Some a -> lift o r = Some (a, r).
Proof. intros ->. reflexivity. Qed.

Lemma rlift_eq {A B} (o : option A) (f : A -> rand_m B) r a res :
  o = Some a -> f a r = res -> (lift o ≫= f) r = res.
Proof. intros E. apply rbind_eq. by apply lift_eq. Qed.

(** An assertion that holds. *)
Lemma rassert_eq {B} (b : bool) (f : unit -> rand_m B) r res :
  b = true -> f tt r = res -> (lift (crypto_assert b) ≫= f) r = res.
Proof. intros ->. by apply rlift_eq. Qed.
Lemma assert_eq {B} (b : bool) (f : unit -> option B) res :
  b = true -> f tt = res -> (crypto_assert b ≫= f) = res.
Proof. intros ->. by apply bind_eq. Qed.

Definition ready_state (st : list Z) : random_state := RandomState st 1.

Lemma rscalar_eq {B} (f : list Z -> rand_m B) st res :
  f (scalar_drawn st) (ready_state (random_next 64 st)) = res -> (random_scalar ≫= f) (ready_state st) = res.
Proof. apply rbind_eq, random_scalar_eq. Qed.

(** ** Signatures *)

(** The commitment [c P + r B] of a signature, and its challenge. *)
Definition sig_point (P : point) (sig : signature) : point :=
  le_val (sig_c sig) ⊙ P ⊕ le_val (sig_r sig) ⊙ ed_B.
Definition sig_challenge (prefix_hash pub comm : list Z) : list Z := scalar_hash (prefix_hash ++ pub ++ comm).
Definition sig_ok (sig : signature) : Prop := canonical (sig_c sig) /\ canonical (sig_r sig).
Definition sig_wf (sig : signature) : Prop :=
  byte_ok (sig_c sig) /\ length (sig_c sig) = 32%nat /\ byte_ok (sig_r sig) /\ length (sig_r sig) = 32%nat.

Lemma sig_ok_wf sig : sig_ok sig -> sig_wf sig.
Proof. intros [(?&?&_) (?&?&_)]. by split_and!. Qed.

Lemma sig_checks sig : sig_wf sig ->
  (negb (sc_check (sig_c sig) =? 0) || negb (sc_check (sig_r sig) =? 0) = false) <-> sig_ok sig.
Proof.
  intros (Bc & Lc & Br & Lr). rewrite orb_false_iff, !negb_false_iff, !sc_check_canonical by done. reflexivity.
Qed.
Lemma sig_checks_ok sig : sig_ok sig -> negb (sc_check (sig_c sig) =? 0) || negb (sc_check (sig_r sig) =? 0) = false.
Proof. intros [Hc Hr]. by rewrite !sc_check_true. Qed.

Definition signed (prefix_hash sec st : list Z) : signature :=
  let k := scalar_drawn st in
  let c := sig_challenge prefix_hash (encode (le_val sec ⊙ ed_B)) (encode (le_val k ⊙ ed_B)) in
  Signature c (sc_mulsub c sec k).

Lemma generate_signature_eq prefix_hash sec st : canonical sec ->
  generate_signature prefix_hash (encode (le_val sec ⊙ ed_B)) sec (ready_state st)
  = Some (signed prefix_hash sec st, ready_state (random_next 64 st)).
Proof.
  intros Hs. apply rassert_eq; [by apply sc_check_true|]. cbv zeta.
  rewrite base_bytes by done. apply rassert_eq; [apply bytes_eqb_refl|]. apply rscalar_eq.
  rewrite base_bytes by apply scalar_drawn_canonical.
  eapply rlift_eq; [apply hash_to_scalar_eq|]. exact eq_refl.
Qed.

Lemma scalar_hash_canonical data : canonical (scalar_hash data).
Proof. apply sc_bytes_canonical. Qed.
Lemma sig_challenge_canonical m pub comm : canonical (sig_challenge m pub comm).
Proof. apply scalar_hash_canonical. Qed.
#[export] Hint Resolve scalar_hash_canonical sig_challenge_canonical : crypto.

Lemma mulsub_canonical c s k : canonical c -> canonical s -> canonical k -> canonical (sc_mulsub c s k).
Proof. intros. rewrite sc_mulsub_bytes by done. apply sc_bytes_canonical. Qed.

Lemma signed_ok prefix_hash sec st : canonical sec -> sig_ok (signed prefix_hash sec st).
Proof.
  intros Hs. split; [apply scalar_hash_canonical|].
  apply mulsub_canonical; [apply scalar_hash_canonical | exact Hs | apply scalar_drawn_canonical].
Qed.

(** The response cancels the secret. *)
Lemma response_eq c s k X Y : canonical c -> canonical s -> canonical k -> sc_l ⊙ Y ≡ₑ pt_zero -> X ≡ₑ le_val s ⊙ Y ->
  le_val c ⊙ X ⊕ le_val (sc_mulsub c s k) ⊙ Y ≡ₑ le_val k ⊙ Y.
Proof. intros Hc Hs Hk O E. rewrite sc_mulsub_bytes, sc_bytes_val by done. by apply response_point. Qed.

Lemma signed_point prefix_hash sec st : canonical sec ->
  sig_point (le_val sec ⊙ ed_B) (signed prefix_hash sec st) ≡ₑ le_val (scalar_drawn st) ⊙ ed_B.
Proof.
  intros Hs. unfold sig_point, signed. cbn [sig_c sig_r].
  apply response_eq; auto with crypto; [exact ed_B_order | reflexivity].
Qed.

(** What the verifier answers for a key that decodes. *)
Lemma check_signature_eq prefix_hash P sig : sig_wf sig ->
  exists b, check_signature prefix_hash (encode P) sig = Some b /\
    (b = true <-> sig_ok sig /\ sig_c sig = sig_challenge prefix_hash (encode P) (encode (sig_point P sig))).
Proof.
  intros W. destruct (decode_encode P) as (h & E & Hh).
  destruct (negb (sc_check (sig_c sig) =? 0) || negb (sc_check (sig_r sig) =? 0)) eqn:C.
  - exists false. split.
    + apply assert_eq; [apply check_key_encode|]. rewrite E, C. exact eq_refl.
    + split; [discriminate|]. intros [Hok _]. apply (sig_checks sig W) in Hok. congruence.
  - apply (sig_checks sig W) in C as Hok. destruct Hok as [Hc Hr].
    exists (bool_decide (sig_challenge prefix_hash (encode P) (encode (sig_point P sig)) = sig_c sig)). split.
    + apply assert_eq; [apply check_key_encode|]. rewrite E, C. cbv beta iota zeta. rewrite (dsm_bytes _ _ P) by done.
      eapply bind_eq; [apply hash_to_scalar_eq|]. apply (f_equal Some). apply sc_sub_zero; auto with crypto.
    + rewrite bool_decide_eq_true. split; [intros H; split; [split; done | by rewrite <- H] | intros [_ H]; by symmetry].
Qed.

(** Two accepted signatures on one commitment. *)
Lemma two_responses P s1 s2 : sig_ok s1 -> sig_ok s2 -> sig_point P s1 ≡ₑ sig_point P s2 ->
  (le_val (sig_c s1) - le_val (sig_c s2)) ⊙ P ≡ₑ (le_val (sig_r s2) - le_val (sig_r s1)) ⊙ ed_B.
Proof.
  intros _ _ E. unfold sig_point in E. rewrite <- !Z.add_opp_r, !pt_mul_add, !pt_mul_opp.
  set (a := le_val (sig_c s1) ⊙ P) in *. set (b := le_val (sig_r s1) ⊙ ed_B) in *.
  set (c := le_val (sig_c s2) ⊙ P) in *. set (d := le_val (sig_r s2) ⊙ ed_B) in *. clearbody a b c d.
  apply (grp_cancel (HG := curve_group) (c ⊕ b)).
  transitivity (a ⊕ b).
  - rewrite (pt_add_comm c b), pt_add_assoc, <- (pt_add_assoc c a), (pt_add_comm c a), pt_add_assoc.
    rewrite (grp_opp_r (AbGroup := curve_group) c), pt_add_0_r. apply pt_add_comm.
  - rewrite E, pt_add_assoc, <- (pt_add_assoc b d), (pt_add_comm b d), pt_add_assoc.
    rewrite (grp_opp_r (AbGroup := curve_group) b), pt_add_0_r. reflexivity.
Qed.

(** The secret that two such signatures give away. *)
Lemma extract_secret P s1 s2 : sc_l ⊙ P ≡ₑ pt_zero -> sig_ok s1 -> sig_ok s2 ->
  sig_point P s1 ≡ₑ sig_point P s2 -> sig_c s1 <> sig_c s2 ->
  exists u, (u * (le_val (sig_c s1) - le_val (sig_c s2))) mod sc_l = 1 /\
    P ≡ₑ ((u * (le_val (sig_r s2) - le_val (sig_r s1))) mod sc_l) ⊙ ed_B.
Proof.
  intros O H1 H2 E N. set (d := le_val (sig_c s1) - le_val (sig_c s2)).
  assert (G : Z.gcd d sc_l = 1).
  { rewrite Z.gcd_comm. apply Z.coprime_prime_l; [exact sc_l_prime|]. intros D. apply N.
    destruct H1 as [C1 _], H2 as [C2 _]. apply canonical_inj; [done..|].
    rewrite <- (canonical_mod _ C1), <- (canonical_mod _ C2). apply divide_mod_eq; [reflexivity | exact D]. }
  destruct (Z.gcd_bezout d sc_l 1 G) as (u & v & Ev). exists u. split.
  - replace (u * d) with (1 + (- v) * sc_l) by lia. rewrite Z_mod_plus_full. reflexivity.
  - rewrite ed_B_mod, pt_mul_mul, <- (two_responses P s1 s2 H1 H2 E), <- pt_mul_mul. fold d.
    replace (u * d) with (1 + (- v) * sc_l) by lia. rewrite pt_mul_add, pt_mul_mul, O, pt_mul_zero, pt_mul_1.
    symmetry. apply pt_add_0_r.
Qed.
