(* ===== verification/RingProofs.v ===== *)
(** * Ring signatures and transaction proofs: generation and check *)

From Stdlib Require Import ZArith Lia.
From stdpp Require Import base tactics list numbers option.
From S2P Require Import Prelude Radix Fe FeBytes FePow Pocklington Ge Curve GeBytes Group CurveAssoc Points Slide Tables Sc ScBounds ScProofs TableProofs ScalarMult ScalarMultProofs FromFe GeCorrect ScalarMultCorrect Words Keccak TreeHash Random RandomProofs Varint CurveOrder Crypto CryptoProofs.
Open Scope Z_scope.
#[local] Opaque hash_permutation keccakf digest.

(** ** The pair of commitments of a ring member *)

(** [a] and [b] of the verifier, for a key [P], the point [Q] of its hash, the image
    [I] and a signature. *)
Definition ring_pair (P Q I : point) (s : signature) : list Z :=
  encode (le_val (sig_c s) ⊙ P ⊕ le_val (sig_r s) ⊙ ed_B) ++ encode (le_val (sig_r s) ⊙ Q ⊕ le_val (sig_c s) ⊙ I).

(** The pair of the signer, from its random scalar. *)
Definition signer_pair (Q : point) (k : list Z) : list Z := encode (le_val k ⊙ ed_B) ++ encode (le_val k ⊙ Q).

(** A ring: keys that decode, with the points of the keys and of their hashes. *)
Definition ring_member (pub : list Z) (PQ : point * point) : Prop :=
  pub = encode (fst PQ) /\ sc_l ⊙ snd PQ ≡ₑ pt_zero /\
  exists h, hash_to_ec pub = Some h /\ p3_pt h (snd PQ).

Lemma ring_members pubs : Forall (fun pub => exists P, pub = encode P) pubs -> exists ms, Forall2 ring_member pubs ms.
Proof.
  induction 1 as [|pub pubs [P E] _ [ms IH]]; [by exists []|].
  destruct (hash_to_ec_point pub) as (h & Q & Eh & Hh & O).
  exists ((P, Q) :: ms). constructor; [|exact IH]. split; [exact E|]. split; [exact O|]. by exists h.
Qed.

Lemma ring_checks pubs ms : Forall2 ring_member pubs ms -> forallb check_key pubs = true.
Proof.
  induction 1 as [|pub m pubs ms [E _] _ IH]; [reflexivity|]. cbn [forallb].
  rewrite E, check_key_encode, IH. reflexivity.
Qed.

Section Ring.
Context (I : point) (himg : ge_p3) (Himg : p3_pt himg I).
Local Abbreviation pre := (ge_dsm_precomp himg).

(** *** The verifier's loop *)

Fixpoint ring_sum_val (sigs : list signature) : Z :=
  match sigs with [] => 0 | s :: sigs => le_val (sig_c s) + ring_sum_val sigs end.
Fixpoint ring_pairs (ms : list (point * point)) (sigs : list signature) : list Z :=
  match ms, sigs with
  | (P, Q) :: ms, s :: sigs => ring_pair P Q I s ++ ring_pairs ms sigs
  | _, _ => []
  end.

Lemma ring_check_loop_ok pubs ms : Forall2 ring_member pubs ms -> forall sigs sum ab,
  length sigs = length pubs -> Forall sig_ok sigs -> canonical sum ->
  exists sum', ring_check_loop pre pubs sigs sum ab = Some (Some (sum', ab ++ ring_pairs ms sigs)) /\
    canonical sum' /\ le_val sum' = (le_val sum + ring_sum_val sigs) mod sc_l.
Proof using Himg.
  induction 1 as [|pub [P Q] pubs ms (E & O & hq & Eq & Hq) Hms IH]; intros sigs sum ab L F Hsum;
    (destruct sigs as [|s sigs]; [|]; try discriminate L).
  - exists sum. cbn [ring_check_loop ring_pairs ring_sum_val]. rewrite app_nil_r, Z.add_0_r, canonical_mod by done. done.
  - apply Forall_cons_1 in F as [[Hc Hr] F]. cbn [fst snd] in *.
    destruct (decode_encode P) as (h & Eh & Hh). rewrite <- E in Eh.
    destruct (IH sigs (sc_add sum (sig_c s)) (ab ++ ring_pair P Q I s)) as (sum' & E' & C' & V').
    + by injection L.
    + exact F.
    + rewrite sc_add_bytes by done. apply sc_bytes_canonical.
    + exists sum'. cbn [ring_check_loop hd tl ring_pairs ring_sum_val]. split; [|split; [exact C'|]].
      * rewrite sig_checks_ok, Eh by done. cbv beta iota zeta. apply (bind_eq _ _ _ _ Eq).
        rewrite (dsm_bytes _ _ P), (dsm_precomp_bytes _ _ Q _ _ I) by done.
        rewrite <- (app_assoc ab (ring_pair P Q I s)) in E'. exact E'.
      * rewrite V', sc_add_bytes, sc_bytes_val, Z.add_mod_idemp_l, Z.add_assoc by done. reflexivity.
Qed.

(** A signature with a scalar that is not canonical is refused. *)
Lemma ring_check_loop_bad pubs ms : Forall2 ring_member pubs ms -> forall sigs sum ab,
  length sigs = length pubs -> Forall sig_wf sigs -> ~ Forall sig_ok sigs ->
  ring_check_loop pre pubs sigs sum ab = Some None.
Proof using Type.
  induction 1 as [|pub [P Q] pubs ms (E & O & hq & Eq & Hq) Hms IH]; intros sigs sum ab L W N;
    (destruct sigs as [|s sigs]; [|]; try discriminate L).
  - destruct N. constructor.
  - apply Forall_cons_1 in W as [Ws W]. cbn [ring_check_loop hd tl].
    destruct (negb (sc_check (sig_c s) =? 0) || negb (sc_check (sig_r s) =? 0)) eqn:C; [reflexivity|].
    apply (sig_checks s Ws) in C. destruct (decode_encode P) as (h & Eh & Hh). cbn [fst] in E. rewrite <- E in Eh.
    rewrite Eh. apply (bind_eq _ _ _ _ Eq). apply IH; [by injection L | exact W|]. intros F. apply N. by constructor.
Qed.

(** *** The signer's loop *)

Context (idx : nat).

(** What the loop leaves for the members from index [i] on: canonical signatures,
    their challenges in the sum, the pairs in [ab]. *)
Fixpoint ring_made (i : nat) (ms : list (point * point)) (sigs : list signature) (k : list Z) : Z * list Z :=
  match ms, sigs with
  | (P, Q) :: ms, s :: sigs =>
      let '(v, ab) := ring_made (S i) ms sigs k in
      if (i =? idx)%nat then (v, signer_pair Q k ++ ab)
      else (le_val (sig_c s) + v, ring_pair P Q I s ++ ab)
  | _, _ => (0, [])
  end.

(** Canonical at every index but that of the signer. *)
Fixpoint made_ok (i : nat) (sigs : list signature) : Prop :=
  match sigs with
  | [] => True
  | s :: sigs => (i <> idx -> sig_ok s) /\ made_ok (S i) sigs
  end.

Record loop_post (i : nat) (ms : list (point * point)) (st st' : ring_state) : Prop := {
  lp_length : length (ring_sig st') = length (ring_sig st);
  lp_before : take i (ring_sig st') = take i (ring_sig st);
  lp_ok : made_ok i (take (length ms) (drop i (ring_sig st')));
  lp_sum : canonical (ring_sum st');
  lp_value : le_val (ring_sum st') =
    (le_val (ring_sum st) + fst (ring_made i ms (drop i (ring_sig st')) (ring_k st'))) mod sc_l;
  lp_ab : ring_ab st' = ring_ab st ++ snd (ring_made i ms (drop i (ring_sig st')) (ring_k st'));
  lp_k : if decide (i <= idx < i + length ms)%nat then canonical (ring_k st') else ring_k st' = ring_k st
}.

Lemma drop_S_total (l : list signature) i : (i < length l)%nat ->
  exists s, drop i l = s :: drop (S i) l /\ take (S i) l = take i l ++ [s].
Proof using Type.
  intros H. destruct (lookup_lt_is_Some_2 l i H) as [s E]. exists s.
  split; [by apply drop_S | by apply take_S_r].
Qed.

Lemma ring_sign_loop_spec pubs ms : Forall2 ring_member pubs ms -> forall i st rs,
  (i + length pubs <= length (ring_sig st))%nat -> canonical (ring_sum st) ->
  exists st' rs', ring_sign_loop pre idx i pubs st (ready_state rs) = Some (st', ready_state rs') /\
    loop_post i ms st st'.
Proof using Himg.
  induction 1 as [|pub [P Q] pubs ms (E & O & hq & Eq & Hq) Hms IH]; intros i st rs L Hs.
  - exists st, rs. split; [exact eq_refl|]. split; cbn [take made_ok ring_made fst snd length]; try done.
    + by rewrite Z.add_0_r, canonical_mod.
    + by rewrite app_nil_r.
    + destruct (decide _); [lia | reflexivity].
  - cbn [fst snd length] in *. cbn [ring_sign_loop]. destruct (Nat.eqb_spec i idx) as [->|N].
    + set (k := scalar_drawn rs). pose proof (scalar_drawn_canonical rs : canonical k) as Hk.
      set (st1 := RingState (ring_sum st) k (ring_ab st ++ signer_pair Q k) (ring_sig st)).
      destruct (IH (S idx) st1 (random_next 64 rs)) as (st' & rs' & E' & [A1 A2 A3 A4 A5 A6 A7]);
        [cbn; lia | exact Hs |].
      assert (Ek : ring_k st' = k) by (rewrite decide_False in A7 by lia; exact A7).
      destruct (drop_S_total (ring_sig st') idx) as (s & Ed & Et); [rewrite A1; cbn; lia|].
      destruct (drop_S_total (ring_sig st1) idx) as (s1 & Ed1 & Et1); [cbn; lia|].
      exists st', rs'. split.
      * apply (rbind_eq _ _ _ st1 (ready_state (random_next 64 rs))); [|exact E'].
        unfold ring_sign_step. rewrite Nat.eqb_refl. apply rscalar_eq. fold k. cbv zeta.
        eapply rlift_eq; [exact Eq|]. rewrite base_bytes, (mult_bytes_eq _ _ Q) by done. exact eq_refl.
      * destruct (ring_made (S idx) ms (drop (S idx) (ring_sig st')) (ring_k st')) as [v ab] eqn:Em.
        split; rewrite ?Ed; cbn [length take made_ok ring_made fst snd] in *; rewrite ?Em, ?Nat.eqb_refl; cbn [fst snd].
        -- exact A1.
        -- rewrite Et, Et1 in A2. by apply app_inj_2 in A2 as [A2 _].
        -- split; [done | exact A3].
        -- exact A4.
        -- exact A5.
        -- rewrite A6. cbn [ring_ab st1]. rewrite <- app_assoc, Ek. reflexivity.
        -- rewrite decide_True by lia. rewrite Ek. exact Hk.
    + set (c := scalar_drawn rs). set (r := scalar_drawn (random_next 64 rs)). set (s0 := Signature c r).
      assert (H0 : sig_ok s0) by (split; apply scalar_drawn_canonical). destruct H0 as [Hc Hr] eqn:H0'. clear H0'.
      destruct (decode_encode P) as (h & Eh & Hh). rewrite <- E in Eh.
      set (st1 := RingState (sc_add (ring_sum st) c) (ring_k st) (ring_ab st ++ ring_pair P Q I s0) (<[i := s0]> (ring_sig st))).
      destruct (IH (S i) st1 (random_next 64 (random_next 64 rs))) as (st' & rs' & E' & [A1 A2 A3 A4 A5 A6 A7]).
      { cbn [ring_sig st1]. rewrite length_insert. lia. }
      { cbn [ring_sum st1]. rewrite sc_add_bytes by done. apply sc_bytes_canonical. }
      cbn [ring_sig ring_sum ring_k ring_ab st1] in *. rewrite length_insert in A1.
      destruct (drop_S_total (ring_sig st') i) as (s & Ed & Et); [rewrite A1; lia|].
      assert (A2' : take i (ring_sig st') = take i (ring_sig st) /\ s = s0).
      { assert (Ei : <[i := s0]> (ring_sig st) !! i = Some s0) by (apply list_lookup_insert_eq; lia).
        rewrite (take_S_r _ _ _ Ei), take_insert_ge, Et in A2 by lia. apply app_inj_2 in A2 as [A2 Es]; [|done].
        split; [exact A2 | by injection Es]. }
      destruct A2' as [A2' ->]. exists st', rs'. split.
      * apply (rbind_eq _ _ _ st1 (ready_state (random_next 64 (random_next 64 rs)))); [|exact E'].
        unfold ring_sign_step. rewrite (proj2 (Nat.eqb_neq i idx) N). apply rscalar_eq, rscalar_eq. fold c r. cbv zeta.
        eapply rlift_eq; [exact Eh|]. eapply rlift_eq; [exact Eq|].
        rewrite (dsm_bytes _ _ P), (dsm_precomp_bytes _ _ Q _ _ I) by done. exact eq_refl.
      * destruct (ring_made (S i) ms (drop (S i) (ring_sig st')) (ring_k st')) as [v ab] eqn:Em.
        split; rewrite ?Ed; cbn [length take made_ok ring_made fst snd] in *; rewrite ?Em, ?(proj2 (Nat.eqb_neq i idx) N);
          cbn [fst snd].
        -- exact A1.
        -- exact A2'.
        -- split; [intros _; split; done | exact A3].
        -- exact A4.
        -- rewrite A5, sc_add_bytes, sc_bytes_val, Z.add_mod_idemp_l, Z.add_assoc by done. reflexivity.
        -- rewrite A6, <- app_assoc. reflexivity.
        -- destruct (decide (S i <= idx < S i + length ms)%nat), (decide (i <= idx < i + S (length ms))%nat);
             first [exact A7 | lia].
Qed.

(** *** The signer's own entry *)

Lemma ring_made_after ms k : forall i sigs, (idx < i)%nat -> length sigs = length ms ->
  ring_made i ms sigs k = (ring_sum_val sigs, ring_pairs ms sigs).
Proof using Type.
  induction ms as [|[P Q] ms IH]; intros i sigs H L; (destruct sigs as [|s sigs]; [|]; try discriminate L).
  - reflexivity.
  - cbn [ring_made ring_sum_val ring_pairs]. rewrite (IH (S i)) by (cbn in *; lia).
    rewrite (proj2 (Nat.eqb_neq i idx)) by lia. reflexivity.
Qed.

(** Writing there a signature with the signer's pair makes the verifier's sum and
    pairs out of what the loop left. *)
Lemma ring_made_at ms k P Q s : ring_pair P Q I s = signer_pair Q k -> forall i sigs,
  (i <= idx)%nat -> ms !! (idx - i)%nat = Some (P, Q) -> length sigs = length ms ->
  ring_sum_val (<[(idx - i)%nat := s]> sigs) = fst (ring_made i ms sigs k) + le_val (sig_c s) /\
  ring_pairs ms (<[(idx - i)%nat := s]> sigs) = snd (ring_made i ms sigs k).
Proof using Type.
  intros Es. induction ms as [|[P' Q'] ms IH]; intros i sigs H E L; [done|].
  destruct sigs as [|s' sigs]; [discriminate L|]. injection L as L. cbn [ring_made].
  destruct (Nat.eqb_spec i idx) as [->|N].
  - rewrite Nat.sub_diag in *. injection E as -> ->. rewrite (ring_made_after ms k (S idx) sigs) by (lia || done).
    cbn [list_insert insert ring_sum_val ring_pairs fst snd]. rewrite Es. split; [lia | reflexivity].
  - replace (idx - i)%nat with (S (idx - S i)) in * by lia. specialize (IH (S i) sigs ltac:(lia) E L).
    destruct (ring_made (S i) ms sigs k) as [v ab]. cbn [fst snd] in *. destruct IH as [IH1 IH2].
    split; [change (le_val (sig_c s') + ring_sum_val (<[(idx - S i)%nat := s]> sigs) = le_val (sig_c s') + v + le_val (sig_c s)); lia
           | change (ring_pair P' Q' I s' ++ ring_pairs ms (<[(idx - S i)%nat := s]> sigs) = ring_pair P' Q' I s' ++ ab); by rewrite IH2].
Qed.

Lemma made_ok_insert s : sig_ok s -> forall sigs i, (i <= idx)%nat -> (idx < i + length sigs)%nat -> made_ok i sigs ->
  Forall sig_ok (<[(idx - i)%nat := s]> sigs).
Proof using Type.
  intros Hs.
  assert (A : forall sigs i, (idx < i)%nat -> made_ok i sigs -> Forall sig_ok sigs).
  { induction sigs as [|s' sigs IH]; intros i H M; [constructor|]. destruct M as [M1 M2].
    constructor; [apply M1; lia | apply (IH (S i)); [lia | exact M2]]. }
  induction sigs as [|s' sigs IH]; intros i H L [M1 M2] || intros i H L M; [cbn in L; lia|].
  destruct (Nat.eq_dec i idx) as [->|N].
  - rewrite Nat.sub_diag. constructor; [exact Hs | by apply (A sigs (S idx)); [lia|]].
  - replace (idx - i)%nat with (S (idx - S i)) by lia. constructor; [by apply M1|].
    apply IH; [lia | cbn in L; lia | exact M2].
Qed.
End Ring.

(** ** The whole calls *)

#[export] Instance canonical_dec a : Decision (canonical a).
Proof. unfold canonical, byte_ok. apply _. Defined.
#[export] Instance sig_ok_dec s : Decision (sig_ok s).
Proof. unfold sig_ok. apply _. Defined.

(** What the verifier answers for a ring of keys and an image that decode. *)
Definition ring_accept (prefix_hash : list Z) (ms : list (point * point)) (I : point) (sigs : list signature) : Prop :=
  Forall sig_ok sigs /\
  le_val (scalar_hash (prefix_hash ++ ring_pairs I ms sigs)) = ring_sum_val sigs mod sc_l.

Lemma check_ring_signature_eq prefix_hash I pubs ms sigs :
  Forall2 ring_member pubs ms -> length sigs = length pubs -> Forall sig_wf sigs ->
  exists b, check_ring_signature true prefix_hash (encode I) pubs sigs = Some b /\
    (b = true <-> ring_accept prefix_hash ms I sigs).
Proof.
  intros M L W. destruct (decode_encode I) as (himg & Ei & Hi).
  destruct (decide (Forall sig_ok sigs)) as [F|F].
  - destruct sc_0_canonical as [C0 V0].
    destruct (ring_check_loop_ok I himg Hi pubs ms M sigs sc_0 [] L F C0) as (sum & E & Cs & Vs).
    exists (bool_decide (scalar_hash (prefix_hash ++ ring_pairs I ms sigs) = sum)). split.
    + apply assert_eq; [by eapply ring_checks|]. rewrite Ei. cbv beta iota zeta. apply (bind_eq _ _ _ _ E).
      eapply bind_eq; [apply hash_to_scalar_eq|]. apply (f_equal Some). apply sc_sub_zero; auto with crypto.
    + rewrite bool_decide_eq_true. rewrite V0, Z.add_0_l in Vs. unfold ring_accept. rewrite <- Vs.
      split; [intros ->; done | intros [_ H]; apply canonical_inj; auto with crypto].
  - exists false. split; [|split; [discriminate | intros [A _]; done]].
    apply assert_eq; [by eapply ring_checks|]. rewrite Ei. cbv beta iota zeta.
    eapply bind_eq; [by eapply ring_check_loop_bad | reflexivity].
Qed.

(** The key image of the signer. *)
Lemma key_image_eq pub sec h Q : canonical sec -> hash_to_ec pub = Some h -> p3_pt h Q ->
  generate_key_image pub sec = Some (encode (le_val sec ⊙ Q)).
Proof.
  intros Hs E Hh. apply assert_eq; [by apply sc_check_true|]. apply (bind_eq _ _ _ _ E). cbv zeta.
  by rewrite (mult_bytes_eq sec h Q).
Qed.

(** What the signer computes for its own index, and that the verifier accepts it. *)
Lemma ring_signature_ok prefix_hash k0 pubs ms sec idx P Q sigs st :
  Forall2 ring_member pubs ms -> canonical sec -> length sigs = length pubs ->
  ms !! idx = Some (P, Q) -> P ≡ₑ le_val sec ⊙ ed_B -> sc_l ⊙ Q ≡ₑ pt_zero ->
  generate_key_image (pubs !!! idx) sec = Some (encode (le_val sec ⊙ Q)) ->
  exists sigs' st',
    generate_ring_signature true k0 prefix_hash (encode (le_val sec ⊙ Q)) pubs sec idx sigs (ready_state st)
      = Some (sigs', ready_state st') /\
    length sigs' = length pubs /\ Forall sig_ok sigs' /\ ring_accept prefix_hash ms (le_val sec ⊙ Q) sigs'.
Proof.
  intros M Hs L E EP O Ei. set (I := le_val sec ⊙ Q) in *. destruct (decode_encode I) as (himg & Eh & Hh).
  pose proof (Forall2_length M) as LM. pose proof (lookup_lt_Some _ _ _ E) as Hidx.
  destruct sc_0_canonical as [C0 V0].
  destruct (ring_sign_loop_spec I himg Hh idx pubs ms M 0 (RingState sc_0 k0 [] sigs) st) as (rst & st' & El & [A1 _ A3 A4 A5 A6 A7]);
    [cbn; lia | exact C0 |].
  rewrite drop_0 in *. cbn [ring_sig ring_sum ring_ab] in *. rewrite decide_True in A7 by lia. rewrite V0, Z.add_0_l in A5.
  rewrite take_ge in A3 by lia. cbn [app] in A6.
  set (h := scalar_hash (prefix_hash ++ ring_ab rst)). set (c := sc_sub h (ring_sum rst)).
  assert (Hc : c = sc_bytes (le_val h - le_val (ring_sum rst))) by (apply sc_sub_bytes; [apply scalar_hash_canonical | exact A4]).
  assert (Cc : canonical c) by (rewrite Hc; apply sc_bytes_canonical).
  set (s := Signature c (sc_mulsub c sec (ring_k rst))).
  assert (Hok : sig_ok s) by (split; [exact Cc | by apply mulsub_canonical]).
  assert (Epair : ring_pair P Q I s = signer_pair Q (ring_k rst)).
  { unfold ring_pair, signer_pair, s. cbn [sig_c sig_r]. apply f_equal2; apply encode_proper.
    - by apply response_eq; [..|exact ed_B_order|].
    - rewrite pt_add_comm. by apply response_eq. }
  assert (Els : length (ring_sig rst) = length ms) by lia.
  destruct (ring_made_at I idx ms (ring_k rst) P Q s Epair 0 (ring_sig rst)) as [S1 S2]; [lia | by rewrite Nat.sub_0_r | exact Els |].
  pose proof (made_ok_insert idx s Hok (ring_sig rst) 0 ltac:(lia) ltac:(lia) A3) as Fok. rewrite Nat.sub_0_r in *.
  exists (<[idx := s]> (ring_sig rst)), st'. split; [|split; [rewrite length_insert; lia | split; [exact Fok|split; [exact Fok|]]]].
  - assert (Epub : pubs !!! idx = encode (le_val sec ⊙ ed_B)).
    { destruct (Forall2_lookup_r _ _ _ _ _ M E) as (pub & Ep & Em & _). rewrite (list_lookup_total_correct _ _ _ Ep), Em.
      apply encode_proper. exact EP. }
    apply rassert_eq; [reflexivity|]. apply rassert_eq; [apply Nat.ltb_lt; lia|].
    apply rassert_eq; [by apply sc_check_true|]. cbv zeta. rewrite base_bytes by exact Hs. rewrite Epub in *.
    apply rassert_eq; [apply bytes_eqb_refl|]. eapply rlift_eq; [exact Ei|].
    apply rassert_eq; [apply bytes_eqb_refl|]. apply rassert_eq; [by eapply ring_checks|].
    eapply rlift_eq; [exact Eh|]. eapply rbind_eq; [exact El|]. eapply rlift_eq; [apply hash_to_scalar_eq|]. exact eq_refl.
  - rewrite S1, S2, <- A6. fold h. unfold s. cbn [sig_c]. rewrite Hc, sc_bytes_val, A5, Z.add_mod_idemp_r by done.
    rewrite Z.add_sub_assoc, Zminus_mod_idemp_r, Z.add_simpl_l.
    symmetry. apply canonical_mod, scalar_hash_canonical.
Qed.
