(* ===== verification/KeyProofs.v ===== *)
(** * Keys and key derivations in terms of points *)

From Stdlib Require Import ZArith Lia.
From stdpp Require Import base tactics list numbers option.
From S2P Require Import Prelude Radix Fe FeBytes FePow Pocklington Ge Curve GeBytes Group CurveAssoc Points Slide Tables Sc ScBounds ScProofs TableProofs ScalarMult ScalarMultProofs FromFe GeCorrect ScalarMultCorrect Words Keccak TreeHash Random RandomProofs Varint CurveOrder Crypto CryptoProofs.
Open Scope Z_scope.

#[local] Opaque hash_permutation keccakf digest write_varint.

(** ** Keys *)

(** The public key of a secret. *)
Definition public_of (sec : list Z) : list Z := encode (le_val sec ⊙ ed_B).

Lemma generate_keys_eq recovery_key (recover : bool) st : length recovery_key = 32%nat -> byte_ok recovery_key ->
  let rng := if recover then recovery_key else scalar_drawn st in
  generate_keys recovery_key recover (ready_state st)
  = Some ((public_of (sc_bytes (le_val rng)), sc_bytes (le_val rng), rng),
          ready_state (if recover then st else random_next 64 st)).
Proof.
  intros L B. assert (K : forall rng r, byte_ok rng -> length rng = 32%nat ->
    (let sec := sc_reduce32 rng in let point := ge_scalarmult_base sec in
     let pub := ge_p3_tobytes point in mret (pub, sec, rng) : rand_m _) r
    = Some ((public_of (sc_bytes (le_val rng)), sc_bytes (le_val rng), rng), r)).
  { intros rng r Br Lr. cbv zeta. rewrite sc_reduce32_bytes, base_bytes by (done || apply sc_bytes_canonical). exact eq_refl. }
  destruct recover; cbv zeta.
  - eapply rbind_eq; [exact eq_refl|]. by apply K.
  - apply rscalar_eq. destruct (scalar_drawn_canonical st) as (Bs & Ls & _). by apply K.
Qed.

Lemma secret_key_to_public_key_eq sec : byte_ok sec -> length sec = 32%nat ->
  (canonical sec -> secret_key_to_public_key sec = Some (public_of sec)) /\
  (~ canonical sec -> secret_key_to_public_key sec = None).
Proof.
  intros B L. unfold secret_key_to_public_key. split; intros H.
  - rewrite sc_check_true by exact H. cbn [negb Z.eqb]. cbv zeta. by rewrite base_bytes.
  - destruct (sc_check sec =? 0) eqn:E; [|reflexivity]. destruct H. by apply sc_check_canonical.
Qed.

Lemma check_key_eq key : byte_ok key -> length key = 32%nat -> check_key key = true <-> exists P, key = encode P.
Proof.
  intros B L. split; [|intros [P ->]; apply check_key_encode].
  unfold check_key. destruct (ge_frombytes_vartime key) as [h|] eqn:E; [|discriminate]. intros _.
  destruct (decode_point key h B L E) as (P & EP & _). by exists P.
Qed.

Lemma check_key_false key : check_key key = false <-> ge_frombytes_vartime key = None.
Proof. unfold check_key. by destruct (ge_frombytes_vartime key). Qed.

(** ** Derivations *)

Definition derivation_point (P : point) (sec : list Z) : point := 8 ⊙ (le_val sec ⊙ P).

Lemma generate_key_derivation_eq P sec : canonical sec ->
  generate_key_derivation (encode P) sec = Some (Some (encode (derivation_point P sec))).
Proof.
  intros Hs. apply assert_eq; [by apply sc_check_true|]. destruct (decode_encode P) as (h & -> & Hh). cbv zeta.
  rewrite (encode_p2 _ (derivation_point P sec)); [reflexivity|].
  apply ge_p1p1_to_p2_pt, ge_mul8_spec. by apply mult_point.
Qed.

(** Both sides of an exchange get the same point. *)
Lemma derivation_agree a b : derivation_point (le_val a ⊙ ed_B) b ≡ₑ derivation_point (le_val b ⊙ ed_B) a.
Proof. unfold derivation_point. rewrite <- !pt_mul_mul. by match goal with |- ?n ⊙ _ ≡ₑ ?m ⊙ _ => replace n with m by lia end. Qed.

Definition derivation_scalar (derivation index : list Z) : list Z := scalar_hash (derivation ++ index).

Lemma derivation_to_scalar_eq derivation i : 0 <= i < 2 ^ 64 ->
  exists index, write_varint i = Some index /\ (length index <= 10)%nat /\
    derivation_to_scalar derivation i = Some (derivation_scalar derivation index).
Proof.
  intros Hi. destruct (write_varint_total i Hi) as (index & E & L & _). exists index. split; [exact E|]. split; [lia|].
  apply (bind_eq _ _ _ _ E). apply assert_eq; [apply Nat.leb_le; lia|]. apply hash_to_scalar_eq.
Qed.

(** The keys derived from a derivation and an index. *)
Lemma derive_public_key_eq derivation i s P : canonical s -> derivation_to_scalar derivation i = Some s ->
  derive_public_key derivation i (encode P) = Some (Some (encode (P ⊕ le_val s ⊙ ed_B))).
Proof.
  intros Hs E. unfold derive_public_key. destruct (decode_encode P) as (h & -> & Hh). apply (bind_eq _ _ _ _ E). cbv zeta.
  rewrite (encode_p2 _ (P ⊕ le_val s ⊙ ed_B)); [reflexivity|].
  apply ge_p1p1_to_p2_pt, ge_add_pt; [exact Hh | by apply ge_p3_to_cached_pt, base_point].
Qed.

Lemma derive_subaddress_public_key_eq derivation i s P : canonical s -> derivation_to_scalar derivation i = Some s ->
  derive_subaddress_public_key (encode P) derivation i = Some (Some (encode (P ⊕ ⊖ (le_val s ⊙ ed_B)))).
Proof.
  intros Hs E. unfold derive_subaddress_public_key. destruct (decode_encode P) as (h & -> & Hh).
  apply (bind_eq _ _ _ _ E). cbv zeta.
  rewrite (encode_p2 _ (P ⊕ ⊖ (le_val s ⊙ ed_B))); [reflexivity|].
  apply ge_p1p1_to_p2_pt, ge_sub_pt; [exact Hh | by apply ge_p3_to_cached_pt, base_point].
Qed.

Lemma derive_secret_key_eq derivation i s base : canonical base -> canonical s -> derivation_to_scalar derivation i = Some s ->
  derive_secret_key derivation i base = Some (sc_bytes (le_val base + le_val s)).
Proof.
  intros Hb Hs E. apply assert_eq; [by apply sc_check_true|]. apply (bind_eq _ _ _ _ E).
  apply (f_equal Some). by apply sc_add_bytes.
Qed.

(** The derived secret has the derived public key. *)
Lemma derived_pair base s : public_of (sc_bytes (le_val base + le_val s)) = encode (le_val base ⊙ ed_B ⊕ le_val s ⊙ ed_B).
Proof. apply encode_proper. rewrite sc_bytes_val, order_mod by exact ed_B_order. apply pt_mul_add. Qed.

(** Adding a point and taking it away. *)
Lemma add_sub P S : (P ⊕ S) ⊕ ⊖ S ≡ₑ P.
Proof. rewrite pt_add_assoc, (grp_opp_r (AbGroup := curve_group) S). apply pt_add_0_r. Qed.

(** ** The subgroup of the points killed by [l] *)

(** A prime order: only multiples of [l] give zero. *)
Lemma mul_inj_order Q a b : sc_l ⊙ Q ≡ₑ pt_zero -> ~ Q ≡ₑ pt_zero -> a ⊙ Q ≡ₑ b ⊙ Q -> a mod sc_l = b mod sc_l.
Proof.
  intros O NQ E. assert (Z0 : (a - b) ⊙ Q ≡ₑ pt_zero).
  { rewrite <- Z.add_opp_r, pt_mul_add, pt_mul_opp, E. apply (grp_opp_r (AbGroup := curve_group)). }
  destruct (decide ((a - b) mod sc_l = 0)) as [D|D]; [by apply mod_eq_0_sub|]. exfalso. apply NQ.
  assert (G : Z.gcd (a - b) sc_l = 1).
  { rewrite Z.gcd_comm. apply Z.coprime_prime_l; [exact sc_l_prime|]. intros V. apply D. by apply Z.mod_divide. }
  destruct (Z.gcd_bezout (a - b) sc_l 1 G) as (u & v & Ev).
  rewrite <- (pt_mul_1 Q), <- Ev, pt_mul_add, !pt_mul_mul, Z0, O, !pt_mul_zero. apply pt_add_0_r.
Qed.

(** All points, once each, by their encodings. *)
Lemma encode_card : exists els : list point, List.NoDup (map encode els) /\ (forall P, In (encode P) (map encode els)) /\
  Z.of_nat (length els) = 8 * sc_l.
Proof.
  destruct curve_card as (els & N & A & L). exists els. split; [|split; [|exact L]].
  - revert N. clear. induction els as [|P els IH]; intros N; [constructor|]. cbn [map] in *. inversion_clear N as [|? ? H1 H2].
    constructor; [|by apply IH]. intros H. apply H1. apply in_map_iff in H as (P' & E & H).
    apply in_map_iff. exists P'. split; [|exact H]. apply coords_eq, encode_inj, E.
  - intros P. specialize (A P). apply in_map_iff in A as (P' & E & H). apply in_map_iff. exists P'.
    split; [|exact H]. apply encode_proper, coords_eq, E.
Qed.

(** * Transaction proofs: generation and check *)

#[local] Opaque hash_permutation keccakf digest.

(** ** Transaction proofs *)

(** The base of a proof, and its optional key. *)
Definition tx_base (B : option point) : point := from_option id ed_B B.
Definition tx_key (B : option point) : option (list Z) := encode <$> B.
Definition opt_p3 (h : option ge_p3) (B : option point) : Prop := option_Forall2 p3_pt h B.

Lemma decode_opt_eq B : exists h, decode_opt (tx_key B) = Some h /\ opt_p3 h B.
Proof.
  destruct B as [B|]; cbn [tx_key fmap option_fmap option_map decode_opt]; [|exists None; split; [done | constructor]].
  destruct (decode_encode B) as (h & E & H). exists (Some h). split; [by apply (bind_eq _ _ _ _ E) | by constructor].
Qed.

Lemma opt_mult_bytes n h B : canonical n -> opt_p3 h B -> mult_bytes n h = encode (le_val n ⊙ tx_base B).
Proof. intros Hn [h' P Hp|]; cbn [mult_bytes tx_base from_option id]; [by apply mult_bytes_eq | by apply base_bytes]. Qed.

(** A point that is encoded and decoded again. *)
Lemma redecode s h P : canonical s -> p3_pt h P ->
  exists h', ge_frombytes_vartime (ge_tobytes (ge_scalarmult s h)) = Some h' /\ p3_pt h' (le_val s ⊙ P).
Proof. intros Hs Hh. rewrite (mult_bytes_eq s h P) by done. apply decode_encode. Qed.

Lemma sum_p2 h1 P h2 Q : p3_pt h1 P -> p3_pt h2 Q -> p2_pt (ge_p1p1_to_p2 (ge_add h1 (ge_p3_to_cached h2))) (P ⊕ Q).
Proof. intros H1 H2. apply ge_p1p1_to_p2_pt, ge_add_pt; [exact H1 | by apply ge_p3_to_cached_pt]. Qed.

Lemma add_mult_eq cR X n h B : canonical n -> p3_pt cR X -> opt_p3 h B ->
  exists s, add_mult cR n h = Some s /\ p2_pt (ge_p1p1_to_p2 s) (X ⊕ le_val n ⊙ tx_base B).
Proof.
  intros Hn HX [h' P Hp|]; cbn [add_mult tx_base from_option id].
  - destruct (redecode n h' P Hn Hp) as (hb & E & Hb). eexists. split; [exact (bind_eq _ _ _ _ E eq_refl)|].
    by apply sum_p2.
  - eexists. split; [reflexivity|]. apply sum_p2; [exact HX | by apply base_point].
Qed.

(** The challenge of a proof, and its two commitments. *)
Definition tx_challenge (m D X Y : list Z) : list Z := scalar_hash (m ++ D ++ X ++ Y).
Definition tx_X (R : point) (B : option point) (s : signature) : point :=
  le_val (sig_c s) ⊙ R ⊕ le_val (sig_r s) ⊙ tx_base B.
Definition tx_Y (D A : point) (s : signature) : point := le_val (sig_c s) ⊙ D ⊕ le_val (sig_r s) ⊙ A.

Lemma tx_points_eq R A B D s : sig_ok s ->
  exists X Y, tx_proof_points (encode R) (encode A) (tx_key B) (encode D) s = Some (X, Y) /\
    p2_pt X (tx_X R B s) /\ p2_pt Y (tx_Y D A s).
Proof.
  intros Hok. pose proof Hok as [Hc Hr].
  destruct (decode_encode R) as (hR & ER & HR), (decode_encode A) as (hA & EA & HA), (decode_opt_eq B) as (hB & EB & HB),
    (decode_encode D) as (hD & ED & HD).
  destruct (redecode (sig_c s) hR R Hc HR) as (hcR & EcR & HcR).
  destruct (add_mult_eq hcR _ (sig_r s) hB B Hr HcR HB) as (x & Ex & Hx).
  destruct (redecode (sig_c s) hD D Hc HD) as (hcD & EcD & HcD), (redecode (sig_r s) hA A Hr HA) as (hrA & ErA & HrA).
  eexists _, _. split; [|split; [exact Hx | apply sum_p2; [exact HcD | exact HrA]]].
  apply (bind_eq _ _ _ _ ER). apply (bind_eq _ _ _ _ EA). apply (bind_eq _ _ _ _ EB). apply (bind_eq _ _ _ _ ED).
  rewrite sig_checks_ok by exact Hok. cbv zeta. apply (bind_eq _ _ _ _ EcR). apply (bind_eq _ _ _ _ Ex).
  apply (bind_eq _ _ _ _ EcD). apply (bind_eq _ _ _ _ ErA). reflexivity.
Qed.

Lemma tx_points_bad R A B D s : sig_wf s -> ~ sig_ok s ->
  tx_proof_points (encode R) (encode A) (tx_key B) (encode D) s = None.
Proof.
  intros W N.
  destruct (decode_encode R) as (hR & ER & _), (decode_encode A) as (hA & EA & _), (decode_opt_eq B) as (hB & EB & _),
    (decode_encode D) as (hD & ED & _).
  apply (bind_eq _ _ _ _ ER). apply (bind_eq _ _ _ _ EA). apply (bind_eq _ _ _ _ EB). apply (bind_eq _ _ _ _ ED).
  destruct (negb (sc_check (sig_c s) =? 0) || negb (sc_check (sig_r s) =? 0)) eqn:C; [reflexivity|].
  destruct N. by apply sig_checks in C.
Qed.

Definition tx_accept (m : list Z) (R A : point) (B : option point) (D : point) (s : signature) : Prop :=
  sig_ok s /\ sig_c s = tx_challenge m (encode D) (encode (tx_X R B s)) (encode (tx_Y D A s)).

Lemma check_tx_proof_eq m R A B D s : sig_wf s ->
  exists b, check_tx_proof m (encode R) (encode A) (tx_key B) (encode D) s = Some b /\ (b = true <-> tx_accept m R A B D s).
Proof.
  intros W. unfold check_tx_proof. destruct (negb (sc_check (sig_c s) =? 0) || negb (sc_check (sig_r s) =? 0)) eqn:C.
  - assert (N : ~ sig_ok s) by (intros H; apply (sig_checks s W) in H; congruence).
    rewrite tx_points_bad by done. exists false. split; [done|]. split; [discriminate | by intros [H _]].
  - apply (sig_checks s W) in C. destruct (tx_points_eq R A B D s C) as (X & Y & -> & HX & HY).
    exists (bool_decide (tx_challenge m (encode D) (encode (tx_X R B s)) (encode (tx_Y D A s)) = sig_c s)). split.
    + rewrite (encode_p2 X _ HX), (encode_p2 Y _ HY). eapply bind_eq; [apply hash_to_scalar_eq|].
      apply (f_equal Some). apply sc_sub_zero; [apply scalar_hash_canonical | apply C].
    + rewrite bool_decide_eq_true. split; [intros H; split; [exact C | by rewrite <- H] | intros [_ H]; by symmetry].
Qed.

(** A key that does not decode. *)
Lemma check_tx_proof_undecoded m R A B D s :
  ge_frombytes_vartime R = None \/ ge_frombytes_vartime A = None \/ decode_opt B = None \/ ge_frombytes_vartime D = None ->
  check_tx_proof m R A B D s = Some false.
Proof.
  intros H. unfold check_tx_proof. assert (tx_proof_points R A B D s = None) as ->; [|reflexivity].
  unfold tx_proof_points. destruct (ge_frombytes_vartime R) as [hR|]; [|reflexivity].
  destruct (ge_frombytes_vartime A) as [hA|]; [|reflexivity].
  destruct (decode_opt B) as [hB|]; [|reflexivity].
  destruct (ge_frombytes_vartime D) as [hD|]; [|reflexivity].
  destruct H as [H|[H|[H|H]]]; discriminate H.
Qed.

(** The proof of the secret [r], and that it is accepted. *)
Definition tx_made (m D : list Z) (A : point) (B : option point) (r st : list Z) : signature :=
  let k := scalar_drawn st in
  let c := tx_challenge m D (encode (le_val k ⊙ tx_base B)) (encode (le_val k ⊙ A)) in
  Signature c (sc_mulsub c r k).

Lemma generate_tx_proof_eq m A B r st : canonical r ->
  generate_tx_proof m (encode (le_val r ⊙ tx_base B)) (encode A) (tx_key B) (encode (le_val r ⊙ A)) r (ready_state st)
  = Some (tx_made m (encode (le_val r ⊙ A)) A B r st, ready_state (random_next 64 st)).
Proof.
  intros Hr. destruct (decode_encode (le_val r ⊙ tx_base B)) as (hR & ER & _), (decode_encode A) as (hA & EA & HA),
    (decode_opt_eq B) as (hB & EB & HB), (decode_encode (le_val r ⊙ A)) as (hD & ED & _).
  eapply rlift_eq; [exact ER|]. eapply rlift_eq; [exact EA|]. eapply rlift_eq; [exact EB|]. eapply rlift_eq; [exact ED|].
  apply rassert_eq; [by apply sc_check_true|]. cbv zeta. rewrite (opt_mult_bytes r hB B), (mult_bytes_eq r hA A) by done.
  apply rassert_eq; [apply bytes_eqb_refl|]. apply rassert_eq; [apply bytes_eqb_refl|]. apply rscalar_eq.
  rewrite (opt_mult_bytes _ hB B), (mult_bytes_eq _ hA A) by (done || apply scalar_drawn_canonical).
  eapply rlift_eq; [apply hash_to_scalar_eq|]. exact eq_refl.
Qed.

Lemma tx_made_accept m A B r st : canonical r -> sc_l ⊙ A ≡ₑ pt_zero -> sc_l ⊙ tx_base B ≡ₑ pt_zero ->
  tx_accept m (le_val r ⊙ tx_base B) A B (le_val r ⊙ A) (tx_made m (encode (le_val r ⊙ A)) A B r st).
Proof.
  intros Hr OA OB. set (s := tx_made _ _ _ _ _ _). assert (Hc : canonical (sig_c s)) by apply scalar_hash_canonical.
  split; [split; [exact Hc | apply mulsub_canonical; [exact Hc | exact Hr | apply scalar_drawn_canonical]]|].
  assert (EX : encode (tx_X (le_val r ⊙ tx_base B) B s) = encode (le_val (scalar_drawn st) ⊙ tx_base B)).
  { apply encode_proper. apply response_eq; [exact Hc | exact Hr | apply scalar_drawn_canonical | exact OB | reflexivity]. }
  assert (EY : encode (tx_Y (le_val r ⊙ A) A s) = encode (le_val (scalar_drawn st) ⊙ A)).
  { apply encode_proper. apply response_eq; [exact Hc | exact Hr | apply scalar_drawn_canonical | exact OA | reflexivity]. }
  rewrite EX, EY. exact eq_refl.
Qed.
