(* ===== verification/CryptoCorrect.v ===== *)
(** * Properties of the keys and signatures of Cryptonote (crypto.cpp, varint.h)

    Keys, derived keys, signatures, transaction proofs, key images and ring
    signatures: that what one function makes the other accepts, and what exactly
    the checks accept. *)

From Stdlib Require Import ZArith Lia.
From stdpp Require Import base tactics list numbers option.
From S2P Require Import Prelude Radix Fe FeBytes FePow Pocklington Ge Curve GeBytes Group CurveAssoc Points Slide Tables Sc ScBounds ScProofs TableProofs ScalarMult ScalarMultProofs FromFe GeCorrect ScalarMultCorrect Words Keccak TreeHash Random RandomProofs Varint CurveOrder Crypto CryptoProofs RingProofs KeyProofs.
Open Scope Z_scope.
#[local] Opaque hash_permutation keccakf digest write_varint.

(** A secret for the examples. *)
Definition secret_of (n : Z) : list Z := sc_bytes n.
Lemma secret_of_canonical n : canonical (secret_of n).
Proof. apply sc_bytes_canonical. Qed.

Lemma rassert_fails {B} (b : bool) (f : unit -> rand_m B) r : b = false -> (lift (crypto_assert b) ≫= f) r = None.
Proof. intros ->. reflexivity. Qed.

(** C8. Key pairs: [generate_keys] returns a canonical secret, the reduction of the
    scalar it also returns, with its public key, from the recovery key or from
    the generator; that scalar recovers the pair; the public key passes
    [check_key], and [secret_key_to_public_key] computes it. That function
    refuses exactly the secrets that are not below the group order, and
    [check_key] accepts exactly the encodings of points of the curve. *)
Theorem keys_correct recovery_key (recover : bool) st : byte_ok recovery_key -> length recovery_key = 32%nat ->
  (exists pub sec rng st',
    generate_keys recovery_key recover (ready_state st) = Some ((pub, sec, rng), ready_state st') /\
    canonical sec /\ le_val sec = le_val rng mod sc_l /\
    (if recover then rng = recovery_key /\ st' = st else rng = scalar_drawn st /\ sec = rng) /\
    (forall r, generate_keys rng true (ready_state r) = Some ((pub, sec, rng), ready_state r)) /\
    check_key pub = true /\ secret_key_to_public_key sec = Some pub) /\
  (secret_key_to_public_key recovery_key = None <-> sc_l <= le_val recovery_key) /\
  (check_key recovery_key = true <-> exists P, recovery_key = encode P).
Proof.
  intros B L. split; [|split; [|by apply check_key_eq]].
  - set (rng := if recover then recovery_key else scalar_drawn st).
    assert (Hr : byte_ok rng /\ length rng = 32%nat).
    { destruct recover; [done|]. destruct (scalar_drawn_canonical st) as (Bs & Ls & _). done. }
    destruct Hr as [Br Lr]. exists (public_of (sc_bytes (le_val rng))), (sc_bytes (le_val rng)), rng.
    exists (if recover then st else random_next 64 st).
    split; [by apply generate_keys_eq|]. split; [apply sc_bytes_canonical|]. split; [apply sc_bytes_val|].
    split; [|split; [|split]].
    + destruct recover; [done|]. split; [done|]. apply canonical_bytes, scalar_drawn_canonical.
    + intros r. by apply (generate_keys_eq rng true r).
    + apply check_key_encode.
    + destruct (sc_bytes_canonical (le_val rng)) as (Bs & Ls & Vs).
      by apply secret_key_to_public_key_eq; [..|split; [|split]].
  - destruct (secret_key_to_public_key_eq recovery_key B L) as [K1 K2]. split; intros H.
    + destruct (Z.lt_ge_cases (le_val recovery_key) sc_l) as [V|V]; [|done].
      rewrite K1 in H; [discriminate | by split; [|split]].
    + apply K2. intros (_ & _ & V). lia.
Qed.

Lemma keys_correct_witness : byte_ok (le_bytes 32 7) /\ length (le_bytes 32 7) = 32%nat /\
  exists pub sec rng st', generate_keys (le_bytes 32 7) true (ready_state []) = Some ((pub, sec, rng), ready_state st') /\
    check_key pub = true.
Proof.
  split; [apply le_bytes_ok|]. split; [reflexivity|].
  destruct (keys_correct (le_bytes 32 7) true [] (le_bytes_ok 32 7) eq_refl) as [(p & s & r & st' & E & _ & _ & _ & _ & C & _) _].
  exists p, s, r, st'. split; [exact E | exact C].
Defined.

(** C7. One-time keys: for the transaction key [r] of a sender and the view and
    spend keys [a], [b] of a receiver, both compute the same derivation from the
    other's public key; from it and an index the sender derives a public key, the
    receiver its secret, and [derive_subaddress_public_key] takes it back to the
    spend key. *)
Theorem one_time_keys_correct r a b output_index : canonical r -> canonical a -> canonical b -> 0 <= output_index < 2 ^ 64 ->
  exists derivation out_key out_sec,
    generate_key_derivation (public_of a) r = Some (Some derivation) /\
    generate_key_derivation (public_of r) a = Some (Some derivation) /\
    derive_public_key derivation output_index (public_of b) = Some (Some out_key) /\
    derive_secret_key derivation output_index b = Some out_sec /\
    secret_key_to_public_key out_sec = Some out_key /\
    derive_subaddress_public_key out_key derivation output_index = Some (Some (public_of b)).
Proof.
  intros Hr Ha Hb Hi. set (D := encode (derivation_point (le_val a ⊙ ed_B) r)).
  destruct (derivation_to_scalar_eq D output_index Hi) as (index & _ & _ & E).
  set (s := derivation_scalar D index) in *. assert (Hs : canonical s) by apply scalar_hash_canonical.
  exists D, (encode (le_val b ⊙ ed_B ⊕ le_val s ⊙ ed_B)), (sc_bytes (le_val b + le_val s)).
  split; [by apply generate_key_derivation_eq|].
  split; [unfold public_of; rewrite generate_key_derivation_eq by done; do 2 apply (f_equal Some); apply encode_proper, derivation_agree|].
  split; [by apply derive_public_key_eq|]. split; [by apply derive_secret_key_eq|].
  destruct (sc_bytes_canonical (le_val b + le_val s)) as (Bs & Ls & Vs). split.
  - rewrite <- derived_pair. apply secret_key_to_public_key_eq; [done..|by split; [|split]].
  - rewrite (derive_subaddress_public_key_eq D output_index s) by done. do 2 apply (f_equal Some). apply encode_proper, add_sub.
Qed.

Lemma one_time_keys_correct_witness :
  exists derivation out_key, generate_key_derivation (public_of (secret_of 2)) (secret_of 3) = Some (Some derivation) /\
    derive_public_key derivation 300 (public_of (secret_of 5)) = Some (Some out_key) /\
    derive_subaddress_public_key out_key derivation 300 = Some (Some (public_of (secret_of 5))).
Proof.
  destruct (one_time_keys_correct (secret_of 3) (secret_of 2) (secret_of 5) 300) as (d & o & s & E1 & _ & E2 & _ & _ & E3);
    [apply secret_of_canonical.. | lia |].
  exists d, o. split; [exact E1|]. split; [exact E2 | exact E3].
Defined.

(** C1. Signatures: [generate_signature] of a canonical secret and its public key
    returns two canonical scalars that [check_signature] accepts; with any other
    key in the place of the public key, or a secret that is not below the group
    order, it fails its assertions. *)
Theorem signature_complete prefix_hash sec st : byte_ok sec -> length sec = 32%nat ->
  (canonical sec -> exists sig st',
    generate_signature prefix_hash (public_of sec) sec (ready_state st) = Some (sig, ready_state st') /\
    sig_ok sig /\ check_signature prefix_hash (public_of sec) sig = Some true) /\
  (forall pub, pub <> public_of sec \/ sc_l <= le_val sec ->
    generate_signature prefix_hash pub sec (ready_state st) = None).
Proof.
  intros B L. split.
  - intros Hs. exists (signed prefix_hash sec st), (random_next 64 st). split; [by apply generate_signature_eq|].
    pose proof (signed_ok prefix_hash sec st Hs) as Hok. split; [exact Hok|].
    destruct (check_signature_eq prefix_hash (le_val sec ⊙ ed_B) (signed prefix_hash sec st)) as (v & E & H).
    { by apply sig_ok_wf. }
    unfold public_of. rewrite E. apply (f_equal Some), H. split; [exact Hok|].
    rewrite (encode_proper _ _ (signed_point prefix_hash sec st Hs)). exact eq_refl.
  - intros pub H. destruct (sc_check sec =? 0) eqn:E; [|by apply rassert_fails].
    apply rassert_eq; [exact E|]. cbv zeta. apply (sc_check_canonical sec B L) in E.
    rewrite base_bytes by exact E. apply rassert_fails. destruct H as [H|H]; [by apply bool_decide_eq_false|].
    destruct E as (_ & _ & V). lia.
Qed.

Lemma signature_complete_witness : byte_ok (secret_of 9) /\ length (secret_of 9) = 32%nat /\
  exists sig st', generate_signature [1; 2] (public_of (secret_of 9)) (secret_of 9) (ready_state []) = Some (sig, ready_state st') /\
    check_signature [1; 2] (public_of (secret_of 9)) sig = Some true.
Proof.
  destruct (secret_of_canonical 9) as (B & L & V). split; [exact B|]. split; [exact L|].
  destruct (signature_complete [1; 2] (secret_of 9) [] B L) as [H _].
  destruct (H (secret_of_canonical 9)) as (s & st' & E & _ & C). exists s, st'. split; [exact E | exact C].
Defined.

(** C2. What [check_signature] answers, for any bytes: a key that does not decode
    fails the assertion before the function can return; for the key of a point
    the answer is yes exactly for two canonical scalars of which the first is the
    hash of the message, the key and the point [c P + r B] of the scalars. Two
    accepted signatures with one such point and different challenges give the
    secret of the key away: a random scalar used twice reveals it. *)
Theorem check_signature_exact prefix_hash pub sig : sig_wf sig ->
  (ge_frombytes_vartime pub = None -> check_signature prefix_hash pub sig = None) /\
  (forall P, pub = encode P -> exists b, check_signature prefix_hash pub sig = Some b /\
    (b = true <-> sig_ok sig /\ sig_c sig = sig_challenge prefix_hash pub (encode (sig_point P sig)))) /\
  (forall P m2 sig2, pub = encode P -> sc_l ⊙ P ≡ₑ pt_zero -> sig_wf sig2 ->
    check_signature prefix_hash pub sig = Some true -> check_signature m2 pub sig2 = Some true ->
    sig_point P sig ≡ₑ sig_point P sig2 -> sig_c sig <> sig_c sig2 ->
    exists u, (u * (le_val (sig_c sig) - le_val (sig_c sig2))) mod sc_l = 1 /\
      pub = public_of (sc_bytes (u * (le_val (sig_r sig2) - le_val (sig_r sig))))).
Proof.
  intros W. split; [|split].
  - intros E. unfold check_signature. rewrite (proj2 (check_key_false pub) E). reflexivity.
  - intros P ->. by apply check_signature_eq.
  - intros P m2 sig2 -> O W2 C1 C2 EP N.
    destruct (check_signature_eq prefix_hash P sig W) as (b1 & E1 & H1), (check_signature_eq m2 P sig2 W2) as (b2 & E2 & H2).
    rewrite C1 in E1. rewrite C2 in E2. injection E1 as <-. injection E2 as <-.
    destruct (proj1 H1 eq_refl) as [K1 _], (proj1 H2 eq_refl) as [K2 _].
    destruct (extract_secret P sig sig2 O K1 K2 EP N) as (u & Eu & HP). exists u. split; [exact Eu|].
    apply encode_proper. rewrite sc_bytes_val. exact HP.
Qed.

Lemma check_signature_exact_witness : sig_wf (Signature (secret_of 1) (le_bytes 32 sc_l)) /\
  check_signature [] (public_of (secret_of 2)) (Signature (secret_of 1) (le_bytes 32 sc_l)) = Some false.
Proof.
  assert (W : sig_wf (Signature (secret_of 1) (le_bytes 32 sc_l))).
  { destruct (secret_of_canonical 1) as (B & L & _). split_and!; [exact B | exact L | apply le_bytes_ok | reflexivity]. }
  split; [exact W|]. destruct (check_signature_exact [] (public_of (secret_of 2)) _ W) as (_ & H & _).
  destruct (H (le_val (secret_of 2) ⊙ ed_B) eq_refl) as (b & E & Hb). destruct b; [|exact E].
  destruct (proj1 Hb eq_refl) as [[_ (_ & _ & V)] _]. exfalso. revert V. cbn [sig_r]. vm_compute. discriminate.
Defined.

Lemma ring_of_points : Forall (fun pub => exists P, pub = encode P) [public_of (secret_of 3); encode (2 ⊙ ed_B); public_of (secret_of 4)].
Proof.
  constructor; [by exists (le_val (secret_of 3) ⊙ ed_B)|]. constructor; [by exists (2 ⊙ ed_B)|].
  constructor; [by exists (le_val (secret_of 4) ⊙ ed_B) | constructor].
Qed.

(** C3. Ring signatures: for keys that decode, one of them the public key of a
    canonical secret, [generate_ring_signature] with the image that
    [generate_key_image] returns gives one pair of canonical scalars for each key,
    and [check_ring_signature] accepts them, whatever the array [sig] and the
    scalar [k] held before. *)
Theorem ring_signature_complete k0 prefix_hash pubs sec sec_index sigs st :
  Forall (fun pub => exists P, pub = encode P) pubs -> canonical sec ->
  pubs !! sec_index = Some (public_of sec) -> length sigs = length pubs ->
  exists image sigs' st', generate_key_image (public_of sec) sec = Some image /\
    generate_ring_signature true k0 prefix_hash image pubs sec sec_index sigs (ready_state st) = Some (sigs', ready_state st') /\
    length sigs' = length pubs /\ Forall sig_ok sigs' /\
    check_ring_signature true prefix_hash image pubs sigs' = Some true.
Proof.
  intros F Hs E L. destruct (ring_members pubs F) as [ms M].
  destruct (Forall2_lookup_l _ _ _ _ _ M E) as ([P Q] & Em & EP & O & h & Eh & Hh). cbn [fst snd] in *.
  pose proof (key_image_eq _ sec h Q Hs Eh Hh) as Ei.
  destruct (ring_signature_ok prefix_hash k0 pubs ms sec sec_index P Q sigs st) as (sigs' & st' & Eg & L' & Ok & Acc);
    [exact M | exact Hs | exact L | exact Em | symmetry; by apply encode_inj | exact O
    | rewrite (list_lookup_total_correct _ _ _ E); exact Ei |].
  exists (encode (le_val sec ⊙ Q)), sigs', st'. split; [exact Ei|]. split; [exact Eg|]. split; [exact L'|]. split; [exact Ok|].
  destruct (check_ring_signature_eq prefix_hash (le_val sec ⊙ Q) pubs ms sigs') as (v & Ev & Hv); [exact M | exact L' | |].
  - exact (Forall_impl _ sig_ok_wf Ok).
  - rewrite Ev. apply (f_equal Some), Hv, Acc.
Qed.

Lemma ring_signature_complete_witness :
  exists image sigs' st', generate_ring_signature true [] [9] image [public_of (secret_of 3); encode (2 ⊙ ed_B); public_of (secret_of 4)]
      (secret_of 4) 2 (replicate 3 (Signature [] [])) (ready_state []) = Some (sigs', ready_state st') /\
    check_ring_signature true [9] image [public_of (secret_of 3); encode (2 ⊙ ed_B); public_of (secret_of 4)] sigs' = Some true.
Proof.
  destruct (ring_signature_complete [] [9] [public_of (secret_of 3); encode (2 ⊙ ed_B); public_of (secret_of 4)]
    (secret_of 4) 2 (replicate 3 (Signature [] [])) []) as (i & s & st' & _ & E & _ & _ & C);
    [apply ring_of_points | apply secret_of_canonical | exact eq_refl | exact eq_refl |].
  exists i, s, st'. split; [exact E | exact C].
Defined.

(** C4. What [check_ring_signature] answers: without memory for its buffer no; a key
    that does not decode fails the assertions of a debugging build, and an image
    that does not decode is refused. For a ring of points and an image the answer
    is yes exactly when all scalars are canonical and the challenges add up,
    modulo the group order, to the hash of the message and of the pairs
    [c P + r B], [r Q + c I] of all members, in order, [Q] the point of the key's
    hash. *)
Theorem check_ring_signature_exact prefix_hash image pubs sigs : Forall sig_wf sigs -> length sigs = length pubs ->
  check_ring_signature false prefix_hash image pubs sigs = Some false /\
  (Exists (fun pub => ge_frombytes_vartime pub = None) pubs -> check_ring_signature true prefix_hash image pubs sigs = None) /\
  (Forall (fun pub => exists P, pub = encode P) pubs ->
    (ge_frombytes_vartime image = None -> check_ring_signature true prefix_hash image pubs sigs = Some false) /\
    (forall I, image = encode I -> exists ms b,
      Forall2 (fun pub PQ => pub = encode PQ.1 /\ exists h, hash_to_ec pub = Some h /\ p3_pt h PQ.2) pubs ms /\
      check_ring_signature true prefix_hash image pubs sigs = Some b /\
      (b = true <-> Forall sig_ok sigs /\
        le_val (scalar_hash (prefix_hash ++ ring_pairs I ms sigs)) = ring_sum_val sigs mod sc_l))).
Proof.
  intros W L. split; [reflexivity|]. split; [|intros F; destruct (ring_members pubs F) as [ms M]; split].
  - intros H. assert (E : forallb check_key pubs = false).
    { induction H as [pub pubs E|pub pubs _ IH] in sigs, W, L |- *; cbn [forallb];
        [by rewrite (proj2 (check_key_false pub) E)|].
      destruct sigs as [|s sigs]; [discriminate L|]. rewrite (IH sigs); [apply andb_false_r | by apply Forall_cons_1 in W as [_ W] | by injection L]. }
    unfold check_ring_signature. rewrite E. reflexivity.
  - intros E. apply assert_eq; [by eapply ring_checks|]. rewrite E. reflexivity.
  - intros I ->. destruct (check_ring_signature_eq prefix_hash I pubs ms sigs M L W) as (b & E & H).
    exists ms, b. split; [|split; [exact E | exact H]].
    eapply Forall2_impl; [|exact M]. intros pub PQ (E1 & _ & E2). by split.
Qed.

Lemma check_ring_signature_exact_witness : Forall sig_wf [Signature (secret_of 1) (secret_of 2)] /\
  exists ms b, Forall2 (fun pub PQ => pub = encode PQ.1 /\ exists h, hash_to_ec pub = Some h /\ p3_pt h PQ.2) [encode ed_B] ms /\
    check_ring_signature true [5] (encode ed_B) [encode ed_B] [Signature (secret_of 1) (secret_of 2)] = Some b.
Proof.
  assert (W : Forall sig_wf [Signature (secret_of 1) (secret_of 2)]).
  { destruct (secret_of_canonical 1) as (B & L & _), (secret_of_canonical 2) as (B2 & L2 & _).
    constructor; [|constructor]. split_and!; [exact B | exact L | exact B2 | exact L2]. }
  split; [exact W|].
  destruct (check_ring_signature_exact [5] (encode ed_B) [encode ed_B] _ W eq_refl) as (_ & _ & H).
  destruct H as [_ H]; [constructor; [by exists ed_B | constructor]|].
  destruct (H ed_B eq_refl) as (ms & b & E1 & E2 & _). exists ms, b. split; [exact E1 | exact E2].
Defined.




