(* ===== verification/AesSpec.v ===== *)
(** * The Advanced Encryption Standard (FIPS 197)

    The reference the implementations are compared with: arithmetic in
    GF(2^8), the S-box from inverses, the cipher on four columns and the key
    expansion by words. *)

From Stdlib Require Import ZArith Lia.
From stdpp Require Import base tactics list numbers.
From S2P Require Import Prelude.
Open Scope Z_scope.

(** ** GF(2^8), modulo x^8 + x^4 + x^3 + x + 1 *)

Definition xtime (a : Z) : Z := Z.lxor (Z.shiftl a 1) (if Z.testbit a 7 then 0x11b else 0).

(** The sum of [a x^i] over the bits [i] of [b]. *)
Fixpoint gf_sum (n : nat) (a b : Z) : Z :=
  match n with
  | O => 0
  | S n => Z.lxor (if Z.odd b then a else 0) (gf_sum n (xtime a) (Z.div2 b))
  end.
Definition gf_mul (a b : Z) : Z := gf_sum 8 a b.

(** The inverse is the 254th power; zero has zero. *)
Definition gf_sq (a : Z) : Z := gf_mul a a.
Definition gf_inv (a : Z) : Z :=
  let a2 := gf_sq a in let a3 := gf_mul a2 a in let a6 := gf_sq a3 in let a7 := gf_mul a6 a in
  let a14 := gf_sq a7 in let a15 := gf_mul a14 a in let a30 := gf_sq a15 in let a31 := gf_mul a30 a in
  let a62 := gf_sq a31 in let a63 := gf_mul a62 a in let a126 := gf_sq a63 in let a127 := gf_mul a126 a in
  gf_sq a127.

(** ** The S-box *)

(** Rotation of a byte to the left. *)
Definition rotb (b n : Z) : Z := Z.lor (Z.land (Z.shiftl b n) 0xff) (Z.shiftr b (8 - n)).
Definition s_box (a : Z) : Z :=
  let b := gf_inv a in
  Z.lxor b (Z.lxor (rotb b 1) (Z.lxor (rotb b 2) (Z.lxor (rotb b 3) (Z.lxor (rotb b 4) 0x63)))).

(** ** The state: four columns of four bytes *)

Abbreviation column := (list Z).
Definition columns (block : list Z) : list column :=
  [take 4 block; take 4 (drop 4 block); take 4 (drop 8 block); take 4 (drop 12 block)].

Definition xor_bytes (a b : list Z) : list Z := zip_with Z.lxor a b.

Definition SubBytes (s : list column) : list column := map (map s_box) s.
(** The byte in row [r] of column [c] comes from column [c + r]. *)
Definition ShiftRows (s : list column) : list column :=
  map (fun c => map (fun r => (s !!! ((c + r) mod 4)%nat) !!! r) (seq 0 4)) (seq 0 4).
(** Column times the circulant matrix with first row 2 3 1 1. *)
Definition MixColumn (w : column) : column :=
  map (fun r => Z.lxor (gf_mul (w !!! r) 2) (Z.lxor (gf_mul (w !!! ((r + 1) mod 4)%nat) 3)
    (Z.lxor (w !!! ((r + 2) mod 4)%nat) (w !!! ((r + 3) mod 4)%nat)))) (seq 0 4).
Definition MixColumns (s : list column) : list column := map MixColumn s.
Definition AddRoundKey (s k : list column) : list column := zip_with xor_bytes s k.

(** ** The key expansion: words of four bytes *)

Definition SubWord (w : column) : column := map s_box w.
Definition RotWord (w : column) : column := drop 1 w ++ take 1 w.
(** x^(i-1) in the first byte. *)
Definition Rcon (i : nat) : column := [Nat.iter (i - 1) xtime 1; 0; 0; 0].

Definition next_word (nk : nat) (w : list column) : column :=
  let i := length w in
  let temp := w !!! (i - 1)%nat in
  let temp :=
    if (i mod nk =? 0)%nat then xor_bytes (SubWord (RotWord temp)) (Rcon (i / nk))
    else if (6 <? nk)%nat && (i mod nk =? 4)%nat then SubWord temp
    else temp in
  xor_bytes (w !!! (i - nk)%nat) temp.
(** [n] more words. *)
Fixpoint expand_words (n nk : nat) (w : list column) : list column :=
  match n with O => w | S n => expand_words n nk (w ++ [next_word nk w]) end.

Fixpoint words (n : nat) (key : list Z) : list column :=
  match n with O => [] | S n => take 4 key :: words n (drop 4 key) end.

(** [Nk] words of key, [Nk + 6] rounds. *)
Definition KeyExpansion (nk : nat) (key : list Z) : list column :=
  expand_words (4 * (nk + 7) - nk) nk (words nk key).
Definition round_key (w : list column) (r : nat) : list column := take 4 (drop (4 * r) w).

Definition cipher_round (w : list column) (s : list column) (r : nat) : list column :=
  AddRoundKey (MixColumns (ShiftRows (SubBytes s))) (round_key w r).
Definition Cipher (nr : nat) (block : list Z) (w : list column) : list Z :=
  let s := AddRoundKey (columns block) (round_key w 0) in
  let s := foldl (cipher_round w) s (seq 1 (nr - 1)) in
  concat (AddRoundKey (ShiftRows (SubBytes s)) (round_key w nr)).

(** The cipher with a key of [4 Nk] bytes. *)
Definition AES (nk : nat) (key block : list Z) : list Z := Cipher (nk + 6) block (KeyExpansion nk key).

(** The examples of FIPS 197, appendix C. *)
Definition fips_block : list Z := map (fun i => 0x11 * Z.of_nat i) (seq 0 16).
Definition fips_key (n : nat) : list Z := map Z.of_nat (seq 0 n).

Example aes_128_vector : AES 4 (fips_key 16) fips_block =
  [0x69; 0xc4; 0xe0; 0xd8; 0x6a; 0x7b; 0x04; 0x30; 0xd8; 0xcd; 0xb7; 0x80; 0x70; 0xb4; 0xc5; 0x5a].
Proof. vm_compute. reflexivity. Qed.
Example aes_192_vector : AES 6 (fips_key 24) fips_block =
  [0xdd; 0xa9; 0x7c; 0xa4; 0x86; 0x4c; 0xdf; 0xe0; 0x6e; 0xaf; 0x70; 0xa0; 0xec; 0x0d; 0x71; 0x91].
Proof. vm_compute. reflexivity. Qed.
Example aes_256_vector : AES 8 (fips_key 32) fips_block =
  [0x8e; 0xa2; 0xb7; 0xca; 0x51; 0x67; 0x45; 0xbf; 0xea; 0xfc; 0x49; 0x90; 0x4b; 0x49; 0x60; 0x89].
Proof. vm_compute. reflexivity. Qed.
