(* ===== verification/AesProofs.v ===== *)
(** * The tables of OpenAES and arithmetic in GF(2^8)

    Each table is the function it stands for; multiplication is linear; the
    inverse operations undo the S-box and the column mix. *)

From Stdlib Require Import ZArith Lia Btauto.
From stdpp Require Import base tactics list numbers.
From S2P Require Import Prelude Radix Words AesTables AesSpec.
Open Scope Z_scope.

Definition is_byte (b : Z) : Prop := 0 <= b < 2 ^ 8.

(** ** Checks over all bytes *)

Definition all_bytes : list Z := map Z.of_nat (seq 0 256).

Lemma bytes_check (p : Z -> bool) : forallb p all_bytes = true -> forall b, is_byte b -> p b = true.
Proof.
  intros H b [Hb1 Hb2]. change (2 ^ 8) with 256 in Hb2. rewrite forallb_forall in H. apply H. apply in_map_iff. exists (Z.to_nat b). split; [lia|].
  apply in_seq. lia.
Qed.
Lemma bytes_eq_check (f g : Z -> Z) : forallb (fun b => f b =? g b) all_bytes = true -> forall b, is_byte b -> f b = g b.
Proof. intros H b Hb. apply Z.eqb_eq. by apply (bytes_check (fun b => f b =? g b)). Qed.

Lemma sub_byte_spec b : is_byte b -> oaes_sub_byte b = s_box b.
Proof. apply bytes_eq_check. vm_compute. reflexivity. Qed.
Lemma inv_sub_byte b : is_byte b -> oaes_inv_sub_byte (oaes_sub_byte b) = b.
Proof. apply (bytes_eq_check (fun b => oaes_inv_sub_byte (oaes_sub_byte b)) id). vm_compute. reflexivity. Qed.
Lemma sub_byte_inv b : is_byte b -> oaes_sub_byte (oaes_inv_sub_byte b) = b.
Proof. apply (bytes_eq_check (fun b => oaes_sub_byte (oaes_inv_sub_byte b)) id). vm_compute. reflexivity. Qed.

Lemma gf_table_spec b : is_byte b ->
  oaes_gf_mul b 2 = gf_mul b 2 /\ oaes_gf_mul b 3 = gf_mul b 3 /\ oaes_gf_mul b 9 = gf_mul b 9 /\
  oaes_gf_mul b 11 = gf_mul b 11 /\ oaes_gf_mul b 13 = gf_mul b 13 /\ oaes_gf_mul b 14 = gf_mul b 14.
Proof.
  intros Hb. split_and!;
    (match goal with |- oaes_gf_mul _ ?k = _ => revert b Hb; apply (bytes_eq_check (fun b => oaes_gf_mul b k) (fun b => gf_mul b k)) end;
     vm_compute; reflexivity).
Qed.

(** The inverse is one. *)
Lemma gf_inv_spec b : is_byte b -> b <> 0 -> gf_mul b (gf_inv b) = 1.
Proof.
  intros Hb N. apply Z.eqb_eq.
  assert (H : (b =? 0) || (gf_mul b (gf_inv b) =? 1) = true).
  { revert b Hb N. refine (fun b Hb _ => bytes_check (fun b => (b =? 0) || (gf_mul b (gf_inv b) =? 1)) _ b Hb).
    vm_compute. reflexivity. }
  apply orb_true_iff in H as [H|H]; [apply Z.eqb_eq in H; done | exact H].
Qed.

(** ** Bytes *)

Lemma lxor_byte a b : is_byte a -> is_byte b -> is_byte (Z.lxor a b).
Proof. apply (lxor_range 8). lia. Qed.

Lemma sub_byte_range b : is_byte b -> is_byte (oaes_sub_byte b).
Proof.
  intros Hb. assert (H : (0 <=? oaes_sub_byte b) && (oaes_sub_byte b <? 256) = true).
  { revert b Hb. apply bytes_check. vm_compute. reflexivity. }
  apply andb_true_iff in H as [H1 H2]. unfold is_byte. lia.
Qed.
Lemma inv_sub_byte_range b : is_byte b -> is_byte (oaes_inv_sub_byte b).
Proof.
  intros Hb. assert (H : (0 <=? oaes_inv_sub_byte b) && (oaes_inv_sub_byte b <? 256) = true).
  { revert b Hb. apply bytes_check. vm_compute. reflexivity. }
  apply andb_true_iff in H as [H1 H2]. unfold is_byte. lia.
Qed.

(** ** Multiplication is linear *)

Lemma xtime_lxor a b : xtime (Z.lxor a b) = Z.lxor (xtime a) (xtime b).
Proof.
  unfold xtime. rewrite Z.shiftl_lxor, Z.lxor_spec.
  destruct (Z.testbit a 7), (Z.testbit b 7); cbn [xorb]; apply Z.bits_inj'; intros n _; rewrite !Z.lxor_spec, ?Z.bits_0; btauto.
Qed.
Lemma gf_sum_lxor n : forall a b c, gf_sum n (Z.lxor a b) c = Z.lxor (gf_sum n a c) (gf_sum n b c).
Proof.
  induction n as [|n IH]; intros a b c; [reflexivity|]. cbn [gf_sum]. rewrite xtime_lxor, IH.
  destruct (Z.odd c); apply Z.bits_inj'; intros m _; rewrite !Z.lxor_spec, ?Z.bits_0; btauto.
Qed.
Lemma gf_mul_lxor a b c : gf_mul (Z.lxor a b) c = Z.lxor (gf_mul a c) (gf_mul b c).
Proof. apply gf_sum_lxor. Qed.
Lemma gf_mul_byte b k : is_byte b -> In k [2; 3; 9; 11; 13; 14] -> is_byte (gf_mul b k).
Proof.
  intros Hb Hk. assert (H : forallb (fun k => (0 <=? gf_mul b k) && (gf_mul b k <? 256)) [2; 3; 9; 11; 13; 14] = true).
  { revert b Hb. apply bytes_check. vm_compute. reflexivity. }
  rewrite forallb_forall in H. specialize (H k Hk). apply andb_true_iff in H as [H1 H2]. unfold is_byte. lia.
Qed.

(** ** The column mix is undone *)

(** Equality of two xors of the same terms; terms that occur twice vanish. *)
Ltac xor_ring := apply Z.bits_inj'; let n := fresh in intros n _; rewrite !Z.lxor_spec, ?Z.bits_0; btauto.

(** The entries of the product of the two matrices. *)
Lemma mix_coefficients b : is_byte b ->
  Z.lxor (gf_mul (gf_mul b 2) 14) (Z.lxor (gf_mul b 11) (Z.lxor (gf_mul b 13) (gf_mul (gf_mul b 3) 9))) = b /\
  Z.lxor (gf_mul (gf_mul b 3) 14) (Z.lxor (gf_mul (gf_mul b 2) 11) (Z.lxor (gf_mul b 13) (gf_mul b 9))) = 0 /\
  Z.lxor (gf_mul b 14) (Z.lxor (gf_mul (gf_mul b 3) 11) (Z.lxor (gf_mul (gf_mul b 2) 13) (gf_mul b 9))) = 0 /\
  Z.lxor (gf_mul b 14) (Z.lxor (gf_mul b 11) (Z.lxor (gf_mul (gf_mul b 3) 13) (gf_mul (gf_mul b 2) 9))) = 0.
Proof.
  intros Hb. split_and!; revert b Hb;
    [apply (bytes_eq_check (fun b => Z.lxor (gf_mul (gf_mul b 2) 14) (Z.lxor (gf_mul b 11) (Z.lxor (gf_mul b 13) (gf_mul (gf_mul b 3) 9)))) id)
    |apply (bytes_eq_check (fun b => Z.lxor (gf_mul (gf_mul b 3) 14) (Z.lxor (gf_mul (gf_mul b 2) 11) (Z.lxor (gf_mul b 13) (gf_mul b 9)))) (fun _ => 0))
    |apply (bytes_eq_check (fun b => Z.lxor (gf_mul b 14) (Z.lxor (gf_mul (gf_mul b 3) 11) (Z.lxor (gf_mul (gf_mul b 2) 13) (gf_mul b 9)))) (fun _ => 0))
    |apply (bytes_eq_check (fun b => Z.lxor (gf_mul b 14) (Z.lxor (gf_mul b 11) (Z.lxor (gf_mul (gf_mul b 3) 13) (gf_mul (gf_mul b 2) 9)))) (fun _ => 0))];
    vm_compute; reflexivity.
Qed.

(** One entry of a mixed column, and of the inverse mix. *)
Definition mix_row (a b c d : Z) : Z := Z.lxor (gf_mul a 2) (Z.lxor (gf_mul b 3) (Z.lxor c d)).
Definition inv_mix_row (a b c d : Z) : Z := Z.lxor (gf_mul a 14) (Z.lxor (gf_mul b 11) (Z.lxor (gf_mul c 13) (gf_mul d 9))).

Lemma mix_row_byte a b c d : is_byte a -> is_byte b -> is_byte c -> is_byte d -> is_byte (mix_row a b c d).
Proof.
  intros Ha Hb Hc Hd. unfold mix_row. apply lxor_byte; [|apply lxor_byte; [|by apply lxor_byte]]; apply gf_mul_byte; cbn; auto.
Qed.

Lemma inv_mix_mix a b c d : is_byte a -> is_byte b -> is_byte c -> is_byte d ->
  inv_mix_row (mix_row a b c d) (mix_row b c d a) (mix_row c d a b) (mix_row d a b c) = a.
Proof.
  intros Ha Hb Hc Hd.
  destruct (mix_coefficients a Ha) as (A & _ & _ & _), (mix_coefficients b Hb) as (_ & B & _ & _),
    (mix_coefficients c Hc) as (_ & _ & C & _), (mix_coefficients d Hd) as (_ & _ & _ & D).
  transitivity (Z.lxor a (Z.lxor 0 (Z.lxor 0 0))); [|by rewrite !Z.lxor_0_r].
  rewrite <- A at 5. rewrite <- C at 2. rewrite <- B at 1. rewrite <- D. unfold inv_mix_row, mix_row. rewrite !gf_mul_lxor. xor_ring.
Qed.

(** ** Tables and words of bytes *)

Lemma table_lookup (t : list Z) (f : Z -> Z) : map (fun b => t !!! Z.to_nat b) all_bytes = map f all_bytes ->
  forall b, is_byte b -> t !!! Z.to_nat b = f b.
Proof.
  intros E. apply bytes_eq_check. apply forallb_forall. intros b Hb. apply Z.eqb_eq.
  revert b Hb E. generalize all_bytes. intros l. induction l as [|y l IH]; intros b Hb E; [done|].
  cbn [map] in E. injection E as E1 E2. destruct Hb as [->|Hb]; [exact E1 | by apply IH].
Qed.

Lemma le_val_xor a : forall b, byte_ok a -> byte_ok b -> length a = length b -> le_val (xor_bytes a b) = Z.lxor (le_val a) (le_val b).
Proof.
  induction a as [|x a IH]; intros b Ha Hb L; (destruct b as [|y b]; [|]; try discriminate L); [reflexivity|].
  apply Forall_cons_1 in Ha as [Hx Ha]. apply Forall_cons_1 in Hb as [Hy Hb]. injection L as L.
  cbn [xor_bytes zip_with le_val]. fold (xor_bytes a b). rewrite IH by done.
  change 256 with (2 ^ 8). apply Z.bits_inj'. intros n Hn.
  assert (B : forall x v, 0 <= x < 2 ^ 8 -> Z.testbit (x + 2 ^ 8 * v) n = if n <? 8 then Z.testbit x n else Z.testbit v (n - 8)).
  { intros z v Hz. rewrite <- lor_shiftl_add by lia. rewrite Z.lor_spec, Z.shiftl_spec by lia. destruct (Z.ltb_spec n 8).
    - rewrite (Z.testbit_neg_r v) by lia. apply orb_false_r.
    - rewrite (bits_above z 8) by (assumption || lia). reflexivity. }
  rewrite Z.lxor_spec, !B by (done || apply (lxor_range 8); lia). destruct (n <? 8); by rewrite Z.lxor_spec.
Qed.

Lemma s_box_byte b : is_byte b -> is_byte (s_box b).
Proof. intros H. rewrite <- sub_byte_spec by done. by apply sub_byte_range. Qed.

(** Byte [n] of a word, read with a shift and a mask. *)
Lemma le_val_byte w n : byte_ok w -> (n < length w)%nat -> Z.land (Z.shiftr (le_val w) (8 * Z.of_nat n)) 0xff = w !!! n.
Proof.
  intros B Hn. change 0xff with (Z.ones 8). rewrite Z.land_ones, Z.shiftr_div_pow2 by lia.
  rewrite <- le_val_drop by exact B. destruct (drop n w) as [|b l] eqn:E; [apply (f_equal length) in E; rewrite length_drop in E; cbn in E; lia|].
  assert (Eb : w !!! n = b) by (rewrite <- (Nat.add_0_r n), <- lookup_total_drop, E; reflexivity).
  assert (Hb : 0 <= b < 2 ^ 8) by (pose proof (Forall_drop _ n _ B) as F; rewrite E in F; by inversion F).
  cbn [le_val]. rewrite Z.mul_comm, Z_mod_plus_full, Eb. by apply Z.mod_small.
Qed.
