(* ===== verification/Oaes.v ===== *)
(** * OpenAES (src/Native/libcryptonote/crypto/oaes_lib.c, oaes_lib.h)

    Keys, key expansion, blocks, messages in ECB and CBC mode. A pointer that may be
    NULL is an [option], a size is a [Z]; the outcome of each [calloc] is an argument,
    [rand] and the seed of the C library are parameters. The outer [option] of
    the functions on buffers is an access outside of them. The debugging steps
    ([OAES_DEBUG]) and ISAAC are not part of the build ([oaes_config.h]). *)

From Stdlib Require Import ZArith Lia.
From stdpp Require Import base tactics list numbers option.
From S2P Require Import Prelude Radix Words AesTables.
Open Scope Z_scope.

Inductive OAES_RET :=
  | OAES_RET_SUCCESS | OAES_RET_UNKNOWN | OAES_RET_ARG1 | OAES_RET_ARG2 | OAES_RET_ARG3 | OAES_RET_ARG4
  | OAES_RET_ARG5 | OAES_RET_NOKEY | OAES_RET_MEM | OAES_RET_BUF | OAES_RET_HEADER.
#[export] Instance oaes_ret_eq_dec : EqDecision OAES_RET.
Proof. solve_decision. Defined.

(** The value of [_rc || rc]: 1, which is [OAES_RET_UNKNOWN], for an error. *)
Definition oaes_or (_rc rc : OAES_RET) : OAES_RET :=
  match _rc, rc with OAES_RET_SUCCESS, OAES_RET_SUCCESS => OAES_RET_SUCCESS | _, _ => OAES_RET_UNKNOWN end.

Definition OAES_BLOCK_SIZE : Z := 16.
Definition OAES_RKEY_LEN : Z := 4.
Definition OAES_COL_LEN : Z := 4.
Definition OAES_ROUND_BASE : Z := 7.
Definition OAES_FLAG_PAD : Z := 0x01.
Definition OAES_OPTION_NONE : Z := 0.
Definition OAES_OPTION_ECB : Z := 1.
Definition OAES_OPTION_CBC : Z := 2.

Definition oaes_header : list Z := [0x4f; 0x41; 0x45; 0x53; 0x01; 0x02; 0; 0; 0; 0; 0; 0; 0; 0; 0; 0].

(** ** The steps of a round *)

Definition oaes_word_rot_left (word : list Z) : list Z := take 3 (drop 1 word) ++ [word !!! 0%nat].

Definition oaes_shift_rows (block : list Z) : list Z :=
  map (fun j => block !!! j) [0x0; 0x5; 0xa; 0xf; 0x4; 0x9; 0xe; 0x3; 0x8; 0xd; 0x2; 0x7; 0xc; 0x1; 0x6; 0xb]%nat.
Definition oaes_inv_shift_rows (block : list Z) : list Z :=
  map (fun j => block !!! j) [0x0; 0xd; 0xa; 0x7; 0x4; 0x1; 0xe; 0xb; 0x8; 0x5; 0x2; 0xf; 0xc; 0x9; 0x6; 0x3]%nat.

Definition oaes_mix_cols (word : list Z) : list Z :=
  let w j := word !!! j in
  [Z.lxor (Z.lxor (Z.lxor (oaes_gf_mul (w 0%nat) 0x02) (oaes_gf_mul (w 1%nat) 0x03)) (w 2%nat)) (w 3%nat);
   Z.lxor (Z.lxor (Z.lxor (w 0%nat) (oaes_gf_mul (w 1%nat) 0x02)) (oaes_gf_mul (w 2%nat) 0x03)) (w 3%nat);
   Z.lxor (Z.lxor (Z.lxor (w 0%nat) (w 1%nat)) (oaes_gf_mul (w 2%nat) 0x02)) (oaes_gf_mul (w 3%nat) 0x03);
   Z.lxor (Z.lxor (Z.lxor (oaes_gf_mul (w 0%nat) 0x03) (w 1%nat)) (w 2%nat)) (oaes_gf_mul (w 3%nat) 0x02)].
Definition oaes_inv_mix_cols (word : list Z) : list Z :=
  let w j k := oaes_gf_mul (word !!! j) k in
  [Z.lxor (Z.lxor (Z.lxor (w 0%nat 0x0e) (w 1%nat 0x0b)) (w 2%nat 0x0d)) (w 3%nat 0x09);
   Z.lxor (Z.lxor (Z.lxor (w 0%nat 0x09) (w 1%nat 0x0e)) (w 2%nat 0x0b)) (w 3%nat 0x0d);
   Z.lxor (Z.lxor (Z.lxor (w 0%nat 0x0d) (w 1%nat 0x09)) (w 2%nat 0x0e)) (w 3%nat 0x0b);
   Z.lxor (Z.lxor (Z.lxor (w 0%nat 0x0b) (w 1%nat 0x0d)) (w 2%nat 0x09)) (w 3%nat 0x0e)].

(** The four calls on [c], [c + 4], [c + 8] and [c + 12]. *)
Definition on_columns (f : list Z -> list Z) (c : list Z) : list Z :=
  f (take 4 c) ++ f (take 4 (drop 4 c)) ++ f (take 4 (drop 8 c)) ++ f (take 4 (drop 12 c)).

(** [c[_j] = c[_j] ^ exp_data[off + _j]] for all [_j]. *)
Definition add_round_key (exp_data : list Z) (off : Z) (c : list Z) : list Z :=
  imap (fun _j b => Z.lxor b (exp_data !!! (Z.to_nat off + _j)%nat)) c.

(** ** Keys and contexts *)

(** [data] and [exp_data] are empty before they are allocated. *)
Record oaes_key := OaesKey {
  data_len : Z; data : list Z; exp_data_len : Z; exp_data : list Z; num_keys : Z; key_base : Z
}.
Record oaes_ctx := OaesCtx { ctx_key : option oaes_key; options : Z; iv : list Z }.
Definition set_key (_ctx : oaes_ctx) (key : option oaes_key) : oaes_ctx := OaesCtx key (options _ctx) (iv _ctx).
Definition set_iv (_ctx : oaes_ctx) (iv : list Z) : oaes_ctx := OaesCtx (ctx_key _ctx) (options _ctx) iv.

Definition oaes_key_destroy (key : option oaes_key) : OAES_RET * option oaes_key := (OAES_RET_SUCCESS, None).

(** One iteration of the key expansion, on the bytes of [exp_data]. *)
Definition key_expand_step (key_base : Z) (exp_data : list Z) (_i : Z) : list Z :=
  let _temp := take 4 (drop (Z.to_nat ((_i - 1) * OAES_RKEY_LEN)) exp_data) in
  let _temp :=
    if _i mod key_base =? 0 then
      let _temp := map oaes_sub_byte (oaes_word_rot_left _temp) in
      <[0%nat := Z.lxor (_temp !!! 0%nat) (oaes_gf_8 !!! Z.to_nat (_i / key_base - 1))]> _temp
    else if (6 <? key_base) && (_i mod key_base =? 4) then map oaes_sub_byte _temp
    else _temp in
  foldl (fun exp_data _j =>
    <[Z.to_nat (_i * OAES_RKEY_LEN + _j) :=
      Z.lxor (exp_data !!! Z.to_nat ((_i - key_base) * OAES_RKEY_LEN + _j)) (_temp !!! Z.to_nat _j)]> exp_data)
    exp_data [0; 1; 2; 3].

(** [for (i = first; i < last; i++)]. *)
Definition z_range (first last : Z) : list Z := map (fun k => first + Z.of_nat k) (seq 0 (Z.to_nat (last - first))).

(** The key and the code; [exp_ok] says whether [exp_data] was allocated. *)
Definition key_expand (exp_ok : bool) (key : oaes_key) : OAES_RET * oaes_key :=
  let key_base := data_len key / OAES_RKEY_LEN in
  let num_keys := key_base + OAES_ROUND_BASE in
  let exp_data_len := num_keys * OAES_RKEY_LEN * OAES_COL_LEN in
  if negb exp_ok then (OAES_RET_MEM, OaesKey (data_len key) (data key) exp_data_len [] num_keys key_base)
  else
    let exp_data := replicate (Z.to_nat exp_data_len) 0 in
    let exp_data := data key ++ drop (Z.to_nat (data_len key)) exp_data in
    let exp_data := foldl (key_expand_step key_base) exp_data (z_range key_base (num_keys * OAES_RKEY_LEN)) in
    (OAES_RET_SUCCESS, OaesKey (data_len key) (data key) exp_data_len exp_data num_keys key_base).

Definition oaes_key_expand (exp_ok : bool) (ctx : option oaes_ctx) : OAES_RET * option oaes_ctx :=
  match ctx with
  | None => (OAES_RET_ARG1, ctx)
  | Some _ctx =>
      match ctx_key _ctx with
      | None => (OAES_RET_NOKEY, ctx)
      | Some key => let '(rc, key) := key_expand exp_ok key in (rc, Some (set_key _ctx (Some key)))
      end
  end.

(** Put a key of these bytes into the context, expand it, and take it out again
    when that fails: the end of [oaes_key_gen] and of the two imports. *)
Definition install_key (exp_ok : bool) (_ctx : oaes_ctx) (bytes : list Z) : OAES_RET * oaes_ctx :=
  let _ctx := set_key _ctx (Some (OaesKey (Z.of_nat (length bytes)) bytes 0 [] 0 0)) in
  let '(rc, ctx) := oaes_key_expand exp_ok (Some _ctx) in
  let _ctx := default _ctx ctx in
  let _rc := oaes_or OAES_RET_SUCCESS rc in
  if decide (_rc = OAES_RET_SUCCESS) then (OAES_RET_SUCCESS, _ctx)
  else (_rc, set_key _ctx (snd (oaes_key_destroy (ctx_key _ctx)))).

(** The three allocations of a key: the structure, its data, its expansion. *)
Record key_memory := KeyMemory { key_ok : bool; data_ok : bool; exp_ok : bool }.

(** *** Import *)

Definition oaes_key_import_data (mem : key_memory) (ctx : option oaes_ctx) (data : option (list Z)) (data_len : Z)
    : OAES_RET * option oaes_ctx :=
  match ctx, data with
  | None, _ => (OAES_RET_ARG1, ctx)
  | Some _, None => (OAES_RET_ARG2, ctx)
  | Some _ctx, Some data =>
      if negb ((data_len =? 16) || (data_len =? 24) || (data_len =? 32)) then (OAES_RET_ARG3, ctx)
      else
        let _ctx := set_key _ctx (snd (oaes_key_destroy (ctx_key _ctx))) in
        if negb (key_ok mem) || negb (data_ok mem) then (OAES_RET_MEM, Some _ctx)
        else let '(rc, _ctx) := install_key (exp_ok mem) _ctx (take (Z.to_nat data_len) data) in (rc, Some _ctx)
  end.

Definition oaes_key_import (mem : key_memory) (ctx : option oaes_ctx) (data : option (list Z)) (data_len : Z)
    : OAES_RET * option oaes_ctx :=
  match ctx, data with
  | None, _ => (OAES_RET_ARG1, ctx)
  | Some _, None => (OAES_RET_ARG2, ctx)
  | Some _ctx, Some data =>
      if negb ((data_len =? 16 + OAES_BLOCK_SIZE) || (data_len =? 24 + OAES_BLOCK_SIZE) || (data_len =? 32 + OAES_BLOCK_SIZE))
      then (OAES_RET_ARG3, ctx)
      else if negb (bool_decide (take 4 data = take 4 oaes_header)) then (OAES_RET_HEADER, ctx)
      else if negb (data !!! 4%nat =? 0x01) then (OAES_RET_HEADER, ctx)
      else if negb (data !!! 5%nat =? 0x01) then (OAES_RET_HEADER, ctx)
      else
        let _key_length := data !!! 7%nat in
        if negb ((_key_length =? 16) || (_key_length =? 24) || (_key_length =? 32)) then (OAES_RET_HEADER, ctx)
        else if negb (data_len =? _key_length + OAES_BLOCK_SIZE) then (OAES_RET_ARG3, ctx)
        else
          let _ctx := set_key _ctx (snd (oaes_key_destroy (ctx_key _ctx))) in
          if negb (key_ok mem) || negb (data_ok mem) then (OAES_RET_MEM, Some _ctx)
          else
            let '(rc, _ctx) := install_key (exp_ok mem) _ctx (take (Z.to_nat _key_length) (drop 16 data)) in (rc, Some _ctx)
  end.

(** *** Export *)

Definition oaes_key_export_data (ctx : option oaes_ctx) (data : option (list Z)) (data_len : option Z)
    : option (OAES_RET * option (list Z) * option Z) :=
  match ctx with
  | None => Some (OAES_RET_ARG1, data, data_len)
  | Some _ctx =>
      match ctx_key _ctx, data_len with
      | None, _ => Some (OAES_RET_NOKEY, data, data_len)
      | Some _, None => Some (OAES_RET_ARG3, data, data_len)
      | Some key, Some _data_len_in =>
          let len := Oaes.data_len key in
          match data with
          | None => Some (OAES_RET_SUCCESS, data, Some len)
          | Some buf =>
              if _data_len_in <? len then Some (OAES_RET_BUF, data, Some len)
              else if Z.of_nat (length buf) <? len then None
              else Some (OAES_RET_SUCCESS, Some (write_at 0 (Oaes.data key) buf), Some len)
          end
      end
  end.

Definition oaes_key_export (ctx : option oaes_ctx) (data : option (list Z)) (data_len : option Z)
    : option (OAES_RET * option (list Z) * option Z) :=
  match ctx with
  | None => Some (OAES_RET_ARG1, data, data_len)
  | Some _ctx =>
      match ctx_key _ctx, data_len with
      | None, _ => Some (OAES_RET_NOKEY, data, data_len)
      | Some _, None => Some (OAES_RET_ARG3, data, data_len)
      | Some key, Some _data_len_in =>
          let len := Oaes.data_len key + OAES_BLOCK_SIZE in
          match data with
          | None => Some (OAES_RET_SUCCESS, data, Some len)
          | Some buf =>
              if _data_len_in <? len then Some (OAES_RET_BUF, data, Some len)
              else if Z.of_nat (length buf) <? len then None
              else
                let buf := write_at 0 oaes_header buf in
                let buf := <[5%nat := 0x01]> buf in
                let buf := <[7%nat := u8 (Oaes.data_len key)]> buf in
                Some (OAES_RET_SUCCESS, Some (write_at 16 (Oaes.data key) buf), Some len)
          end
      end
  end.

(** *** Generation, options, allocation *)

Section Rand.
Context {rng : Type} (rand : rng -> Z * rng) (srand : Z -> rng).

(** [n] calls of [rand], cast to bytes. *)
Fixpoint rand_bytes (n : nat) (r : rng) : list Z * rng :=
  match n with
  | O => ([], r)
  | S n => let '(x, r) := rand r in let '(l, r) := rand_bytes n r in (u8 x :: l, r)
  end.

Definition oaes_key_gen (mem : key_memory) (ctx : option oaes_ctx) (key_size : Z) (r : rng)
    : OAES_RET * option oaes_ctx * rng :=
  match ctx with
  | None => (OAES_RET_ARG1, ctx, r)
  | Some _ctx =>
      if negb (key_ok mem) then (OAES_RET_MEM, ctx, r)
      else
        let _ctx := match ctx_key _ctx with Some _ => set_key _ctx (snd (oaes_key_destroy (ctx_key _ctx))) | None => _ctx end in
        if negb (data_ok mem) then (OAES_RET_MEM, Some _ctx, r)
        else
          let '(bytes, r) := rand_bytes (Z.to_nat key_size) r in
          let '(rc, _ctx) := install_key (exp_ok mem) _ctx bytes in
          (rc, Some _ctx, r)
  end.
Definition oaes_key_gen_128 (mem : key_memory) (ctx : option oaes_ctx) (r : rng) := oaes_key_gen mem ctx 16 r.
Definition oaes_key_gen_192 (mem : key_memory) (ctx : option oaes_ctx) (r : rng) := oaes_key_gen mem ctx 24 r.
Definition oaes_key_gen_256 (mem : key_memory) (ctx : option oaes_ctx) (r : rng) := oaes_key_gen mem ctx 32 r.

(** [_ctx->options |= option] at the end, in 16 bits. *)
Definition oaes_set_option (ctx : option oaes_ctx) (opt : Z) (value : option (list Z)) (r : rng)
    : OAES_RET * option oaes_ctx * rng :=
  match ctx with
  | None => (OAES_RET_ARG1, ctx, r)
  | Some _ctx =>
      if opt =? OAES_OPTION_ECB then
        let o := Z.land (options _ctx) (Z.lnot OAES_OPTION_CBC) in
        (OAES_RET_SUCCESS, Some (OaesCtx (ctx_key _ctx) (Z.lor o opt) (replicate 16 0)), r)
      else if opt =? OAES_OPTION_CBC then
        let o := Z.land (options _ctx) (Z.lnot OAES_OPTION_ECB) in
        let '(iv, r) := match value with Some value => (take 16 value, r) | None => rand_bytes 16 r end in
        (OAES_RET_SUCCESS, Some (OaesCtx (ctx_key _ctx) (Z.lor o opt) iv), r)
      else (OAES_RET_ARG2, ctx, r)
  end.

(** [seed] is the value of [oaes_get_seed]; [None] for NULL. *)
Definition oaes_alloc (ctx_ok : bool) (seed : Z) (r : rng) : option oaes_ctx * rng :=
  if negb ctx_ok then (None, r)
  else
    let r := srand seed in
    let _ctx := OaesCtx None 0 (replicate 16 0) in
    let '(_, ctx, r) := oaes_set_option (Some _ctx) OAES_OPTION_CBC None r in
    (ctx, r).
End Rand.

(** [ctx] is the pointer to the pointer. *)
Definition oaes_free (ctx : option (option oaes_ctx)) : OAES_RET * option (option oaes_ctx) :=
  match ctx with
  | None => (OAES_RET_ARG1, ctx)
  | Some None => (OAES_RET_SUCCESS, ctx)
  | Some (Some _) => (OAES_RET_SUCCESS, Some None)
  end.

(** ** Blocks *)

(** Rounds 1 to [num_keys - 2] of [oaes_encrypt_block]. *)
Definition encrypt_round (key : oaes_key) (c : list Z) (_i : Z) : list Z :=
  let c := map oaes_sub_byte c in
  let c := oaes_shift_rows c in
  let c := on_columns oaes_mix_cols c in
  add_round_key (exp_data key) (_i * OAES_RKEY_LEN * OAES_COL_LEN) c.

Definition encrypt_bytes (key : oaes_key) (c : list Z) : list Z :=
  let c := add_round_key (exp_data key) 0 c in
  let c := foldl (encrypt_round key) c (z_range 1 (num_keys key - 1)) in
  let c := map oaes_sub_byte c in
  let c := oaes_shift_rows c in
  add_round_key (exp_data key) ((num_keys key - 1) * OAES_RKEY_LEN * OAES_COL_LEN) c.

Definition oaes_encrypt_block (ctx : option oaes_ctx) (c : option (list Z)) (c_len : Z) : OAES_RET * option (list Z) :=
  match ctx, c with
  | None, _ => (OAES_RET_ARG1, c)
  | Some _, None => (OAES_RET_ARG2, c)
  | Some _ctx, Some block =>
      if negb (c_len =? OAES_BLOCK_SIZE) then (OAES_RET_ARG3, c)
      else match ctx_key _ctx with
           | None => (OAES_RET_NOKEY, c)
           | Some key => (OAES_RET_SUCCESS, Some (encrypt_bytes key block))
           end
  end.

(** Rounds [num_keys - 2] down to 1 of [oaes_decrypt_block]. *)
Definition decrypt_round (key : oaes_key) (c : list Z) (_i : Z) : list Z :=
  let c := oaes_inv_shift_rows c in
  let c := map oaes_inv_sub_byte c in
  let c := add_round_key (exp_data key) (_i * OAES_RKEY_LEN * OAES_COL_LEN) c in
  on_columns oaes_inv_mix_cols c.

Definition decrypt_bytes (key : oaes_key) (c : list Z) : list Z :=
  let c := add_round_key (exp_data key) ((num_keys key - 1) * OAES_RKEY_LEN * OAES_COL_LEN) c in
  let c := foldl (decrypt_round key) c (rev (z_range 1 (num_keys key - 1))) in
  let c := oaes_inv_shift_rows c in
  let c := map oaes_inv_sub_byte c in
  add_round_key (exp_data key) 0 c.

Definition oaes_decrypt_block (ctx : option oaes_ctx) (c : option (list Z)) (c_len : Z) : OAES_RET * option (list Z) :=
  match ctx, c with
  | None, _ => (OAES_RET_ARG1, c)
  | Some _, None => (OAES_RET_ARG2, c)
  | Some _ctx, Some block =>
      if negb (c_len =? OAES_BLOCK_SIZE) then (OAES_RET_ARG3, c)
      else match ctx_key _ctx with
           | None => (OAES_RET_NOKEY, c)
           | Some key => (OAES_RET_SUCCESS, Some (decrypt_bytes key block))
           end
  end.

(** [_rc = _rc || block(..)]: after an error the call is left out. *)
Definition oaes_seq (_rc : OAES_RET) (call : OAES_RET * option (list Z)) (block : list Z) : OAES_RET * list Z :=
  match _rc with
  | OAES_RET_SUCCESS => (oaes_or _rc (fst call), default block (snd call))
  | _ => (OAES_RET_UNKNOWN, block)
  end.

(** ** Messages *)

Definition xor_block (a b : list Z) : list Z := imap (fun _j x => Z.lxor x (b !!! _j)) a.
Definition has_option (o flag : Z) : bool := negb (Z.land o flag =? 0).

(** One iteration of the loop of [oaes_encrypt], at the offset [_i] of the data in [c]. *)
Definition encrypt_step (m_len _i : Z) (_ctx : oaes_ctx) (c : list Z) (_rc : OAES_RET) : OAES_RET * oaes_ctx * list Z :=
  let off := Z.to_nat (2 * OAES_BLOCK_SIZE + _i) in
  let _block_size := Z.to_nat (Z.min (m_len - _i) OAES_BLOCK_SIZE) in
  let _block := take _block_size (drop off c) in
  let _block := _block ++ map (fun _j => Z.of_nat _j + 1) (seq 0 (16 - _block_size)) in
  let _block := if has_option (options _ctx) OAES_OPTION_CBC then xor_block _block (iv _ctx) else _block in
  let '(_rc, _block) := oaes_seq _rc (oaes_encrypt_block (Some _ctx) (Some _block) OAES_BLOCK_SIZE) _block in
  let c := write_at off _block c in
  let _ctx := if has_option (options _ctx) OAES_OPTION_CBC then set_iv _ctx _block else _ctx in
  (_rc, _ctx, c).

(** [n] iterations, from the offset [_i] on. *)
Fixpoint encrypt_loop (n : nat) (m_len _i : Z) (_ctx : oaes_ctx) (c : list Z) (_rc : OAES_RET) : OAES_RET * oaes_ctx * list Z :=
  match n with
  | O => (_rc, _ctx, c)
  | S n =>
      let '(_rc, _ctx, c) := encrypt_step m_len _i _ctx c _rc in
      encrypt_loop n m_len (_i + OAES_BLOCK_SIZE) _ctx c _rc
  end.

Definition oaes_encrypt (ctx : option oaes_ctx) (m : option (list Z)) (m_len : Z) (c : option (list Z)) (c_len : option Z)
    : option (OAES_RET * option oaes_ctx * option (list Z) * option Z) :=
  let _pad_len := if m_len mod OAES_BLOCK_SIZE =? 0 then 0 else OAES_BLOCK_SIZE - m_len mod OAES_BLOCK_SIZE in
  let _flags := if _pad_len =? 0 then 0 else OAES_FLAG_PAD in
  match ctx, m, c_len with
  | None, _, _ => Some (OAES_RET_ARG1, ctx, c, c_len)
  | Some _, None, _ => Some (OAES_RET_ARG2, ctx, c, c_len)
  | Some _, Some _, None => Some (OAES_RET_ARG5, ctx, c, c_len)
  | Some _ctx, Some m, Some _c_len_in =>
      let _c_data_len := u64 (m_len + _pad_len) in
      let len := u64 (2 * OAES_BLOCK_SIZE + m_len + _pad_len) in
      match c with
      | None => Some (OAES_RET_SUCCESS, ctx, c, Some len)
      | Some buf =>
          if _c_len_in <? len then Some (OAES_RET_BUF, ctx, c, Some len)
          else match ctx_key _ctx with
          | None => Some (OAES_RET_NOKEY, ctx, c, Some len)
          | Some _ =>
              if (Z.of_nat (length buf) <? 2 * OAES_BLOCK_SIZE + _c_data_len) || (Z.of_nat (length m) <? m_len) then None
              else
                let buf := write_at 0 oaes_header buf in
                let buf := write_at 6 (le_bytes 2 (options _ctx)) buf in
                let buf := write_at 8 [_flags] buf in
                let buf := write_at 16 (iv _ctx) buf in
                let buf := write_at 32 (take (Z.to_nat m_len) m) buf in
                let '(_rc, _ctx, buf) :=
                  encrypt_loop (Z.to_nat (_c_data_len / OAES_BLOCK_SIZE)) m_len 0 _ctx buf OAES_RET_SUCCESS in
                Some (_rc, Some _ctx, Some buf, Some len)
          end
      end
  end.

(** One iteration of the loop of [oaes_decrypt]: the buffer [m], the block [_iv]. *)
Definition decrypt_step (_options m_len _i : Z) (_ctx : oaes_ctx) (c m _iv : list Z) (_rc : OAES_RET) : OAES_RET * list Z * list Z :=
  let _iv := if has_option _options OAES_OPTION_CBC && (0 <? _i) then take 16 (drop (Z.to_nat (OAES_BLOCK_SIZE + _i)) c) else _iv in
  let off := Z.to_nat _i in
  let len := Z.min (m_len - _i) OAES_BLOCK_SIZE in
  let block := take 16 (drop off m) in
  let '(_rc, block) := oaes_seq _rc (oaes_decrypt_block (Some _ctx) (Some block) len) block in
  let block := if has_option _options OAES_OPTION_CBC then xor_block block _iv else block in
  (_rc, write_at off block m, _iv).

Fixpoint decrypt_loop (n : nat) (_options m_len _i : Z) (_ctx : oaes_ctx) (c m _iv : list Z) (_rc : OAES_RET) : list Z :=
  match n with
  | O => m
  | S n =>
      let '(_rc, m, _iv) := decrypt_step _options m_len _i _ctx c m _iv _rc in
      decrypt_loop n _options m_len (_i + OAES_BLOCK_SIZE) _ctx c m _iv _rc
  end.

(** The checks of the header, its options and flags. *)
Definition header_ok (c : list Z) (_options _flags : Z) : bool :=
  bool_decide (take 4 c = take 4 oaes_header) && (c !!! 4%nat =? 0x01) && (c !!! 5%nat =? 0x02) &&
  (Z.land _options (Z.lnot (Z.lor OAES_OPTION_ECB OAES_OPTION_CBC)) =? 0) &&
  negb (has_option _options OAES_OPTION_ECB && has_option _options OAES_OPTION_CBC) &&
  negb (_options =? OAES_OPTION_NONE) &&
  (Z.land _flags (Z.lnot OAES_FLAG_PAD) =? 0).

(** The end of [oaes_decrypt]: the pad is checked and removed. *)
Definition remove_pad (m : list Z) (m_len : Z) : option (OAES_RET * list Z * Z) :=
  if m_len =? 0 then None
  else
    let _temp := m !!! Z.to_nat (m_len - 1) in
    if (_temp <=? 0) || (0x0f <? _temp) then Some (OAES_RET_HEADER, m, m_len)
    else if forallb (fun _i => m !!! Z.to_nat (m_len - 1 - _i) =? _temp - _i) (z_range 0 _temp) then
      Some (OAES_RET_SUCCESS, write_at (Z.to_nat (m_len - _temp)) (replicate (Z.to_nat _temp) 0) m, m_len - _temp)
    else Some (OAES_RET_HEADER, m, m_len).

Definition oaes_decrypt (ctx : option oaes_ctx) (c : option (list Z)) (c_len : Z) (m : option (list Z)) (m_len : option Z)
    : option (OAES_RET * option (list Z) * option Z) :=
  match ctx, c with
  | None, _ => Some (OAES_RET_ARG1, m, m_len)
  | Some _, None => Some (OAES_RET_ARG2, m, m_len)
  | Some _ctx, Some c =>
      if negb (c_len mod OAES_BLOCK_SIZE =? 0) then Some (OAES_RET_ARG3, m, m_len)
      else match m_len with
      | None => Some (OAES_RET_ARG5, m, m_len)
      | Some _m_len_in =>
          let len := u64 (c_len - 2 * OAES_BLOCK_SIZE) in
          match m with
          | None => Some (OAES_RET_SUCCESS, m, Some len)
          | Some buf =>
              if _m_len_in <? len then Some (OAES_RET_BUF, m, Some len)
              else match ctx_key _ctx with
              | None => Some (OAES_RET_NOKEY, m, Some len)
              | Some _ =>
                  if (Z.of_nat (length c) <? 2 * OAES_BLOCK_SIZE + len) || (Z.of_nat (length buf) <? len) then None
                  else
                    let _options := le_val (take 2 (drop 6 c)) in
                    let _flags := c !!! 8%nat in
                    if negb (header_ok c _options _flags) then Some (OAES_RET_HEADER, m, Some len)
                    else
                      let _iv := take 16 (drop 16 c) in
                      let buf := write_at 0 (take (Z.to_nat len) (drop 32 c)) buf in
                      let buf := decrypt_loop (Z.to_nat (len / OAES_BLOCK_SIZE)) _options len 0 _ctx c buf _iv OAES_RET_SUCCESS in
                      if has_option _flags OAES_FLAG_PAD then
                        '(rc, buf, len) ← remove_pad buf len; Some (rc, Some buf, Some len)
                      else Some (OAES_RET_SUCCESS, Some buf, Some len)
              end
          end
      end
  end.

(** ** Rounds for the slow hash, and printing *)

Definition oaes_encryption_round (key c : option (list Z)) : OAES_RET * option (list Z) :=
  match key, c with
  | None, _ => (OAES_RET_ARG1, c)
  | Some _, None => (OAES_RET_ARG2, c)
  | Some key, Some c =>
      let c := map oaes_sub_byte c in
      let c := oaes_shift_rows c in
      let c := on_columns oaes_mix_cols c in
      (OAES_RET_SUCCESS, Some (add_round_key key 0 c))
  end.

Definition oaes_pseudo_encrypt_ecb (ctx : option oaes_ctx) (c : option (list Z)) : OAES_RET * option (list Z) :=
  match ctx, c with
  | None, _ => (OAES_RET_ARG1, c)
  | Some _, None => (OAES_RET_ARG2, c)
  | Some _ctx, Some _ =>
      match ctx_key _ctx with
      | None => (OAES_RET_NOKEY, c)
      | Some key =>
          (OAES_RET_SUCCESS,
           foldl (fun c _i => snd (oaes_encryption_round (Some (drop (Z.to_nat (_i * OAES_RKEY_LEN * OAES_COL_LEN)) (exp_data key))) c))
             c (z_range 0 10))
      end
  end.

(** A lower-case hexadecimal digit, and what the loop appends for the byte [_i]. *)
Definition hex_digit (d : Z) : Z := if d <? 10 then 48 + d else 87 + d.
Definition sprintf_byte (data : list Z) (_i : Z) : list Z :=
  let b := data !!! Z.to_nat _i in
  [hex_digit (b / 16); hex_digit (b mod 16); 32] ++
  (if negb (_i =? 0) && ((_i + 1) mod OAES_BLOCK_SIZE =? 0) then [10] else []).

Definition oaes_sprintf (buf : option (list Z)) (buf_len : option Z) (data : option (list Z)) (data_len : Z)
    : option (OAES_RET * option (list Z) * option Z) :=
  match buf_len with
  | None => Some (OAES_RET_ARG2, buf, buf_len)
  | Some _buf_len_in =>
      let len := u64 (data_len * 3 + data_len / OAES_BLOCK_SIZE + 1) in
      match buf with
      | None => Some (OAES_RET_SUCCESS, buf, Some len)
      | Some b =>
          if _buf_len_in <? len then Some (OAES_RET_BUF, buf, Some len)
          else match data with
          | None => Some (OAES_RET_ARG3, buf, Some len)
          | Some data =>
              let text := concat (map (sprintf_byte data) (z_range 0 data_len)) in
              if Z.of_nat (length b) <? Z.of_nat (length text) + 1 then None
              else Some (OAES_RET_SUCCESS, Some (write_at 0 (text ++ [0]) b), Some len)
          end
      end
  end.
