(* ===== verification/OaesProofs.v ===== *)
(** * OpenAES: blocks and key expansion are those of FIPS 197

    The bytes of a block are the concatenation of the four columns of the
    reference, the expanded key that of its words. *)

From Stdlib Require Import ZArith Lia Btauto.
From stdpp Require Import base tactics list numbers option.
From S2P Require Import Prelude Radix Words AesTables AesSpec AesProofs Oaes.
Open Scope Z_scope.

(** ** Columns *)

Definition column_ok (w : column) : Prop := length w = 4%nat /\ Forall is_byte w.
Definition state_ok (s : list column) : Prop := length s = 4%nat /\ Forall column_ok s.
Definition block_ok (c : list Z) : Prop := length c = 16%nat /\ byte_ok c.

(** The four bytes of a column, the four columns of a state. *)
Lemma column_cases w : column_ok w -> exists a b c d, w = [a; b; c; d] /\ is_byte a /\ is_byte b /\ is_byte c /\ is_byte d.
Proof.
  intros [L F]. destruct w as [|a [|b [|c [|d [|? ?]]]]]; try discriminate L.
  rewrite !Forall_cons_iff in F. destruct F as (?&?&?&?&_). by exists a, b, c, d.
Qed.
Lemma state_cases s : state_ok s -> exists w0 w1 w2 w3, s = [w0; w1; w2; w3] /\
  column_ok w0 /\ column_ok w1 /\ column_ok w2 /\ column_ok w3.
Proof.
  intros [L F]. destruct s as [|a [|b [|c [|d [|? ?]]]]]; try discriminate L.
  rewrite !Forall_cons_iff in F. destruct F as (?&?&?&?&_). by exists a, b, c, d.
Qed.
Ltac split_column H := apply column_cases in H as (?&?&?&?&->&?&?&?&?).
Ltac split_state H :=
  let A := fresh "A" in let B := fresh "B" in let C := fresh "C" in let D := fresh "D" in
  apply state_cases in H as (?&?&?&?&->&A&B&C&D); split_column A; split_column B; split_column C; split_column D.

Lemma column_intro a b c d : is_byte a -> is_byte b -> is_byte c -> is_byte d -> column_ok [a; b; c; d].
Proof. intros. split; [reflexivity|]. repeat (constructor; [assumption|]). constructor. Qed.
Lemma state_intro w0 w1 w2 w3 : column_ok w0 -> column_ok w1 -> column_ok w2 -> column_ok w3 -> state_ok [w0; w1; w2; w3].
Proof. intros. split; [reflexivity|]. repeat (constructor; [assumption|]). constructor. Qed.

(** A block is the concatenation of its columns. *)
Lemma columns_ok c : block_ok c -> state_ok (columns c) /\ concat (columns c) = c.
Proof.
  intros [L B]. do 17 (destruct c as [|? c]; try discriminate L). unfold byte_ok in B. rewrite !Forall_cons_iff in B.
  split; [|reflexivity]. apply state_intro; apply column_intro; apply B.
Qed.
Lemma state_block s : state_ok s -> block_ok (concat s) /\ columns (concat s) = s.
Proof. intros H. split_state H. split; [|reflexivity]. split; [reflexivity|]. cbn [concat app]. repeat (constructor; [assumption|]). constructor. Qed.

(** ** The steps of a round *)

Lemma sub_bytes_eq s : state_ok s -> map oaes_sub_byte (concat s) = concat (SubBytes s) /\ state_ok (SubBytes s).
Proof.
  intros H. split_state H. split; [cbn; by rewrite !sub_byte_spec|].
  apply state_intro; apply column_intro; (rewrite <- sub_byte_spec by done; by apply sub_byte_range).
Qed.
Lemma shift_rows_eq s : state_ok s -> oaes_shift_rows (concat s) = concat (ShiftRows s) /\ state_ok (ShiftRows s).
Proof. intros H. split_state H. split; [reflexivity|]. by apply state_intro; apply column_intro. Qed.

Lemma mix_cols_eq w : column_ok w -> oaes_mix_cols w = MixColumn w /\ column_ok (MixColumn w).
Proof.
  intros H. split_column H.
  assert (E : MixColumn [x; x0; x1; x2] = [mix_row x x0 x1 x2; mix_row x0 x1 x2 x; mix_row x1 x2 x x0; mix_row x2 x x0 x1]) by reflexivity.
  split; [|rewrite E; apply column_intro; by apply mix_row_byte]. rewrite E. unfold oaes_mix_cols. cbv zeta beta. cbn [list_lookup_total lookup_total].
  destruct (gf_table_spec x H) as (-> & -> & _), (gf_table_spec x0 H0) as (-> & -> & _), (gf_table_spec x1 H1) as (-> & -> & _),
    (gf_table_spec x2 H2) as (-> & -> & _).
  unfold mix_row. f_equal; [xor_ring|]. f_equal; [xor_ring|]. f_equal; [xor_ring|]. f_equal. xor_ring.
Qed.

Lemma mix_columns_eq s : state_ok s -> on_columns oaes_mix_cols (concat s) = concat (MixColumns s) /\ state_ok (MixColumns s).
Proof.
  intros H. pose proof (proj2 (state_block s H)) as E. apply state_cases in H as (w0 & w1 & w2 & w3 & -> & H0 & H1 & H2 & H3).
  unfold on_columns. set (c := concat _) in *. unfold columns in E. injection E as E0 E1 E2 E3. rewrite E0, E1, E2, E3.
  destruct (mix_cols_eq w0 H0) as [-> ?], (mix_cols_eq w1 H1) as [-> ?], (mix_cols_eq w2 H2) as [-> ?], (mix_cols_eq w3 H3) as [-> ?].
  split; [unfold MixColumns; cbn [map concat]; by rewrite app_nil_r | by apply state_intro].
Qed.

Lemma xor_bytes_ok a b : column_ok a -> column_ok b -> column_ok (xor_bytes a b).
Proof. intros Ha Hb. split_column Ha. split_column Hb. apply column_intro; by apply lxor_byte. Qed.

(** The round key as bytes. *)
Lemma imap_zip c : forall l off, (off + length c <= length l)%nat ->
  imap (fun j b => Z.lxor b (l !!! (off + j)%nat)) c = xor_bytes c (take (length c) (drop off l)).
Proof.
  induction c as [|x c IH]; intros l off H; [reflexivity|]. cbn [length] in *.
  destruct (drop off l) as [|y l'] eqn:E; [apply (f_equal length) in E; rewrite length_drop in E; cbn in E; lia|].
  assert (Ey : l !!! off = y) by (rewrite <- (Nat.add_0_r off), <- lookup_total_drop, E; reflexivity).
  assert (El : drop (S off) l = l') by (replace (S off) with (off + 1)%nat by lia; rewrite <- drop_drop, E; reflexivity).
  cbn [imap take xor_bytes zip_with]. rewrite Nat.add_0_r, Ey. f_equal.
  rewrite <- El. unfold xor_bytes in IH. rewrite <- IH by lia. apply imap_ext. intros j b _. cbn. do 2 f_equal. lia.
Qed.

Lemma add_round_key_eq l off c : 0 <= off -> (Z.to_nat off + length c <= length l)%nat ->
  add_round_key l off c = xor_bytes c (take (length c) (drop (Z.to_nat off) l)).
Proof. intros _ H. by apply imap_zip. Qed.

Lemma add_state s k : state_ok s -> state_ok k -> xor_bytes (concat s) (concat k) = concat (AddRoundKey s k) /\ state_ok (AddRoundKey s k).
Proof.
  intros Hs Hk. split.
  - split_state Hs. split_state Hk. reflexivity.
  - apply state_cases in Hs as (?&?&?&?&->&?&?&?&?), Hk as (?&?&?&?&->&?&?&?&?).
    apply state_intro; by apply xor_bytes_ok.
Qed.

(** ** Words in a list of bytes *)

Lemma length_cols ws : Forall column_ok ws -> length (concat ws) = (4 * length ws)%nat.
Proof.
  induction 1 as [|w ws [L _] _ IH]; [reflexivity|]. cbn [concat length]. rewrite length_app, L, IH. lia.
Qed.
Lemma drop_cols ws rest j : Forall column_ok ws -> (j <= length ws)%nat ->
  drop (4 * j) (concat ws ++ rest) = concat (drop j ws) ++ rest.
Proof.
  intros F H. rewrite <- (take_drop j ws) at 1. rewrite concat_app, <- app_assoc.
  rewrite drop_app_length'; [reflexivity|]. rewrite length_cols by (by apply Forall_take). rewrite length_take. lia.
Qed.
Lemma take_cols ws rest n : Forall column_ok ws -> (n <= length ws)%nat ->
  take (4 * n) (concat ws ++ rest) = concat (take n ws).
Proof.
  intros F H. rewrite <- (take_drop n ws) at 1. rewrite concat_app, <- app_assoc.
  rewrite take_app_length'; [reflexivity|]. rewrite length_cols by (by apply Forall_take). rewrite length_take. lia.
Qed.
Lemma cols_at ws rest j n : Forall column_ok ws -> (j + n <= length ws)%nat ->
  take (4 * n) (drop (4 * j) (concat ws ++ rest)) = concat (take n (drop j ws)).
Proof.
  intros F H. rewrite drop_cols by (done || lia). apply take_cols; [by apply Forall_drop|]. rewrite length_drop. lia.
Qed.
Lemma col_at ws rest j : Forall column_ok ws -> (j < length ws)%nat ->
  take 4 (drop (4 * j) (concat ws ++ rest)) = ws !!! j /\ column_ok (ws !!! j).
Proof.
  intros F H. destruct (lookup_lt_is_Some_2 ws j H) as [w E].
  split; [|erewrite list_lookup_total_correct by exact E; by eapply Forall_lookup_1].
  erewrite (list_lookup_total_correct ws) by exact E. change 4%nat with (4 * 1)%nat at 1. rewrite cols_at by (done || lia).
  rewrite (drop_S _ _ _ E). cbn [take concat]. by rewrite app_nil_r.
Qed.
Lemma byte_at ws rest j r : Forall column_ok ws -> (j < length ws)%nat -> (r < 4)%nat ->
  (concat ws ++ rest) !!! (4 * j + r)%nat = (ws !!! j) !!! r.
Proof.
  intros F H Hr. destruct (col_at ws rest j F H) as [<- _].
  by rewrite lookup_total_take, decide_True, lookup_total_drop.
Qed.

(** ** The key expansion *)

Lemma s_box_column w : column_ok w -> map oaes_sub_byte w = SubWord w /\ column_ok (SubWord w).
Proof.
  intros H. split_column H. split; [cbn; by rewrite !sub_byte_spec|].
  apply column_intro; (rewrite <- sub_byte_spec by done; by apply sub_byte_range).
Qed.
Lemma rot_column w : column_ok w -> oaes_word_rot_left w = RotWord w /\ column_ok (RotWord w).
Proof. intros H. split_column H. split; [reflexivity | by apply column_intro]. Qed.

Lemma rcon_eq k : (1 <= k <= 10)%nat -> Rcon k = [oaes_gf_8 !!! (k - 1)%nat; 0; 0; 0] /\ is_byte (oaes_gf_8 !!! (k - 1)%nat).
Proof.
  intros H. assert (C : Forall (fun k => Rcon k = [oaes_gf_8 !!! (k - 1)%nat; 0; 0; 0] /\ 0 <= oaes_gf_8 !!! (k - 1)%nat < 256) (seq 1 10)).
  { cbn [seq]. repeat (constructor; [split; [reflexivity | vm_compute; split; [discriminate | reflexivity]]|]). constructor. }
  rewrite Forall_forall in C. destruct (C k) as [E B]; [apply in_seq; lia|]. split; [exact E | exact B].
Qed.

Lemma xor_rcon w r : column_ok w -> xor_bytes w [r; 0; 0; 0] = <[0%nat := Z.lxor (w !!! 0%nat) r]> w.
Proof. intros H. split_column H. cbn. by rewrite !Z.lxor_0_r. Qed.

(** The transformed column of the reference. *)
Definition temp_word (nk i : nat) (temp : column) : column :=
  if (i mod nk =? 0)%nat then xor_bytes (SubWord (RotWord temp)) (Rcon (i / nk))
  else if (6 <? nk)%nat && (i mod nk =? 4)%nat then SubWord temp else temp.

Lemma temp_word_eq nk i temp : column_ok temp -> (0 < nk)%nat -> (nk <= i)%nat -> (i / nk <= 10)%nat ->
  (if Z.of_nat i mod Z.of_nat nk =? 0 then
     <[0%nat := Z.lxor (map oaes_sub_byte (oaes_word_rot_left temp) !!! 0%nat) (oaes_gf_8 !!! Z.to_nat (Z.of_nat i / Z.of_nat nk - 1))]>
       (map oaes_sub_byte (oaes_word_rot_left temp))
   else if (6 <? Z.of_nat nk) && (Z.of_nat i mod Z.of_nat nk =? 4) then map oaes_sub_byte temp else temp) = temp_word nk i temp
  /\ column_ok (temp_word nk i temp).
Proof.
  intros Ht Hn Hi Hk. rewrite <- Nat2Z.inj_mod, <- Nat2Z.inj_div. unfold temp_word.
  assert (K1 : (1 <= i / nk)%nat) by (apply Nat.div_le_lower_bound; lia).
  destruct (Nat.eqb_spec (i mod nk) 0) as [->|N].
  - cbn [Z.of_nat Z.eqb]. destruct (rot_column temp Ht) as [-> Hr]. destruct (s_box_column _ Hr) as [-> Hs].
    destruct (rcon_eq (i / nk)) as [-> Hb]; [lia|]. rewrite xor_rcon by done.
    replace (Z.to_nat (Z.of_nat (i / nk) - 1)) with (i / nk - 1)%nat by lia.
    split; [reflexivity|]. clear -Hs Hb. revert Hs Hb. generalize (oaes_gf_8 !!! (i / nk - 1)%nat), (SubWord (RotWord temp)).
    intros r w Hw Hr. split_column Hw. apply column_intro; try done. by apply lxor_byte.
  - destruct (Z.eqb_spec (Z.of_nat (i mod nk)) 0); [lia|].
    destruct (Nat.ltb_spec 6 nk), (Z.ltb_spec 6 (Z.of_nat nk)); try lia; cbn [andb]; [|done].
    destruct (Nat.eqb_spec (i mod nk) 4), (Z.eqb_spec (Z.of_nat (i mod nk)) 4); try lia; [|done].
    destruct (s_box_column temp Ht) as [-> ?]. done.
Qed.

Lemma next_word_eq nk w : next_word nk w = xor_bytes (w !!! (length w - nk)%nat) (temp_word nk (length w) (w !!! (length w - 1)%nat)).
Proof. reflexivity. Qed.

(** One iteration writes the next word. *)
Lemma expand_step_eq nk ws rest : Forall column_ok ws -> (0 < nk <= length ws)%nat -> (length ws / nk <= 10)%nat ->
  (4 <= length rest)%nat ->
  key_expand_step (Z.of_nat nk) (concat ws ++ rest) (Z.of_nat (length ws)) = concat (ws ++ [next_word nk ws]) ++ drop 4 rest /\
  column_ok (next_word nk ws).
Proof.
  intros F Hn Hk Hr. set (i := length ws) in *. unfold key_expand_step.
  replace (Z.to_nat ((Z.of_nat i - 1) * OAES_RKEY_LEN)) with (4 * (i - 1))%nat by (unfold OAES_RKEY_LEN; lia).
  destruct (col_at ws rest (i - 1) F ltac:(lia)) as [-> Ht].
  cbv zeta. destruct (temp_word_eq nk i (ws !!! (i - 1)%nat) Ht) as [-> Htw]; [lia..|].
  destruct (col_at ws rest (i - nk) F ltac:(lia)) as [_ Hw].
  rewrite next_word_eq. fold i. split; [|by apply xor_bytes_ok].
  assert (Lw : length (concat ws) = (4 * i)%nat) by (by apply length_cols).
  assert (Bt : forall r rest', (r < 4)%nat -> (concat ws ++ rest') !!! Z.to_nat ((Z.of_nat i - Z.of_nat nk) * OAES_RKEY_LEN + Z.of_nat r)
    = (ws !!! (i - nk)%nat) !!! r).
  { intros r rest' Hr'. replace (Z.to_nat _) with (4 * (i - nk) + r)%nat by (unfold OAES_RKEY_LEN; lia). apply byte_at; [done | lia | done]. }
  assert (Ins : forall r x rest', (r < 4)%nat -> <[Z.to_nat (Z.of_nat i * OAES_RKEY_LEN + Z.of_nat r) := x]> (concat ws ++ rest')
    = concat ws ++ <[r := x]> rest').
  { intros r x rest' Hr'. replace (Z.to_nat _) with (length (concat ws) + r)%nat by (unfold OAES_RKEY_LEN; lia). apply insert_app_r. }
  change [0; 1; 2; 3] with (map Z.of_nat [0; 1; 2; 3]%nat). cbn [map foldl].
  repeat first [rewrite Bt by lia | rewrite Ins by lia]. rewrite !Nat2Z.id, concat_app, <- app_assoc. f_equal.
  destruct rest as [|r0 [|r1 [|r2 [|r3 rest]]]]; try (cbn in Hr; lia).
  cbn [concat]. rewrite app_nil_r. clear Bt Ins. generalize dependent (temp_word nk i (ws !!! (i - 1)%nat)).
  generalize dependent (ws !!! (i - nk)%nat). intros w Hw t Htw. split_column Hw. split_column Htw. reflexivity.
Qed.

(** All iterations. *)
Lemma expand_loop_eq nk n : forall ws rest, Forall column_ok ws -> (0 < nk <= length ws)%nat ->
  ((length ws + n - 1) / nk <= 10)%nat -> length rest = (4 * n)%nat ->
  foldl (key_expand_step (Z.of_nat nk)) (concat ws ++ rest) (map (fun k => Z.of_nat (length ws) + Z.of_nat k) (seq 0 n))
  = concat (expand_words n nk ws) /\ Forall column_ok (expand_words n nk ws) /\ length (expand_words n nk ws) = (length ws + n)%nat.
Proof.
  induction n as [|n IH]; intros ws rest F Hn Hk Hr.
  - cbn [seq map foldl expand_words]. apply nil_length_inv in Hr as ->. rewrite app_nil_r, Nat.add_0_r. done.
  - cbn [seq map foldl expand_words]. rewrite Z.add_0_r.
    assert (Hk' : (length ws / nk <= 10)%nat).
    { etransitivity; [|exact Hk]. apply Nat.Div0.div_le_mono. lia. }
    destruct (expand_step_eq nk ws rest F Hn Hk' ltac:(lia)) as [-> Hw].
    assert (L : length (ws ++ [next_word nk ws]) = S (length ws)) by (rewrite length_app; cbn; lia).
    assert (F' : Forall column_ok (ws ++ [next_word nk ws])) by (apply Forall_app; split; [done | by constructor]).
    destruct (IH (ws ++ [next_word nk ws]) (drop 4 rest) F') as (E & F2 & L2);
      [rewrite L; lia | rewrite L; by replace (S (length ws) + n - 1)%nat with (length ws + S n - 1)%nat by lia
      | rewrite length_drop; lia |].
    rewrite <- seq_shift, map_map. split; [|split; [exact F2 | rewrite L2, L; lia]].
    rewrite <- E. f_equal. rewrite L. apply map_ext. intros k. lia.
Qed.

Lemma words_ok nk : forall key, length key = (4 * nk)%nat -> byte_ok key ->
  Forall column_ok (words nk key) /\ concat (words nk key) = key /\ length (words nk key) = nk.
Proof.
  induction nk as [|nk IH]; intros key L B; cbn [words]; [apply nil_length_inv in L as ->; done|].
  destruct (IH (drop 4 key)) as (F & E & Ln); [rewrite length_drop; lia | by apply Forall_drop|].
  split; [|split].
  - constructor; [|exact F]. split; [rewrite length_take; lia | by apply Forall_take].
  - cbn [concat]. rewrite E. apply take_drop.
  - cbn [length]. lia.
Qed.

(** The lengths of a key, in words. *)
Definition key_words (nk : nat) : Prop := nk = 4%nat \/ nk = 6%nat \/ nk = 8%nat.

(** An expanded key. *)
Record key_expanded (nk : nat) (key : oaes_key) : Prop := {
  ke_words : key_words nk;
  ke_length : length (data key) = (4 * nk)%nat;
  ke_bytes : byte_ok (data key);
  ke_data_len : data_len key = 4 * Z.of_nat nk;
  ke_num_keys : num_keys key = Z.of_nat nk + 7;
  ke_key_base : key_base key = Z.of_nat nk;
  ke_exp_len : exp_data_len key = 16 * (Z.of_nat nk + 7);
  ke_exp : exp_data key = concat (KeyExpansion nk (data key))
}.

Lemma key_schedule_ok nk key : key_words nk -> length key = (4 * nk)%nat -> byte_ok key ->
  Forall column_ok (KeyExpansion nk key) /\ length (KeyExpansion nk key) = (4 * (nk + 7))%nat.
Proof.
  intros Hn L B. destruct (words_ok nk key L B) as (F & E & Ln).
  destruct (expand_loop_eq nk (4 * (nk + 7) - nk) (words nk key) (replicate (4 * (4 * (nk + 7) - nk)) 0) F) as (_ & F' & L').
  - rewrite Ln. destruct Hn as [-> | [-> | ->]]; lia.
  - rewrite Ln. destruct Hn as [-> | [-> | ->]]; vm_compute; lia.
  - apply length_replicate.
  - split; [exact F'|]. unfold KeyExpansion. rewrite L', Ln. destruct Hn as [-> | [-> | ->]]; lia.
Qed.

Lemma key_expand_eq nk bytes : key_words nk -> length bytes = (4 * nk)%nat -> byte_ok bytes ->
  exists key, key_expand true (OaesKey (Z.of_nat (length bytes)) bytes 0 [] 0 0) = (OAES_RET_SUCCESS, key) /\
    data key = bytes /\ key_expanded nk key.
Proof.
  intros Hn L B. eexists. split; [reflexivity|]. split; [reflexivity|].
  assert (Eb : Z.of_nat (length bytes) / OAES_RKEY_LEN = Z.of_nat nk).
  { rewrite L. unfold OAES_RKEY_LEN. replace (Z.of_nat (4 * nk)) with (Z.of_nat nk * 4) by lia. by rewrite Z.div_mul. }
  split; cbn [data data_len num_keys key_base exp_data_len exp_data]; rewrite ?Eb; try done.
  - rewrite L. lia.
  - unfold OAES_ROUND_BASE, OAES_RKEY_LEN, OAES_COL_LEN. lia.
  - destruct (words_ok nk bytes L B) as (F & E & Ln).
    set (n := (4 * (nk + 7) - nk)%nat).
    assert (Hr : drop (Z.to_nat (Z.of_nat (length bytes))) (replicate (Z.to_nat ((Z.of_nat nk + OAES_ROUND_BASE) * OAES_RKEY_LEN * OAES_COL_LEN)) 0)
      = replicate (4 * n) 0).
    { rewrite drop_replicate, L. f_equal. unfold n, OAES_ROUND_BASE, OAES_RKEY_LEN, OAES_COL_LEN.
      destruct Hn as [-> | [-> | ->]]; reflexivity. }
    rewrite Hr. rewrite <- E at 1.
    assert (Hz : z_range (Z.of_nat nk) ((Z.of_nat nk + OAES_ROUND_BASE) * OAES_RKEY_LEN) =
      map (fun k => Z.of_nat (length (words nk bytes)) + Z.of_nat k) (seq 0 n)).
    { unfold z_range. rewrite Ln. f_equal. f_equal. unfold n, OAES_ROUND_BASE, OAES_RKEY_LEN. destruct Hn as [-> | [-> | ->]]; reflexivity. }
    rewrite Hz. apply expand_loop_eq; [exact F | | | apply length_replicate].
    + rewrite Ln. destruct Hn as [-> | [-> | ->]]; lia.
    + rewrite Ln. unfold n. destruct Hn as [-> | [-> | ->]]; vm_compute; lia.
Qed.

(** ** The cipher *)

Section Key.
Context (nk : nat) (key : oaes_key) (K : key_expanded nk key).
Local Abbreviation ws := (KeyExpansion nk (data key)).

Lemma round_key_ok r : (r < nk + 7)%nat -> state_ok (round_key ws r).
Proof using K.
  intros H. destruct (key_schedule_ok nk (data key) (ke_words _ _ K) (ke_length _ _ K) (ke_bytes _ _ K)) as [F L].
  unfold round_key. split; [rewrite length_take, length_drop; lia|]. by apply Forall_take, Forall_drop.
Qed.

Lemma round_key_eq r s : (r < nk + 7)%nat -> state_ok s ->
  add_round_key (exp_data key) (Z.of_nat r * OAES_RKEY_LEN * OAES_COL_LEN) (concat s) = concat (AddRoundKey s (round_key ws r)) /\
  state_ok (AddRoundKey s (round_key ws r)).
Proof using K.
  intros H Hs. destruct (key_schedule_ok nk (data key) (ke_words _ _ K) (ke_length _ _ K) (ke_bytes _ _ K)) as [F L].
  pose proof (add_state s (round_key ws r) Hs (round_key_ok r H)) as [E Hok]. split; [|exact Hok]. rewrite <- E.
  destruct (state_block s Hs) as [[Lb _] _]. rewrite (ke_exp _ _ K).
  replace (Z.of_nat r * OAES_RKEY_LEN * OAES_COL_LEN) with (Z.of_nat (4 * (4 * r))) by (unfold OAES_RKEY_LEN, OAES_COL_LEN; lia).
  rewrite add_round_key_eq, Nat2Z.id, Lb; [|lia|rewrite Nat2Z.id, Lb, length_cols, L by done; lia]. f_equal.
  rewrite <- (app_nil_r (concat ws)). change 16%nat with (4 * 4)%nat. rewrite cols_at by (done || lia). reflexivity.
Qed.

Lemma encrypt_round_eq r s : (r < nk + 7)%nat -> state_ok s ->
  encrypt_round key (concat s) (Z.of_nat r) = concat (cipher_round ws s r) /\ state_ok (cipher_round ws s r).
Proof using K.
  intros H Hs. unfold encrypt_round, cipher_round. cbv zeta.
  destruct (sub_bytes_eq s Hs) as [-> H1]. destruct (shift_rows_eq _ H1) as [-> H2]. destruct (mix_columns_eq _ H2) as [-> H3].
  by apply round_key_eq.
Qed.

Lemma encrypt_rounds_eq n : forall r s, (r + n <= nk + 7)%nat -> state_ok s ->
  foldl (encrypt_round key) (concat s) (map Z.of_nat (seq r n)) = concat (foldl (cipher_round ws) s (seq r n)) /\
  state_ok (foldl (cipher_round ws) s (seq r n)).
Proof using K.
  induction n as [|n IH]; intros r s H Hs; [done|]. cbn [seq map foldl].
  destruct (encrypt_round_eq r s ltac:(lia) Hs) as [-> Hs']. apply IH; [lia | exact Hs'].
Qed.

Lemma rounds_range : z_range 1 (num_keys key - 1) = map Z.of_nat (seq 1 (nk + 5)).
Proof using K.
  rewrite (ke_num_keys _ _ K). unfold z_range. rewrite <- seq_shift, map_map.
  replace (Z.to_nat (Z.of_nat nk + 7 - 1 - 1)) with (nk + 5)%nat by lia. apply map_ext. intros k. lia.
Qed.

(** [oaes_encrypt_block] is the cipher of the standard. *)
Lemma encrypt_bytes_eq c : block_ok c -> encrypt_bytes key c = AES nk (data key) c /\ block_ok (encrypt_bytes key c).
Proof using K.
  intros Hc. destruct (columns_ok c Hc) as [Hs Ec]. unfold encrypt_bytes, AES, Cipher. cbv zeta. rewrite <- Ec at 1 3.
  pose proof (round_key_eq 0 (columns c) ltac:(lia) Hs) as R0. cbn [Z.of_nat] in R0. rewrite !Z.mul_0_l in R0. destruct R0 as [-> H0].
  rewrite rounds_range. destruct (encrypt_rounds_eq (nk + 5) 1 _ ltac:(lia) H0) as [-> H1].
  destruct (sub_bytes_eq _ H1) as [-> H2]. destruct (shift_rows_eq _ H2) as [-> H3].
  replace (num_keys key - 1) with (Z.of_nat (nk + 6)) by (rewrite (ke_num_keys _ _ K); lia).
  destruct (round_key_eq (nk + 6) _ ltac:(lia) H3) as [-> H4].
  replace (nk + 6 - 1)%nat with (nk + 5)%nat by lia. split; [reflexivity | by apply state_block].
Qed.
End Key.

(** ** Decryption undoes encryption *)

Lemma block_cases c : block_ok c -> exists s, state_ok s /\ c = concat s.
Proof. intros H. destruct (columns_ok c H) as [Hs E]. by exists (columns c). Qed.

Lemma inv_shift_shift c : block_ok c -> oaes_inv_shift_rows (oaes_shift_rows c) = c.
Proof. intros H. apply block_cases in H as (s & Hs & ->). split_state Hs. reflexivity. Qed.

Lemma inv_sub_sub c : byte_ok c -> map oaes_inv_sub_byte (map oaes_sub_byte c) = c.
Proof. induction 1 as [|b c Hb _ IH]; [reflexivity|]. cbn [map]. by rewrite inv_sub_byte, IH. Qed.

Lemma inv_mix_cols_eq w : column_ok w -> oaes_inv_mix_cols (oaes_mix_cols w) = w.
Proof.
  intros H. destruct (mix_cols_eq w H) as [-> Hm]. split_column H.
  change (MixColumn [x; x0; x1; x2]) with [mix_row x x0 x1 x2; mix_row x0 x1 x2 x; mix_row x1 x2 x x0; mix_row x2 x x0 x1] in *.
  unfold oaes_inv_mix_cols. cbv zeta beta. cbn [list_lookup_total lookup_total].
  destruct (gf_table_spec (mix_row x x0 x1 x2)) as (_ & _ & -> & -> & -> & ->); [by apply mix_row_byte|].
  destruct (gf_table_spec (mix_row x0 x1 x2 x)) as (_ & _ & -> & -> & -> & ->); [by apply mix_row_byte|].
  destruct (gf_table_spec (mix_row x1 x2 x x0)) as (_ & _ & -> & -> & -> & ->); [by apply mix_row_byte|].
  destruct (gf_table_spec (mix_row x2 x x0 x1)) as (_ & _ & -> & -> & -> & ->); [by apply mix_row_byte|].
  f_equal; [|f_equal; [|f_equal; [|f_equal]]].
  - rewrite <- (inv_mix_mix x x0 x1 x2) at 5 by done. unfold inv_mix_row. xor_ring.
  - rewrite <- (inv_mix_mix x0 x1 x2 x) at 5 by done. unfold inv_mix_row. xor_ring.
  - rewrite <- (inv_mix_mix x1 x2 x x0) at 5 by done. unfold inv_mix_row. xor_ring.
  - rewrite <- (inv_mix_mix x2 x x0 x1) at 5 by done. unfold inv_mix_row. xor_ring.
Qed.

Lemma inv_mix_mix_columns c : block_ok c -> on_columns oaes_inv_mix_cols (on_columns oaes_mix_cols c) = c.
Proof.
  intros H. apply block_cases in H as (s & Hs & ->). destruct (mix_columns_eq _ Hs) as [-> Hm].
  clear Hm. apply state_cases in Hs as (w0 & w1 & w2 & w3 & -> & H0 & H1 & H2 & H3).
  unfold MixColumns in *. cbn [map] in *. unfold on_columns at 1. set (c' := concat [MixColumn _; _; _; _]) in *.
  change (take 4 c') with (MixColumn w0). change (take 4 (drop 4 c')) with (MixColumn w1).
  change (take 4 (drop 8 c')) with (MixColumn w2). change (take 4 (drop 12 c')) with (MixColumn w3).
  destruct (mix_cols_eq w0 H0) as [<- _], (mix_cols_eq w1 H1) as [<- _], (mix_cols_eq w2 H2) as [<- _], (mix_cols_eq w3 H3) as [<- _].
  rewrite !inv_mix_cols_eq by done. cbn [concat]. by rewrite app_nil_r.
Qed.

Lemma add_round_key_twice l off c : add_round_key l off (add_round_key l off c) = c.
Proof.
  apply list_eq. intros i. unfold add_round_key. rewrite !list_lookup_imap. destruct (c !! i) as [b|]; [|reflexivity].
  cbn. by rewrite Z.lxor_assoc, Z.lxor_nilpotent, Z.lxor_0_r.
Qed.

Section Inverse.
Context (nk : nat) (key : oaes_key) (K : key_expanded nk key).

(** What [decrypt_round] is given: the block before the round key. *)
Definition half_round (c : list Z) : list Z := oaes_shift_rows (map oaes_sub_byte c).

Lemma half_round_ok c : block_ok c -> block_ok (half_round c).
Proof using Type.
  intros H. apply block_cases in H as (s & Hs & ->). unfold half_round. destruct (sub_bytes_eq s Hs) as [-> H1].
  destruct (shift_rows_eq _ H1) as [-> H2]. by apply state_block.
Qed.
Lemma half_round_inv c : block_ok c -> map oaes_inv_sub_byte (oaes_inv_shift_rows (half_round c)) = c.
Proof using Type.
  intros H. unfold half_round. rewrite inv_shift_shift; [apply inv_sub_sub, H|].
  apply block_cases in H as (s & Hs & ->). destruct (sub_bytes_eq s Hs) as [-> H1]. by apply state_block.
Qed.

Lemma encrypt_round_ok c r : (r < nk + 7)%nat -> block_ok c -> block_ok (encrypt_round key c (Z.of_nat r)).
Proof using K.
  intros Hr H. apply block_cases in H as (s & Hs & ->). destruct (encrypt_round_eq nk key K r s Hr Hs) as [-> H1]. by apply state_block.
Qed.

Lemma decrypt_round_eq c r : block_ok c -> decrypt_round key (half_round (encrypt_round key c (Z.of_nat r))) (Z.of_nat r) = half_round c
  \/ ~ (r < nk + 7)%nat.
Proof using K.
  intros H. destruct (decide (r < nk + 7)%nat) as [Hr|]; [left|by right]. unfold decrypt_round. cbv zeta.
  rewrite half_round_inv by (by apply encrypt_round_ok). unfold encrypt_round. cbv zeta. rewrite add_round_key_twice.
  apply inv_mix_mix_columns. by apply half_round_ok.
Qed.

Lemma decrypt_rounds_eq n : forall r c, (r + n <= nk + 7)%nat -> block_ok c ->
  foldl (decrypt_round key) (half_round (foldl (encrypt_round key) c (map Z.of_nat (seq r n)))) (rev (map Z.of_nat (seq r n))) = half_round c.
Proof using K.
  induction n as [|n IH]; intros r c H Hc; [reflexivity|]. cbn [seq map foldl rev]. rewrite foldl_app.
  rewrite IH by (lia || (apply encrypt_round_ok; [lia | exact Hc])). cbn [foldl].
  destruct (decrypt_round_eq c r Hc) as [E|N]; [exact E | lia].
Qed.

Lemma decrypt_encrypt c : block_ok c -> decrypt_bytes key (encrypt_bytes key c) = c.
Proof using K.
  intros Hc. unfold decrypt_bytes, encrypt_bytes. cbv zeta. rewrite add_round_key_twice.
  destruct (block_cases c Hc) as (s & Hs & Es).
  pose proof (round_key_eq nk key K 0 s ltac:(lia) Hs) as R0. cbn [Z.of_nat] in R0. rewrite !Z.mul_0_l in R0. destruct R0 as [R0 H0].
  set (c0 := add_round_key (exp_data key) 0 c) in *.
  assert (Hc0 : block_ok c0) by (unfold c0; rewrite Es, R0; by apply state_block).
  rewrite (rounds_range nk key K). fold (half_round (foldl (encrypt_round key) c0 (map Z.of_nat (seq 1 (nk + 5))))).
  rewrite decrypt_rounds_eq by (done || lia). rewrite half_round_inv by done. unfold c0. apply add_round_key_twice.
Qed.
End Inverse.
