(* ===== verification/OaesMessage.v ===== *)
(** * OpenAES: messages

    The loops of [oaes_encrypt] and [oaes_decrypt] as functions on lists of blocks,
    the header, the pad, and that decryption undoes encryption. *)

From Stdlib Require Import ZArith Lia Btauto.
From stdpp Require Import base tactics list numbers option.
From S2P Require Import Prelude Radix Words AesTables AesSpec AesProofs Oaes OaesProofs.
Open Scope Z_scope.

(** ** Chained blocks *)

Section Chain.
Context (E D : list Z -> list Z) (cbc : bool).

Fixpoint enc_blocks (iv : list Z) (bs : list (list Z)) : list (list Z) :=
  match bs with
  | [] => []
  | b :: bs => let x := E (if cbc then xor_block b iv else b) in x :: enc_blocks x bs
  end.
Fixpoint dec_blocks (iv : list Z) (xs : list (list Z)) : list (list Z) :=
  match xs with
  | [] => []
  | x :: xs => (if cbc then xor_block (D x) iv else D x) :: dec_blocks x xs
  end.

Lemma xor_block_ok a b : block_ok a -> block_ok b -> block_ok (xor_block a b).
Proof using Type.
  intros [La Ba] [Lb Bb]. split; [by rewrite <- La; apply length_imap|]. apply Forall_lookup. intros i x H.
  unfold xor_block in H. rewrite list_lookup_imap in H. destruct (a !! i) as [y|] eqn:Ey; [|discriminate]. injection H as <-.
  apply lxor_byte; [by eapply (Forall_lookup_1 _ a)|]. apply lookup_lt_Some in Ey.
  apply (Forall_lookup_total_1 _ b); [exact Bb | lia].
Qed.
Lemma xor_block_twice a b : xor_block (xor_block a b) b = a.
Proof using Type.
  apply list_eq. intros i. unfold xor_block. rewrite !list_lookup_imap. destruct (a !! i) as [x|]; [|reflexivity].
  cbn. by rewrite Z.lxor_assoc, Z.lxor_nilpotent, Z.lxor_0_r.
Qed.

Context (E_ok : forall b, block_ok b -> block_ok (E b)).

Lemma enc_blocks_ok : forall bs iv, Forall block_ok bs -> block_ok iv ->
  Forall block_ok (enc_blocks iv bs) /\ length (enc_blocks iv bs) = length bs.
Proof using E_ok.
  induction bs as [|b bs IH]; intros iv F Hiv; [done|]. apply Forall_cons_1 in F as [Hb F]. cbn [enc_blocks length].
  assert (Hx : block_ok (E (if cbc then xor_block b iv else b))) by (apply E_ok; destruct cbc; [by apply xor_block_ok | done]).
  destruct (IH _ F Hx) as [F' L']. split; [by constructor | by rewrite L'].
Qed.

Context (DE : forall b, block_ok b -> D (E b) = b).

Lemma dec_enc_blocks : forall bs iv, Forall block_ok bs -> block_ok iv -> dec_blocks iv (enc_blocks iv bs) = bs.
Proof using E_ok DE.
  induction bs as [|b bs IH]; intros iv F Hiv; [reflexivity|]. apply Forall_cons_1 in F as [Hb F]. cbn [enc_blocks dec_blocks].
  assert (Hx : block_ok (if cbc then xor_block b iv else b)) by (destruct cbc; [by apply xor_block_ok | done]).
  rewrite DE by exact Hx. rewrite IH by auto. f_equal. destruct cbc; [apply xor_block_twice | reflexivity].
Qed.

(** The block the next message continues from. *)
Definition last_block (iv : list Z) (xs : list (list Z)) : list Z := if cbc then List.last xs iv else iv.
End Chain.

(** ** The blocks of a message *)

Definition padding (p : nat) : list Z := map (fun j => Z.of_nat j + 1) (seq 0 p).

(** [n] blocks of the [r] bytes at the start of [l]. *)
Fixpoint message_blocks (n r : nat) (l : list Z) : list (list Z) :=
  match n with
  | O => []
  | S n => (take (min r 16) l ++ padding (16 - min r 16)) :: message_blocks n (r - 16) (drop 16 l)
  end.

Lemma padding_ok p : (p <= 16)%nat -> byte_ok (padding p) /\ length (padding p) = p.
Proof.
  intros H. split; [|by unfold padding; rewrite length_map, length_seq].
  apply Forall_forall. intros x Hx. apply in_map_iff in Hx as (j & <- & Hj). apply in_seq in Hj. lia.
Qed.

Lemma message_blocks_ok n : forall r l, (r <= length l)%nat -> byte_ok l -> (16 * n < r + 16)%nat ->
  Forall block_ok (message_blocks n r l) /\ length (message_blocks n r l) = n.
Proof.
  induction n as [|n IH]; intros r l H B Hn; [done|]. cbn [message_blocks].
  destruct (padding_ok (16 - min r 16)) as [Bp Lp]; [lia|].
  destruct (decide (n = 0)%nat) as [->|N0].
  - split; [|reflexivity]. constructor; [|constructor]. split.
    + rewrite length_app, length_take, Lp. lia.
    + apply Forall_app. split; [by apply Forall_take | exact Bp].
  - destruct (IH (r - 16)%nat (drop 16 l)) as [F L]; [rewrite length_drop; lia | by apply Forall_drop | lia |].
    split; [|cbn [length]; lia]. constructor; [|exact F]. split.
    + rewrite length_app, length_take, Lp. lia.
    + apply Forall_app. split; [by apply Forall_take | exact Bp].
Qed.

Lemma message_blocks_concat n : forall r l, (r <= length l)%nat -> (r <= 16 * n)%nat -> (16 * n < r + 16)%nat ->
  concat (message_blocks n r l) = take r l ++ padding (16 * n - r).
Proof.
  induction n as [|n IH]; intros r l H H1 H2; [assert (r = 0%nat) as -> by lia; reflexivity|].
  cbn [message_blocks concat]. destruct (decide (r <= 16)%nat) as [C|C].
  - assert (n = 0%nat) as -> by lia. cbn [message_blocks concat]. rewrite app_nil_r, Nat.min_l by lia. reflexivity.
  - rewrite IH; [|rewrite length_drop; lia | lia | lia]. rewrite Nat.min_r by lia. change (padding (16 - 16)) with (@nil Z).
    rewrite app_nil_r, app_assoc. f_equal; [|f_equal; lia].
    rewrite <- (take_drop 16 (take r l)), take_take, Nat.min_l by lia. f_equal. rewrite skipn_firstn_comm. reflexivity.
Qed.

(** ** The loops *)

Lemma seq_ok (f : list Z -> list Z) b : oaes_seq OAES_RET_SUCCESS (OAES_RET_SUCCESS, Some (f b)) b = (OAES_RET_SUCCESS, f b).
Proof. reflexivity. Qed.

Lemma encrypt_step_eq key ctx m_len (i : nat) pre D : ctx_key ctx = Some key -> length pre = (32 + i)%nat ->
  (i < m_len)%nat -> (16 <= length D)%nat -> (m_len - i <= length D)%nat ->
  (forall b, length b = 16%nat -> length (encrypt_bytes key b) = 16%nat) ->
  let cbc := has_option (options ctx) OAES_OPTION_CBC in
  let b := take (min (m_len - i) 16) D ++ padding (16 - min (m_len - i) 16) in
  let x := encrypt_bytes key (if cbc then xor_block b (iv ctx) else b) in
  encrypt_step (Z.of_nat m_len) (Z.of_nat i) ctx (pre ++ D) OAES_RET_SUCCESS
  = (OAES_RET_SUCCESS, if cbc then set_iv ctx x else ctx, (pre ++ x) ++ drop 16 D).
Proof.
  intros Hk Lp Hi HD Hr HE cbc b x. unfold encrypt_step. cbv zeta.
  replace (Z.to_nat (2 * OAES_BLOCK_SIZE + Z.of_nat i)) with (length pre) by (unfold OAES_BLOCK_SIZE; lia).
  replace (Z.to_nat (Z.min (Z.of_nat m_len - Z.of_nat i) OAES_BLOCK_SIZE)) with (min (m_len - i) 16) by (unfold OAES_BLOCK_SIZE; lia).
  rewrite drop_app_length. fold (padding (16 - min (m_len - i) 16)). fold b. fold cbc.
  assert (Lb : length b = 16%nat).
  { unfold b. rewrite length_app, length_take. destruct (padding_ok (16 - min (m_len - i) 16)) as [_ ->]; lia. }
  set (b' := if cbc then xor_block b (iv ctx) else b) in *.
  assert (Lb' : length b' = 16%nat) by (unfold b'; destruct cbc; [unfold xor_block; by rewrite length_imap | done]).
  assert (Ec : oaes_encrypt_block (Some ctx) (Some b') OAES_BLOCK_SIZE = (OAES_RET_SUCCESS, Some (encrypt_bytes key b'))).
  { unfold oaes_encrypt_block. rewrite Z.eqb_refl, Hk. reflexivity. }
  rewrite Ec, seq_ok. fold x. rewrite write_at_app.
  assert (Lx : length x = 16%nat) by (apply HE; exact Lb'). rewrite Lx, app_assoc. reflexivity.
Qed.

Definition after_blocks (ctx : oaes_ctx) (xs : list (list Z)) : oaes_ctx :=
  if has_option (options ctx) OAES_OPTION_CBC then set_iv ctx (List.last xs (iv ctx)) else ctx.

Lemma encrypt_loop_eq key m_len : (forall b, length b = 16%nat -> length (encrypt_bytes key b) = 16%nat) ->
  forall n (i : nat) ctx pre D, ctx_key ctx = Some key -> length pre = (32 + i)%nat ->
  (i <= m_len)%nat -> (m_len - i <= length D)%nat -> (16 * n <= length D)%nat -> (16 * n < m_len - i + 16)%nat ->
  let xs := enc_blocks (encrypt_bytes key) (has_option (options ctx) OAES_OPTION_CBC) (iv ctx) (message_blocks n (m_len - i) D) in
  encrypt_loop n (Z.of_nat m_len) (Z.of_nat i) ctx (pre ++ D) OAES_RET_SUCCESS
  = (OAES_RET_SUCCESS, after_blocks ctx xs, pre ++ concat xs ++ drop (16 * n) D).
Proof.
  intros HE. induction n as [|n IH]; intros i ctx pre D Hk Lp Hi HD Hn Hm xs.
  - cbn [encrypt_loop]. unfold xs, after_blocks. cbn [message_blocks enc_blocks concat List.last app].
    destruct (has_option _ _); [by destruct ctx | reflexivity].
  - cbn [encrypt_loop]. rewrite (encrypt_step_eq key ctx m_len i pre D Hk Lp) by (assumption || lia). cbv zeta.
    unfold xs. cbn [message_blocks enc_blocks].
    set (b := take (min (m_len - i) 16) D ++ padding (16 - min (m_len - i) 16)).
    set (cbc := has_option (options ctx) OAES_OPTION_CBC). set (x := encrypt_bytes key (if cbc then xor_block b (iv ctx) else b)).
    assert (Lb : length b = 16%nat).
    { unfold b. rewrite length_app, length_take. destruct (padding_ok (16 - min (m_len - i) 16)) as [_ ->]; lia. }
    assert (Lx : length x = 16%nat).
    { apply HE. destruct cbc; [unfold xor_block; by rewrite length_imap | done]. }
    set (ctx1 := if cbc then set_iv ctx x else ctx).
    assert (E1 : ctx_key ctx1 = Some key /\ options ctx1 = options ctx) by (unfold ctx1; destruct cbc; by split).
    destruct E1 as [E1 E2]. replace (Z.of_nat i + OAES_BLOCK_SIZE) with (Z.of_nat (i + 16)) by (unfold OAES_BLOCK_SIZE; lia).
    destruct (decide (n = 0)%nat) as [->|N].
    + cbn [encrypt_loop message_blocks enc_blocks concat]. unfold after_blocks. fold cbc. cbn [List.last].
      rewrite app_nil_r, <- app_assoc. unfold ctx1. reflexivity.
    + specialize (IH (i + 16)%nat ctx1 (pre ++ x) (drop 16 D) E1). rewrite E2 in IH. fold cbc in IH.
      rewrite length_app, length_drop, Lx, drop_drop in IH. cbv zeta in IH. rewrite IH by lia.
      replace (m_len - (i + 16))%nat with (m_len - i - 16)%nat by lia.
      assert (Ev : enc_blocks (encrypt_bytes key) cbc (iv ctx1) (message_blocks n (m_len - i - 16) (drop 16 D))
        = enc_blocks (encrypt_bytes key) cbc x (message_blocks n (m_len - i - 16) (drop 16 D))).
      { unfold ctx1. destruct cbc; [reflexivity|]. destruct n as [|n]; [done | reflexivity]. }
      rewrite Ev. set (ys := enc_blocks _ _ x _). cbn [concat]. f_equal; [f_equal|].
      * unfold after_blocks. rewrite E2. fold cbc. unfold ctx1. destruct cbc; [|reflexivity].
        cbn [set_iv iv]. destruct ctx as [k o v]. unfold set_iv. cbn [ctx_key options iv].
        destruct ys as [|y ys]; [reflexivity|]. f_equal. revert y. induction ys as [|z ys IHy]; intros y; [reflexivity | apply IHy].
      * rewrite <- !app_assoc. do 4 f_equal. lia.
Qed.

(** The blocks of [n * 16] bytes. *)
Fixpoint chunks (n : nat) (l : list Z) : list (list Z) :=
  match n with O => [] | S n => take 16 l :: chunks n (drop 16 l) end.

Lemma chunks_concat xs rest : Forall (fun x => length x = 16%nat) xs -> chunks (length xs) (concat xs ++ rest) = xs.
Proof.
  induction 1 as [|x xs L _ IH]; [reflexivity|]. cbn [length chunks concat]. rewrite <- app_assoc.
  rewrite take_app_length', drop_app_length', IH by done. reflexivity.
Qed.

Lemma decrypt_step_eq key ctx o len (i : nat) pre' D pre D' _iv : ctx_key ctx = Some key -> length pre = i -> (i + 16 <= len)%nat ->
  length pre' = (32 + i)%nat -> (16 <= length D)%nat ->
  (forall b, length b = 16%nat -> length (decrypt_bytes key b) = 16%nat) ->
  let cbc := has_option o OAES_OPTION_CBC in
  let _iv' := if cbc && (0 <? Z.of_nat i) then drop (16 + i) pre' else _iv in
  let x := if cbc then xor_block (decrypt_bytes key (take 16 D)) _iv' else decrypt_bytes key (take 16 D) in
  decrypt_step o (Z.of_nat len) (Z.of_nat i) ctx (pre' ++ D') (pre ++ D) _iv OAES_RET_SUCCESS
  = (OAES_RET_SUCCESS, (pre ++ x) ++ drop 16 D, _iv').
Proof.
  intros Hk Lp Hi Lp' HD HE cbc _iv' x. unfold decrypt_step. cbv zeta. fold cbc.
  assert (Eiv : (if cbc && (0 <? Z.of_nat i) then take 16 (drop (Z.to_nat (OAES_BLOCK_SIZE + Z.of_nat i)) (pre' ++ D')) else _iv) = _iv').
  { unfold _iv'. destruct (cbc && _); [|reflexivity]. replace (Z.to_nat (OAES_BLOCK_SIZE + Z.of_nat i)) with (16 + i)%nat by (unfold OAES_BLOCK_SIZE; lia).
    rewrite drop_app_le by lia. apply take_app_length'. rewrite length_drop. lia. }
  rewrite Eiv. rewrite Nat2Z.id, <- Lp, drop_app_length.
  replace (Z.min (Z.of_nat len - Z.of_nat (length pre)) OAES_BLOCK_SIZE) with 16 by (unfold OAES_BLOCK_SIZE; lia).
  assert (Ec : oaes_decrypt_block (Some ctx) (Some (take 16 D)) 16 = (OAES_RET_SUCCESS, Some (decrypt_bytes key (take 16 D)))).
  { unfold oaes_decrypt_block. change (16 =? OAES_BLOCK_SIZE) with true. cbn [negb]. rewrite Hk. reflexivity. }
  rewrite Ec, seq_ok. fold x. rewrite write_at_app.
  assert (Lx : length x = 16%nat).
  { unfold x. destruct cbc; [unfold xor_block; rewrite length_imap|]; apply HE; rewrite length_take; lia. }
  by rewrite Lx, app_assoc.
Qed.

Lemma decrypt_loop_eq key o len : (forall b, length b = 16%nat -> length (decrypt_bytes key b) = 16%nat) ->
  forall n (i : nat) ctx pre' D' pre D _iv, ctx_key ctx = Some key -> length pre = i -> len = (i + 16 * n)%nat ->
  length pre' = (32 + i)%nat -> (16 * n <= length D)%nat -> take (16 * n) D' = take (16 * n) D ->
  let cbc := has_option o OAES_OPTION_CBC in
  let _iv' := if cbc && (0 <? Z.of_nat i) then drop (16 + i) pre' else _iv in
  decrypt_loop n o (Z.of_nat len) (Z.of_nat i) ctx (pre' ++ D') (pre ++ D) _iv OAES_RET_SUCCESS
  = pre ++ concat (dec_blocks (decrypt_bytes key) cbc _iv' (chunks n D)) ++ drop (16 * n) D.
Proof.
  intros HE. induction n as [|n IH]; intros i ctx pre' D' pre D _iv Hk Lp Hl Lp' HD ED cbc _iv'; [reflexivity|].
  cbn [decrypt_loop chunks dec_blocks concat].
  rewrite (decrypt_step_eq key ctx o len i pre' D pre D' _iv Hk Lp) by (assumption || lia). cbv zeta. fold cbc. fold _iv'.
  set (x := if cbc then xor_block (decrypt_bytes key (take 16 D)) _iv' else decrypt_bytes key (take 16 D)).
  assert (Lx : length x = 16%nat).
  { unfold x. destruct cbc; [unfold xor_block; rewrite length_imap|]; apply HE; rewrite length_take; lia. }
  replace (Z.of_nat i + OAES_BLOCK_SIZE) with (Z.of_nat (i + 16)) by (unfold OAES_BLOCK_SIZE; lia).
  assert (E16 : take 16 D' = take 16 D).
  { apply (f_equal (take 16)) in ED. by rewrite !take_take, !Nat.min_l in ED by lia. }
  assert (LD : (16 * S n <= length D')%nat).
  { apply (f_equal length) in ED. rewrite !length_take in ED. lia. }
  rewrite <- (take_drop 16 D') , app_assoc.
  rewrite (IH (i + 16)%nat ctx (pre' ++ take 16 D') (drop 16 D') (pre ++ x) (drop 16 D) _iv' Hk);
    [| rewrite length_app; lia | lia | rewrite length_app, length_take; lia | rewrite length_drop; lia |].
  - rewrite <- app_assoc. f_equal. rewrite <- app_assoc. f_equal. rewrite drop_drop.
    replace (16 * S n)%nat with (16 + 16 * n)%nat by lia. f_equal. f_equal.
    fold cbc. destruct cbc eqn:Ecbc; cbn [andb]; [|destruct n; reflexivity].
    destruct (Z.ltb_spec 0 (Z.of_nat (i + 16))); [|lia]. f_equal.
    rewrite drop_app_ge by lia. rewrite Lp'. replace (16 + (i + 16) - (32 + i))%nat with 0%nat by lia. exact E16.
  - replace (16 * S n)%nat with (16 + 16 * n)%nat in ED by lia. apply (f_equal (drop 16)) in ED.
    rewrite !skipn_firstn_comm in ED. by replace (16 + 16 * n - 16)%nat with (16 * n)%nat in ED by lia.
Qed.

(** ** The header *)

Definition message_header (o flags : Z) (iv : list Z) : list Z :=
  [0x4f; 0x41; 0x45; 0x53; 0x01; 0x02] ++ le_bytes 2 o ++ [flags; 0; 0; 0; 0; 0; 0; 0] ++ iv.

Lemma length_16 (l : list Z) : length l = 16%nat -> exists a b c d e f g h i j k m n o p q, l = [a; b; c; d; e; f; g; h; i; j; k; m; n; o; p; q].
Proof. intros L. do 17 (destruct l as [|? l]; try discriminate L). by repeat eexists. Qed.

Lemma write_header o flags iv x buf : length iv = 16%nat -> (32 + length x <= length buf)%nat ->
  write_at 32 x (write_at 16 iv (write_at 8 [flags] (write_at 6 (le_bytes 2 o) (write_at 0 oaes_header buf))))
  = message_header o flags iv ++ x ++ drop (32 + length x) buf.
Proof.
  intros L H. apply length_16 in L as (?&?&?&?&?&?&?&?&?&?&?&?&?&?&?&?&->).
  rewrite <- (take_drop 32 buf). set (t := drop 32 buf). 
  assert (L1 : length (take 16 buf) = 16%nat) by (rewrite length_take; lia).
  assert (L2 : length (take 16 (drop 16 buf)) = 16%nat) by (rewrite length_take, length_drop; lia).
  assert (E32 : take 32 buf = take 16 buf ++ take 16 (drop 16 buf)).
  { by rewrite take_take_drop. }
  rewrite E32. apply length_16 in L1 as (?&?&?&?&?&?&?&?&?&?&?&?&?&?&?&?&->).
  apply length_16 in L2 as (?&?&?&?&?&?&?&?&?&?&?&?&?&?&?&?&->). clear. reflexivity.
Qed.

Lemma header_fields o flags iv rest : length iv = 16%nat -> 0 <= o < 2 ^ 16 ->
  let c := message_header o flags iv ++ rest in
  le_val (take 2 (drop 6 c)) = o /\ c !!! 8%nat = flags /\ take 16 (drop 16 c) = iv /\ drop 32 c = rest /\
  take 4 c = take 4 oaes_header /\ c !!! 4%nat = 0x01 /\ c !!! 5%nat = 0x02.
Proof.
  intros L Ho. apply length_16 in L as (?&?&?&?&?&?&?&?&?&?&?&?&?&?&?&?&->). cbv zeta. split.
  - change (le_val (le_bytes 2 o) = o). rewrite le_val_le_bytes. apply Z.mod_small. exact Ho.
  - repeat split; reflexivity.
Qed.

(** ** The pad *)

Lemma padding_at p j : (j < p)%nat -> padding p !!! j = Z.of_nat j + 1.
Proof.
  intros H. unfold padding. apply list_lookup_total_correct.
  pose proof (list_lookup_fmap (fun j => Z.of_nat j + 1) (seq 0 p) j) as E. rewrite lookup_seq_lt in E by exact H. exact E.
Qed.

Lemma remove_pad_eq m p tail : (1 <= p <= 15)%nat ->
  remove_pad (m ++ padding p ++ tail) (Z.of_nat (length m + p))
  = Some (OAES_RET_SUCCESS, m ++ replicate p 0 ++ tail, Z.of_nat (length m)).
Proof.
  intros Hp. destruct (padding_ok p) as [_ Lp]; [lia|].
  assert (At : forall j, (j < p)%nat -> (m ++ padding p ++ tail) !!! (length m + j)%nat = Z.of_nat j + 1).
  { intros j Hj. rewrite lookup_total_app_r by lia. replace (length m + j - length m)%nat with j by lia.
    rewrite lookup_total_app_l by lia. by apply padding_at. }
  unfold remove_pad. destruct (Z.eqb_spec (Z.of_nat (length m + p)) 0); [lia|]. cbv zeta.
  replace (Z.to_nat (Z.of_nat (length m + p) - 1)) with (length m + (p - 1))%nat by lia. rewrite At by lia.
  replace (Z.of_nat (p - 1) + 1) with (Z.of_nat p) by lia.
  destruct (Z.leb_spec (Z.of_nat p) 0); [lia|]. destruct (Z.ltb_spec 0x0f (Z.of_nat p)); [lia|]. cbn [orb].
  assert (C : forallb (fun i => (m ++ padding p ++ tail) !!! Z.to_nat (Z.of_nat (length m + p) - 1 - i) =? Z.of_nat p - i)
    (z_range 0 (Z.of_nat p)) = true).
  { apply forallb_forall. intros i Hi. apply in_map_iff in Hi as (k & <- & Hk). apply in_seq in Hk. apply Z.eqb_eq.
    replace (Z.to_nat _) with (length m + (p - 1 - k))%nat by lia. rewrite At by lia. lia. }
  rewrite C. f_equal. f_equal; [f_equal|lia].
  replace (Z.to_nat (Z.of_nat (length m + p) - Z.of_nat p)) with (length m) by lia. rewrite write_at_app, Nat2Z.id, length_replicate.
  do 2 f_equal. by apply drop_app_length'.
Qed.

(** ** The whole calls *)

Lemma length_encrypt_bytes key b : length b = 16%nat -> length (encrypt_bytes key b) = 16%nat.
Proof. intros _. unfold encrypt_bytes, add_round_key. cbv zeta. by rewrite length_imap. Qed.
Lemma length_decrypt_bytes key b : length b = 16%nat -> length (decrypt_bytes key b) = 16%nat.
Proof. intros _. unfold decrypt_bytes, add_round_key. cbv zeta. by rewrite length_imap, length_map. Qed.

Lemma message_blocks_take n : forall r l, message_blocks n r l = message_blocks n r (take r l).
Proof.
  induction n as [|n IH]; intros r l; [reflexivity|]. cbn [message_blocks]. rewrite take_take.
  replace (min (min r 16) r) with (min r 16) by lia. f_equal. rewrite IH, skipn_firstn_comm. reflexivity.
Qed.

(** Bytes of pad and number of blocks for a message of [r] bytes. *)
Definition pad_len (r : nat) : nat := if (r mod 16 =? 0)%nat then 0%nat else (16 - r mod 16)%nat.
Definition block_count (r : nat) : nat := ((r + pad_len r) / 16)%nat.

Lemma block_count_eq r : (16 * block_count r = r + pad_len r)%nat /\ (pad_len r <= 15)%nat.
Proof.
  unfold block_count, pad_len. pose proof (Nat.div_mod r 16 ltac:(lia)) as E. pose proof (Nat.mod_upper_bound r 16 ltac:(lia)).
  destruct (Nat.eqb_spec (r mod 16) 0) as [Z0|Z0]; (split; [|lia]).
  - rewrite Nat.add_0_r. lia.
  - replace (r + (16 - r mod 16))%nat with ((r / 16 + 1) * 16)%nat by lia. rewrite Nat.div_mul; lia.
Qed.

Lemma pad_len_Z r : (if Z.of_nat r mod OAES_BLOCK_SIZE =? 0 then 0 else OAES_BLOCK_SIZE - Z.of_nat r mod OAES_BLOCK_SIZE) = Z.of_nat (pad_len r).
Proof.
  unfold OAES_BLOCK_SIZE, pad_len. change 16 with (Z.of_nat 16). rewrite <- Nat2Z.inj_mod.
  pose proof (Nat.mod_upper_bound r 16 ltac:(lia)).
  destruct (Nat.eqb_spec (r mod 16) 0), (Z.eqb_spec (Z.of_nat (r mod 16)) 0); lia.
Qed.

Definition pad_flags (r : nat) : Z := if (pad_len r =? 0)%nat then 0 else OAES_FLAG_PAD.
Lemma pad_flags_Z r : (if Z.of_nat (pad_len r) =? 0 then 0 else OAES_FLAG_PAD) = pad_flags r.
Proof. unfold pad_flags. destruct (Nat.eqb_spec (pad_len r) 0), (Z.eqb_spec (Z.of_nat (pad_len r)) 0); lia || reflexivity. Qed.

(** The length of the output. *)
Definition cipher_len (r : nat) : nat := (32 + r + pad_len r)%nat.

(** The encrypted blocks of a message. *)
Definition cipher_blocks (key : oaes_key) (ctx : oaes_ctx) (m : list Z) : list (list Z) :=
  enc_blocks (encrypt_bytes key) (has_option (options ctx) OAES_OPTION_CBC) (iv ctx)
    (message_blocks (block_count (length m)) (length m) m).

Lemma oaes_encrypt_eq key ctx m buf c_in : ctx_key ctx = Some key -> length (iv ctx) = 16%nat ->
  Z.of_nat (cipher_len (length m)) <= c_in -> (cipher_len (length m) <= length buf)%nat -> Z.of_nat (cipher_len (length m)) < 2 ^ 64 ->
  oaes_encrypt (Some ctx) (Some m) (Z.of_nat (length m)) (Some buf) (Some c_in)
  = Some (OAES_RET_SUCCESS, Some (after_blocks ctx (cipher_blocks key ctx m)),
          Some (message_header (options ctx) (pad_flags (length m)) (iv ctx) ++ concat (cipher_blocks key ctx m) ++
                drop (cipher_len (length m)) buf),
          Some (Z.of_nat (cipher_len (length m)))).
Proof.
  intros Hk Liv Hin Hbuf Hw. destruct (block_count_eq (length m)) as [En Ep]. unfold cipher_len in *. set (r := length m) in *.
  unfold oaes_encrypt. rewrite pad_len_Z. cbv zeta. rewrite pad_flags_Z.
  rewrite (u64_id (2 * OAES_BLOCK_SIZE + _ + _)) by (unfold OAES_BLOCK_SIZE; lia).
  rewrite u64_id by lia. replace (2 * OAES_BLOCK_SIZE + Z.of_nat r + Z.of_nat (pad_len r)) with (Z.of_nat (32 + r + pad_len r)) by (unfold OAES_BLOCK_SIZE; lia).
  destruct (Z.ltb_spec c_in (Z.of_nat (32 + r + pad_len r))); [lia|]. rewrite Hk.
  destruct (Z.ltb_spec (Z.of_nat (length buf)) (2 * OAES_BLOCK_SIZE + (Z.of_nat r + Z.of_nat (pad_len r)))); [unfold OAES_BLOCK_SIZE in *; lia|].
  destruct (Z.ltb_spec (Z.of_nat (length m)) (Z.of_nat r)); [lia|]. cbn [orb].
  rewrite Nat2Z.id, (take_ge m) by lia. rewrite write_header by (lia || exact Liv).
  replace (Z.to_nat ((Z.of_nat r + Z.of_nat (pad_len r)) / OAES_BLOCK_SIZE)) with (block_count r).
  2: { unfold OAES_BLOCK_SIZE. replace (Z.of_nat r + Z.of_nat (pad_len r)) with (Z.of_nat (block_count r) * 16) by lia.
       rewrite Z.div_mul by lia. lia. }
  fold r. set (hdr := message_header _ _ _).
  assert (Lh : length hdr = 32%nat).
  { unfold hdr, message_header. rewrite !length_app, length_le_bytes, Liv. reflexivity. }
  pose proof (encrypt_loop_eq key r (length_encrypt_bytes key) (block_count r) 0 ctx hdr (m ++ drop (32 + r) buf) Hk) as L.
  cbv zeta in L. rewrite Nat.sub_0_r, length_app, length_drop in L. fold r in L. change (Z.of_nat 0) with 0 in L.
  rewrite L by lia. rewrite (message_blocks_take _ r (m ++ _)), take_app_length' by done.
  fold (cipher_blocks key ctx m). do 3 f_equal. f_equal. f_equal. f_equal.
  rewrite drop_app_ge by lia. rewrite drop_drop. f_equal. fold r. lia.
Qed.

Lemma cipher_blocks_ok nk key ctx m : key_expanded nk key -> byte_ok m -> block_ok (iv ctx) ->
  Forall block_ok (cipher_blocks key ctx m) /\ length (cipher_blocks key ctx m) = block_count (length m).
Proof.
  intros K B Hiv. destruct (block_count_eq (length m)) as [En Ep].
  destruct (message_blocks_ok (block_count (length m)) (length m) m) as [Fb Lb]; [lia | exact B | lia |].
  destruct (enc_blocks_ok (encrypt_bytes key) (has_option (options ctx) OAES_OPTION_CBC)
    ltac:(intros b Hb; by apply (encrypt_bytes_eq nk key K)) _ (iv ctx) Fb Hiv) as [F L].
  split; [exact F | by rewrite <- Lb, <- L].
Qed.
Lemma length_cipher nk key ctx m : key_expanded nk key -> byte_ok m -> block_ok (iv ctx) ->
  length (concat (cipher_blocks key ctx m)) = (length m + pad_len (length m))%nat.
Proof.
  intros K B Hiv. destruct (cipher_blocks_ok nk key ctx m K B Hiv) as [F L]. destruct (block_count_eq (length m)) as [<- _].
  rewrite <- L. clear L. induction F as [|x l [Lx _] _ IH]; [reflexivity|]. cbn [concat length]. rewrite length_app, IH, Lx. lia.
Qed.

Lemma oaes_decrypt_eq nk key ctx ctx' m tail buf m_in : key_expanded nk key -> ctx_key ctx' = Some key ->
  block_ok (iv ctx) -> options ctx = OAES_OPTION_ECB \/ options ctx = OAES_OPTION_CBC -> byte_ok m ->
  Z.of_nat (length m + pad_len (length m)) <= m_in -> (length m + pad_len (length m) <= length buf)%nat ->
  Z.of_nat (cipher_len (length m)) < 2 ^ 64 ->
  oaes_decrypt (Some ctx') (Some (message_header (options ctx) (pad_flags (length m)) (iv ctx) ++ concat (cipher_blocks key ctx m) ++ tail))
    (Z.of_nat (cipher_len (length m))) (Some buf) (Some m_in)
  = Some (OAES_RET_SUCCESS, Some (m ++ replicate (pad_len (length m)) 0 ++ drop (length m + pad_len (length m)) buf),
          Some (Z.of_nat (length m))).
Proof.
  intros K Hk Hiv Ho Bm Hin Hbuf Hw. destruct (block_count_eq (length m)) as [En Ep]. unfold cipher_len in *. set (r := length m) in *.
  destruct (message_blocks_ok (block_count r) r m) as [Fb _]; [lia | exact Bm | lia |].
  assert (E_ok : forall b, block_ok b -> block_ok (encrypt_bytes key b)) by (intros b Hb; by apply (encrypt_bytes_eq nk key K)).
  destruct (cipher_blocks_ok nk key ctx m K Bm Hiv) as [Fx Lx]. fold r in Lx.
  assert (F16 : Forall (fun x => length x = 16%nat) (cipher_blocks key ctx m)) by (eapply Forall_impl; [|exact Fx]; by intros x [L _]).
  pose proof (length_cipher nk key ctx m K Bm Hiv) as Lc. fold r in Lc.
  set (c := message_header _ _ _ ++ _). unfold oaes_decrypt.
  assert (Em : Z.of_nat (32 + r + pad_len r) mod OAES_BLOCK_SIZE = 0).
  { unfold OAES_BLOCK_SIZE. replace (Z.of_nat (32 + r + pad_len r)) with (Z.of_nat (2 + block_count r) * 16) by lia. apply Z.mod_mul. lia. }
  rewrite Em. cbn [negb Z.eqb]. cbv zeta.
  replace (Z.of_nat (32 + r + pad_len r) - 2 * OAES_BLOCK_SIZE) with (Z.of_nat (r + pad_len r)) by (unfold OAES_BLOCK_SIZE; lia).
  rewrite u64_id by lia. destruct (Z.ltb_spec m_in (Z.of_nat (r + pad_len r))); [lia|]. rewrite Hk.
  destruct Hiv as [Liv Biv]. assert (Ho' : 0 <= options ctx < 2 ^ 16) by (destruct Ho as [-> | ->]; unfold OAES_OPTION_ECB, OAES_OPTION_CBC; lia).
  destruct (header_fields (options ctx) (pad_flags r) (iv ctx) (concat (cipher_blocks key ctx m) ++ tail) Liv Ho') as (F1 & F2 & F3 & F4 & F5 & F6 & F7).
  fold r in c. fold c in F1, F2, F3, F4, F5, F6, F7. rewrite F1, F2, F3.
  assert (Lh : length (message_header (options ctx) (pad_flags r) (iv ctx)) = 32%nat).
  { unfold message_header. rewrite !length_app, length_le_bytes, Liv. reflexivity. }
  assert (Lcc : (32 + (r + pad_len r) <= length c)%nat) by (unfold c; rewrite !length_app, Lh, Lc; lia).
  destruct (Z.ltb_spec (Z.of_nat (length c)) (2 * OAES_BLOCK_SIZE + Z.of_nat (r + pad_len r))); [unfold OAES_BLOCK_SIZE in *; lia|].
  destruct (Z.ltb_spec (Z.of_nat (length buf)) (Z.of_nat (r + pad_len r))); [lia|]. cbn [orb].
  assert (Hok : header_ok c (options ctx) (pad_flags r) = true).
  { unfold header_ok. rewrite F5, F6, F7, bool_decide_eq_true_2 by done. unfold pad_flags.
    destruct Ho as [-> | ->], (pad_len r =? 0)%nat; reflexivity. }
  rewrite Hok. cbn [negb]. rewrite F4, Nat2Z.id, <- Lc, take_app_length.
  replace (Z.to_nat (Z.of_nat (length (concat (cipher_blocks key ctx m))) / OAES_BLOCK_SIZE)) with (block_count r).
  2: { unfold OAES_BLOCK_SIZE. rewrite Lc. replace (Z.of_nat (r + pad_len r)) with (Z.of_nat (block_count r) * 16) by lia.
       rewrite Z.div_mul by lia. lia. }
  change (write_at 0 (concat (cipher_blocks key ctx m)) buf)
    with ([] ++ concat (cipher_blocks key ctx m) ++ drop (length (concat (cipher_blocks key ctx m))) buf).
  pose proof (decrypt_loop_eq key (options ctx) (length (concat (cipher_blocks key ctx m))) (length_decrypt_bytes key) (block_count r) 0 ctx'
    (message_header (options ctx) (pad_flags r) (iv ctx)) (concat (cipher_blocks key ctx m) ++ tail) []
    (concat (cipher_blocks key ctx m) ++ drop (length (concat (cipher_blocks key ctx m))) buf) (iv ctx) Hk) as L.
  cbv zeta in L. change (0 <? Z.of_nat 0) with false in L. rewrite andb_false_r in L. change (Z.of_nat 0) with 0 in L.
  unfold c. rewrite L; [| reflexivity | lia | lia | rewrite length_app; lia |].
  2: { rewrite En, <- Lc, !take_app_length. reflexivity. }
  assert (Ech : chunks (block_count r) (concat (cipher_blocks key ctx m) ++ drop (length (concat (cipher_blocks key ctx m))) buf) = cipher_blocks key ctx m).
  { replace (block_count r) with (length (cipher_blocks key ctx m)) by exact Lx. by apply chunks_concat. }
  rewrite Ech. rewrite En, <- Lc, drop_app_length. cbn [app].
  assert (Edec : concat (dec_blocks (decrypt_bytes key) (has_option (options ctx) OAES_OPTION_CBC) (iv ctx) (cipher_blocks key ctx m))
    = m ++ padding (pad_len r)).
  { unfold cipher_blocks. rewrite dec_enc_blocks; [| exact E_ok | intros b Hb; by apply (decrypt_encrypt nk key K) | exact Fb | done].
    fold r. rewrite message_blocks_concat by lia. rewrite (take_ge m) by lia. f_equal. f_equal. lia. }
  rewrite !Edec.
  rewrite <- !app_assoc, !Lc. unfold pad_flags. destruct (Nat.eqb_spec (pad_len r) 0) as [P0|P0].
  - rewrite P0. rewrite Nat.add_0_r. reflexivity.
  - change (has_option OAES_FLAG_PAD OAES_FLAG_PAD) with true. cbv iota. unfold r at 3. rewrite remove_pad_eq by lia. reflexivity.
Qed.
