(* ===== verification/OaesCorrect.v ===== *)
(** * Properties of OpenAES (oaes_lib.c)

    Contexts and keys, blocks against FIPS 197, messages, export and import of
    keys, error codes. *)

From Stdlib Require Import ZArith Lia.
From stdpp Require Import base tactics list numbers option relations.
From S2P Require Import Prelude Radix Words AesTables AesSpec AesProofs Oaes OaesProofs OaesMessage.
Open Scope Z_scope.

(** ** Well-formed contexts *)

Definition key_wf (key : oaes_key) : Prop := exists nk, key_expanded nk key.
Record ctx_wf (ctx : oaes_ctx) : Prop := {
  cw_key : forall key, ctx_key ctx = Some key -> key_wf key;
  cw_options : options ctx = OAES_OPTION_ECB \/ options ctx = OAES_OPTION_CBC;
  cw_iv : block_ok (iv ctx)
}.

Definition all_memory : key_memory := KeyMemory true true true.

(** The key that the bytes expand to. *)
Lemma install_key_eq nk ctx bytes : key_words nk -> length bytes = (4 * nk)%nat -> byte_ok bytes ->
  exists key, install_key true ctx bytes = (OAES_RET_SUCCESS, set_key ctx (Some key)) /\ data key = bytes /\ key_expanded nk key.
Proof.
  intros Hn L B. destruct (key_expand_eq nk bytes Hn L B) as (key & E & Ed & K). exists key. split; [|done].
  unfold install_key, oaes_key_expand. cbn [set_key ctx_key]. rewrite E. reflexivity.
Qed.

(** Without memory for the expansion the key is taken out again, and the code
    [OAES_RET_MEM] has become [OAES_RET_UNKNOWN]. *)
Lemma install_key_fails ctx bytes : install_key false ctx bytes = (OAES_RET_UNKNOWN, set_key ctx None).
Proof. reflexivity. Qed.

Lemma set_key_wf ctx key : ctx_wf ctx -> (forall k, key = Some k -> key_wf k) -> ctx_wf (set_key ctx key).
Proof. intros [H1 H2 H3] Hk. by split. Qed.

Lemma no_key_wf ctx : ctx_wf ctx -> ctx_wf (set_key ctx None).
Proof. intros H. by apply set_key_wf. Qed.

Lemma install_key_wf nk exp_ok ctx bytes : ctx_wf ctx -> key_words nk -> length bytes = (4 * nk)%nat -> byte_ok bytes ->
  ctx_wf (snd (install_key exp_ok ctx bytes)) /\
  fst (install_key exp_ok ctx bytes) = (if exp_ok then OAES_RET_SUCCESS else OAES_RET_UNKNOWN) /\
  (ctx_key (snd (install_key exp_ok ctx bytes)) = None <-> exp_ok = false).
Proof.
  intros W Hn L B. destruct exp_ok.
  - destruct (install_key_eq nk ctx bytes Hn L B) as (key & -> & _ & K). cbn [fst snd]. split; [|split; [done|split; done]].
    apply set_key_wf; [exact W|]. intros k [= <-]. by exists nk.
  - rewrite install_key_fails. cbn [fst snd]. split; [by apply no_key_wf|]. split; [done | by split].
Qed.

Lemma key_size_words n : n = 16 \/ n = 24 \/ n = 32 -> exists nk, key_words nk /\ n = 4 * Z.of_nat nk.
Proof.
  unfold key_words. intros [-> | [-> | ->]]; [exists 4%nat | exists 6%nat | exists 8%nat]; split; auto; reflexivity.
Qed.

(** The library of random numbers for the examples. *)
Definition count_rand (r : Z) : Z * Z := (r, r + 1).

Section Rand.
Context {rng : Type} (rand : rng -> Z * rng) (srand : Z -> rng).

Lemma rand_bytes_ok n : forall r, length (fst (rand_bytes rand n r)) = n /\ byte_ok (fst (rand_bytes rand n r)).
Proof using Type.
  induction n as [|n IH]; intros r; [by split; [|constructor]|]. cbn [rand_bytes]. destruct (rand r) as [x r'].
  specialize (IH r'). destruct (rand_bytes rand n r') as [l r'']. cbn [fst length] in *. destruct IH as [IL IB].
  split; [by rewrite IL|]. constructor; [apply u8_range | exact IB].
Qed.

Lemma set_option_wf ctx opt value r : ctx_wf ctx -> (forall v, value = Some v -> byte_ok v /\ (16 <= length v)%nat) ->
  exists rc ctx' r', oaes_set_option rand (Some ctx) opt value r = (rc, Some ctx', r') /\ ctx_wf ctx' /\ ctx_key ctx' = ctx_key ctx /\
    (if (opt =? OAES_OPTION_ECB) || (opt =? OAES_OPTION_CBC) then rc = OAES_RET_SUCCESS /\ options ctx' = opt
     else rc = OAES_RET_ARG2 /\ ctx' = ctx).
Proof using Type.
  intros W Hv. unfold oaes_set_option. destruct (Z.eqb_spec opt OAES_OPTION_ECB) as [->|N1].
  { eexists _, _, _. split; [reflexivity|]. destruct W as [W1 W2 W3].
    assert (Eo : Z.lor (Z.land (options ctx) (Z.lnot OAES_OPTION_CBC)) OAES_OPTION_ECB = OAES_OPTION_ECB)
      by (destruct W2 as [-> | ->]; reflexivity).
    rewrite Eo. split; [|done]. split; [exact W1 | by left |]. split; [reflexivity|]. apply Forall_replicate. lia. }
  destruct (Z.eqb_spec opt OAES_OPTION_CBC) as [->|N2]; [|by eexists _, _, _].
  destruct W as [W1 W2 W3].
  assert (Eo : Z.lor (Z.land (options ctx) (Z.lnot OAES_OPTION_ECB)) OAES_OPTION_CBC = OAES_OPTION_CBC)
    by (destruct W2 as [-> | ->]; reflexivity).
  rewrite Eo. destruct value as [v|].
  - destruct (Hv v eq_refl) as [Bv Lv]. eexists _, _, _. split; [reflexivity|]. split; [|done].
    split; [exact W1 | by right |]. cbn [iv]. split; [rewrite length_take; lia | by apply Forall_take].
  - destruct (rand_bytes_ok 16 r) as [L B]. destruct (rand_bytes rand 16 r) as [l r']. cbn [fst] in *.
    eexists _, _, _. split; [reflexivity|]. split; [|done]. by split; [exact W1 | by right |].
Qed.

Lemma alloc_wf ok seed r : match oaes_alloc rand srand ok seed r with
  | (Some ctx, _) => ok = true /\ ctx_wf ctx /\ ctx_key ctx = None /\ options ctx = OAES_OPTION_CBC
  | (None, _) => ok = false end.
Proof using Type.
  unfold oaes_alloc. destruct ok; cbn [negb]; [|done]. cbv zeta.
  unfold oaes_set_option. change (OAES_OPTION_CBC =? OAES_OPTION_ECB) with false. rewrite Z.eqb_refl. cbv iota.
  destruct (rand_bytes_ok 16 (srand seed)) as [L B]. destruct (rand_bytes rand 16 (srand seed)) as [l r']. cbn [fst] in *.
  split; [done|]. split; [|done]. by split; [| by right |].
Qed.
End Rand.

(** What the calls that put a key into a context leave there, by the allocations:
    the old key stays when the first one fails ([keep]) or is gone. *)
Definition key_outcome (mem : key_memory) (keep : bool) (ctx ctx' : oaes_ctx) (rc : OAES_RET) (bytes : list Z) : Prop :=
  options ctx' = options ctx /\ iv ctx' = iv ctx /\
  match mem with
  | KeyMemory false _ _ => rc = OAES_RET_MEM /\ ctx_key ctx' = (if keep then ctx_key ctx else None)
  | KeyMemory true false _ => rc = OAES_RET_MEM /\ ctx_key ctx' = None
  | KeyMemory true true false => rc = OAES_RET_UNKNOWN /\ ctx_key ctx' = None
  | KeyMemory true true true => rc = OAES_RET_SUCCESS /\ exists key, ctx_key ctx' = Some key /\ data key = bytes /\ key_wf key
  end.

Lemma key_outcome_wf mem keep ctx ctx' rc bytes : ctx_wf ctx -> key_outcome mem keep ctx ctx' rc bytes -> ctx_wf ctx'.
Proof.
  intros [W1 W2 W3] (E1 & E2 & H). split; [|by rewrite E1 | by rewrite E2].
  intros key Hk. destruct mem as [[|] [|] [|]]; try (destruct H as [_ H]; congruence).
  - destruct H as (_ & k & Ek & _ & K). congruence.
  - destruct H as [_ H]. destruct keep; [apply W1; congruence | congruence].
  - destruct H as [_ H]. destruct keep; [apply W1; congruence | congruence].
  - destruct H as [_ H]. destruct keep; [apply W1; congruence | congruence].
  - destruct H as [_ H]. destruct keep; [apply W1; congruence | congruence].
Qed.

Lemma install_outcome exp_ok keep ctx key0 bytes n : n = 16 \/ n = 24 \/ n = 32 -> Z.of_nat (length bytes) = n -> byte_ok bytes ->
  key_outcome (KeyMemory true true exp_ok) keep ctx (snd (install_key exp_ok (set_key ctx key0) bytes))
    (fst (install_key exp_ok (set_key ctx key0) bytes)) bytes.
Proof.
  intros Hn L B. destruct (key_size_words n Hn) as (nk & Hk & En). destruct exp_ok.
  - destruct (install_key_eq nk (set_key ctx key0) bytes Hk ltac:(lia) B) as (key & -> & Ed & K).
    split; [done|]. split; [done|]. split; [done|]. exists key. split; [done|]. split; [exact Ed | by exists nk].
  - rewrite install_key_fails. by split.
Qed.

Lemma size_test n : negb ((n =? 16) || (n =? 24) || (n =? 32)) = false <-> n = 16 \/ n = 24 \/ n = 32.
Proof.
  rewrite negb_false_iff, !orb_true_iff, !Z.eqb_eq. tauto.
Qed.

Section Gen.
Context {rng : Type} (rand : rng -> Z * rng).

Lemma key_gen_outcome mem ctx n r : n = 16 \/ n = 24 \/ n = 32 ->
  exists rc ctx' r' bytes, oaes_key_gen rand mem (Some ctx) n r = (rc, Some ctx', r') /\
    key_outcome mem true ctx ctx' rc bytes /\ length bytes = Z.to_nat n.
Proof using Type.
  intros Hn. unfold oaes_key_gen. destruct mem as [m1 m2 m3]. cbn [key_ok data_ok exp_ok].
  destruct (rand_bytes_ok rand (Z.to_nat n) r) as [L B]. destruct m1; cbn [negb].
  2: { exists OAES_RET_MEM, ctx, r, (fst (rand_bytes rand (Z.to_nat n) r)). split; [reflexivity|]. split; [by split | exact L]. }
  set (ctx0 := match ctx_key ctx with Some _ => set_key ctx (snd (oaes_key_destroy (ctx_key ctx))) | None => ctx end).
  assert (E0 : ctx0 = set_key ctx None).
  { unfold ctx0. destruct ctx as [[k|] o v]; reflexivity. }
  rewrite E0. destruct m2; cbn [negb].
  - destruct (rand_bytes rand (Z.to_nat n) r) as [bytes r']. cbn [fst] in *.
    pose proof (install_outcome m3 true ctx None bytes n Hn ltac:(rewrite L; lia) B) as H.
    destruct (install_key m3 (set_key ctx None) bytes) as [rc ctx']. by exists rc, ctx', r', bytes.
  - exists OAES_RET_MEM, (set_key ctx None), r, (fst (rand_bytes rand (Z.to_nat n) r)). split; [reflexivity|]. split; [by split | exact L].
Qed.
End Gen.

Lemma import_data_outcome mem ctx bytes n : n = 16 \/ n = 24 \/ n = 32 -> Z.of_nat (length bytes) = n -> byte_ok bytes ->
  exists rc ctx', oaes_key_import_data mem (Some ctx) (Some bytes) n = (rc, Some ctx') /\ key_outcome mem false ctx ctx' rc bytes.
Proof.
  intros Hn L B. unfold oaes_key_import_data. rewrite (proj2 (size_test n) Hn). destruct mem as [m1 m2 m3]. cbn [key_ok data_ok exp_ok].
  change (snd (oaes_key_destroy (ctx_key ctx))) with (@None oaes_key).
  destruct m1, m2; cbn [negb orb];
    [|by exists OAES_RET_MEM, (set_key ctx None)..].
  rewrite take_ge by lia. pose proof (install_outcome m3 false ctx None bytes n Hn L B) as H.
  destruct (install_key m3 (set_key ctx None) bytes) as [rc ctx']. by exists rc, ctx'.
Qed.

(** *** Exported keys *)

Definition key_header (n : Z) : list Z := [0x4f; 0x41; 0x45; 0x53; 0x01; 0x01; 0; n; 0; 0; 0; 0; 0; 0; 0; 0].

(** The bytes [oaes_key_import] takes: the header, the size in it, the key. *)
Definition exported (data : list Z) (n : Z) : Prop :=
  (n = 16 \/ n = 24 \/ n = 32) /\ Z.of_nat (length data) = n + 16 /\
  take 6 data = take 6 (key_header n) /\ data !!! 7%nat = n.

Lemma import_outcome mem ctx data : byte_ok data ->
  (forall n, exported data n -> exists rc ctx',
    oaes_key_import mem (Some ctx) (Some data) (Z.of_nat (length data)) = (rc, Some ctx') /\
    key_outcome mem false ctx ctx' rc (drop 16 data)) /\
  ((forall n, ~ exported data n) -> exists rc,
    oaes_key_import mem (Some ctx) (Some data) (Z.of_nat (length data)) = (rc, Some ctx) /\
    (rc = OAES_RET_HEADER \/ rc = OAES_RET_ARG3)).
Proof.
  intros B. unfold oaes_key_import, OAES_BLOCK_SIZE. set (len := Z.of_nat (length data)).
  assert (T4 : forall l : list Z, (6 <= length l)%nat -> take 6 l = take 4 l ++ [l !!! 4%nat; l !!! 5%nat]).
  { intros l Hl. do 6 (destruct l as [|? l]; [cbn in Hl; lia|]). reflexivity. }
  split.
  - intros n (Hn & L & H6 & H7). fold len in L. rewrite T4 in H6 by lia.
    assert (Lh : length (take 4 data) = 4%nat) by (rewrite length_take; lia).
    change (take 6 (key_header n)) with (take 4 oaes_header ++ [0x01; 0x01]) in H6.
    apply app_inj_1 in H6 as [H4 H5]; [|rewrite Lh; reflexivity]. injection H5 as H5 H6.
    rewrite H7, H5, H6, H4, bool_decide_eq_true_2 by done. cbn [negb Z.eqb Pos.eqb].
    assert (Elen : negb ((len =? 16 + 16) || (len =? 24 + 16) || (len =? 32 + 16)) = false).
    { apply negb_false_iff. rewrite !orb_true_iff, !Z.eqb_eq. lia. }
    rewrite Elen, (proj2 (size_test n) Hn), (proj2 (Z.eqb_eq len (n + 16)) L). cbn [negb].
    destruct mem as [m1 m2 m3]. cbn [key_ok data_ok exp_ok]. change (snd (oaes_key_destroy (ctx_key ctx))) with (@None oaes_key).
    destruct m1, m2; cbn [negb orb]; [|by exists OAES_RET_MEM, (set_key ctx None)..].
    rewrite take_ge by (rewrite length_drop; lia).
    pose proof (install_outcome m3 false ctx None (drop 16 data) n Hn ltac:(rewrite length_drop; lia) ltac:(by apply Forall_drop)) as H.
    destruct (install_key m3 (set_key ctx None) (drop 16 data)) as [rc ctx']. by exists rc, ctx'.
  - intros N. destruct (negb (_ || _)) eqn:E1; [by exists OAES_RET_ARG3; split; [|right]|].
    apply negb_false_iff in E1. rewrite !orb_true_iff, !Z.eqb_eq in E1.
    destruct (negb (bool_decide _)) eqn:E2; [by exists OAES_RET_HEADER; split; [|left]|].
    destruct (negb (data !!! 4%nat =? 0x01)) eqn:E3; [by exists OAES_RET_HEADER; split; [|left]|].
    destruct (negb (data !!! 5%nat =? 0x01)) eqn:E4; [by exists OAES_RET_HEADER; split; [|left]|].
    destruct (negb ((data !!! 7%nat =? 16) || _ || _)) eqn:E5; [by exists OAES_RET_HEADER; split; [|left]|].
    destruct (negb (len =? data !!! 7%nat + 16)) eqn:E6; [by exists OAES_RET_ARG3; split; [|right]|].
    exfalso. apply (N (data !!! 7%nat)). apply size_test in E5. apply negb_false_iff in E2, E3, E4, E6.
    apply bool_decide_eq_true_1 in E2. apply Z.eqb_eq in E3, E4, E6.
    split; [exact E5|]. split; [exact E6|]. split; [|reflexivity]. rewrite T4, E2, E3, E4 by lia. reflexivity.
Qed.

(** *** Encryption *)

Definition encrypt_result (ctx : oaes_ctx) (m : list Z) (c : option (list Z)) (c_len : option Z)
    : option (OAES_RET * option oaes_ctx * option (list Z) * option Z) :=
  oaes_encrypt (Some ctx) (Some m) (Z.of_nat (length m)) c c_len.

Lemma encrypt_cases ctx m c c_len : length (iv ctx) = 16%nat -> Z.of_nat (length m) + 48 < 2 ^ 64 ->
  let len := Z.of_nat (cipher_len (length m)) in
  match c_len, c with
  | None, _ => encrypt_result ctx m c c_len = Some (OAES_RET_ARG5, Some ctx, c, c_len)
  | Some _, None => encrypt_result ctx m c c_len = Some (OAES_RET_SUCCESS, Some ctx, None, Some len)
  | Some c_in, Some buf =>
      (c_in < len -> encrypt_result ctx m c c_len = Some (OAES_RET_BUF, Some ctx, c, Some len)) /\
      (len <= c_in -> ctx_key ctx = None -> encrypt_result ctx m c c_len = Some (OAES_RET_NOKEY, Some ctx, c, Some len)) /\
      (len <= c_in -> ctx_key ctx <> None -> Z.of_nat (length buf) < len -> encrypt_result ctx m c c_len = None)
  end.
Proof.
  intros Liv Hw. cbv zeta. unfold encrypt_result. destruct (block_count_eq (length m)) as [_ Ep]. unfold cipher_len in *.
  destruct c_len as [c_in|]; [|reflexivity]. unfold oaes_encrypt. rewrite pad_len_Z. cbv zeta.
  assert (E : u64 (2 * OAES_BLOCK_SIZE + Z.of_nat (length m) + Z.of_nat (pad_len (length m))) = Z.of_nat (32 + length m + pad_len (length m))).
  { rewrite u64_id; unfold OAES_BLOCK_SIZE; lia. }
  rewrite E, u64_id by lia. destruct c as [buf|]; [|reflexivity]. split; [|split].
  - intros H. apply Z.ltb_lt in H. by rewrite H.
  - intros H Hk. apply Z.ltb_ge in H. by rewrite H, Hk.
  - intros H Hk Hb. apply Z.ltb_ge in H. rewrite H. destruct (ctx_key ctx) as [key|]; [|done].
    destruct (Z.ltb_spec (Z.of_nat (length buf)) (2 * OAES_BLOCK_SIZE + (Z.of_nat (length m) + Z.of_nat (pad_len (length m)))));
      [reflexivity | unfold OAES_BLOCK_SIZE in *; lia].
Qed.

(** The context after a message: the last block is the next [iv]. *)
Lemma after_blocks_wf nk key ctx m : ctx_wf ctx -> ctx_key ctx = Some key -> key_expanded nk key -> byte_ok m ->
  ctx_wf (after_blocks ctx (cipher_blocks key ctx m)) /\ ctx_key (after_blocks ctx (cipher_blocks key ctx m)) = ctx_key ctx.
Proof.
  intros [W1 W2 W3] Hk K B. unfold after_blocks. destruct (has_option _ _); [|by split; [split|]]. split; [|reflexivity].
  split; [exact W1 | exact W2 |]. cbn [set_iv iv].
  destruct (cipher_blocks_ok nk key ctx m K B W3) as [F _]. revert F. generalize (cipher_blocks key ctx m). intros xs F.
  destruct xs as [|x xs]; [exact W3|]. revert x F. induction xs as [|y xs IH]; intros x F; [by inversion F|].
  apply Forall_cons_1 in F as [_ F]. exact (IH y F).
Qed.

Lemma encrypt_wf ctx m c c_len rc ctx' c' l' : ctx_wf ctx -> byte_ok m -> Z.of_nat (length m) + 48 < 2 ^ 64 ->
  encrypt_result ctx m c c_len = Some (rc, ctx', c', l') -> exists ctx1, ctx' = Some ctx1 /\ ctx_wf ctx1 /\ ctx_key ctx1 = ctx_key ctx.
Proof.
  intros W B Hw E. destruct (cw_iv _ W) as [Liv _]. pose proof (encrypt_cases ctx m c c_len Liv Hw) as C. cbv zeta in C.
  destruct c_len as [c_in|]; [|rewrite E in C; injection C as -> -> -> ->; by exists ctx].
  destruct c as [buf|]; [|rewrite E in C; injection C as -> -> -> ->; by exists ctx].
  destruct C as (C1 & C2 & C3). destruct (Z.lt_ge_cases c_in (Z.of_nat (cipher_len (length m)))) as [H|H].
  { specialize (C1 H). rewrite E in C1. injection C1 as -> -> -> ->. by exists ctx. }
  destruct (ctx_key ctx) as [key|] eqn:Hk.
  2: { specialize (C2 H eq_refl). rewrite E in C2. injection C2 as -> -> -> ->. by exists ctx. }
  destruct (Z.lt_ge_cases (Z.of_nat (length buf)) (Z.of_nat (cipher_len (length m)))) as [Hb|Hb].
  { specialize (C3 H ltac:(done) Hb). congruence. }
  destruct (cw_key _ W key Hk) as [nk K]. destruct (block_count_eq (length m)) as [_ Ep].
  unfold encrypt_result in E. rewrite (oaes_encrypt_eq key ctx m buf c_in) in E;
    [| exact Hk | exact Liv | exact H | lia | unfold cipher_len; lia].
  injection E as _ <- _ _. eexists. split; [reflexivity|]. rewrite <- Hk. by apply (after_blocks_wf nk key).
Qed.

(** ** The calls on a context *)

Inductive oaes_call {rng} (rand : rng -> Z * rng) : oaes_ctx -> oaes_ctx -> Prop :=
  | call_key_gen mem ctx n r rc ctx' r' : n = 16 \/ n = 24 \/ n = 32 ->
      oaes_key_gen rand mem (Some ctx) n r = (rc, Some ctx', r') -> oaes_call rand ctx ctx'
  | call_import mem ctx data rc ctx' : byte_ok data ->
      oaes_key_import mem (Some ctx) (Some data) (Z.of_nat (length data)) = (rc, Some ctx') -> oaes_call rand ctx ctx'
  | call_import_data mem ctx data rc ctx' : byte_ok data ->
      oaes_key_import_data mem (Some ctx) (Some data) (Z.of_nat (length data)) = (rc, Some ctx') -> oaes_call rand ctx ctx'
  | call_set_option ctx opt value r rc ctx' r' : (forall v, value = Some v -> byte_ok v /\ (16 <= length v)%nat) ->
      oaes_set_option rand (Some ctx) opt value r = (rc, Some ctx', r') -> oaes_call rand ctx ctx'
  | call_encrypt ctx m c c_len rc ctx' c' l' : byte_ok m -> Z.of_nat (length m) + 48 < 2 ^ 64 ->
      encrypt_result ctx m c c_len = Some (rc, Some ctx', c', l') -> oaes_call rand ctx ctx'.

Lemma call_wf {rng} (rand : rng -> Z * rng) ctx ctx' : oaes_call rand ctx ctx' -> ctx_wf ctx -> ctx_wf ctx'.
Proof.
  intros [mem c n r rc c' r' Hn E|mem c d rc c' B E|mem c d rc c' B E|c opt v r rc c' r' Hv E|c m b l rc c' b' l' B Hw E] W.
  - destruct (key_gen_outcome rand mem c n r Hn) as (? & c1 & ? & bytes & E' & H & _). rewrite E in E'. injection E' as -> -> ->.
    by eapply key_outcome_wf.
  - destruct (import_outcome mem c d B) as [H1 H2].
    destruct (decide (exported d 16 \/ exported d 24 \/ exported d 32)) as [D|D].
    + assert (D' : exists n, exported d n) by (destruct D as [D|[D|D]]; by eexists). destruct D' as [n D'].
      destruct (H1 n D') as (? & ? & E' & H). rewrite E in E'. injection E' as -> ->. by eapply key_outcome_wf.
    + destruct H2 as (rc' & E' & _); [intros n Hn; apply D; destruct Hn as [[-> | [-> | ->]] Hn']; [left|right; left|right; right]; split; auto|].
      rewrite E in E'. by injection E' as -> ->.
  - destruct (decide (Z.of_nat (length d) = 16 \/ Z.of_nat (length d) = 24 \/ Z.of_nat (length d) = 32)) as [Hn|Hn].
    + destruct (import_data_outcome mem c d _ Hn eq_refl B) as (? & ? & E' & H). rewrite E in E'. injection E' as -> ->.
      by eapply key_outcome_wf.
    + unfold oaes_key_import_data in E. destruct (negb (_ || _)) eqn:T; [by injection E as <- <-|]. by apply size_test in T.
  - destruct (set_option_wf rand c opt v r W Hv) as (? & ? & ? & E' & H & _). rewrite E in E'. by injection E' as -> -> ->.
  - destruct (encrypt_wf _ _ _ _ _ _ _ _ W B Hw E) as (c1 & [= ->] & H & _). exact H.
Qed.

(** ** The properties *)

(** C12. Contexts are well typed: from [oaes_alloc] on, through any sequence of key
    generations, imports, option changes and encryptions with any outcome, a
    context has exactly one of the two modes and sixteen bytes of [iv], and its
    key, if there is one, has 16, 24 or 32 bytes with the matching counts and the
    key expansion of FIPS 197. *)
Theorem oaes_context_type {rng} (rand : rng -> Z * rng) srand seed r ctx0 r0 ctx :
  oaes_alloc rand srand true seed r = (Some ctx0, r0) -> rtc (oaes_call rand) ctx0 ctx ->
  (options ctx = OAES_OPTION_ECB \/ options ctx = OAES_OPTION_CBC) /\ block_ok (iv ctx) /\
  (forall key, ctx_key ctx = Some key -> exists nk, (nk = 4%nat \/ nk = 6%nat \/ nk = 8%nat) /\
     data_len key = 4 * Z.of_nat nk /\ Z.of_nat (length (data key)) = data_len key /\ byte_ok (data key) /\
     key_base key = Z.of_nat nk /\ num_keys key = Z.of_nat nk + 7 /\
     exp_data_len key = 16 * num_keys key /\ Z.of_nat (length (exp_data key)) = exp_data_len key /\
     exp_data key = concat (KeyExpansion nk (data key))).
Proof.
  intros E H. pose proof (alloc_wf rand srand true seed r) as A. rewrite E in A. destruct A as (_ & W & _).
  assert (W' : ctx_wf ctx) by (clear E; induction H as [c|c c' c'' H1 H2 IH]; [exact W | apply IH; by eapply call_wf]).
  destruct W' as [W1 W2 W3]. split; [exact W2|]. split; [exact W3|]. intros key Hk. destruct (W1 key Hk) as [nk K].
  exists nk. destruct K as [K1 K2 K3 K4 K5 K6 K7 K8]. split; [exact K1|]. split; [exact K4|].
  split; [rewrite K2, K4; lia|]. split; [exact K3|]. split; [exact K6|]. split; [exact K5|]. split; [rewrite K7, K5; reflexivity|].
  split; [|exact K8]. rewrite K8, K7. destruct (key_schedule_ok nk (data key) K1 K2 K3) as [F L].
  rewrite length_cols, L by exact F. lia.
Qed.

Lemma oaes_context_type_witness : exists ctx0 r0, oaes_alloc count_rand id true 5 0 = (Some ctx0, r0) /\
  exists ctx, rtc (oaes_call count_rand) ctx0 ctx /\ ctx_key ctx <> None /\ block_ok (iv ctx).
Proof.
  destruct (oaes_alloc count_rand id true 5 0) as [[c0|] r0] eqn:E; [|discriminate E].
  exists c0, r0. split; [reflexivity|].
  destruct (key_gen_outcome count_rand all_memory c0 16 0 (or_introl eq_refl)) as (rc & c1 & r1 & bytes & E1 & H & _).
  exists c1. assert (R : rtc (oaes_call count_rand) c0 c1).
  { eapply rtc_once. exact (call_key_gen count_rand all_memory c0 16 0 rc c1 r1 (or_introl eq_refl) E1). }
  split; [exact R|]. split; [destruct H as (_ & _ & _ & key & Hk & _); congruence|].
  destruct (oaes_context_type count_rand id 5 0 c0 r0 c1 E R) as (_ & B & _). exact B.
Defined.

(** C13. Blocks: after [oaes_key_import_data] of 16, 24 or 32 bytes,
    [oaes_encrypt_block] is the cipher AES of FIPS 197 with that key (the S-box
    from inverses in GF(2^8), the tables of multiplications, the expansion by
    words), and [oaes_decrypt_block] takes its output back; [c_len] other than 16
    and a context without key are refused. *)
Theorem oaes_block_correct nk bytes block ctx : nk = 4%nat \/ nk = 6%nat \/ nk = 8%nat ->
  length bytes = (4 * nk)%nat -> byte_ok bytes -> block_ok block ->
  exists ctx', oaes_key_import_data all_memory (Some ctx) (Some bytes) (Z.of_nat (length bytes)) = (OAES_RET_SUCCESS, Some ctx') /\
    options ctx' = options ctx /\ iv ctx' = iv ctx /\
    oaes_encrypt_block (Some ctx') (Some block) 16 = (OAES_RET_SUCCESS, Some (AES nk bytes block)) /\
    oaes_decrypt_block (Some ctx') (Some (AES nk bytes block)) 16 = (OAES_RET_SUCCESS, Some block) /\
    (forall n, n <> 16 -> oaes_encrypt_block (Some ctx') (Some block) n = (OAES_RET_ARG3, Some block) /\
       oaes_decrypt_block (Some ctx') (Some block) n = (OAES_RET_ARG3, Some block)) /\
    oaes_encrypt_block (Some (set_key ctx None)) (Some block) 16 = (OAES_RET_NOKEY, Some block) /\
    oaes_decrypt_block (Some (set_key ctx None)) (Some block) 16 = (OAES_RET_NOKEY, Some block).
Proof.
  intros Hn L B Hb. destruct (import_data_outcome all_memory ctx bytes (Z.of_nat (length bytes))) as (rc & ctx' & E & E1 & E2 & -> & key & Hk & Ed & nk' & K);
    [rewrite L; destruct Hn as [-> | [-> | ->]]; auto | reflexivity | exact B |].
  exists ctx'. split; [exact E|]. split; [exact E1|]. split; [exact E2|].
  assert (nk' = nk) as -> by (pose proof (ke_length _ _ K) as L'; rewrite Ed in L'; lia).
  destruct (encrypt_bytes_eq nk key K block Hb) as [EA HA]. rewrite Ed in EA. unfold oaes_encrypt_block, oaes_decrypt_block.
  change (16 =? OAES_BLOCK_SIZE) with true. cbn [negb]. rewrite Hk. split; [by rewrite EA|].
  split; [rewrite <- EA; by rewrite (decrypt_encrypt nk key K)|]. split; [|by split].
  intros n Hn'. rewrite (proj2 (Z.eqb_neq n OAES_BLOCK_SIZE) Hn'). by split.
Qed.

Lemma oaes_block_correct_witness : length (fips_key 16) = (4 * 4)%nat /\
  exists ctx', oaes_key_import_data all_memory (Some (OaesCtx None OAES_OPTION_CBC [])) (Some (fips_key 16)) 16 = (OAES_RET_SUCCESS, Some ctx') /\
    oaes_encrypt_block (Some ctx') (Some fips_block) 16 = (OAES_RET_SUCCESS,
      Some [0x69; 0xc4; 0xe0; 0xd8; 0x6a; 0x7b; 0x04; 0x30; 0xd8; 0xcd; 0xb7; 0x80; 0x70; 0xb4; 0xc5; 0x5a]).
Proof.
  assert (Bk : byte_ok (fips_key 16)) by (unfold byte_ok; apply (bool_decide_unpack _); vm_compute; exact I).
  assert (Bb : block_ok fips_block) by (split; [reflexivity|]; unfold byte_ok; apply (bool_decide_unpack _); vm_compute; exact I).
  split; [reflexivity|].
  destruct (oaes_block_correct 4 (fips_key 16) fips_block (OaesCtx None OAES_OPTION_CBC []) (or_introl eq_refl) eq_refl Bk Bb)
    as (c & E & _ & _ & E2 & _).
  exists c. split; [exact E|]. rewrite E2, aes_128_vector. reflexivity.
Defined.

(** C14. Messages: in a well-formed context with a key, [oaes_encrypt] of any bytes
    into a large enough buffer succeeds, announces 32 bytes plus the message
    rounded up to whole blocks, leaves the rest of the buffer alone, and
    [oaes_decrypt] of the output, in any context with that key, succeeds, writes
    the message and zeros over the pad, and returns the length of the message. *)
Theorem oaes_message_roundtrip ctx ctx2 key m buf c_in mbuf m_in : ctx_wf ctx -> ctx_key ctx = Some key -> ctx_key ctx2 = Some key ->
  byte_ok m -> Z.of_nat (length m) + 48 < 2 ^ 64 ->
  Z.of_nat (cipher_len (length m)) <= c_in -> (cipher_len (length m) <= length buf)%nat ->
  Z.of_nat (cipher_len (length m)) - 32 <= m_in -> (cipher_len (length m) <= length mbuf + 32)%nat ->
  exists ctx' c, oaes_encrypt (Some ctx) (Some m) (Z.of_nat (length m)) (Some buf) (Some c_in)
      = Some (OAES_RET_SUCCESS, Some ctx', Some c, Some (Z.of_nat (cipher_len (length m)))) /\
    ctx_wf ctx' /\ ctx_key ctx' = Some key /\
    length c = length buf /\ drop (cipher_len (length m)) c = drop (cipher_len (length m)) buf /\
    oaes_decrypt (Some ctx2) (Some c) (Z.of_nat (cipher_len (length m))) (Some mbuf) (Some m_in)
      = Some (OAES_RET_SUCCESS, Some (m ++ replicate (pad_len (length m)) 0 ++ drop (length m + pad_len (length m)) mbuf),
              Some (Z.of_nat (length m))).
Proof.
  intros W Hk Hk2 B Hw Hin Hbuf Hm Hmb. destruct (cw_key _ W key Hk) as [nk K]. destruct (cw_iv _ W) as [Liv Biv].
  destruct (block_count_eq (length m)) as [En Ep].
  destruct (after_blocks_wf nk key ctx m W Hk K B) as [W' Hk'].
  eexists _, _. split; [apply (oaes_encrypt_eq key ctx m buf c_in); try done; unfold cipher_len; lia|].
  split; [exact W'|]. split; [by rewrite Hk'|].
  assert (Lc : length (message_header (options ctx) (pad_flags (length m)) (iv ctx) ++ concat (cipher_blocks key ctx m)) = cipher_len (length m)).
  { rewrite length_app, (length_cipher nk key ctx m K B (cw_iv _ W)). unfold message_header. rewrite !length_app, length_le_bytes, Liv.
    unfold cipher_len. cbn [length]. lia. }
  split; [rewrite app_assoc, length_app, Lc, length_drop; lia|].
  split; [rewrite app_assoc; by apply drop_app_length'|].
  apply (oaes_decrypt_eq nk key ctx ctx2 m _ mbuf m_in K Hk2 (cw_iv _ W) (cw_options _ W) B); unfold cipher_len in *; lia.
Qed.

(** A context for the examples. *)
Definition example_ctx : oaes_ctx := snd (install_key true (OaesCtx None OAES_OPTION_CBC (replicate 16 7)) (fips_key 32)).
Lemma example_ctx_wf : ctx_wf example_ctx /\ exists key, ctx_key example_ctx = Some key.
Proof.
  assert (Bk : byte_ok (fips_key 32)) by (unfold byte_ok; apply (bool_decide_unpack _); vm_compute; exact I).
  assert (W : ctx_wf (OaesCtx None OAES_OPTION_CBC (replicate 16 7))).
  { split; [done | by right |]. split; [reflexivity|]. apply Forall_replicate. lia. }
  unfold example_ctx. destruct (install_key_eq 8 (OaesCtx None OAES_OPTION_CBC (replicate 16 7)) (fips_key 32) (or_intror (or_intror eq_refl)) eq_refl Bk) as (key & E & _ & K).
  rewrite E. cbn [snd]. split; [|by exists key]. apply set_key_wf; [exact W|]. intros k [= <-]. by exists 8%nat.
Qed.

Lemma oaes_message_roundtrip_witness : exists key ctx' c, ctx_key example_ctx = Some key /\
  oaes_encrypt (Some example_ctx) (Some [1; 2; 3]) 3 (Some (replicate 48 0)) (Some 48)
    = Some (OAES_RET_SUCCESS, Some ctx', Some c, Some 48) /\
  oaes_decrypt (Some example_ctx) (Some c) 48 (Some (replicate 16 9)) (Some 16)
    = Some (OAES_RET_SUCCESS, Some ([1; 2; 3] ++ replicate 13 0), Some 3).
Proof.
  destruct example_ctx_wf as [W [key Hk]]. exists key.
  assert (B : byte_ok [1; 2; 3]) by (repeat (constructor; [lia|]); constructor).
  assert (C : cipher_len (length [1; 2; 3]) = 48%nat) by reflexivity.
  destruct (oaes_message_roundtrip example_ctx example_ctx key [1; 2; 3] (replicate 48 0) 48 (replicate 16 9) 16 W Hk Hk B)
    as (ctx' & c & E & _ & _ & _ & _ & E2); rewrite ?C; try (cbn [length replicate]; lia).
  rewrite C in E, E2. exists ctx', c. split; [exact Hk|]. split; [exact E | exact E2].
Defined.

(** *** Export and import of keys *)

Lemma key_expanded_eq nk k k' : key_expanded nk k -> key_expanded nk k' -> data k = data k' -> k = k'.
Proof.
  intros [_ _ _ A1 A2 A3 A4 A5] [_ _ _ B1 B2 B3 B4 B5] E. destruct k, k'. cbn in *. congruence.
Qed.

Lemma write_key_header n (d buf : list Z) : (16 + length d <= length buf)%nat ->
  write_at 16 d (<[7%nat := n]> (<[5%nat := 0x01]> (write_at 0 oaes_header buf))) = key_header n ++ d ++ drop (16 + length d) buf.
Proof.
  intros H. rewrite <- (take_drop 16 buf). assert (L : length (take 16 buf) = 16%nat) by (rewrite length_take; lia).
  apply length_16 in L as (?&?&?&?&?&?&?&?&?&?&?&?&?&?&?&?&->). reflexivity.
Qed.

(** The key a successful import leaves is the one with these bytes. *)
Lemma imported_key ctx ctx' rc nk key : key_outcome all_memory false ctx ctx' rc (data key) -> key_expanded nk key ->
  rc = OAES_RET_SUCCESS /\ ctx_key ctx' = Some key.
Proof.
  intros (_ & _ & -> & k & Hk & Ed & nk' & K') K. split; [reflexivity|]. rewrite Hk. f_equal.
  assert (nk' = nk) as -> by (pose proof (ke_length _ _ K); pose proof (ke_length _ _ K') as L; rewrite Ed in L; lia).
  by apply (key_expanded_eq nk).
Qed.

(** Export and import: [oaes_key_export] and [oaes_key_export_data] of a key
    announce their sizes, refuse smaller buffers without writing, and what they
    write, given to [oaes_key_import] and [oaes_key_import_data], puts the same
    key into any context. [oaes_key_import] accepts only the bytes with the
    header of a key and the size of the rest in it, whatever else the header
    holds; for others the context keeps its key. *)
Theorem oaes_key_roundtrip ctx ctx2 key buf len_in : ctx_wf ctx -> ctx_key ctx = Some key ->
  (oaes_key_export (Some ctx) None (Some len_in) = Some (OAES_RET_SUCCESS, None, Some (data_len key + 16)) /\
   oaes_key_export_data (Some ctx) None (Some len_in) = Some (OAES_RET_SUCCESS, None, Some (data_len key))) /\
  (len_in < data_len key ->
   oaes_key_export (Some ctx) (Some buf) (Some len_in) = Some (OAES_RET_BUF, Some buf, Some (data_len key + 16)) /\
   oaes_key_export_data (Some ctx) (Some buf) (Some len_in) = Some (OAES_RET_BUF, Some buf, Some (data_len key))) /\
  (data_len key + 16 <= len_in -> data_len key + 16 <= Z.of_nat (length buf) ->
   exists d d', oaes_key_export (Some ctx) (Some buf) (Some len_in) = Some (OAES_RET_SUCCESS, Some d, Some (data_len key + 16)) /\
     oaes_key_export_data (Some ctx) (Some buf) (Some len_in) = Some (OAES_RET_SUCCESS, Some d', Some (data_len key)) /\
     exists ctx3 ctx3', 
       oaes_key_import all_memory (Some ctx2) (Some (take (Z.to_nat (data_len key + 16)) d)) (data_len key + 16) = (OAES_RET_SUCCESS, Some ctx3) /\
       oaes_key_import_data all_memory (Some ctx2) (Some (take (Z.to_nat (data_len key)) d')) (data_len key) = (OAES_RET_SUCCESS, Some ctx3') /\
       ctx_key ctx3 = Some key /\ ctx_key ctx3' = Some key) /\
  (forall mem d, byte_ok d -> (forall n, ~ exported d n) -> exists rc,
     oaes_key_import mem (Some ctx) (Some d) (Z.of_nat (length d)) = (rc, Some ctx) /\ (rc = OAES_RET_HEADER \/ rc = OAES_RET_ARG3)).
Proof.
  intros W Hk. destruct (cw_key _ W key Hk) as [nk K]. unfold oaes_key_export, oaes_key_export_data. rewrite Hk.
  change (data_len key + OAES_BLOCK_SIZE) with (data_len key + 16).
  assert (Ln : Z.of_nat (length (data key)) = data_len key) by (rewrite (ke_length _ _ K), (ke_data_len _ _ K); lia).
  assert (Hn : data_len key = 16 \/ data_len key = 24 \/ data_len key = 32).
  { rewrite (ke_data_len _ _ K). destruct (ke_words _ _ K) as [-> | [-> | ->]]; auto. }
  split; [done|]. split; [|split].
  - intros H. rewrite (proj2 (Z.ltb_lt len_in (data_len key + 16))) by lia. by rewrite (proj2 (Z.ltb_lt len_in (data_len key))) by lia.
  - intros H Hb. rewrite !(proj2 (Z.ltb_ge _ _)) by lia. eexists _, _. split; [reflexivity|]. split; [reflexivity|].
    rewrite u8_id by lia. rewrite write_key_header by lia.
    assert (Ed : take (Z.to_nat (data_len key + 16)) (key_header (data_len key) ++ data key ++ drop (16 + length (data key)) buf)
      = key_header (data_len key) ++ data key).
    { rewrite app_assoc. apply take_app_length'. rewrite length_app. cbn [length key_header]. lia. }
    assert (Ed' : take (Z.to_nat (data_len key)) (write_at 0 (data key) buf) = data key).
    { unfold write_at. change (take 0 buf) with (@nil Z). cbn [app]. apply take_app_length'. lia. }
    rewrite Ed, Ed'. set (d := key_header (data_len key) ++ data key).
    assert (Bd : byte_ok d).
    { apply Forall_app. split; [|exact (ke_bytes _ _ K)]. unfold key_header. do 7 (constructor; [lia|]). constructor; [lia|].
      repeat (constructor; [lia|]). constructor. }
    assert (Ld : Z.of_nat (length d) = data_len key + 16) by (unfold d; rewrite length_app; cbn [length key_header]; lia).
    destruct (import_outcome all_memory ctx2 d Bd) as [H1 _].
    destruct (H1 (data_len key)) as (rc & ctx3 & E3 & O3); [by split; [|split; [|split]]|]. rewrite Ld in E3.
    destruct (import_data_outcome all_memory ctx2 (data key) (data_len key) Hn Ln (ke_bytes _ _ K)) as (rc' & ctx3' & E3' & O3').
    destruct (imported_key _ _ _ nk key O3 K) as [-> H3]. destruct (imported_key _ _ _ nk key O3' K) as [-> H3'].
    by exists ctx3, ctx3'.
  - intros mem d B N. by apply import_outcome.
Qed.

Lemma oaes_key_roundtrip_witness : exists key d, ctx_key example_ctx = Some key /\
  oaes_key_export (Some example_ctx) (Some (replicate 64 0)) (Some 64) = Some (OAES_RET_SUCCESS, Some d, Some (data_len key + 16)).
Proof.
  destruct example_ctx_wf as [W [key Hk]]. exists key.
  destruct (oaes_key_roundtrip example_ctx example_ctx key (replicate 64 0) 64 W Hk) as (_ & _ & H & _).
  destruct (cw_key _ W key Hk) as [nk K].
  assert (L : data_len key <= 32) by (rewrite (ke_data_len _ _ K); destruct (ke_words _ _ K) as [-> | [-> | ->]]; lia).
  destruct H as (d & d' & E & _); [lia | rewrite length_replicate; lia |]. exists d. split; [exact Hk | exact E].
Defined.

(** *** Errors of decryption *)

Lemma remove_pad_result m len : 0 <= len -> (remove_pad m len = None <-> len = 0) /\
  (forall rc m' len', remove_pad m len = Some (rc, m', len') -> (rc = OAES_RET_SUCCESS /\ len - 15 <= len' < len) \/ (rc = OAES_RET_HEADER /\ len' = len)).
Proof.
  intros Hl. unfold remove_pad. destruct (Z.eqb_spec len 0) as [->|N]; [by split|]. cbv zeta.
  destruct ((_ <=? 0) || _) eqn:E; [split; [by split|]; intros ? ? ? [= <- <- <-]; by right|].
  apply orb_false_iff in E as [E1 E2]. apply Z.leb_gt in E1. apply Z.ltb_ge in E2.
  destruct (forallb _ _); (split; [by split|]); intros ? ? ? [= <- <- <-]; [left; split; [done | lia] | by right].
Qed.



(** *** Printing *)

Lemma sprintf_length data n : forall first, Z.of_nat (length (concat (map (sprintf_byte data) (map (fun k => first + Z.of_nat k) (seq 0 n))))) =
  3 * Z.of_nat n + Z.of_nat (length (filter (fun i => negb (i =? 0) && ((i + 1) mod 16 =? 0)) (map (fun k => first + Z.of_nat k) (seq 0 n)))).
Proof.
  induction n as [|n IH]; intros first; [reflexivity|]. cbn [seq map concat]. rewrite length_app, Nat2Z.inj_add.
  assert (Em : map (fun k => first + Z.of_nat k) (seq 1 n) = map (fun k => (first + 1) + Z.of_nat k) (seq 0 n)).
  { rewrite <- seq_shift, map_map. apply map_ext. intros; lia. }
  rewrite Em, IH. rewrite filter_cons. unfold sprintf_byte, OAES_BLOCK_SIZE. rewrite length_app. cbn [length].
  destruct (negb (first + Z.of_nat 0 =? 0) && _); [rewrite decide_True by done | rewrite decide_False by (intros [])]; cbn [length]; lia.
Qed.

(** The line breaks among the first [n] bytes. *)
Lemma line_breaks n : Z.of_nat (length (filter (fun i => negb (i =? 0) && ((i + 1) mod 16 =? 0)) (map (fun k => 0 + Z.of_nat k) (seq 0 n)))) = Z.of_nat n / 16.
Proof.
  induction n as [|n IH]; [reflexivity|]. rewrite seq_S, map_app, filter_app, length_app, Nat2Z.inj_add, IH. cbn [map].
  rewrite filter_cons, filter_nil. cbn [Nat.add]. rewrite Z.add_0_l.
  destruct (negb (Z.of_nat n =? 0) && ((Z.of_nat n + 1) mod 16 =? 0)) eqn:E; [rewrite decide_True by done | rewrite decide_False by (intros [])]; cbn [length].
  - apply andb_true_iff in E as [_ E]. apply Z.eqb_eq in E. rewrite Nat2Z.inj_succ. unfold Z.succ.
    pose proof (Z.div_mod (Z.of_nat n + 1) 16 ltac:(lia)). pose proof (Z.div_mod (Z.of_nat n) 16 ltac:(lia)).
    pose proof (Z.mod_pos_bound (Z.of_nat n) 16 ltac:(lia)). lia.
  - rewrite Nat2Z.inj_succ. unfold Z.succ. apply andb_false_iff in E.
    assert (N : (Z.of_nat n + 1) mod 16 <> 0).
    { destruct E as [E|E]; [apply negb_false_iff, Z.eqb_eq in E; rewrite E; discriminate | by apply Z.eqb_neq in E]. }
    pose proof (Z.div_mod (Z.of_nat n + 1) 16 ltac:(lia)). pose proof (Z.div_mod (Z.of_nat n) 16 ltac:(lia)).
    pose proof (Z.mod_pos_bound (Z.of_nat n) 16 ltac:(lia)). pose proof (Z.mod_pos_bound (Z.of_nat n + 1) 16 ltac:(lia)). lia.
Qed.

(** Printing: for every length, the text [oaes_sprintf] writes (three
    characters for each byte, a line break after each sixteen) and its NUL take
    exactly the announced length, so a buffer of that length is not overrun; a
    smaller one, missing data or a missing length pointer are refused. *)
Theorem oaes_sprintf_bounds data buf len_in : let n := Z.of_nat (length data) in let len := 3 * n + n / 16 + 1 in len < 2 ^ 64 ->
  (forall b d k, oaes_sprintf b None d k = Some (OAES_RET_ARG2, b, None)) /\
  oaes_sprintf None (Some len_in) (Some data) n = Some (OAES_RET_SUCCESS, None, Some len) /\
  (len_in < len -> oaes_sprintf (Some buf) (Some len_in) (Some data) n = Some (OAES_RET_BUF, Some buf, Some len)) /\
  (len <= len_in -> oaes_sprintf (Some buf) (Some len_in) None n = Some (OAES_RET_ARG3, Some buf, Some len)) /\
  (len <= len_in -> len_in <= Z.of_nat (length buf) -> exists text,
    oaes_sprintf (Some buf) (Some len_in) (Some data) n = Some (OAES_RET_SUCCESS, Some (text ++ 0 :: drop (Z.to_nat len) buf), Some len) /\
    Z.of_nat (length text) + 1 = len).
Proof.
  intros n len Hl. assert (El : u64 (n * 3 + n / OAES_BLOCK_SIZE + 1) = len).
  { unfold OAES_BLOCK_SIZE. rewrite u64_id; unfold len, n in *; [lia|]. split; [|lia]. pose proof (Z.div_pos (Z.of_nat (length data)) 16). lia. }
  unfold oaes_sprintf. rewrite El. cbv zeta. split; [done|]. split; [done|]. split; [|split].
  - intros H. by rewrite (proj2 (Z.ltb_lt _ _) H).
  - intros H. by rewrite (proj2 (Z.ltb_ge _ _) H).
  - intros H Hb. rewrite (proj2 (Z.ltb_ge _ _) H). set (text := concat _). exists text.
    assert (Lt : Z.of_nat (length text) + 1 = len).
    { unfold text, z_range. rewrite Z.sub_0_r. unfold n at 1. rewrite Nat2Z.id, sprintf_length, line_breaks. reflexivity. }
    destruct (Z.ltb_spec (Z.of_nat (length buf)) (Z.of_nat (length text) + 1)); [lia|]. split; [|exact Lt].
    do 3 f_equal. unfold write_at. change (take 0 buf) with (@nil Z). cbn [app]. rewrite <- app_assoc. cbn [app]. do 3 f_equal.
    rewrite length_app. cbn [length]. f_equal. clearbody len text. lia.
Qed.

Lemma oaes_sprintf_bounds_witness : 3 * 2 + 2 / 16 + 1 < 2 ^ 64 /\
  oaes_sprintf None (Some 0) (Some [0x4f; 0x0a]) 2 = Some (OAES_RET_SUCCESS, None, Some 7).
Proof.
  assert (H : 3 * 2 + 2 / 16 + 1 < 2 ^ 64) by reflexivity. split; [exact H|].
  destruct (oaes_sprintf_bounds [0x4f; 0x0a] [] 0 H) as (_ & E & _). exact E.
Defined.
