(* ===== verification/Aesb.v ===== *)
(** * The AES round of the slow hash (src/Native/libcryptonote/crypto/aesb.c)

    The four tables of words, made by the macros from the S-box, and the two
    functions on them; the proof that they are the rounds of OpenAES. *)

From Stdlib Require Import ZArith Lia Btauto.
From stdpp Require Import base tactics list numbers option.
From S2P Require Import Prelude Radix Words AesTables AesSpec AesProofs Oaes OaesProofs.
Open Scope Z_scope.

Definition N_COLS : nat := 4.
Definition WPOLY : Z := 0x011b.

(** [sb_data(h0)]. *)
Definition sb_data : list Z := [
  0x63; 0x7c; 0x77; 0x7b; 0xf2; 0x6b; 0x6f; 0xc5; 0x30; 0x01; 0x67; 0x2b; 0xfe; 0xd7; 0xab; 0x76;
  0xca; 0x82; 0xc9; 0x7d; 0xfa; 0x59; 0x47; 0xf0; 0xad; 0xd4; 0xa2; 0xaf; 0x9c; 0xa4; 0x72; 0xc0;
  0xb7; 0xfd; 0x93; 0x26; 0x36; 0x3f; 0xf7; 0xcc; 0x34; 0xa5; 0xe5; 0xf1; 0x71; 0xd8; 0x31; 0x15;
  0x04; 0xc7; 0x23; 0xc3; 0x18; 0x96; 0x05; 0x9a; 0x07; 0x12; 0x80; 0xe2; 0xeb; 0x27; 0xb2; 0x75;
  0x09; 0x83; 0x2c; 0x1a; 0x1b; 0x6e; 0x5a; 0xa0; 0x52; 0x3b; 0xd6; 0xb3; 0x29; 0xe3; 0x2f; 0x84;
  0x53; 0xd1; 0x00; 0xed; 0x20; 0xfc; 0xb1; 0x5b; 0x6a; 0xcb; 0xbe; 0x39; 0x4a; 0x4c; 0x58; 0xcf;
  0xd0; 0xef; 0xaa; 0xfb; 0x43; 0x4d; 0x33; 0x85; 0x45; 0xf9; 0x02; 0x7f; 0x50; 0x3c; 0x9f; 0xa8;
  0x51; 0xa3; 0x40; 0x8f; 0x92; 0x9d; 0x38; 0xf5; 0xbc; 0xb6; 0xda; 0x21; 0x10; 0xff; 0xf3; 0xd2;
  0xcd; 0x0c; 0x13; 0xec; 0x5f; 0x97; 0x44; 0x17; 0xc4; 0xa7; 0x7e; 0x3d; 0x64; 0x5d; 0x19; 0x73;
  0x60; 0x81; 0x4f; 0xdc; 0x22; 0x2a; 0x90; 0x88; 0x46; 0xee; 0xb8; 0x14; 0xde; 0x5e; 0x0b; 0xdb;
  0xe0; 0x32; 0x3a; 0x0a; 0x49; 0x06; 0x24; 0x5c; 0xc2; 0xd3; 0xac; 0x62; 0x91; 0x95; 0xe4; 0x79;
  0xe7; 0xc8; 0x37; 0x6d; 0x8d; 0xd5; 0x4e; 0xa9; 0x6c; 0x56; 0xf4; 0xea; 0x65; 0x7a; 0xae; 0x08;
  0xba; 0x78; 0x25; 0x2e; 0x1c; 0xa6; 0xb4; 0xc6; 0xe8; 0xdd; 0x74; 0x1f; 0x4b; 0xbd; 0x8b; 0x8a;
  0x70; 0x3e; 0xb5; 0x66; 0x48; 0x03; 0xf6; 0x0e; 0x61; 0x35; 0x57; 0xb9; 0x86; 0xc1; 0x1d; 0x9e;
  0xe1; 0xf8; 0x98; 0x11; 0x69; 0xd9; 0x8e; 0x94; 0x9b; 0x1e; 0x87; 0xe9; 0xce; 0x55; 0x28; 0xdf;
  0x8c; 0xa1; 0x89; 0x0d; 0xbf; 0xe6; 0x42; 0x68; 0x41; 0x99; 0x2d; 0x0f; 0xb0; 0x54; 0xbb; 0x16].

Definition bytes2word (b0 b1 b2 b3 : Z) : Z :=
  Z.lor (Z.lor (Z.lor (Z.shiftl b3 24) (Z.shiftl b2 16)) (Z.shiftl b1 8)) b0.

Definition f2 (x : Z) : Z := Z.lxor (Z.shiftl x 1) (Z.land (Z.shiftr x 7) 1 * WPOLY).
Definition f3 (x : Z) : Z := Z.lxor (f2 x) x.

Definition u0 (p : Z) : Z := bytes2word (f2 p) p p (f3 p).
Definition u1 (p : Z) : Z := bytes2word (f3 p) (f2 p) p p.
Definition u2 (p : Z) : Z := bytes2word p (f3 p) (f2 p) p.
Definition u3 (p : Z) : Z := bytes2word p p (f3 p) (f2 p).

(** [d_4(uint32_t, t_dec(f,n), sb_data, u0, u1, u2, u3)]. *)
Definition t_fn : list (list Z) := [map u0 sb_data; map u1 sb_data; map u2 sb_data; map u3 sb_data].

Definition to_byte (x : Z) : Z := Z.land x 0xff.
Definition bval (x n : Z) : Z := to_byte (Z.shiftr x (8 * n)).

Definition fwd_var (x : list Z) (r c : nat) : Z :=
  match r with
  | 0%nat => match c with 0%nat => x !!! 0%nat | 1%nat => x !!! 1%nat | 2%nat => x !!! 2%nat | _ => x !!! 3%nat end
  | 1%nat => match c with 0%nat => x !!! 1%nat | 1%nat => x !!! 2%nat | 2%nat => x !!! 3%nat | _ => x !!! 0%nat end
  | 2%nat => match c with 0%nat => x !!! 2%nat | 1%nat => x !!! 3%nat | 2%nat => x !!! 0%nat | _ => x !!! 1%nat end
  | _ => match c with 0%nat => x !!! 3%nat | 1%nat => x !!! 0%nat | 2%nat => x !!! 1%nat | _ => x !!! 2%nat end
  end.

Definition four_tables (x : list Z) (tab : list (list Z)) (c : nat) : Z :=
  let look r := (tab !!! r) !!! Z.to_nat (bval (fwd_var x r c) (Z.of_nat r)) in
  Z.lxor (Z.lxor (Z.lxor (look 0%nat) (look 1%nat)) (look 2%nat)) (look 3%nat).

Definition fwd_rnd (x k : list Z) (c : nat) : Z := Z.lxor (k !!! c) (four_tables x t_fn c).
(** [round(fwd_rnd, y, x, k)]: the four words of [y]. *)
Definition round (x k : list Z) : list Z := [fwd_rnd x k 0; fwd_rnd x k 1; fwd_rnd x k 2; fwd_rnd x k 3].

(** The words of a byte array, and the four words written out. *)
Definition word_in (x : list Z) (c : nat) : Z := le_val (take 4 (drop (4 * c) x)).
Definition state_in (x : list Z) : list Z := [word_in x 0; word_in x 1; word_in x 2; word_in x 3].
Definition state_out (x : list Z) : list Z := concat (map (le_bytes 4) x).
(** The words of the key at [kp + n]. *)
Definition key_words_at (expandedKey : list Z) (n : nat) : list Z := map (fun c => word_in expandedKey (n + c)) [0; 1; 2; 3]%nat.

Definition aesb_single_round (inp expandedKey : list Z) : list Z :=
  let b0 := state_in inp in
  let b1 := round b0 (key_words_at expandedKey 0) in
  state_out b1.

Definition aesb_pseudo_round (inp expandedKey : list Z) : list Z :=
  let b0 := state_in inp in
  let b1 := round b0 (key_words_at expandedKey 0) in
  let b0 := round b1 (key_words_at expandedKey (1 * N_COLS)) in
  let b1 := round b0 (key_words_at expandedKey (2 * N_COLS)) in
  let b0 := round b1 (key_words_at expandedKey (3 * N_COLS)) in
  let b1 := round b0 (key_words_at expandedKey (4 * N_COLS)) in
  let b0 := round b1 (key_words_at expandedKey (5 * N_COLS)) in
  let b1 := round b0 (key_words_at expandedKey (6 * N_COLS)) in
  let b0 := round b1 (key_words_at expandedKey (7 * N_COLS)) in
  let b1 := round b0 (key_words_at expandedKey (8 * N_COLS)) in
  let b0 := round b1 (key_words_at expandedKey (9 * N_COLS)) in
  state_out b0.

(** ** The tables *)

(** The four columns a byte of the state contributes to. *)
Lemma tables_spec b : is_byte b ->
  (t_fn !!! 0%nat) !!! Z.to_nat b = le_val [gf_mul (s_box b) 2; s_box b; s_box b; gf_mul (s_box b) 3] /\
  (t_fn !!! 1%nat) !!! Z.to_nat b = le_val [gf_mul (s_box b) 3; gf_mul (s_box b) 2; s_box b; s_box b] /\
  (t_fn !!! 2%nat) !!! Z.to_nat b = le_val [s_box b; gf_mul (s_box b) 3; gf_mul (s_box b) 2; s_box b] /\
  (t_fn !!! 3%nat) !!! Z.to_nat b = le_val [s_box b; s_box b; gf_mul (s_box b) 3; gf_mul (s_box b) 2].
Proof.
  intros Hb. split_and!; revert b Hb;
    [apply (table_lookup (t_fn !!! 0%nat) (fun b => le_val [gf_mul (s_box b) 2; s_box b; s_box b; gf_mul (s_box b) 3]))
    |apply (table_lookup (t_fn !!! 1%nat) (fun b => le_val [gf_mul (s_box b) 3; gf_mul (s_box b) 2; s_box b; s_box b]))
    |apply (table_lookup (t_fn !!! 2%nat) (fun b => le_val [s_box b; gf_mul (s_box b) 3; gf_mul (s_box b) 2; s_box b]))
    |apply (table_lookup (t_fn !!! 3%nat) (fun b => le_val [s_box b; s_box b; gf_mul (s_box b) 3; gf_mul (s_box b) 2]))];
    vm_compute; reflexivity.
Qed.

(** ** Words as columns *)

Lemma bval_column w n : column_ok w -> (n < 4)%nat -> bval (le_val w) (Z.of_nat n) = w !!! n.
Proof. intros [L B] Hn. apply le_val_byte; [exact B | lia]. Qed.

Definition words_of (s : list column) : list Z := map le_val s.

Lemma state_in_eq s : state_ok s -> state_in (concat s) = words_of s.
Proof. intros H. split_state H. reflexivity. Qed.
Lemma le_bytes_column w : column_ok w -> le_bytes 4 (le_val w) = w.
Proof. intros [L B]. rewrite <- L. by apply le_bytes_le_val. Qed.
Lemma state_out_eq s : state_ok s -> state_out (words_of s) = concat s.
Proof.
  intros H. apply state_cases in H as (w0&w1&w2&w3&->&H0&H1&H2&H3). unfold state_out, words_of. cbn [map].
  by rewrite !le_bytes_column.
Qed.

(** One column of the output of a round. *)
Lemma column_xor5 k a b c d : column_ok k -> column_ok a -> column_ok b -> column_ok c -> column_ok d ->
  Z.lxor (le_val k) (Z.lxor (Z.lxor (Z.lxor (le_val a) (le_val b)) (le_val c)) (le_val d))
  = le_val (xor_bytes k (xor_bytes (xor_bytes (xor_bytes a b) c) d)).
Proof.
  intros Hk Ha Hb Hc Hd.
  pose proof (xor_bytes_ok a b Ha Hb) as H1. pose proof (xor_bytes_ok _ c H1 Hc) as H2. pose proof (xor_bytes_ok _ d H2 Hd) as H3.
  destruct Hk, Ha, Hb, Hc, Hd, H1, H2, H3. rewrite !le_val_xor; first [done | congruence].
Qed.

Lemma mixed_byte b k : is_byte b -> In k [2; 3; 9; 11; 13; 14] -> is_byte (gf_mul (s_box b) k).
Proof. intros Hb Hk. apply gf_mul_byte; [by apply s_box_byte | exact Hk]. Qed.

Lemma mix_column_eq a b c d : MixColumn [a; b; c; d] = [mix_row a b c d; mix_row b c d a; mix_row c d a b; mix_row d a b c].
Proof. reflexivity. Qed.

(** The sum of the four table words is the mixed column. *)
Lemma mix_sum k s0 s1 s2 s3 : column_ok k ->
  xor_bytes k (xor_bytes (xor_bytes (xor_bytes [gf_mul s0 2; s0; s0; gf_mul s0 3] [gf_mul s1 3; gf_mul s1 2; s1; s1])
    [s2; gf_mul s2 3; gf_mul s2 2; s2]) [s3; s3; gf_mul s3 3; gf_mul s3 2]) = xor_bytes (MixColumn [s0; s1; s2; s3]) k.
Proof.
  intros Hk. split_column Hk. rewrite mix_column_eq. unfold xor_bytes. cbn [zip_with]. unfold mix_row.
  generalize (gf_mul s0 2), (gf_mul s0 3), (gf_mul s1 2), (gf_mul s1 3), (gf_mul s2 2), (gf_mul s2 3), (gf_mul s3 2), (gf_mul s3 3).
  intros. f_equal; [xor_ring|]. f_equal; [xor_ring|]. f_equal; [xor_ring|]. f_equal. xor_ring.
Qed.

Lemma round_column k b0 b1 b2 b3 : column_ok k -> is_byte b0 -> is_byte b1 -> is_byte b2 -> is_byte b3 ->
  Z.lxor (le_val k) (Z.lxor (Z.lxor (Z.lxor ((t_fn !!! 0%nat) !!! Z.to_nat b0) ((t_fn !!! 1%nat) !!! Z.to_nat b1))
    ((t_fn !!! 2%nat) !!! Z.to_nat b2)) ((t_fn !!! 3%nat) !!! Z.to_nat b3))
  = le_val (xor_bytes (MixColumn [s_box b0; s_box b1; s_box b2; s_box b3]) k).
Proof.
  intros Hk H0 H1 H2 H3. pose proof (s_box_byte b0 H0). pose proof (s_box_byte b1 H1).
  pose proof (s_box_byte b2 H2). pose proof (s_box_byte b3 H3).
  rewrite (proj1 (tables_spec b0 H0)), (proj1 (proj2 (tables_spec b1 H1))), (proj1 (proj2 (proj2 (tables_spec b2 H2)))),
    (proj2 (proj2 (proj2 (tables_spec b3 H3)))).
  rewrite column_xor5 by (exact Hk || (apply column_intro; first [assumption | apply mixed_byte; [assumption | cbn; auto]])).
  by rewrite mix_sum.
Qed.

Lemma sub_shift_eq a0 a1 a2 a3 b0 b1 b2 b3 c0 c1 c2 c3 d0 d1 d2 d3 :
  ShiftRows (SubBytes [[a0; a1; a2; a3]; [b0; b1; b2; b3]; [c0; c1; c2; c3]; [d0; d1; d2; d3]]) =
  [[s_box a0; s_box b1; s_box c2; s_box d3]; [s_box b0; s_box c1; s_box d2; s_box a3];
   [s_box c0; s_box d1; s_box a2; s_box b3]; [s_box d0; s_box a1; s_box b2; s_box c3]].
Proof. reflexivity. Qed.

Lemma round_eq s k : state_ok s -> state_ok k ->
  round (words_of s) (words_of k) = words_of (AddRoundKey (MixColumns (ShiftRows (SubBytes s))) k).
Proof.
  intros Hs Hk. apply state_cases in Hs as (w0&w1&w2&w3&->&W0&W1&W2&W3). apply state_cases in Hk as (k0&k1&k2&k3&->&K0&K1&K2&K3).
  unfold round, fwd_rnd, four_tables, words_of. cbn [map]. cbv zeta. cbn [fwd_var lookup_total list_lookup_total].
  change 0 with (Z.of_nat 0). change 1 with (Z.of_nat 1). change 2 with (Z.of_nat 2). change 3 with (Z.of_nat 3).
  rewrite !bval_column by (assumption || lia).
  split_column W0. split_column W1. split_column W2. split_column W3. cbn [lookup_total list_lookup_total].
  match goal with |- _ = map le_val (AddRoundKey (MixColumns (ShiftRows (SubBytes [[?a0; ?a1; ?a2; ?a3]; [?b0; ?b1; ?b2; ?b3];
    [?c0; ?c1; ?c2; ?c3]; [?d0; ?d1; ?d2; ?d3]]))) _) =>
    rewrite (sub_shift_eq a0 a1 a2 a3 b0 b1 b2 b3 c0 c1 c2 c3 d0 d1 d2 d3) end.
  unfold MixColumns, AddRoundKey. cbn [map zip_with].
  f_equal; [by apply round_column|]. f_equal; [by apply round_column|]. f_equal; [by apply round_column|]. f_equal. by apply round_column.
Qed.

Lemma encryption_round_eq s key k : state_ok s -> state_ok k -> take 16 key = concat k -> (16 <= length key)%nat ->
  snd (oaes_encryption_round (Some key) (Some (concat s))) = Some (concat (AddRoundKey (MixColumns (ShiftRows (SubBytes s))) k)) /\
  state_ok (AddRoundKey (MixColumns (ShiftRows (SubBytes s))) k).
Proof.
  intros Hs Hk E L. unfold oaes_encryption_round. cbv zeta. cbn [snd].
  destruct (sub_bytes_eq s Hs) as [-> H1]. destruct (shift_rows_eq _ H1) as [-> H2]. destruct (mix_columns_eq _ H2) as [-> H3].
  destruct (add_state _ k H3 Hk) as [EA HA]. split; [|exact HA]. f_equal. rewrite <- EA, <- E.
  destruct (state_block _ H3) as [[Lb _] _]. rewrite add_round_key_eq by (cbn; lia). rewrite Lb. reflexivity.
Qed.

(** The round keys of the slow hash: ten times sixteen bytes. *)
Definition key_at (key : list Z) (n : nat) : list column := columns (take 16 (drop (16 * n) key)).

Lemma key_at_ok key n : byte_ok key -> (16 * n + 16 <= length key)%nat ->
  state_ok (key_at key n) /\ concat (key_at key n) = take 16 (drop (16 * n) key) /\ key_words_at key (n * N_COLS) = words_of (key_at key n).
Proof.
  intros B L. assert (Hb : block_ok (take 16 (drop (16 * n) key))).
  { split; [rewrite length_take, length_drop; lia | by apply Forall_take, Forall_drop]. }
  destruct (columns_ok _ Hb) as [H1 H2]. split; [exact H1|]. split; [exact H2|].
  assert (E : forall j, (j < 4)%nat -> take 4 (drop (4 * (n * N_COLS + j)) key) = take 4 (drop (4 * j) (take 16 (drop (16 * n) key)))).
  { intros j Hj. rewrite skipn_firstn_comm, take_take, drop_drop, Nat.min_l by lia. do 2 f_equal. unfold N_COLS. lia. }
  unfold key_words_at, word_in. cbn [map]. rewrite !E by lia. reflexivity.
Qed.

(** [n] rounds. *)
Definition aes_rounds (n : nat) (key : list Z) (s : list column) : list column :=
  foldl (fun s i => AddRoundKey (MixColumns (ShiftRows (SubBytes s))) (key_at key i)) s (seq 0 n).

Lemma aes_rounds_S n key s : aes_rounds (S n) key s = AddRoundKey (MixColumns (ShiftRows (SubBytes (aes_rounds n key s)))) (key_at key n).
Proof. unfold aes_rounds. by rewrite seq_S, foldl_app. Qed.

Lemma round_state_ok s k : state_ok s -> state_ok k -> state_ok (AddRoundKey (MixColumns (ShiftRows (SubBytes s))) k).
Proof.
  intros Hs Hk. destruct (sub_bytes_eq s Hs) as [_ H1]. destruct (shift_rows_eq _ H1) as [_ H2]. destruct (mix_columns_eq _ H2) as [_ H3].
  by apply add_state.
Qed.
Lemma aes_rounds_ok n key s : byte_ok key -> (16 * n <= length key)%nat -> state_ok s -> state_ok (aes_rounds n key s).
Proof.
  intros B. induction n as [|n IH]; intros L Hs; [exact Hs|]. rewrite aes_rounds_S. apply round_state_ok; [apply IH; [lia | exact Hs]|].
  apply key_at_ok; [exact B | lia].
Qed.

Lemma round_rounds n key s : byte_ok key -> (16 * n + 16 <= length key)%nat -> state_ok s ->
  round (words_of (aes_rounds n key s)) (key_words_at key (n * N_COLS)) = words_of (aes_rounds (S n) key s).
Proof.
  intros B L Hs. destruct (key_at_ok key n B L) as (Hk & _ & ->). rewrite aes_rounds_S.
  apply round_eq; [apply aes_rounds_ok; [exact B | lia | exact Hs] | exact Hk].
Qed.

Lemma pseudo_round_eq key s : byte_ok key -> (160 <= length key)%nat -> state_ok s ->
  aesb_pseudo_round (concat s) key = concat (aes_rounds 10 key s).
Proof.
  intros B L Hs. unfold aesb_pseudo_round. rewrite (state_in_eq s Hs). cbv zeta.
  change (words_of s) with (words_of (aes_rounds 0 key s)). change 0%nat with (0 * N_COLS)%nat at 2.
  rewrite !round_rounds by (done || lia). apply state_out_eq. apply aes_rounds_ok; [exact B | lia | exact Hs].
Qed.

(** The loop of [oaes_pseudo_encrypt_ecb]. *)
Lemma ecb_rounds key s n : byte_ok key -> (16 * n <= length key)%nat -> state_ok s ->
  foldl (fun c _i => snd (oaes_encryption_round (Some (drop (Z.to_nat (_i * OAES_RKEY_LEN * OAES_COL_LEN)) key)) c))
    (Some (concat s)) (z_range 0 (Z.of_nat n)) = Some (concat (aes_rounds n key s)).
Proof.
  intros B. unfold z_range. rewrite Z.sub_0_r, Nat2Z.id. induction n as [|n IH]; intros L Hs; [reflexivity|].
  rewrite seq_S, map_app, foldl_app, IH by (lia || done). cbn [map foldl]. rewrite aes_rounds_S.
  destruct (key_at_ok key n B ltac:(lia)) as (Hk & Ek & _).
  replace (Z.to_nat _) with (16 * n)%nat by (unfold OAES_RKEY_LEN, OAES_COL_LEN; lia).
  apply encryption_round_eq; [apply aes_rounds_ok; [exact B | lia | exact Hs] | exact Hk | by rewrite Ek | rewrite length_drop; lia].
Qed.

(** C18. The table-driven rounds of aesb.c are those of OpenAES: for every block and
    every key of enough bytes, [aesb_single_round] computes what
    [oaes_encryption_round] writes, the round of FIPS 197 with mixed columns, and
    [aesb_pseudo_round] what [oaes_pseudo_encrypt_ecb] writes with an expanded
    key, ten such rounds with the first ten round keys; bytes of the key after
    those read do not matter. *)
Theorem aesb_rounds_correct block expandedKey : block_ok block -> byte_ok expandedKey ->
  ((16 <= length expandedKey)%nat ->
    let round_keys := columns (take 16 expandedKey) in
    aesb_single_round block expandedKey = concat (AddRoundKey (MixColumns (ShiftRows (SubBytes (columns block)))) round_keys) /\
    oaes_encryption_round (Some expandedKey) (Some block) = (OAES_RET_SUCCESS, Some (aesb_single_round block expandedKey)) /\
    block_ok (aesb_single_round block expandedKey) /\
    aesb_single_round block (take 16 expandedKey) = aesb_single_round block expandedKey) /\
  (forall nk key ctx, key_expanded nk key -> ctx_key ctx = Some key ->
    oaes_pseudo_encrypt_ecb (Some ctx) (Some block) = (OAES_RET_SUCCESS, Some (aesb_pseudo_round block (exp_data key))) /\
    aesb_pseudo_round block (take 160 (exp_data key)) = aesb_pseudo_round block (exp_data key)).
Proof.
  intros Hb B. destruct (columns_ok block Hb) as [Hs Eb]. split.
  - intros L. cbv zeta. destruct (key_at_ok expandedKey 0 B ltac:(lia)) as (Hk & Ek & Ew). unfold key_at in Hk, Ek, Ew. rewrite drop_0 in Hk, Ek, Ew.
    assert (E1 : aesb_single_round block expandedKey = concat (AddRoundKey (MixColumns (ShiftRows (SubBytes (columns block)))) (columns (take 16 expandedKey)))).
    { unfold aesb_single_round. rewrite <- Eb at 1. rewrite (state_in_eq _ Hs). cbv zeta. change 0%nat with (0 * N_COLS)%nat.
      rewrite Ew, round_eq by done. apply state_out_eq. by apply round_state_ok. }
    split; [exact E1|]. destruct (encryption_round_eq (columns block) expandedKey (columns (take 16 expandedKey)) Hs Hk) as [E2 H2];
      [by rewrite Ek | exact L |]. rewrite Eb in E2. split; [rewrite E1; unfold oaes_encryption_round in *; cbv zeta in *; cbn [snd] in E2; by rewrite E2|].
    split; [rewrite E1; by apply state_block|]. unfold aesb_single_round. cbv zeta. do 2 f_equal.
    unfold key_words_at, word_in. cbn [map Nat.add]. rewrite !skipn_firstn_comm, !take_take. reflexivity.
  - intros nk key ctx K Hkey. destruct (key_schedule_ok nk (data key) (ke_words _ _ K) (ke_length _ _ K) (ke_bytes _ _ K)) as [F L].
    assert (Be : byte_ok (exp_data key)).
    { rewrite (ke_exp _ _ K). clear -F. induction F as [|w ws [_ Bw] _ IH]; [constructor|]. cbn [concat]. apply Forall_app. by split. }
    assert (Le : (160 <= length (exp_data key))%nat).
    { rewrite (ke_exp _ _ K), length_cols, L by exact F. destruct (ke_words _ _ K) as [-> | [-> | ->]]; lia. }
    rewrite <- Eb. rewrite (pseudo_round_eq (exp_data key)) by done.
    rewrite (pseudo_round_eq (take 160 (exp_data key))); [| by apply Forall_take | rewrite length_take; lia | exact Hs].
    split.
    + unfold oaes_pseudo_encrypt_ecb. rewrite Hkey. change 10 with (Z.of_nat 10). by rewrite (ecb_rounds (exp_data key) _ 10) by (done || lia).
    + unfold aes_rounds. f_equal. assert (Ek : forall n, (n < 10)%nat -> key_at (take 160 (exp_data key)) n = key_at (exp_data key) n).
      { intros n Hn. unfold key_at. rewrite skipn_firstn_comm, take_take, Nat.min_l by lia. reflexivity. }
      cbn [seq foldl]. rewrite !Ek by lia. reflexivity.
Qed.

Lemma aesb_rounds_correct_witness : block_ok fips_block /\ byte_ok (fips_key 16) /\
  oaes_encryption_round (Some (fips_key 16)) (Some fips_block) = (OAES_RET_SUCCESS, Some (aesb_single_round fips_block (fips_key 16))).
Proof.
  assert (Bk : byte_ok (fips_key 16)) by (unfold byte_ok; apply (bool_decide_unpack _); vm_compute; exact I).
  assert (Bb : block_ok fips_block) by (split; [reflexivity|]; unfold byte_ok; apply (bool_decide_unpack _); vm_compute; exact I).
  split; [exact Bb|]. split; [exact Bk|].
  destruct (aesb_rounds_correct fips_block (fips_key 16) Bb Bk) as [H _].
  destruct (H ltac:(cbn; lia)) as (_ & E & _). exact E.
Defined.
