(* ===== verification/BitString.v ===== *)
(** * Messages of bits

    The hash functions of the slow hash take a length in bits. The bits of a byte
    count from the highest one; a message that ends inside of a byte has the high
    bits of it. *)

From Stdlib Require Import ZArith Lia.
From stdpp Require Import base tactics list numbers.
From S2P Require Import Prelude Radix Words AesSpec AesProofs.
Open Scope Z_scope.

Definition byte_bits (b : Z) : list bool := map (fun i => Z.testbit b (7 - Z.of_nat i)) (seq 0 8).
Definition bits_byte (l : list bool) : Z := foldl (fun v (b : bool) => 2 * v + (if b then 1 else 0)) 0 l.
Definition bits_of (bytes : list Z) : list bool := concat (map byte_bits bytes).
(** The first [n] bits of the data. *)
Definition message_bits (data : list Z) (n : nat) : list bool := take n (bits_of data).

Fixpoint pack_bytes (n : nat) (bits : list bool) : list Z :=
  match n with O => [] | S n => bits_byte (take 8 bits) :: pack_bytes n (drop 8 bits) end.
(** The bytes of a string of whole bytes. *)
Definition pack (bits : list bool) : list Z := pack_bytes (length bits / 8) bits.

(** A byte that ends with the message: its first [rem] bits, a one, zeros. *)
Definition last_byte (rem : nat) (b : Z) : Z := bits_byte (take rem (byte_bits b) ++ true :: replicate (7 - rem) false).

Lemma length_byte_bits b : length (byte_bits b) = 8%nat.
Proof. reflexivity. Qed.
Lemma length_bits_of l : length (bits_of l) = (8 * length l)%nat.
Proof. induction l as [|b l IH]; [reflexivity|]. cbn [bits_of map concat length]. rewrite length_app. fold (bits_of l). rewrite IH, length_byte_bits. lia. Qed.
Lemma bits_of_app l1 l2 : bits_of (l1 ++ l2) = bits_of l1 ++ bits_of l2.
Proof. unfold bits_of. by rewrite map_app, concat_app. Qed.

Lemma bits_byte_bits b : is_byte b -> bits_byte (byte_bits b) = b.
Proof. apply (bytes_eq_check (fun b => bits_byte (byte_bits b)) id). vm_compute. reflexivity. Qed.

Lemma pack_byte l bits : length l = 8%nat -> pack (l ++ bits) = bits_byte l :: pack bits.
Proof.
  intros L. unfold pack. rewrite length_app, L. replace ((8 + length bits) / 8)%nat with (S (length bits / 8)).
  - cbn [pack_bytes]. by rewrite take_app_length', drop_app_length'.
  - replace (8 + length bits)%nat with (length bits + 1 * 8)%nat by lia. rewrite Nat.div_add by lia. lia.
Qed.

Lemma pack_app data bits : byte_ok data -> pack (bits_of data ++ bits) = data ++ pack bits.
Proof.
  induction 1 as [|b l Hb _ IH]; [reflexivity|]. cbn [bits_of map concat app]. fold (bits_of l). rewrite <- app_assoc.
  by rewrite pack_byte, IH, bits_byte_bits by done.
Qed.
Lemma pack_bits_of data : byte_ok data -> pack (bits_of data) = data.
Proof. intros B. rewrite <- (app_nil_r (bits_of data)), pack_app by exact B. apply app_nil_r. Qed.
Lemma pack_zeros z bits : pack (replicate (8 * z) false ++ bits) = replicate z 0 ++ pack bits.
Proof.
  induction z as [|z IH]; [reflexivity|]. replace (8 * S z)%nat with (8 + 8 * z)%nat by lia.
  rewrite replicate_add, <- app_assoc, pack_byte by reflexivity. rewrite IH. reflexivity.
Qed.

Lemma take_bits_of m rem data : (rem < 8)%nat -> (m < length data)%nat \/ rem = 0%nat ->
  take (8 * m + rem) (bits_of data) = bits_of (take m data) ++ take rem (byte_bits (data !!! m)).
Proof.
  intros Hr. revert data. induction m as [|m IH]; intros data H.
  - destruct H as [H | ->]; [|reflexivity]. destruct data as [|b data]; [cbn in H; lia|].
    cbn [bits_of map concat take app lookup_total list_lookup_total]. change (8 * 0 + rem)%nat with rem.
    by rewrite take_app_le by (rewrite length_byte_bits; lia).
  - destruct data as [|b data]; [destruct H as [H | ->]; [cbn in H; lia | by rewrite !take_nil]|].
    cbn [bits_of map concat take lookup_total list_lookup_total]. fold (bits_of data) (bits_of (take m data)).
    rewrite <- app_assoc, <- IH by (cbn in H; lia || (destruct H; [left; cbn in *; lia | by right])).
    replace (8 * S m + rem)%nat with (length (byte_bits b) + (8 * m + rem))%nat by (rewrite length_byte_bits; lia).
    apply take_app_add.
Qed.

(** The padded message: its whole bytes, the byte in which it ends, zeros, and
    whatever follows. *)
Lemma pack_padded data m rem z tail : byte_ok data -> (rem < 8)%nat -> (m < length data)%nat \/ rem = 0%nat ->
  pack (message_bits data (8 * m + rem) ++ true :: replicate (7 - rem + 8 * z) false ++ tail) =
  take m data ++ last_byte rem (data !!! m) :: replicate z 0 ++ pack tail.
Proof.
  intros B Hr H. unfold message_bits. rewrite take_bits_of by assumption. rewrite <- app_assoc, pack_app by (by apply Forall_take).
  f_equal. rewrite replicate_add. cbn [app]. rewrite <- app_assoc.
  replace (take rem (byte_bits (data !!! m)) ++ true :: replicate (7 - rem) false ++ replicate (8 * z) false ++ tail)
    with ((take rem (byte_bits (data !!! m)) ++ true :: replicate (7 - rem) false) ++ replicate (8 * z) false ++ tail)
    by (rewrite <- app_assoc; reflexivity).
  rewrite pack_byte, pack_zeros; [reflexivity|].
  rewrite length_app, length_take, length_byte_bits. cbn [length]. rewrite length_replicate. lia.
Qed.

(** How the code makes the last byte. *)
Lemma last_byte_0 b : last_byte 0 b = 0x80.
Proof. reflexivity. Qed.
Lemma last_byte_mask rem b : (0 < rem < 8)%nat -> is_byte b ->
  Z.lxor (Z.land b (u8 (Z.shiftl (Z.shiftl 1 (Z.of_nat rem) - 1) (8 - Z.of_nat rem)))) (Z.shiftl 1 (7 - Z.of_nat rem)) = last_byte rem b.
Proof.
  intros Hr. revert b.
  assert (C : forall k, In k (seq 1 7) -> forall b, is_byte b ->
    Z.lxor (Z.land b (u8 (Z.shiftl (Z.shiftl 1 (Z.of_nat k) - 1) (8 - Z.of_nat k)))) (Z.shiftl 1 (7 - Z.of_nat k)) = last_byte k b).
  { intros k Hk b Hb. assert (P : forallb (fun k => Z.lxor (Z.land b (u8 (Z.shiftl (Z.shiftl 1 (Z.of_nat k) - 1) (8 - Z.of_nat k)))) (Z.shiftl 1 (7 - Z.of_nat k)) =? last_byte k b) (seq 1 7) = true).
    { revert b Hb. apply bytes_check. vm_compute. reflexivity. }
    rewrite forallb_forall in P. by apply Z.eqb_eq, P. }
  apply C, in_seq. lia.
Qed.
Lemma last_byte_range rem b : (rem < 8)%nat -> is_byte b -> is_byte (last_byte rem b).
Proof.
  intros Hr Hb. assert (P : forallb (fun k => (0 <=? last_byte k b) && (last_byte k b <? 2 ^ 8)) (seq 0 8) = true).
  { revert b Hb. apply bytes_check. vm_compute. reflexivity. }
  rewrite forallb_forall in P. specialize (P rem ltac:(apply in_seq; lia)). apply andb_true_iff in P as [P1 P2]. unfold is_byte. lia.
Qed.

(** A length in bits: whole bytes [m], bits [rem] after them, whole blocks [q] of 64
    bytes, bytes [k] after them. *)
Lemma bit_length_split (n : Z) (data : list Z) : 0 <= n -> n <= 8 * Z.of_nat (length data) ->
  let m := Z.to_nat (n / 8) in let rem := Z.to_nat (n mod 8) in let q := (m / 64)%nat in let k := (m mod 64)%nat in
  n / 8 = Z.of_nat m /\ n mod 8 = Z.of_nat rem /\ (rem < 8)%nat /\ (k < 64)%nat /\ m = (64 * q + k)%nat /\ (m <= length data)%nat /\
  ((m < length data)%nat \/ rem = 0%nat) /\ Z.of_nat m / 64 = Z.of_nat q /\ n = 8 * Z.of_nat m + Z.of_nat rem.
Proof.
  intros H0 Hn m rem q k. assert (0 <= n / 8) by (apply Z.div_pos; lia). pose proof (Z.mod_pos_bound n 8 ltac:(lia)).
  pose proof (Z.div_mod n 8 ltac:(lia)). pose proof (Nat.div_mod m 64 ltac:(lia)). pose proof (Nat.mod_upper_bound m 64 ltac:(lia)).
  assert (Z.of_nat m / 64 = Z.of_nat q) by (unfold q; by rewrite Nat2Z.inj_div).
  unfold q, k in *. repeat split; unfold m, rem in *; lia.
Qed.
Lemma length_message_bits data n : n <= 8 * Z.of_nat (length data) -> length (message_bits data (Z.to_nat n)) = Z.to_nat n.
Proof. intros H. unfold message_bits. rewrite length_take, length_bits_of. lia. Qed.

Lemma blocks_take r n m : blocks r n (take (r * n) m) = blocks r n m.
Proof.
  revert m. induction n as [|n IH]; intros m; [reflexivity|]. cbn [blocks].
  rewrite take_take, Nat.min_l by lia. rewrite skipn_firstn_comm. replace (r * S n - r)%nat with (r * n)%nat by lia. by rewrite IH.
Qed.
(** The blocks of a padded message: those of the data and those of its end. *)
Lemma blocks_padded q e data rest : (64 * q <= length data)%nat -> length rest = (64 * e)%nat ->
  blocks 64 (length (take (64 * q) data ++ rest) / 64) (take (64 * q) data ++ rest) = blocks 64 q data ++ blocks 64 e rest.
Proof.
  intros H L. assert (Lq : length (take (64 * q) data) = (64 * q)%nat) by (rewrite length_take; lia).
  rewrite length_app, Lq, L. replace (64 * q + 64 * e)%nat with ((q + e) * 64)%nat by lia. rewrite Nat.div_mul by lia.
  rewrite blocks_app by exact Lq. by rewrite blocks_take.
Qed.

Lemma xor_bytes_comm a b : xor_bytes a b = xor_bytes b a.
Proof.
  revert b. induction a as [|x a IH]; intros [|y b]; [reflexivity..|]. unfold xor_bytes in *. cbn [zip_with].
  by rewrite Z.lxor_comm, IH.
Qed.

(** The last byte of a message whose unused bits are zeros. *)
Lemma last_byte_or rem b : (0 < rem < 8)%nat -> is_byte b -> Z.land b (2 ^ (8 - Z.of_nat rem) - 1) = 0 ->
  Z.lor b (Z.shiftl 1 (7 - Z.of_nat rem)) = last_byte rem b.
Proof.
  intros Hr Hb. revert b Hb.
  assert (C : forall k, In k (seq 1 7) -> forall b, is_byte b ->
    Z.land b (2 ^ (8 - Z.of_nat k) - 1) = 0 -> Z.lor b (Z.shiftl 1 (7 - Z.of_nat k)) = last_byte k b).
  { intros k Hk b Hb. assert (P : forallb (fun k => negb (Z.land b (2 ^ (8 - Z.of_nat k) - 1) =? 0) || (Z.lor b (Z.shiftl 1 (7 - Z.of_nat k)) =? last_byte k b)) (seq 1 7) = true).
    { revert b Hb. apply bytes_check. vm_compute. reflexivity. }
    rewrite forallb_forall in P. specialize (P k Hk). intros E. rewrite E in P. by apply Z.eqb_eq. }
  apply C, in_seq. lia.
Qed.

(** The bytes of a number, the last byte first. *)
Lemma le_bytes_S n z : le_bytes (S n) z = le_bytes n z ++ [(z / 2 ^ (8 * Z.of_nat n)) mod 2 ^ 8].
Proof.
  revert z. induction n as [|n IH]; intros z; [cbn; by rewrite Z.div_1_r|]. cbn [le_bytes app]. f_equal.
  change (z / 2 ^ 8 mod 2 ^ 8 :: le_bytes n (z / 2 ^ 8 / 2 ^ 8)) with (le_bytes (S n) (z / 2 ^ 8)). rewrite IH.
  do 3 f_equal. rewrite div_div_pow by lia. do 2 f_equal. lia.
Qed.
Lemma le_bytes_zeros n k z : 0 <= z < 2 ^ (8 * Z.of_nat n) -> le_bytes (n + k) z = le_bytes n z ++ replicate k 0.
Proof.
  intros Hz. induction k as [|k IH]; [by rewrite Nat.add_0_r, app_nil_r|].
  replace (n + S k)%nat with (S (n + k)) by lia. rewrite le_bytes_S, IH, <- app_assoc. f_equal.
  rewrite Z.div_small, Z.mod_0_l by (lia || (split; [lia|]; eapply Z.lt_le_trans; [apply Hz|]; apply Z.pow_le_mono_r; lia)).
  by rewrite <- (replicate_cons_app k 0).
Qed.
