(* ===== verification/GroestlSpec.v ===== *)
(** * Groestl-256: the reference

    The two permutations on a matrix of eight columns of eight bytes, with the
    S-box and the field of the AES, the compression function, the padding of a
    message of bits, and the hash. *)

From Stdlib Require Import ZArith Lia.
From stdpp Require Import base tactics list numbers.
From S2P Require Import Prelude Radix Words AesSpec AesProofs BitString.
Open Scope Z_scope.

Definition matrix : Type := list (list Z).

(** The constants of the round [r] and the column [j]: in the permutation P they
    change row 0, in Q every byte and, in addition, row 7. *)
Definition add_constant_P (r : Z) (s : matrix) : matrix :=
  imap (fun j col => xor_bytes col [Z.lxor (16 * Z.of_nat j) r; 0; 0; 0; 0; 0; 0; 0]) s.
Definition add_constant_Q (r : Z) (s : matrix) : matrix :=
  imap (fun j col => xor_bytes col [255; 255; 255; 255; 255; 255; 255; Z.lxor 255 (Z.lxor (16 * Z.of_nat j) r)]) s.

Definition sub_bytes (s : matrix) : matrix := map (map s_box) s.

(** Row [i] moves [shifts !!! i] places to the left. *)
Definition shift_bytes (shifts : list nat) (s : matrix) : matrix :=
  map (fun j => map (fun i => (s !!! ((j + shifts !!! i) mod 8)%nat) !!! i) (seq 0 8)) (seq 0 8).
Definition shifts_P : list nat := [0; 1; 2; 3; 4; 5; 6; 7]%nat.
Definition shifts_Q : list nat := [1; 3; 5; 7; 0; 2; 4; 6]%nat.

(** Column times the circulant matrix with this first row. *)
Definition circ_row : list Z := [2; 2; 3; 4; 5; 3; 5; 7].
Definition mix_entry (col : list Z) (i : nat) : Z :=
  foldl (fun v k => Z.lxor v (gf_mul (col !!! k) (circ_row !!! ((k + 8 - i) mod 8)%nat))) 0 (seq 0 8).
Definition mix_column (col : list Z) : list Z := map (mix_entry col) (seq 0 8).
Definition mix_bytes (s : matrix) : matrix := map mix_column s.

Definition round_P (s : matrix) (r : nat) : matrix :=
  mix_bytes (shift_bytes shifts_P (sub_bytes (add_constant_P (Z.of_nat r) s))).
Definition round_Q (s : matrix) (r : nat) : matrix :=
  mix_bytes (shift_bytes shifts_Q (sub_bytes (add_constant_Q (Z.of_nat r) s))).

(** The columns of 64 bytes, one after the other. *)
Definition to_matrix (bytes : list Z) : matrix := map (fun j => take 8 (drop (8 * j) bytes)) (seq 0 8).
Definition perm_P (x : list Z) : list Z := concat (foldl round_P (to_matrix x) (seq 0 10)).
Definition perm_Q (x : list Z) : list Z := concat (foldl round_Q (to_matrix x) (seq 0 10)).

(** The compression function and the output transformation. *)
Definition groestl_f (h m : list Z) : list Z := xor_bytes (xor_bytes (perm_P (xor_bytes h m)) (perm_Q m)) h.
Definition groestl_out (h : list Z) : list Z := drop 32 (xor_bytes (perm_P h) h).

(** The bit 1, zeros up to a multiple of 512 bits less 64, and the number of blocks. *)
Definition groestl_pad (bits : list bool) : list bool :=
  let n := length bits in
  let w := ((512 - (n + 65) mod 512) mod 512)%nat in
  let p := ((n + w + 65) / 512)%nat in
  bits ++ true :: replicate w false ++ bits_of (rev (le_bytes 8 (Z.of_nat p))).

Definition groestl_iv : list Z := replicate 62 0 ++ [1; 0].
Definition Groestl256 (bits : list bool) : list Z :=
  let m := pack (groestl_pad bits) in
  groestl_out (foldl groestl_f groestl_iv (blocks 64 (length m / 64) m)).

(** The digest of the empty message. *)
Example groestl256_empty : Groestl256 [] =
  rev (le_bytes 32 0x1a52d11d550039be16107f9c58db9ebcc417f16f736adb2502567119f0083467).
Proof. vm_compute. reflexivity. Qed.
