(* ===== verification/GroestlProofs.v ===== *)
(** * Groestl-256: the rounds on words are those of the reference

    The table of columns, the rotation of columns, and the two permutations. *)

From Stdlib Require Import ZArith Lia.
From stdpp Require Import base tactics list numbers.
From S2P Require Import Prelude Radix Words AesSpec AesProofs BitString Groestl GroestlSpec.
Open Scope Z_scope.

(** ** Columns as two words *)

Definition col_ok (col : list Z) : Prop := length col = 8%nat /\ byte_ok col.
Definition matrix_ok (s : matrix) : Prop := length s = 8%nat /\ Forall col_ok s.
Definition col_words (col : list Z) : list Z := [le_val (take 4 col); le_val (drop 4 col)].
Definition matrix_words (s : matrix) : list Z := concat (map col_words s).

(** The column of a byte of row 0, before it is rotated. *)
Definition byte_column (b : Z) : list Z :=
  map (fun k => gf_mul (s_box b) k) [2; 7; 5; 3; 5; 4; 3; 2].

Lemma T_spec b : is_byte b -> T_u b = le_val (take 4 (byte_column b)) /\ T_l b = le_val (drop 4 (byte_column b)).
Proof.
  intros Hb. split; apply Z.eqb_eq; revert b Hb.
  - apply (bytes_check (fun b => T_u b =? le_val (take 4 (byte_column b)))). vm_compute. reflexivity.
  - apply (bytes_check (fun b => T_l b =? le_val (drop 4 (byte_column b)))). vm_compute. reflexivity.
Qed.

Lemma byte_column_ok b : is_byte b -> col_ok (byte_column b).
Proof.
  intros Hb. split; [reflexivity|]. unfold byte_column.
  assert (P : forallb (fun v => (0 <=? v) && (v <? 2 ^ 8)) (map (fun k => gf_mul (s_box b) k) [2; 7; 5; 3; 5; 4; 3; 2]) = true).
  { revert b Hb. apply bytes_check. vm_compute. reflexivity. }
  rewrite forallb_forall in P. apply Forall_forall. intros v Hv. specialize (P v Hv). apply andb_true_iff in P as [P1 P2]. lia.
Qed.

(** Rotation by [n] bytes down the column. *)
Definition rotate_down (n : nat) (col : list Z) : list Z := drop (8 - n) col ++ take (8 - n) col.

Lemma shift_join a b n : byte_ok a -> byte_ok b -> length a = 4%nat -> length b = 4%nat -> (n <= 4)%nat ->
  Z.lor (u32 (Z.shiftl (le_val a) (8 * Z.of_nat n))) (Z.shiftr (le_val b) (8 * (4 - Z.of_nat n))) =
  le_val (drop (4 - n) b ++ take (4 - n) a).
Proof.
  intros Ba Bb La Lb Hn. rewrite le_val_app, length_drop, Lb. replace (4 - (4 - n))%nat with n by lia.
  assert (Er : Z.shiftr (le_val b) (8 * (4 - Z.of_nat n)) = le_val (drop (4 - n) b)).
  { rewrite Z.shiftr_div_pow2, le_val_drop by (exact Bb || lia). do 2 f_equal. lia. }
  assert (El : u32 (Z.shiftl (le_val a) (8 * Z.of_nat n)) = Z.shiftl (le_val (take (4 - n) a)) (8 * Z.of_nat n)).
  { rewrite <- (take_drop (4 - n) a) at 1. rewrite le_val_app, length_take, La, Nat.min_l by lia.
    unfold u32. rewrite !Z.shiftl_mul_pow2 by lia. rewrite Z.mul_add_distr_r.
    replace (2 ^ (8 * Z.of_nat (4 - n)) * le_val (drop (4 - n) a) * 2 ^ (8 * Z.of_nat n))
      with (le_val (drop (4 - n) a) * (2 ^ (8 * Z.of_nat (4 - n)) * 2 ^ (8 * Z.of_nat n))) by ring.
    rewrite <- Z.pow_add_r by lia. replace (8 * Z.of_nat (4 - n) + 8 * Z.of_nat n) with 32 by lia.
    rewrite Z_mod_plus_full. apply Z.mod_small.
    pose proof (le_val_range (take (4 - n) a) ltac:(by apply Forall_take)) as R. rewrite length_take, La, Nat.min_l in R by lia.
    assert (0 < 2 ^ (8 * Z.of_nat n)) by (apply Z.pow_pos_nonneg; lia).
    assert (E : 2 ^ 32 = 2 ^ (8 * Z.of_nat (4 - n)) * 2 ^ (8 * Z.of_nat n)) by (rewrite <- Z.pow_add_r by lia; f_equal; lia). nia. }
  rewrite Er, El, Z.lor_comm. pose proof (le_val_range (drop (4 - n) b) ltac:(by apply Forall_drop)) as R.
  rewrite length_drop, Lb in R. replace (4 - (4 - n))%nat with n in R by lia.
  rewrite lor_shiftl_add by lia. ring.
Qed.

Lemma col_cases col : col_ok col -> exists a0 a1 a2 a3 a4 a5 a6 a7, col = [a0; a1; a2; a3; a4; a5; a6; a7] /\
  is_byte a0 /\ is_byte a1 /\ is_byte a2 /\ is_byte a3 /\ is_byte a4 /\ is_byte a5 /\ is_byte a6 /\ is_byte a7.
Proof.
  intros [L B]. do 8 (destruct col as [|? col]; [discriminate L|]). destruct col; [|discriminate L].
  do 8 (apply Forall_cons_1 in B as [? B]). do 8 eexists. split; [reflexivity|]. repeat (split; [assumption|]). assumption.
Qed.

Lemma rotate_spec col n : col_ok col -> (n <= 4)%nat ->
  ROTATE_COLUMN_DOWN (le_val (take 4 col)) (le_val (drop 4 col)) (Z.of_nat n) =
  (le_val (take 4 (rotate_down n col)), le_val (drop 4 (rotate_down n col))).
Proof.
  intros [L B] Hn. unfold ROTATE_COLUMN_DOWN.
  assert (L1 : length (take 4 col) = 4%nat) by (rewrite length_take; lia).
  assert (L2 : length (drop 4 col) = 4%nat) by (rewrite length_drop; lia).
  rewrite !shift_join by (done || by apply Forall_take || by apply Forall_drop || lia).
  assert (E : take 4 (rotate_down n col) = drop (4 - n) (drop 4 col) ++ take (4 - n) (take 4 col) /\
    drop 4 (rotate_down n col) = drop (4 - n) (take 4 col) ++ take (4 - n) (drop 4 col)).
  { destruct (col_cases col (conj L B)) as (a0&a1&a2&a3&a4&a5&a6&a7&->&_).
    do 5 (destruct n as [|n]; [split; reflexivity|]). lia. }
  by destruct E as [-> ->].
Qed.

Lemma rotate_ok n col : col_ok col -> (n <= 8)%nat -> col_ok (rotate_down n col).
Proof.
  intros [L B] Hn. split.
  - unfold rotate_down. rewrite length_app, length_drop, length_take. lia.
  - apply Forall_app. split; [by apply Forall_drop | by apply Forall_take].
Qed.

(** ** One column of a round *)

Definition xor_cols (l : list (list Z)) : list Z := foldl xor_bytes (replicate 8 0) l.
Definition row_columns (bs : list Z) : list (list Z) := imap (fun k b => rotate_down k (byte_column b)) bs.

Lemma xor_bytes_col a b : col_ok a -> col_ok b -> col_ok (xor_bytes a b).
Proof.
  intros Ha Hb. apply col_cases in Ha as (?&?&?&?&?&?&?&?&->&?&?&?&?&?&?&?&?).
  apply col_cases in Hb as (?&?&?&?&?&?&?&?&->&?&?&?&?&?&?&?&?). split; [reflexivity|].
  unfold xor_bytes. cbn [zip_with]. repeat (constructor; [by apply lxor_byte|]). constructor.
Qed.
Lemma xor_words_col a b : col_ok a -> col_ok b ->
  Z.lxor (le_val (take 4 a)) (le_val (take 4 b)) = le_val (take 4 (xor_bytes a b)) /\
  Z.lxor (le_val (drop 4 a)) (le_val (drop 4 b)) = le_val (drop 4 (xor_bytes a b)).
Proof.
  intros [La Ba] [Lb Bb]. unfold xor_bytes. rewrite zip_with_take, zip_with_drop. fold xor_bytes.
  split; symmetry; apply le_val_xor; (by apply Forall_take) || (by apply Forall_drop) || (rewrite ?length_take, ?length_drop; lia).
Qed.

Lemma mix_column_rows b0 b1 b2 b3 b4 b5 b6 b7 :
  xor_cols (row_columns [b0; b1; b2; b3; b4; b5; b6; b7]) = mix_column (map s_box [b0; b1; b2; b3; b4; b5; b6; b7]).
Proof. cbv -[gf_mul s_box Z.lxor]. exact eq_refl. Qed.

#[local] Opaque gf_mul s_box.

Lemma col_words_xor Ds : Forall col_ok Ds -> forall acc, col_ok acc -> col_words (foldl xor_bytes acc Ds) =
  [foldl (fun v D => Z.lxor v (le_val (take 4 D))) (le_val (take 4 acc)) Ds;
   foldl (fun v D => Z.lxor v (le_val (drop 4 D))) (le_val (drop 4 acc)) Ds].
Proof.
  induction 1 as [|D Ds HD _ IH]; intros acc Ha; [reflexivity|]. cbn [foldl]. rewrite IH by (by apply xor_bytes_col).
  by destruct (xor_words_col acc D Ha HD) as [-> ->].
Qed.

(** Rows 4 to 7: the halves change places. *)
Lemma rotate_swap n col : col_ok col -> (n < 4)%nat ->
  take 4 (rotate_down (4 + n) col) = drop 4 (rotate_down n col) /\ drop 4 (rotate_down (4 + n) col) = take 4 (rotate_down n col).
Proof.
  intros H Hn. apply col_cases in H as (?&?&?&?&?&?&?&?&->&_). do 4 (destruct n as [|n]; [split; reflexivity|]). lia.
Qed.
Lemma rotate_0 col : col_ok col -> rotate_down 0 col = col.
Proof. intros H. by apply col_cases in H as (?&?&?&?&?&?&?&?&->&_). Qed.

Definition all_byte (l : list Z) : Prop := Forall is_byte l.

(** [COLUMN] at bytes in their places. *)
Lemma COLUMN_spec x c0 c1 c2 c3 c4 c5 c6 c7 b0 b1 b2 b3 b4 b5 b6 b7 :
  byte_of x (4 * c0 + 0) = b0 -> byte_of x (4 * c1 + 1) = b1 -> byte_of x (4 * c2 + 2) = b2 -> byte_of x (4 * c3 + 3) = b3 ->
  byte_of x (4 * c4 + 0) = b4 -> byte_of x (4 * c5 + 1) = b5 -> byte_of x (4 * c6 + 2) = b6 -> byte_of x (4 * c7 + 3) = b7 ->
  all_byte [b0; b1; b2; b3; b4; b5; b6; b7] ->
  COLUMN x c0 c1 c2 c3 c4 c5 c6 c7 = col_words (mix_column (map s_box [b0; b1; b2; b3; b4; b5; b6; b7])).
Proof.
  intros E0 E1 E2 E3 E4 E5 E6 E7 B. rewrite <- mix_column_rows. unfold COLUMN. rewrite E0, E1, E2, E3, E4, E5, E6, E7. cbv zeta.
  assert (F : Forall col_ok (row_columns [b0; b1; b2; b3; b4; b5; b6; b7])).
  { unfold row_columns. apply Forall_lookup. intros k D HD. apply list_lookup_imap_Some in HD as (b & Hb & ->).
    apply rotate_ok; [|apply lookup_lt_Some in Hb; cbn in Hb; lia]. apply byte_column_ok. eapply Forall_lookup in B; [exact B | exact Hb]. }
  unfold xor_cols. rewrite (col_words_xor _ F (replicate 8 0)) by (by split; [|apply Forall_replicate]). clear F.
  repeat (apply Forall_cons_1 in B as [? B]).
  repeat match goal with H : is_byte ?b |- _ =>
    let O := fresh "O" in pose proof (byte_column_ok b H) as O; let U := fresh "U" in let L := fresh "L" in
    destruct (T_spec b H) as [U L]; rewrite U, L; clear U L H end.
  change 1 with (Z.of_nat 1). change 2 with (Z.of_nat 2). change 3 with (Z.of_nat 3).
  rewrite !rotate_spec by (assumption || lia).
  unfold row_columns. cbn [imap foldl compose].
  rewrite !(rotate_0 (byte_column b0)) by assumption.
  destruct (rotate_swap 0 (byte_column b4)) as [S4 S4']; [assumption | lia|]. rewrite rotate_0 in S4, S4' by assumption.
  destruct (rotate_swap 1 (byte_column b5)) as [S5 S5']; [assumption | lia|].
  destruct (rotate_swap 2 (byte_column b6)) as [S6 S6']; [assumption | lia|].
  destruct (rotate_swap 3 (byte_column b7)) as [S7 S7']; [assumption | lia|].
  cbn [Nat.add] in *. rewrite S4, S4', S5, S5', S6, S6', S7, S7'.
  change (le_val (take 4 (replicate 8 0))) with 0. change (le_val (drop 4 (replicate 8 0))) with 0. rewrite !Z.lxor_0_l. reflexivity.
Qed.

(** ** Bytes of the words of a matrix *)

Lemma matrix_cases s : matrix_ok s -> exists c0 c1 c2 c3 c4 c5 c6 c7, s = [c0; c1; c2; c3; c4; c5; c6; c7] /\
  col_ok c0 /\ col_ok c1 /\ col_ok c2 /\ col_ok c3 /\ col_ok c4 /\ col_ok c5 /\ col_ok c6 /\ col_ok c7.
Proof.
  intros [L F]. do 8 (destruct s as [|? s]; [discriminate L|]). destruct s; [|discriminate L].
  do 8 (apply Forall_cons_1 in F as [? F]). do 8 eexists. split; [reflexivity|]. repeat (split; [assumption|]). assumption.
Qed.

Lemma matrix_at s j : matrix_ok s -> (j < 8)%nat -> col_ok (s !!! j).
Proof. intros [L F] H. apply (Forall_lookup_total_1 _ _ j F). lia. Qed.

Lemma matrix_word s j : matrix_ok s -> (j < 8)%nat ->
  matrix_words s !!! (2 * j)%nat = le_val (take 4 (s !!! j)) /\ matrix_words s !!! (2 * j + 1)%nat = le_val (drop 4 (s !!! j)).
Proof.
  intros H Hj. apply matrix_cases in H as (c0&c1&c2&c3&c4&c5&c6&c7&->&_).
  do 8 (destruct j as [|j]; [split; exact eq_refl|]). lia.
Qed.

Lemma byte_of_word x q k w : x !!! q = le_val w -> byte_ok w -> length w = 4%nat -> (k < 4)%nat -> byte_of x (4 * q + k) = w !!! k.
Proof.
  intros E B L Hk. unfold byte_of.
  replace ((4 * q + k) / 4)%nat with q by (rewrite Nat.mul_comm, Nat.div_add_l, Nat.div_small; lia).
  replace ((4 * q + k) mod 4)%nat with k by (rewrite Nat.add_comm, Nat.mul_comm, Nat.Div0.mod_add, Nat.mod_small; lia).
  rewrite E. apply le_val_byte; [exact B | lia].
Qed.

Lemma matrix_byte s j k : matrix_ok s -> (j < 8)%nat -> (k < 4)%nat ->
  byte_of (matrix_words s) (4 * (2 * j) + k) = (s !!! j) !!! k /\
  byte_of (matrix_words s) (4 * (2 * j + 1) + k) = (s !!! j) !!! (4 + k)%nat.
Proof.
  intros H Hj Hk. destruct (matrix_word s j H Hj) as [E1 E2]. destruct (matrix_at s j H Hj) as [L B]. split.
  - rewrite (byte_of_word _ _ _ _ E1); [by rewrite lookup_total_take_lt by lia | by apply Forall_take | rewrite length_take; lia | exact Hk].
  - rewrite (byte_of_word _ _ _ _ E2); [by rewrite lookup_total_drop | by apply Forall_drop | rewrite length_drop; lia | exact Hk].
Qed.

(** ** The rounds *)

Lemma sub_byte_at s a i : matrix_ok s -> (a < 8)%nat -> (i < 8)%nat -> (sub_bytes s !!! a) !!! i = s_box ((s !!! a) !!! i).
Proof.
  intros H Ha Hi. destruct (matrix_at s a H Ha) as [L _]. destruct H as [Ls _]. unfold sub_bytes.
  rewrite (list_lookup_total_fmap (map s_box) s a) by lia. by rewrite (list_lookup_total_fmap s_box (s !!! a) i) by lia.
Qed.

Definition byte_from (s : matrix) (shifts : list nat) (j i : nat) : Z := (s !!! ((j + shifts !!! i) mod 8)%nat) !!! i.

Lemma COLUMN_shift s (shifts : list nat) j : matrix_ok s ->
  let c i := (2 * ((j + shifts !!! i) mod 8) + i / 4)%nat in
  COLUMN (matrix_words s) (c 0%nat) (c 1%nat) (c 2%nat) (c 3%nat) (c 4%nat) (c 5%nat) (c 6%nat) (c 7%nat) =
  col_words (mix_column (map (fun i => ((sub_bytes s) !!! ((j + shifts !!! i) mod 8)%nat) !!! i) (seq 0 8))).
Proof.
  intros H c. assert (M : forall i, ((j + shifts !!! i) mod 8 < 8)%nat) by (intros; apply Nat.mod_upper_bound; lia).
  assert (A : forall k, (k < 4)%nat -> byte_of (matrix_words s) (4 * c k + k) = byte_from s shifts j k).
  { intros k Hk. unfold c. replace (k / 4)%nat with 0%nat by (symmetry; apply Nat.div_small; lia). rewrite Nat.add_0_r.
    apply (matrix_byte s _ k H (M k) Hk). }
  assert (B : forall k, (k < 4)%nat -> byte_of (matrix_words s) (4 * c (4 + k)%nat + k) = byte_from s shifts j (4 + k)).
  { intros k Hk. unfold c. replace ((4 + k) / 4)%nat with 1%nat.
    - apply (matrix_byte s _ k H (M (4 + k)%nat) Hk).
    - replace (4 + k)%nat with (k + 1 * 4)%nat by lia. rewrite Nat.div_add, Nat.div_small by lia. lia. }
  assert (O : all_byte (map (byte_from s shifts j) (seq 0 8))).
  { apply Forall_forall. intros b Hb. apply in_map_iff in Hb as (i & <- & Hi). apply in_seq in Hi. unfold byte_from.
    destruct (matrix_at s _ H (M i)) as [L F]. apply (Forall_lookup_total_1 _ _ i F). lia. }
  etransitivity; [exact (COLUMN_spec _ _ _ _ _ _ _ _ _ _ _ _ _ _ _ _ _ (A 0%nat ltac:(lia)) (A 1%nat ltac:(lia)) (A 2%nat ltac:(lia)) (A 3%nat ltac:(lia))
    (B 0%nat ltac:(lia)) (B 1%nat ltac:(lia)) (B 2%nat ltac:(lia)) (B 3%nat ltac:(lia)) O)|].
  cbn [seq map]. unfold byte_from. rewrite !sub_byte_at by (exact H || apply M || lia). reflexivity.
Qed.

Lemma mix_column_ok s j (shifts : list nat) : matrix_ok s -> col_ok (mix_column (map (fun i => ((sub_bytes s) !!! ((j + shifts !!! i) mod 8)%nat) !!! i) (seq 0 8))).
Proof.
  intros H. assert (M : forall i, ((j + shifts !!! i) mod 8 < 8)%nat) by (intros; apply Nat.mod_upper_bound; lia).
  cbn [seq map]. rewrite !sub_byte_at by (exact H || apply M || lia).
  match goal with |- col_ok (mix_column [s_box ?b0; s_box ?b1; s_box ?b2; s_box ?b3; s_box ?b4; s_box ?b5; s_box ?b6; s_box ?b7]) =>
    pose proof (mix_column_rows b0 b1 b2 b3 b4 b5 b6 b7) as E; cbn [map] in E; rewrite <- E; set (l := [b0; b1; b2; b3; b4; b5; b6; b7]) end.
  assert (B : all_byte l).
  { unfold l. repeat (constructor; [match goal with |- is_byte ((s !!! ?a) !!! ?i) => destruct (matrix_at s a H (M _)) as [L F]; apply (Forall_lookup_total_1 _ _ i F); lia end|]). constructor. }
  unfold xor_cols. assert (F : Forall col_ok (row_columns l)).
  { unfold row_columns. apply Forall_lookup. intros k D HD. apply list_lookup_imap_Some in HD as (b & Hb & ->).
    apply rotate_ok; [|apply lookup_lt_Some in Hb; cbn in Hb; lia]. apply byte_column_ok. eapply Forall_lookup in B; [exact B | exact Hb]. }
  assert (G : forall Ds acc, Forall col_ok Ds -> col_ok acc -> col_ok (foldl xor_bytes acc Ds)).
  { induction Ds as [|D Ds IH]; intros acc FD Ha; [exact Ha|]. apply Forall_cons_1 in FD as [HD FD]. apply IH; [exact FD | by apply xor_bytes_col]. }
  apply G; [exact F | by split; [|apply Forall_replicate]].
Qed.

(** * Groestl-256: the permutations and the compression function

    The ten rounds on words are the rounds of the reference, and [F512] on the
    words of the chaining value and of a block is the compression function. *)

#[local] Opaque gf_mul s_box COLUMN.

(** ** Constants *)

Lemma col_words_xor_bytes col k : col_ok col -> col_ok k ->
  col_words (xor_bytes col k) = [Z.lxor (le_val (take 4 col)) (le_val (take 4 k)); Z.lxor (le_val (drop 4 col)) (le_val (drop 4 k))].
Proof. intros H1 H2. unfold col_words. by destruct (xor_words_col col k H1 H2) as [-> ->]. Qed.

Definition const_P (r : nat) (j : nat) : list Z := [Z.lxor (16 * Z.of_nat j) (Z.of_nat r); 0; 0; 0; 0; 0; 0; 0].
Definition const_Q (r : nat) (j : nat) : list Z := [255; 255; 255; 255; 255; 255; 255; Z.lxor 255 (Z.lxor (16 * Z.of_nat j) (Z.of_nat r))].

(** A check of the ten rounds and the eight columns. *)
Lemma consts_check (p : nat -> nat -> bool) : forallb (fun r => forallb (p r) (seq 0 8)) (seq 0 10) = true ->
  forall r j, (r < 10)%nat -> (j < 8)%nat -> p r j = true.
Proof.
  intros H r j Hr Hj. rewrite forallb_forall in H. specialize (H r ltac:(apply in_seq; lia)).
  rewrite forallb_forall in H. apply H, in_seq. lia.
Qed.
Definition byte_list (l : list Z) : bool := forallb (fun b => (0 <=? b) && (b <? 2 ^ 8)) l.
Lemma byte_list_ok l : byte_list l = true -> byte_ok l.
Proof. intros H. unfold byte_list in H. rewrite forallb_forall in H. apply Forall_forall. intros x Hx. specialize (H x Hx). apply andb_true_iff in H as [H1 H2]. lia. Qed.

Lemma const_P_ok r j : (r < 10)%nat -> (j < 8)%nat -> col_ok (const_P r j).
Proof.
  intros Hr Hj. split; [reflexivity|]. apply byte_list_ok. revert r j Hr Hj.
  apply (consts_check (fun r j => byte_list (const_P r j))). vm_compute. reflexivity.
Qed.
Lemma const_Q_ok r j : (r < 10)%nat -> (j < 8)%nat -> col_ok (const_Q r j).
Proof.
  intros Hr Hj. split; [reflexivity|]. apply byte_list_ok. revert r j Hr Hj.
  apply (consts_check (fun r j => byte_list (const_Q r j))). vm_compute. reflexivity.
Qed.

Lemma xor_consts_ok k s : matrix_ok s -> (forall j, (j < 8)%nat -> col_ok (k j)) ->
  matrix_ok (imap (fun j col => xor_bytes col (k j)) s).
Proof.
  intros [L F] H. split; [by rewrite length_imap|]. apply Forall_lookup. intros j c Hc.
  apply list_lookup_imap_Some in Hc as (c' & Hc' & ->). pose proof (lookup_lt_Some _ _ _ Hc').
  apply xor_bytes_col; [by eapply Forall_lookup in F | apply H; lia].
Qed.

Lemma add_constants_P_spec s r : matrix_ok s -> (r < 10)%nat ->
  add_constants_P (matrix_words s) (Z.of_nat r) = matrix_words (add_constant_P (Z.of_nat r) s).
Proof.
  intros H Hr. unfold add_constant_P.
  change (fun (j : nat) (col : list Z) => xor_bytes col [Z.lxor (16 * Z.of_nat j) (Z.of_nat r); 0; 0; 0; 0; 0; 0; 0])
    with (fun j col => xor_bytes col (const_P r j)).
  apply matrix_cases in H as (c0&c1&c2&c3&c4&c5&c6&c7&->&?&?&?&?&?&?&?&?).
  unfold matrix_words. cbn [imap map concat compose]. rewrite !col_words_xor_bytes by (assumption || (apply const_P_ok; lia)).
  unfold col_words, const_P. cbn [app take drop]. unfold add_constants_P. cbn [foldl insert list_insert lookup_total list_lookup_total].
  assert (E : forall j, (j < 8)%nat -> le_val [Z.lxor (16 * Z.of_nat j) (Z.of_nat r); 0; 0; 0] = Z.lxor (16 * Z.of_nat j) (Z.of_nat r)).
  { intros j Hj. cbn [le_val]. lia. }
  rewrite !E by lia. change (le_val [0; 0; 0; 0]) with 0. rewrite !Z.lxor_0_r. reflexivity.
Qed.

Lemma lnot_word a : byte_ok a -> length a = 4%nat -> u32 (Z.lnot (le_val a)) = Z.lxor (le_val a) 0xffffffff.
Proof.
  intros B L. pose proof (le_val_range a B) as R. rewrite L in R. change (8 * Z.of_nat 4) with 32 in R.
  unfold u32. apply (bits_eq 32); [lia | apply Z.mod_pos_bound; lia | apply lxor_range; lia|].
  intros i Hi. rewrite Z.mod_pow2_bits_low by lia. rewrite Z.lnot_spec, Z.lxor_spec by lia.
  change 0xffffffff with (Z.ones 32). rewrite Z.ones_spec_low by lia. by rewrite xorb_true_r.
Qed.

Lemma add_constants_Q_spec s r : matrix_ok s -> (r < 10)%nat ->
  add_constants_Q (matrix_words s) (Z.shiftl (Z.of_nat r) 24) = matrix_words (add_constant_Q (Z.of_nat r) s).
Proof.
  intros H Hr. unfold add_constant_Q.
  change (fun (j : nat) (col : list Z) => xor_bytes col [255; 255; 255; 255; 255; 255; 255; Z.lxor 255 (Z.lxor (16 * Z.of_nat j) (Z.of_nat r))])
    with (fun j col => xor_bytes col (const_Q r j)).
  apply matrix_cases in H as (c0&c1&c2&c3&c4&c5&c6&c7&->&H0&H1&H2&H3&H4&H5&H6&H7).
  unfold matrix_words. cbn [imap map concat compose]. rewrite !col_words_xor_bytes by (assumption || (apply const_Q_ok; lia)).
  unfold col_words, const_Q. cbn [app take drop]. unfold add_constants_Q. cbn [foldl insert list_insert lookup_total list_lookup_total].
  assert (E : forall j, (j < 8)%nat -> le_val [255; 255; 255; Z.lxor 255 (Z.lxor (16 * Z.of_nat j) (Z.of_nat r))] =
    Z.lxor (0xffffffff - Z.shiftl (16 * Z.of_nat j) 24) (Z.shiftl (Z.of_nat r) 24)).
  { intros j Hj. apply Z.eqb_eq. revert r j Hr Hj. apply consts_check. vm_compute. reflexivity. }
  rewrite !E by lia. change (le_val [255; 255; 255; 255]) with 0xffffffff.
  repeat match goal with H : col_ok ?c |- _ => let L := fresh "L" in let B := fresh "B" in destruct H as [L B];
    rewrite (lnot_word (take 4 c)) by ((by apply Forall_take) || (rewrite length_take; lia)) end.
  reflexivity.
Qed.

(** ** Rounds *)

Lemma round_ok shifts s : matrix_ok s -> matrix_ok (mix_bytes (shift_bytes shifts (sub_bytes s))).
Proof.
  intros H. split; [reflexivity|]. unfold mix_bytes, shift_bytes. rewrite map_map. apply Forall_forall. intros c Hc.
  apply in_map_iff in Hc as (j & <- & _). by apply mix_column_ok.
Qed.
Lemma round_P_ok s r : matrix_ok s -> (r < 10)%nat -> matrix_ok (round_P s r).
Proof. intros H Hr. apply round_ok. apply (xor_consts_ok (const_P r)); [exact H|]. intros. by apply const_P_ok. Qed.
Lemma round_Q_ok s r : matrix_ok s -> (r < 10)%nat -> matrix_ok (round_Q s r).
Proof. intros H Hr. apply round_ok. apply (xor_consts_ok (const_Q r)); [exact H|]. intros. by apply const_Q_ok. Qed.

Lemma columns_round s (shifts : list nat) : matrix_ok s ->
  matrix_words (mix_bytes (shift_bytes shifts (sub_bytes s))) =
  concat (map (fun j => let c i := (2 * ((j + shifts !!! i) mod 8) + i / 4)%nat in
    COLUMN (matrix_words s) (c 0%nat) (c 1%nat) (c 2%nat) (c 3%nat) (c 4%nat) (c 5%nat) (c 6%nat) (c 7%nat)) (seq 0 8)).
Proof.
  intros H. unfold matrix_words at 1, mix_bytes, shift_bytes. rewrite !map_map. f_equal. apply map_ext_in. intros j _.
  symmetry. by apply COLUMN_shift.
Qed.

Lemma RND512P_spec s r : matrix_ok s -> (r < 10)%nat -> RND512P (matrix_words s) (Z.of_nat r) = matrix_words (round_P s r).
Proof.
  intros H Hr. unfold RND512P. rewrite add_constants_P_spec by assumption. cbv zeta.
  pose proof (xor_consts_ok (const_P r) s H ltac:(intros; by apply const_P_ok)) as M.
  unfold round_P. rewrite columns_round by exact M. generalize (matrix_words (add_constant_P (Z.of_nat r) s)). intros x.
  cbn -[Nat.mul Nat.modulo Nat.div]. rewrite app_nil_r. exact eq_refl.
Qed.
Lemma RND512Q_spec s r : matrix_ok s -> (r < 10)%nat -> RND512Q (matrix_words s) (Z.shiftl (Z.of_nat r) 24) = matrix_words (round_Q s r).
Proof.
  intros H Hr. unfold RND512Q. rewrite add_constants_Q_spec by assumption. cbv zeta.
  pose proof (xor_consts_ok (const_Q r) s H ltac:(intros; by apply const_Q_ok)) as M.
  unfold round_Q. rewrite columns_round by exact M. generalize (matrix_words (add_constant_Q (Z.of_nat r) s)). intros x.
  cbn -[Nat.mul Nat.modulo Nat.div]. rewrite app_nil_r. exact eq_refl.
Qed.

Lemma rounds_spec (f : list Z -> Z -> list Z) (k : nat -> Z) (g : matrix -> nat -> matrix) l :
  (forall s r, matrix_ok s -> In r l -> f (matrix_words s) (k r) = matrix_words (g s r) /\ matrix_ok (g s r)) ->
  forall s, matrix_ok s -> foldl f (matrix_words s) (map k l) = matrix_words (foldl g s l) /\ matrix_ok (foldl g s l).
Proof.
  induction l as [|r l IH]; intros H s Hs; [done|]. cbn [map foldl].
  destruct (H s r Hs (or_introl eq_refl)) as [-> M]. apply IH; [|exact M]. intros s' r' Hs' Hr'. apply H; [exact Hs' | by right].
Qed.
Lemma rounds_P_spec s : matrix_ok s ->
  rounds_P (matrix_words s) = matrix_words (foldl round_P s (seq 0 10)) /\ matrix_ok (foldl round_P s (seq 0 10)).
Proof.
  apply (rounds_spec RND512P Z.of_nat round_P (seq 0 10)). intros s' r H Hr. apply in_seq in Hr. split; [apply RND512P_spec | apply round_P_ok]; (assumption || lia).
Qed.
Lemma rounds_Q_spec s : matrix_ok s ->
  rounds_Q (matrix_words s) = matrix_words (foldl round_Q s (seq 0 10)) /\ matrix_ok (foldl round_Q s (seq 0 10)).
Proof.
  apply (rounds_spec RND512Q (fun r => Z.shiftl (Z.of_nat r) 24) round_Q (seq 0 10)). intros s' r H Hr. apply in_seq in Hr. split; [apply RND512Q_spec | apply round_Q_ok]; (assumption || lia).
Qed.

(** ** Blocks as words *)

Definition block_ok (x : list Z) : Prop := length x = 64%nat /\ byte_ok x.

Lemma matrix_of x : block_ok x -> matrix_ok (to_matrix x).
Proof.
  intros [L B]. split; [reflexivity|]. apply Forall_forall. intros c Hc. apply in_map_iff in Hc as (j & <- & Hj). apply in_seq in Hj.
  split; [rewrite length_take, length_drop; lia | by apply Forall_take, Forall_drop].
Qed.
Lemma words_in_matrix x : words_in x = matrix_words (to_matrix x).
Proof.
  unfold words_in, matrix_words, to_matrix. cbn [seq map concat app col_words].
  rewrite !take_take, !skipn_firstn_comm, !drop_drop. exact eq_refl.
Qed.
Lemma to_matrix_concat s : matrix_ok s -> to_matrix (concat s) = s.
Proof.
  intros H. apply matrix_cases in H as (c0&c1&c2&c3&c4&c5&c6&c7&->&[L0 _]&[L1 _]&[L2 _]&[L3 _]&[L4 _]&[L5 _]&[L6 _]&[L7 _]).
  unfold to_matrix. cbn [concat seq map]. rewrite app_nil_r.
  repeat match goal with L : length ?c = 8%nat |- _ => do 8 (destruct c as [|? c]; [discriminate L|]); destruct c; [clear L | discriminate L] end.
  exact eq_refl.
Qed.
Lemma concat_block s : matrix_ok s -> block_ok (concat s).
Proof.
  intros H. split.
  - apply matrix_cases in H as (c0&c1&c2&c3&c4&c5&c6&c7&->&[L0 _]&[L1 _]&[L2 _]&[L3 _]&[L4 _]&[L5 _]&[L6 _]&[L7 _]).
    cbn [concat]. rewrite !length_app. cbn [length]. lia.
  - destruct H as [_ F]. induction F as [|c s [_ B] _ IH]; [constructor|]. cbn [concat]. by apply Forall_app.
Qed.
Lemma matrix_words_concat s : matrix_ok s -> matrix_words s = words_in (concat s).
Proof. intros H. by rewrite words_in_matrix, to_matrix_concat. Qed.

Lemma xor_block a b : block_ok a -> block_ok b -> block_ok (xor_bytes a b).
Proof.
  intros [La Ba] [Lb Bb]. split; [unfold xor_bytes; rewrite length_zip_with; lia|].
  unfold xor_bytes. apply Forall_lookup. intros i v Hv. apply lookup_zip_with_Some in Hv as (x & y & -> & Hx & Hy).
  apply lxor_byte; [exact (Forall_lookup_1 _ _ _ _ Ba Hx) | exact (Forall_lookup_1 _ _ _ _ Bb Hy)].
Qed.
Lemma xor_words_in a b : block_ok a -> block_ok b -> zip_with Z.lxor (words_in a) (words_in b) = words_in (xor_bytes a b).
Proof.
  intros [La Ba] [Lb Bb]. unfold words_in. cbn [seq map zip_with].
  assert (E : forall o, (o <= 60)%nat -> Z.lxor (le_val (take 4 (drop o a))) (le_val (take 4 (drop o b))) = le_val (take 4 (drop o (xor_bytes a b)))).
  { intros o Ho. unfold xor_bytes. rewrite zip_with_drop, zip_with_take. symmetry.
    apply le_val_xor; (by apply Forall_take, Forall_drop) || (rewrite !length_take, !length_drop; lia). }
  rewrite !E by lia. reflexivity.
Qed.
Lemma words_out_in x : block_ok x -> words_out (words_in x) = x.
Proof.
  intros [L B]. unfold words_out, words_in. cbn [seq map concat].
  assert (E : forall o, (o <= 60)%nat -> le_bytes 4 (le_val (take 4 (drop o x))) = take 4 (drop o x)).
  { intros o Ho. replace 4%nat with (length (take 4 (drop o x))) at 1 by (rewrite length_take, length_drop; lia).
    apply le_bytes_le_val. by apply Forall_take, Forall_drop. }
  rewrite !E by lia. clear E B. do 64 (destruct x as [|? x]; [discriminate L|]). destruct x; [|discriminate L]. exact eq_refl.
Qed.

(** ** The permutations and the compression function *)

Lemma perm_P_spec x : block_ok x -> rounds_P (words_in x) = words_in (perm_P x) /\ block_ok (perm_P x).
Proof.
  intros H. rewrite words_in_matrix. destruct (rounds_P_spec _ (matrix_of x H)) as [-> M]. unfold perm_P.
  split; [by apply matrix_words_concat | by apply concat_block].
Qed.
Lemma perm_Q_spec x : block_ok x -> rounds_Q (words_in x) = words_in (perm_Q x) /\ block_ok (perm_Q x).
Proof.
  intros H. rewrite words_in_matrix. destruct (rounds_Q_spec _ (matrix_of x H)) as [-> M]. unfold perm_Q.
  split; [by apply matrix_words_concat | by apply concat_block].
Qed.

Lemma F512_spec h m : block_ok h -> block_ok m -> F512 (words_in h) (words_in m) = words_in (groestl_f h m) /\ block_ok (groestl_f h m).
Proof.
  intros Hh Hm. unfold F512, groestl_f. rewrite xor_words_in by assumption.
  pose proof (xor_block h m Hh Hm) as Hx. destruct (perm_P_spec _ Hx) as [-> HP]. destruct (perm_Q_spec _ Hm) as [-> HQ].
  rewrite (xor_words_in (perm_P _)) by assumption. rewrite xor_words_in by (assumption || by apply xor_block).
  rewrite (xor_bytes_comm _ h). split; [done|]. by apply xor_block; [|apply xor_block].
Qed.
