(* ===== verification/GroestlCorrect.v ===== *)
(** * Groestl-256: the hash is the reference

    The blocks of the data, the buffer, the padding of a message of bits and the
    length field. *)

From Stdlib Require Import ZArith Lia.
From stdpp Require Import base tactics list numbers.
From S2P Require Import Prelude Radix Words AesSpec AesProofs BitString Groestl GroestlSpec GroestlProofs.
Open Scope Z_scope.

#[local] Opaque gf_mul s_box F512 groestl_f rounds_P perm_P.

(** ** Buffers *)

Lemma write_at_end pre x rest : write_at (length pre) x (pre ++ rest) = pre ++ x ++ drop (length x) rest.
Proof. apply write_at_app. Qed.
Lemma write_at_0 x buf : write_at 0 x buf = x ++ drop (length x) buf.
Proof. reflexivity. Qed.

Lemma pad_zeros_spec h c1 c2 pre rest bits last : Z.of_nat (length pre) <= last ->
  let n := Z.to_nat (last - Z.of_nat (length pre)) in
  pad_zeros (HashState h c1 c2 (pre ++ rest) (Z.of_nat (length pre)) bits) last =
  HashState h c1 c2 (pre ++ replicate n 0 ++ drop n rest) last bits.
Proof.
  intros H n. unfold pad_zeros. cbn [buf_ptr buffer set_buffer chaining block_counter1 block_counter2 bits_in_last_byte].
  rewrite Z.max_r, Nat2Z.id by lia. fold n. rewrite write_at_end, length_replicate. unfold set_buffer. cbn. f_equal. lia.
Qed.

Lemma length_field x (v : nat -> Z) (o : nat) buf : length buf = 8%nat -> (o = 7 \/ o = 3)%nat ->
  foldl (fun buf i => <[(length x + o - i)%nat := v i]> buf) (x ++ buf) (seq 0 4) =
  x ++ foldl (fun buf i => <[(o - i)%nat := v i]> buf) buf (seq 0 4).
Proof.
  intros L Ho. assert (G : forall l buf, (forall i, In i l -> (i <= o)%nat) ->
    foldl (fun buf i => <[(length x + o - i)%nat := v i]> buf) (x ++ buf) l = x ++ foldl (fun buf i => <[(o - i)%nat := v i]> buf) buf l).
  { induction l as [|i l IH]; intros b Hl; [reflexivity|]. cbn [foldl]. rewrite insert_app_r_alt by (specialize (Hl i (or_introl eq_refl)); lia).
    replace (length x + o - i - length x)%nat with (o - i)%nat by (specialize (Hl i (or_introl eq_refl)); lia).
    apply IH. intros j Hj. apply Hl. by right. }
  apply G. intros i Hi. apply in_seq in Hi. lia.
Qed.

Lemma pad_length_spec h c x buf ptr bits : length x = 56%nat -> length buf = 8%nat -> 0 <= c -> c + 1 < 2 ^ 32 ->
  pad_length (HashState h c 0 (x ++ buf) ptr bits) = HashState h 0 0 (x ++ rev (le_bytes 8 (c + 1))) 56 bits.
Proof.
  intros Lx Lb Hc Hc2. unfold pad_length, count_block. cbn [block_counter1 block_counter2 buffer chaining bits_in_last_byte].
  rewrite u32_id by lia. replace (c + 1 =? 0) with false by (symmetry; apply Z.eqb_neq; lia).
  pose proof (length_field x (fun i => u8 (Z.shiftr (c + 1) (8 * Z.of_nat i))) 7 buf Lb ltac:(by left)) as E1.
  rewrite Lx in E1. change (56 + 7)%nat with 63%nat in E1. rewrite E1. clear E1.
  match goal with |- HashState _ _ _ (foldl _ (x ++ ?b) _) _ _ = _ => pose proof (length_field x (fun i => u8 (Z.shiftr 0 (8 * Z.of_nat i))) 3 b) as E2 end.
  rewrite Lx in E2. change (56 + 3)%nat with 59%nat in E2. rewrite E2; [|by do 8 (destruct buf as [|? buf]; [discriminate Lb|]); destruct buf|by right].
  f_equal. f_equal. do 8 (destruct buf as [|? buf]; [discriminate Lb|]). destruct buf; [|discriminate Lb]. clear Lb Lx.
  cbn [seq foldl insert list_insert Nat.sub le_bytes rev app].
  assert (Hp : 0 <= c + 1) by lia. set (p := c + 1) in *. clearbody p.
  assert (U : forall i : nat, u8 (Z.shiftr p (8 * Z.of_nat i)) = (p / 2 ^ (8 * Z.of_nat i)) mod 2 ^ 8) by (intros; unfold u8; by rewrite Z.shiftr_div_pow2 by lia).
  rewrite !U. clear U. change (2 ^ (8 * Z.of_nat 0)) with 1. 
  assert (V : p / 2 ^ 8 / 2 ^ 8 / 2 ^ 8 / 2 ^ 8 = 0) by (rewrite !Z.div_div by lia; apply Z.div_small; lia).
  rewrite V, Z.div_1_r, !Z.div_div by lia. exact eq_refl.
Qed.

(** ** Blocks of the data *)

Definition state (h : list Z) (c : Z) (buf : list Z) (ptr bits : Z) : hashState := HashState (words_in h) c 0 buf ptr bits.

Lemma transform_loop_spec n : forall h c buf ptr bits input, block_ok h -> 0 <= c -> c + Z.of_nat n < 2 ^ 32 ->
  byte_ok input -> (64 * n <= length input)%nat ->
  transform_loop n (state h c buf ptr bits) input = state (foldl groestl_f h (blocks 64 n input)) (c + Z.of_nat n) buf ptr bits /\
  block_ok (foldl groestl_f h (blocks 64 n input)).
Proof.
  induction n as [|n IH]; intros h c buf ptr bits input Hh Hc Hc2 B L; [cbn; by rewrite Z.add_0_r|].
  cbn [transform_loop blocks foldl]. unfold state at 1 2, count_block, set_chaining.
  cbn [block_counter1 block_counter2 buffer chaining bits_in_last_byte buf_ptr].
  destruct (F512_spec h (take 64 input) Hh) as [-> Hf]; [split; [rewrite length_take; lia | by apply Forall_take]|].
  rewrite u32_id by lia. replace (c + 1 =? 0) with false by (symmetry; apply Z.eqb_neq; lia).
  replace (c + Z.of_nat (S n)) with (c + 1 + Z.of_nat n) by lia.
  apply (IH _ (c + 1) buf ptr bits (drop 64 input)); [exact Hf | lia | lia | by apply Forall_drop | rewrite length_drop; lia].
Qed.

Lemma Transform_spec h c buf ptr bits input len : block_ok h -> 0 <= c -> c + len / 64 < 2 ^ 32 -> 0 <= len ->
  byte_ok input -> len <= Z.of_nat (length input) ->
  let n := Z.to_nat (len / 64) in
  Transform (state h c buf ptr bits) input len = state (foldl groestl_f h (blocks 64 n input)) (c + len / 64) buf ptr bits /\
  block_ok (foldl groestl_f h (blocks 64 n input)).
Proof.
  intros Hh Hc Hc2 Hl B L n. unfold Transform. change SIZE512 with 64. fold n.
  assert (0 <= len / 64) by (apply Z.div_pos; lia). assert (64 * (len / 64) <= len) by (apply Z.mul_div_le; lia).
  replace (c + len / 64) with (c + Z.of_nat n) by (unfold n; lia).
  apply transform_loop_spec; unfold n; (assumption || lia).
Qed.

(** What [Final] does with the last block, after the block before it, if there is one. *)
Definition final_block (ctx : hashState) : list Z :=
  let ctx := pad_length (pad_zeros ctx 56) in
  drop 32 (words_out (chaining (OutputTransformation (Transform ctx (buffer ctx) 64)))).
Definition full_block (ctx : hashState) : hashState :=
  let ctx := pad_zeros ctx 64 in set_buffer (buffer ctx) 0 (Transform ctx (buffer ctx) 64).
Lemma Final_blocks ctx : snd (Final ctx) =
  let ctx := pad_one ctx in final_block (if 56 <? buf_ptr ctx then full_block ctx else ctx).
Proof. exact eq_refl. Qed.

(** The last block: zeros up to the length field, the count, the output. *)
Lemma Final_block h c pre r : block_ok h -> 0 <= c < 2 ^ 26 -> byte_ok pre -> (length pre <= 56)%nat -> (length r = 64 - length pre)%nat ->
  final_block (state h c (pre ++ r) (Z.of_nat (length pre)) 0) =
  groestl_out (groestl_f h (pre ++ replicate (56 - length pre) 0 ++ rev (le_bytes 8 (c + 1)))).
Proof.
  intros Hh Hc B Lp Lr. unfold final_block, state. rewrite pad_zeros_spec by lia. cbv zeta.
  replace (Z.to_nat (56 - Z.of_nat (length pre))) with (56 - length pre)%nat by lia. rewrite app_assoc.
  rewrite pad_length_spec by (rewrite ?length_app, ?length_replicate, ?length_drop; lia). cbn [buffer].
  rewrite <- app_assoc. set (block := pre ++ replicate (56 - length pre) 0 ++ rev (le_bytes 8 (c + 1))).
  assert (Hb : block_ok block).
  { split; [unfold block; rewrite !length_app, length_replicate, length_rev, length_le_bytes; lia|].
    unfold block. apply Forall_app. split; [exact B|]. apply Forall_app. split; [by apply Forall_replicate | apply Forall_rev, le_bytes_ok]. }
  change (HashState (words_in h) 0 0) with (state h 0). destruct Hb as [Lb Bb].
  destruct (Transform_spec h 0 block 56 0 block 64 Hh) as [E Ho]; [done | reflexivity | done | exact Bb | lia |]. cbv zeta in E. rewrite E. clear E.
  change (Z.to_nat (64 / 64)) with 1%nat in *. cbn [blocks foldl] in *. rewrite take_ge in * by lia.
  unfold OutputTransformation, set_chaining, state. cbn [chaining].
  destruct (perm_P_spec _ Ho) as [-> HP]. rewrite xor_words_in by assumption. rewrite words_out_in by (by apply xor_block).
  unfold groestl_out. by rewrite xor_bytes_comm.
Qed.

Lemma full_block_spec h c pre r : block_ok h -> 0 <= c < 2 ^ 26 -> byte_ok pre -> (length pre <= 64)%nat -> (length r = 64 - length pre)%nat ->
  full_block (state h c (pre ++ r) (Z.of_nat (length pre)) 0) =
  state (groestl_f h (pre ++ replicate (64 - length pre) 0)) (c + 1) (pre ++ replicate (64 - length pre) 0) 0 0 /\
  block_ok (groestl_f h (pre ++ replicate (64 - length pre) 0)).
Proof.
  intros Hh Hc B Lp Lr. unfold full_block. pose proof (pad_zeros_spec (words_in h) c 0 pre r 0 64 ltac:(lia)) as E.
  fold (state h c (pre ++ r) (Z.of_nat (length pre)) 0) in E. rewrite E. clear E. cbv zeta. cbn [buffer].
  replace (Z.to_nat (64 - Z.of_nat (length pre))) with (64 - length pre)%nat by lia. rewrite (drop_ge r), app_nil_r by lia.
  set (block := pre ++ replicate (64 - length pre) 0).
  assert (Lb : length block = 64%nat) by (unfold block; rewrite length_app, length_replicate; lia).
  assert (Bb : byte_ok block) by (unfold block; apply Forall_app; split; [exact B | by apply Forall_replicate]).
  fold (state h c block 64 0).
  destruct (Transform_spec h c block 64 0 block 64 Hh) as [E Ho]; [lia | change (64 / 64) with 1; lia | done | exact Bb | lia |]. cbv zeta in E. rewrite E. clear E.
  change (Z.to_nat (64 / 64)) with 1%nat in *. change (64 / 64) with 1. cbn [blocks foldl] in *. rewrite take_ge in * by lia. by split.
Qed.

(** ** The message *)

Section Message.
Context (buf0 data : list Z) (databitlen : Z).
Context (Bd : byte_ok data) (L0 : length buf0 = 64%nat).
Context (Hn : 0 <= databitlen < 2 ^ 34) (Ld : databitlen <= 8 * Z.of_nat (length data)).

(** Whole bytes, bits after them, whole blocks, bytes after them. *)
Let m : nat := Z.to_nat (databitlen / 8).
Let rem : nat := Z.to_nat (databitlen mod 8).
Let q : nat := (m / 64)%nat.
Let k : nat := (m mod 64)%nat.

Let tail : list Z := take k (drop (64 * q) data).
Let chain : list Z := foldl groestl_f groestl_iv (blocks 64 q data).

Lemma groestl_msg_numbers : databitlen / 8 = Z.of_nat m /\ databitlen mod 8 = Z.of_nat rem /\ (rem < 8)%nat /\ (k < 64)%nat /\
  m = (64 * q + k)%nat /\ (m <= length data)%nat /\ ((m < length data)%nat \/ rem = 0%nat) /\ Z.of_nat q < 2 ^ 25 /\
  Z.of_nat m / 64 = Z.of_nat q /\ databitlen = 8 * Z.of_nat m + Z.of_nat rem.
Proof using All.
  destruct (bit_length_split databitlen data ltac:(lia) Ld) as (E1&E2&E3&E4&E5&E6&E7&E8&E9).
  fold m rem q k in E1, E2, E3, E4, E5, E6, E7, E8, E9. repeat split; try assumption. assert (Z.of_nat m < 2 ^ 31) by lia. lia.
Qed.

Lemma groestl_length_tail : length tail = k.
Proof using All. destruct groestl_msg_numbers as (_&_&_&_&E&H&_). unfold tail. rewrite length_take, length_drop. lia. Qed.
Lemma chain_ok : block_ok chain.
Proof using All.
  destruct groestl_msg_numbers as (_&_&_&_&E&H&_&Hq&_).
  apply (transform_loop_spec q groestl_iv 0 buf0 0 0 data); [|lia..|exact Bd|lia].
  split; [reflexivity|]. apply byte_list_ok. vm_compute. reflexivity.
Qed.

Lemma Init_state : Init buf0 = state groestl_iv 0 buf0 0 0.
Proof using All. exact eq_refl. Qed.

Lemma groestl_Update_spec : exists rest, length rest = (63 - k)%nat /\
  pad_one (Update (Init buf0) data databitlen) =
  state chain (Z.of_nat q) (tail ++ last_byte rem (data !!! m) :: rest) (Z.of_nat k + 1) 0.
Proof using All.
  destruct groestl_msg_numbers as (Em&Er&Hr&Hk&E&H&Hl&Hq&Eq&_). unfold Update. rewrite Init_state.
  change (buf_ptr (state groestl_iv 0 buf0 0 0) =? 0) with true. cbn [negb].
  rewrite Em, Er, i32_id by lia. rewrite drop_0, Z.sub_0_r.
  destruct (Transform_spec groestl_iv 0 buf0 0 0 data (Z.of_nat m)) as [ET _];
    [split; [reflexivity | apply byte_list_ok; vm_compute; reflexivity] | lia.. | exact Bd | lia|].
  cbv zeta. rewrite ET. clear ET. rewrite Eq, Nat2Z.id. fold chain. rewrite Z.quot_div_nonneg by (lia || (unfold SIZE512, ROWS, COLS512; lia)).
  change SIZE512 with 64. rewrite Eq. rewrite !Z.add_0_l.
  replace (Z.max 0 (Z.of_nat m - Z.of_nat q * 64)) with (Z.of_nat k) by lia.
  replace (Z.of_nat q * 64 + Z.of_nat k) with (Z.of_nat m) by lia.
  unfold append_bytes. cbn [state buf_ptr buffer]. change (Z.to_nat 0) with 0%nat. rewrite write_at_0.
  replace (Z.to_nat (Z.of_nat q * 64)) with (64 * q)%nat by lia. rewrite !Nat2Z.id. fold tail. rewrite groestl_length_tail, Z.add_0_l.
  assert (exists b rest, drop k buf0 = b :: rest /\ length rest = (63 - k)%nat) as (b & rest & Ed & Lr).
  { destruct (drop k buf0) as [|b rest] eqn:Ed; pose proof (f_equal length Ed) as L; rewrite length_drop, L0 in L; cbn [length] in L; [lia|].
    exists b, rest. split; [done | lia]. }
  exists rest. split; [exact Lr|]. rewrite Ed. unfold pad_one. cbn [set_buffer chaining block_counter1 block_counter2 bits_in_last_byte buffer buf_ptr].
  destruct (Z.of_nat rem =? 0) eqn:Z0.
  - replace rem with 0%nat by lia. cbn [bits_in_last_byte buffer buf_ptr state set_buffer chaining block_counter1 block_counter2 Z.eqb].
    rewrite Nat2Z.id. rewrite <- groestl_length_tail, write_at_end. cbn [length drop app]. reflexivity.
  - cbn [set_bits set_buffer chaining block_counter1 block_counter2 bits_in_last_byte buffer buf_ptr state]. rewrite Z0.
    destruct Hl as [Hl | Hl]; [|lia].
    replace (take (Z.to_nat 1) (drop m data)) with [data !!! m].
    2: { symmetry. change (Z.to_nat 1) with 1%nat. rewrite (drop_S data (data !!! m) m) by (by apply list_lookup_lookup_total_lt). reflexivity. }
    rewrite Nat2Z.id. rewrite <- groestl_length_tail, write_at_end. cbn [length drop app].
    rewrite Z.add_simpl_r, Nat2Z.id. rewrite lookup_total_app_r, Nat.sub_diag by lia. cbn [lookup_total list_lookup_total].
    rewrite insert_app_r_alt, Nat.sub_diag by lia. cbn [insert list_insert].
    rewrite last_byte_mask; [exact eq_refl | lia | apply (Forall_lookup_total_1 _ _ m Bd); lia].
Qed.

Lemma groestl_last_ok : is_byte (last_byte rem (data !!! m)).
Proof using All.
  destruct groestl_msg_numbers as (_&_&Hr&_&_&_&[Hl|Hl]&_).
  - apply last_byte_range; [exact Hr|]. apply (Forall_lookup_total_1 _ _ m Bd). lia.
  - rewrite Hl, last_byte_0. unfold is_byte. lia.
Qed.

(** Zero bytes before the length field, and blocks of the padded message. *)
Let z : nat := if decide (k < 56)%nat then (55 - k)%nat else (119 - k)%nat.
Let e : nat := if decide (k < 56)%nat then 1%nat else 2%nat.
Let end_bytes : list Z := tail ++ last_byte rem (data !!! m) :: replicate z 0 ++ rev (le_bytes 8 (Z.of_nat (q + e))).

Lemma groestl_length_end : length end_bytes = (64 * e)%nat.
Proof using All.
  destruct groestl_msg_numbers as (_&_&_&Hk&_). unfold end_bytes. rewrite length_app, groestl_length_tail. cbn [length].
  rewrite length_app, length_replicate, length_rev, length_le_bytes. unfold z, e. destruct (decide _); lia.
Qed.
Lemma end_ok : byte_ok end_bytes.
Proof using All.
  unfold end_bytes. apply Forall_app. split; [by apply Forall_take, Forall_drop|]. constructor; [apply groestl_last_ok|].
  apply Forall_app. split; [by apply Forall_replicate|]. apply Forall_rev, le_bytes_ok.
Qed.

Lemma length_bits : length (message_bits data (Z.to_nat databitlen)) = (512 * q + 8 * k + rem)%nat.
Proof using All. destruct groestl_msg_numbers as (_&_&_&_&E&_&_&_&_&En). rewrite length_message_bits by exact Ld. lia.
Qed.

(** The padded message of the reference. *)
Lemma groestl_pad_spec : pack (groestl_pad (message_bits data (Z.to_nat databitlen))) = take (64 * q) data ++ end_bytes.
Proof using All.
  destruct groestl_msg_numbers as (_&_&Hr&Hk&E&H&Hl&_&_&En). unfold groestl_pad. cbv zeta. rewrite length_bits.
  assert (Ew : ((512 - (512 * q + 8 * k + rem + 65) mod 512) mod 512 = 7 - rem + 8 * z)%nat).
  { replace (512 * q + 8 * k + rem + 65)%nat with (8 * k + rem + 65 + q * 512)%nat by lia. rewrite Nat.Div0.mod_add.
    unfold z. destruct (decide (k < 56)%nat) as [C|C].
    - destruct (decide (8 * k + rem + 65 = 512)%nat) as [C2|C2]; [rewrite C2; change ((512 - 512 mod 512) mod 512)%nat with 0%nat; lia|].
      rewrite (Nat.mod_small (8 * k + rem + 65)) by lia. rewrite Nat.mod_small by lia. lia.
    - replace (8 * k + rem + 65)%nat with (8 * k + rem + 65 - 512 + 1 * 512)%nat by lia. rewrite Nat.Div0.mod_add.
      rewrite (Nat.mod_small (8 * k + rem + 65 - 512)) by lia. rewrite Nat.mod_small by lia. lia. }
  rewrite Ew. assert (Ep : ((512 * q + 8 * k + rem + (7 - rem + 8 * z) + 65) / 512 = q + e)%nat).
  { replace (512 * q + 8 * k + rem + (7 - rem + 8 * z) + 65)%nat with ((q + e) * 512)%nat by (unfold z, e; destruct (decide _); lia).
    apply Nat.div_mul. lia. }
  rewrite Ep. replace (Z.to_nat databitlen) with (8 * m + rem)%nat by lia. rewrite pack_padded by assumption.
  rewrite pack_bits_of by (apply Forall_rev, le_bytes_ok). unfold end_bytes. rewrite app_assoc. f_equal.
  unfold tail. rewrite E, <- (take_take_drop data (64 * q) k). reflexivity.
Qed.

(** The chaining value at the end. *)
Lemma Final_spec : snd (Final (Update (Init buf0) data databitlen)) =
  groestl_out (foldl groestl_f chain (blocks 64 e end_bytes)).
Proof using All.
  destruct groestl_msg_numbers as (_&_&_&Hk&_&_&_&Hq&_). destruct groestl_Update_spec as (rest & Lr & EU).
  assert (LT : length (tail ++ [last_byte rem (data !!! m)]) = S k) by (rewrite length_app, groestl_length_tail; cbn; lia).
  assert (BT : byte_ok (tail ++ [last_byte rem (data !!! m)])).
  { apply Forall_app. split; [by apply Forall_take, Forall_drop|]. constructor; [apply groestl_last_ok | constructor]. }
  rewrite Final_blocks, EU. cbv zeta. change (tail ++ last_byte rem (data !!! m) :: rest) with (tail ++ [last_byte rem (data !!! m)] ++ rest).
  rewrite app_assoc. replace (Z.of_nat k + 1) with (Z.of_nat (length (tail ++ [last_byte rem (data !!! m)]))) by lia.
  pose proof chain_ok as Hc. pose proof groestl_length_end as LE. unfold end_bytes, e, z in *. clear EU.
  change (tail ++ last_byte rem (data !!! m) :: replicate ?n 0 ++ ?l) with (tail ++ [last_byte rem (data !!! m)] ++ replicate n 0 ++ l) in *.
  rewrite app_assoc in *. set (pre := tail ++ [last_byte rem (data !!! m)]) in *. clearbody pre chain. cbn [buf_ptr state].
  destruct (decide (k < 56)%nat) as [C|C].
  - replace (56 <? Z.of_nat (length pre)) with false by (symmetry; apply Z.ltb_ge; lia).
    rewrite Final_block by (assumption || lia). cbn [blocks foldl]. rewrite take_ge by (rewrite LE; lia).
    rewrite LT. replace (56 - S k)%nat with (55 - k)%nat by lia. replace (Z.of_nat (q + 1)) with (Z.of_nat q + 1) by lia. reflexivity.
  - replace (56 <? Z.of_nat (length pre)) with true by (symmetry; apply Z.ltb_lt; lia).
    destruct (full_block_spec chain (Z.of_nat q) pre rest) as [-> Hf]; [assumption || lia..|].
    pose proof (Final_block _ (Z.of_nat q + 1) [] (pre ++ replicate (64 - length pre) 0) Hf ltac:(lia) ltac:(constructor) ltac:(cbn [length]; lia)
      ltac:(rewrite length_app, length_replicate; cbn [length]; lia)) as EF.
    cbn [length app] in EF. change (Z.of_nat 0) with 0 in EF. rewrite EF. clear EF. cbn [blocks foldl]. rewrite LT in *. replace (Z.of_nat (q + 2)) with (Z.of_nat q + 1 + 1) by lia.
    replace (119 - k)%nat with ((64 - S k) + 56)%nat by lia. rewrite replicate_add, <- !app_assoc. 
    rewrite (app_assoc pre). rewrite take_app_length', drop_app_length' by (rewrite length_app, length_replicate; lia).
    by rewrite take_ge by (rewrite length_app, length_replicate, length_rev, length_le_bytes; lia).
Qed.

Lemma blocks_spec : blocks 64 (length (take (64 * q) data ++ end_bytes) / 64) (take (64 * q) data ++ end_bytes) =
  blocks 64 q data ++ blocks 64 e end_bytes.
Proof using All. apply blocks_padded; [destruct groestl_msg_numbers as (_&_&_&_&E&H&_); lia | exact groestl_length_end].
Qed.

Lemma groestl_spec : groestl buf0 data databitlen = Groestl256 (message_bits data (Z.to_nat databitlen)).
Proof using All.
  unfold groestl, Groestl256. cbv zeta. rewrite Final_spec, groestl_pad_spec, blocks_spec, foldl_app. reflexivity.
Qed.
End Message.


