(* ===== verification/Jh.v ===== *)
(** * JH (src/Native/libcryptonote/crypto/jh.c, hash-extra-jh.c)

    The bit-sliced permutation on sixteen words, the compression function and the
    functions on the C [hashState]. The state [x[8][2]] is a list of sixteen words,
    row after row; bytes are read as little-endian words. [None] is a [memcpy] that
    reads or writes outside of its buffers, or a failed assertion. *)

From Stdlib Require Import ZArith Lia.
From stdpp Require Import base tactics list numbers option.
From S2P Require Import Prelude Radix Words.
Open Scope Z_scope.

(** * Constants of JH (src/Native/libcryptonote/crypto/jh.c)

    The initial values for the four sizes and the round constants in the order of
    the bit slices: arrays of bytes. *)

Definition JH224_H0 : list Z := [
  0x2d; 0xfe; 0xdd; 0x62; 0xf9; 0x9a; 0x98; 0xac; 0xae; 0x7c; 0xac; 0xd6; 0x19; 0xd6; 0x34; 0xe7; 0xa4; 0x83; 0x10;
  0x5; 0xbc; 0x30; 0x12; 0x16; 0xb8; 0x60; 0x38; 0xc6; 0xc9; 0x66; 0x14; 0x94; 0x66; 0xd9; 0x89; 0x9f; 0x25; 0x80;
  0x70; 0x6f; 0xce; 0x9e; 0xa3; 0x1b; 0x1d; 0x9b; 0x1a; 0xdc; 0x11; 0xe8; 0x32; 0x5f; 0x7b; 0x36; 0x6e; 0x10; 0xf9;
  0x94; 0x85; 0x7f; 0x2; 0xfa; 0x6; 0xc1; 0x1b; 0x4f; 0x1b; 0x5c; 0xd8; 0xc8; 0x40; 0xb3; 0x97; 0xf6; 0xa1; 0x7f;
  0x6e; 0x73; 0x80; 0x99; 0xdc; 0xdf; 0x93; 0xa5; 0xad; 0xea; 0xa3; 0xd3; 0xa4; 0x31; 0xe8; 0xde; 0xc9; 0x53; 0x9a;
  0x68; 0x22; 0xb4; 0xa9; 0x8a; 0xec; 0x86; 0xa1; 0xe4; 0xd5; 0x74; 0xac; 0x95; 0x9c; 0xe5; 0x6c; 0xf0; 0x15; 0x96;
  0xd; 0xea; 0xb5; 0xab; 0x2b; 0xbf; 0x96; 0x11; 0xdc; 0xf0; 0xdd; 0x64; 0xea; 0x6e].
Definition JH256_H0 : list Z := [
  0xeb; 0x98; 0xa3; 0x41; 0x2c; 0x20; 0xd3; 0xeb; 0x92; 0xcd; 0xbe; 0x7b; 0x9c; 0xb2; 0x45; 0xc1; 0x1c; 0x93; 0x51;
  0x91; 0x60; 0xd4; 0xc7; 0xfa; 0x26; 0x0; 0x82; 0xd6; 0x7e; 0x50; 0x8a; 0x3; 0xa4; 0x23; 0x9e; 0x26; 0x77; 0x26;
  0xb9; 0x45; 0xe0; 0xfb; 0x1a; 0x48; 0xd4; 0x1a; 0x94; 0x77; 0xcd; 0xb5; 0xab; 0x26; 0x2; 0x6b; 0x17; 0x7a; 0x56;
  0xf0; 0x24; 0x42; 0xf; 0xff; 0x2f; 0xa8; 0x71; 0xa3; 0x96; 0x89; 0x7f; 0x2e; 0x4d; 0x75; 0x1d; 0x14; 0x49; 0x8;
  0xf7; 0x7d; 0xe2; 0x62; 0x27; 0x76; 0x95; 0xf7; 0x76; 0x24; 0x8f; 0x94; 0x87; 0xd5; 0xb6; 0x57; 0x47; 0x80; 0x29;
  0x6c; 0x5c; 0x5e; 0x27; 0x2d; 0xac; 0x8e; 0xd; 0x6c; 0x51; 0x84; 0x50; 0xc6; 0x57; 0x5; 0x7a; 0xf; 0x7b; 0xe4;
  0xd3; 0x67; 0x70; 0x24; 0x12; 0xea; 0x89; 0xe3; 0xab; 0x13; 0xd3; 0x1c; 0xd7; 0x69].
Definition JH384_H0 : list Z := [
  0x48; 0x1e; 0x3b; 0xc6; 0xd8; 0x13; 0x39; 0x8a; 0x6d; 0x3b; 0x5e; 0x89; 0x4a; 0xde; 0x87; 0x9b; 0x63; 0xfa; 0xea;
  0x68; 0xd4; 0x80; 0xad; 0x2e; 0x33; 0x2c; 0xcb; 0x21; 0x48; 0xf; 0x82; 0x67; 0x98; 0xae; 0xc8; 0x4d; 0x90; 0x82;
  0xb9; 0x28; 0xd4; 0x55; 0xea; 0x30; 0x41; 0x11; 0x42; 0x49; 0x36; 0xf5; 0x55; 0xb2; 0x92; 0x48; 0x47; 0xec; 0xc7;
  0x25; 0xa; 0x93; 0xba; 0xf4; 0x3c; 0xe1; 0x56; 0x9b; 0x7f; 0x8a; 0x27; 0xdb; 0x45; 0x4c; 0x9e; 0xfc; 0xbd; 0x49;
  0x63; 0x97; 0xaf; 0xe; 0x58; 0x9f; 0xc2; 0x7d; 0x26; 0xaa; 0x80; 0xcd; 0x80; 0xc0; 0x8b; 0x8c; 0x9d; 0xeb; 0x2e;
  0xda; 0x8a; 0x79; 0x81; 0xe8; 0xf8; 0xd5; 0x37; 0x3a; 0xf4; 0x39; 0x67; 0xad; 0xdd; 0xd1; 0x7a; 0x71; 0xa9; 0xb4;
  0xd3; 0xbd; 0xa4; 0x75; 0xd3; 0x94; 0x97; 0x6c; 0x3f; 0xba; 0x98; 0x42; 0x73; 0x7f].
Definition JH512_H0 : list Z := [
  0x6f; 0xd1; 0x4b; 0x96; 0x3e; 0x0; 0xaa; 0x17; 0x63; 0x6a; 0x2e; 0x5; 0x7a; 0x15; 0xd5; 0x43; 0x8a; 0x22; 0x5e;
  0x8d; 0xc; 0x97; 0xef; 0xb; 0xe9; 0x34; 0x12; 0x59; 0xf2; 0xb3; 0xc3; 0x61; 0x89; 0x1d; 0xa0; 0xc1; 0x53; 0x6f;
  0x80; 0x1e; 0x2a; 0xa9; 0x5; 0x6b; 0xea; 0x2b; 0x6d; 0x80; 0x58; 0x8e; 0xcc; 0xdb; 0x20; 0x75; 0xba; 0xa6; 0xa9;
  0xf; 0x3a; 0x76; 0xba; 0xf8; 0x3b; 0xf7; 0x1; 0x69; 0xe6; 0x5; 0x41; 0xe3; 0x4a; 0x69; 0x46; 0xb5; 0x8a; 0x8e;
  0x2e; 0x6f; 0xe6; 0x5a; 0x10; 0x47; 0xa7; 0xd0; 0xc1; 0x84; 0x3c; 0x24; 0x3b; 0x6e; 0x71; 0xb1; 0x2d; 0x5a; 0xc1;
  0x99; 0xcf; 0x57; 0xf6; 0xec; 0x9d; 0xb1; 0xf8; 0x56; 0xa7; 0x6; 0x88; 0x7c; 0x57; 0x16; 0xb1; 0x56; 0xe3; 0xc2;
  0xfc; 0xdf; 0xe6; 0x85; 0x17; 0xfb; 0x54; 0x5a; 0x46; 0x78; 0xcc; 0x8c; 0xdd; 0x4b].

Definition E8_bitslice_roundconstant : list (list Z) := [
  [
  0x72; 0xd5; 0xde; 0xa2; 0xdf; 0x15; 0xf8; 0x67; 0x7b; 0x84; 0x15; 0xa; 0xb7; 0x23; 0x15; 0x57; 0x81; 0xab; 0xd6;
  0x90; 0x4d; 0x5a; 0x87; 0xf6; 0x4e; 0x9f; 0x4f; 0xc5; 0xc3; 0xd1; 0x2b; 0x40];
  [
  0xea; 0x98; 0x3a; 0xe0; 0x5c; 0x45; 0xfa; 0x9c; 0x3; 0xc5; 0xd2; 0x99; 0x66; 0xb2; 0x99; 0x9a; 0x66; 0x2; 0x96;
  0xb4; 0xf2; 0xbb; 0x53; 0x8a; 0xb5; 0x56; 0x14; 0x1a; 0x88; 0xdb; 0xa2; 0x31];
  [
  0x3; 0xa3; 0x5a; 0x5c; 0x9a; 0x19; 0xe; 0xdb; 0x40; 0x3f; 0xb2; 0xa; 0x87; 0xc1; 0x44; 0x10; 0x1c; 0x5; 0x19; 0x80;
  0x84; 0x9e; 0x95; 0x1d; 0x6f; 0x33; 0xeb; 0xad; 0x5e; 0xe7; 0xcd; 0xdc];
  [
  0x10; 0xba; 0x13; 0x92; 0x2; 0xbf; 0x6b; 0x41; 0xdc; 0x78; 0x65; 0x15; 0xf7; 0xbb; 0x27; 0xd0; 0xa; 0x2c; 0x81;
  0x39; 0x37; 0xaa; 0x78; 0x50; 0x3f; 0x1a; 0xbf; 0xd2; 0x41; 0x0; 0x91; 0xd3];
  [
  0x42; 0x2d; 0x5a; 0xd; 0xf6; 0xcc; 0x7e; 0x90; 0xdd; 0x62; 0x9f; 0x9c; 0x92; 0xc0; 0x97; 0xce; 0x18; 0x5c; 0xa7;
  0xb; 0xc7; 0x2b; 0x44; 0xac; 0xd1; 0xdf; 0x65; 0xd6; 0x63; 0xc6; 0xfc; 0x23];
  [
  0x97; 0x6e; 0x6c; 0x3; 0x9e; 0xe0; 0xb8; 0x1a; 0x21; 0x5; 0x45; 0x7e; 0x44; 0x6c; 0xec; 0xa8; 0xee; 0xf1; 0x3;
  0xbb; 0x5d; 0x8e; 0x61; 0xfa; 0xfd; 0x96; 0x97; 0xb2; 0x94; 0x83; 0x81; 0x97];
  [
  0x4a; 0x8e; 0x85; 0x37; 0xdb; 0x3; 0x30; 0x2f; 0x2a; 0x67; 0x8d; 0x2d; 0xfb; 0x9f; 0x6a; 0x95; 0x8a; 0xfe; 0x73;
  0x81; 0xf8; 0xb8; 0x69; 0x6c; 0x8a; 0xc7; 0x72; 0x46; 0xc0; 0x7f; 0x42; 0x14];
  [
  0xc5; 0xf4; 0x15; 0x8f; 0xbd; 0xc7; 0x5e; 0xc4; 0x75; 0x44; 0x6f; 0xa7; 0x8f; 0x11; 0xbb; 0x80; 0x52; 0xde; 0x75;
  0xb7; 0xae; 0xe4; 0x88; 0xbc; 0x82; 0xb8; 0x0; 0x1e; 0x98; 0xa6; 0xa3; 0xf4];
  [
  0x8e; 0xf4; 0x8f; 0x33; 0xa9; 0xa3; 0x63; 0x15; 0xaa; 0x5f; 0x56; 0x24; 0xd5; 0xb7; 0xf9; 0x89; 0xb6; 0xf1; 0xed;
  0x20; 0x7c; 0x5a; 0xe0; 0xfd; 0x36; 0xca; 0xe9; 0x5a; 0x6; 0x42; 0x2c; 0x36];
  [
  0xce; 0x29; 0x35; 0x43; 0x4e; 0xfe; 0x98; 0x3d; 0x53; 0x3a; 0xf9; 0x74; 0x73; 0x9a; 0x4b; 0xa7; 0xd0; 0xf5; 0x1f;
  0x59; 0x6f; 0x4e; 0x81; 0x86; 0xe; 0x9d; 0xad; 0x81; 0xaf; 0xd8; 0x5a; 0x9f];
  [
  0xa7; 0x5; 0x6; 0x67; 0xee; 0x34; 0x62; 0x6a; 0x8b; 0xb; 0x28; 0xbe; 0x6e; 0xb9; 0x17; 0x27; 0x47; 0x74; 0x7; 0x26;
  0xc6; 0x80; 0x10; 0x3f; 0xe0; 0xa0; 0x7e; 0x6f; 0xc6; 0x7e; 0x48; 0x7b];
  [
  0xd; 0x55; 0xa; 0xa5; 0x4a; 0xf8; 0xa4; 0xc0; 0x91; 0xe3; 0xe7; 0x9f; 0x97; 0x8e; 0xf1; 0x9e; 0x86; 0x76; 0x72;
  0x81; 0x50; 0x60; 0x8d; 0xd4; 0x7e; 0x9e; 0x5a; 0x41; 0xf3; 0xe5; 0xb0; 0x62];
  [
  0xfc; 0x9f; 0x1f; 0xec; 0x40; 0x54; 0x20; 0x7a; 0xe3; 0xe4; 0x1a; 0x0; 0xce; 0xf4; 0xc9; 0x84; 0x4f; 0xd7; 0x94;
  0xf5; 0x9d; 0xfa; 0x95; 0xd8; 0x55; 0x2e; 0x7e; 0x11; 0x24; 0xc3; 0x54; 0xa5];
  [
  0x5b; 0xdf; 0x72; 0x28; 0xbd; 0xfe; 0x6e; 0x28; 0x78; 0xf5; 0x7f; 0xe2; 0xf; 0xa5; 0xc4; 0xb2; 0x5; 0x89; 0x7c;
  0xef; 0xee; 0x49; 0xd3; 0x2e; 0x44; 0x7e; 0x93; 0x85; 0xeb; 0x28; 0x59; 0x7f];
  [
  0x70; 0x5f; 0x69; 0x37; 0xb3; 0x24; 0x31; 0x4a; 0x5e; 0x86; 0x28; 0xf1; 0x1d; 0xd6; 0xe4; 0x65; 0xc7; 0x1b; 0x77;
  0x4; 0x51; 0xb9; 0x20; 0xe7; 0x74; 0xfe; 0x43; 0xe8; 0x23; 0xd4; 0x87; 0x8a];
  [
  0x7d; 0x29; 0xe8; 0xa3; 0x92; 0x76; 0x94; 0xf2; 0xdd; 0xcb; 0x7a; 0x9; 0x9b; 0x30; 0xd9; 0xc1; 0x1d; 0x1b; 0x30;
  0xfb; 0x5b; 0xdc; 0x1b; 0xe0; 0xda; 0x24; 0x49; 0x4f; 0xf2; 0x9c; 0x82; 0xbf];
  [
  0xa4; 0xe7; 0xba; 0x31; 0xb4; 0x70; 0xbf; 0xff; 0xd; 0x32; 0x44; 0x5; 0xde; 0xf8; 0xbc; 0x48; 0x3b; 0xae; 0xfc;
  0x32; 0x53; 0xbb; 0xd3; 0x39; 0x45; 0x9f; 0xc3; 0xc1; 0xe0; 0x29; 0x8b; 0xa0];
  [
  0xe5; 0xc9; 0x5; 0xfd; 0xf7; 0xae; 0x9; 0xf; 0x94; 0x70; 0x34; 0x12; 0x42; 0x90; 0xf1; 0x34; 0xa2; 0x71; 0xb7; 0x1;
  0xe3; 0x44; 0xed; 0x95; 0xe9; 0x3b; 0x8e; 0x36; 0x4f; 0x2f; 0x98; 0x4a];
  [
  0x88; 0x40; 0x1d; 0x63; 0xa0; 0x6c; 0xf6; 0x15; 0x47; 0xc1; 0x44; 0x4b; 0x87; 0x52; 0xaf; 0xff; 0x7e; 0xbb; 0x4a;
  0xf1; 0xe2; 0xa; 0xc6; 0x30; 0x46; 0x70; 0xb6; 0xc5; 0xcc; 0x6e; 0x8c; 0xe6];
  [
  0xa4; 0xd5; 0xa4; 0x56; 0xbd; 0x4f; 0xca; 0x0; 0xda; 0x9d; 0x84; 0x4b; 0xc8; 0x3e; 0x18; 0xae; 0x73; 0x57; 0xce;
  0x45; 0x30; 0x64; 0xd1; 0xad; 0xe8; 0xa6; 0xce; 0x68; 0x14; 0x5c; 0x25; 0x67];
  [
  0xa3; 0xda; 0x8c; 0xf2; 0xcb; 0xe; 0xe1; 0x16; 0x33; 0xe9; 0x6; 0x58; 0x9a; 0x94; 0x99; 0x9a; 0x1f; 0x60; 0xb2;
  0x20; 0xc2; 0x6f; 0x84; 0x7b; 0xd1; 0xce; 0xac; 0x7f; 0xa0; 0xd1; 0x85; 0x18];
  [
  0x32; 0x59; 0x5b; 0xa1; 0x8d; 0xdd; 0x19; 0xd3; 0x50; 0x9a; 0x1c; 0xc0; 0xaa; 0xa5; 0xb4; 0x46; 0x9f; 0x3d; 0x63;
  0x67; 0xe4; 0x4; 0x6b; 0xba; 0xf6; 0xca; 0x19; 0xab; 0xb; 0x56; 0xee; 0x7e];
  [
  0x1f; 0xb1; 0x79; 0xea; 0xa9; 0x28; 0x21; 0x74; 0xe9; 0xbd; 0xf7; 0x35; 0x3b; 0x36; 0x51; 0xee; 0x1d; 0x57; 0xac;
  0x5a; 0x75; 0x50; 0xd3; 0x76; 0x3a; 0x46; 0xc2; 0xfe; 0xa3; 0x7d; 0x70; 0x1];
  [
  0xf7; 0x35; 0xc1; 0xaf; 0x98; 0xa4; 0xd8; 0x42; 0x78; 0xed; 0xec; 0x20; 0x9e; 0x6b; 0x67; 0x79; 0x41; 0x83; 0x63;
  0x15; 0xea; 0x3a; 0xdb; 0xa8; 0xfa; 0xc3; 0x3b; 0x4d; 0x32; 0x83; 0x2c; 0x83];
  [
  0xa7; 0x40; 0x3b; 0x1f; 0x1c; 0x27; 0x47; 0xf3; 0x59; 0x40; 0xf0; 0x34; 0xb7; 0x2d; 0x76; 0x9a; 0xe7; 0x3e; 0x4e;
  0x6c; 0xd2; 0x21; 0x4f; 0xfd; 0xb8; 0xfd; 0x8d; 0x39; 0xdc; 0x57; 0x59; 0xef];
  [
  0x8d; 0x9b; 0xc; 0x49; 0x2b; 0x49; 0xeb; 0xda; 0x5b; 0xa2; 0xd7; 0x49; 0x68; 0xf3; 0x70; 0xd; 0x7d; 0x3b; 0xae;
  0xd0; 0x7a; 0x8d; 0x55; 0x84; 0xf5; 0xa5; 0xe9; 0xf0; 0xe4; 0xf8; 0x8e; 0x65];
  [
  0xa0; 0xb8; 0xa2; 0xf4; 0x36; 0x10; 0x3b; 0x53; 0xc; 0xa8; 0x7; 0x9e; 0x75; 0x3e; 0xec; 0x5a; 0x91; 0x68; 0x94;
  0x92; 0x56; 0xe8; 0x88; 0x4f; 0x5b; 0xb0; 0x5c; 0x55; 0xf8; 0xba; 0xbc; 0x4c];
  [
  0xe3; 0xbb; 0x3b; 0x99; 0xf3; 0x87; 0x94; 0x7b; 0x75; 0xda; 0xf4; 0xd6; 0x72; 0x6b; 0x1c; 0x5d; 0x64; 0xae; 0xac;
  0x28; 0xdc; 0x34; 0xb3; 0x6d; 0x6c; 0x34; 0xa5; 0x50; 0xb8; 0x28; 0xdb; 0x71];
  [
  0xf8; 0x61; 0xe2; 0xf2; 0x10; 0x8d; 0x51; 0x2a; 0xe3; 0xdb; 0x64; 0x33; 0x59; 0xdd; 0x75; 0xfc; 0x1c; 0xac; 0xbc;
  0xf1; 0x43; 0xce; 0x3f; 0xa2; 0x67; 0xbb; 0xd1; 0x3c; 0x2; 0xe8; 0x43; 0xb0];
  [
  0x33; 0xa; 0x5b; 0xca; 0x88; 0x29; 0xa1; 0x75; 0x7f; 0x34; 0x19; 0x4d; 0xb4; 0x16; 0x53; 0x5c; 0x92; 0x3b; 0x94;
  0xc3; 0xe; 0x79; 0x4d; 0x1e; 0x79; 0x74; 0x75; 0xd7; 0xb6; 0xee; 0xaf; 0x3f];
  [
  0xea; 0xa8; 0xd4; 0xf7; 0xbe; 0x1a; 0x39; 0x21; 0x5c; 0xf4; 0x7e; 0x9; 0x4c; 0x23; 0x27; 0x51; 0x26; 0xa3; 0x24;
  0x53; 0xba; 0x32; 0x3c; 0xd2; 0x44; 0xa3; 0x17; 0x4a; 0x6d; 0xa6; 0xd5; 0xad];
  [
  0xb5; 0x1d; 0x3e; 0xa6; 0xaf; 0xf2; 0xc9; 0x8; 0x83; 0x59; 0x3d; 0x98; 0x91; 0x6b; 0x3c; 0x56; 0x4c; 0xf8; 0x7c;
  0xa1; 0x72; 0x86; 0x60; 0x4d; 0x46; 0xe2; 0x3e; 0xcc; 0x8; 0x6e; 0xc7; 0xf6];
  [
  0x2f; 0x98; 0x33; 0xb3; 0xb1; 0xbc; 0x76; 0x5e; 0x2b; 0xd6; 0x66; 0xa5; 0xef; 0xc4; 0xe6; 0x2a; 0x6; 0xf4; 0xb6;
  0xe8; 0xbe; 0xc1; 0xd4; 0x36; 0x74; 0xee; 0x82; 0x15; 0xbc; 0xef; 0x21; 0x63];
  [
  0xfd; 0xc1; 0x4e; 0xd; 0xf4; 0x53; 0xc9; 0x69; 0xa7; 0x7d; 0x5a; 0xc4; 0x6; 0x58; 0x58; 0x26; 0x7e; 0xc1; 0x14;
  0x16; 0x6; 0xe0; 0xfa; 0x16; 0x7e; 0x90; 0xaf; 0x3d; 0x28; 0x63; 0x9d; 0x3f];
  [
  0xd2; 0xc9; 0xf2; 0xe3; 0x0; 0x9b; 0xd2; 0xc; 0x5f; 0xaa; 0xce; 0x30; 0xb7; 0xd4; 0xc; 0x30; 0x74; 0x2a; 0x51;
  0x16; 0xf2; 0xe0; 0x32; 0x98; 0xd; 0xeb; 0x30; 0xd8; 0xe3; 0xce; 0xf8; 0x9a];
  [
  0x4b; 0xc5; 0x9e; 0x7b; 0xb5; 0xf1; 0x79; 0x92; 0xff; 0x51; 0xe6; 0x6e; 0x4; 0x86; 0x68; 0xd3; 0x9b; 0x23; 0x4d;
  0x57; 0xe6; 0x96; 0x67; 0x31; 0xcc; 0xe6; 0xa6; 0xf3; 0x17; 0xa; 0x75; 0x5];
  [
  0xb1; 0x76; 0x81; 0xd9; 0x13; 0x32; 0x6c; 0xce; 0x3c; 0x17; 0x52; 0x84; 0xf8; 0x5; 0xa2; 0x62; 0xf4; 0x2b; 0xcb;
  0xb3; 0x78; 0x47; 0x15; 0x47; 0xff; 0x46; 0x54; 0x82; 0x23; 0x93; 0x6a; 0x48];
  [
  0x38; 0xdf; 0x58; 0x7; 0x4e; 0x5e; 0x65; 0x65; 0xf2; 0xfc; 0x7c; 0x89; 0xfc; 0x86; 0x50; 0x8e; 0x31; 0x70; 0x2e;
  0x44; 0xd0; 0xb; 0xca; 0x86; 0xf0; 0x40; 0x9; 0xa2; 0x30; 0x78; 0x47; 0x4e];
  [
  0x65; 0xa0; 0xee; 0x39; 0xd1; 0xf7; 0x38; 0x83; 0xf7; 0x5e; 0xe9; 0x37; 0xe4; 0x2c; 0x3a; 0xbd; 0x21; 0x97; 0xb2;
  0x26; 0x1; 0x13; 0xf8; 0x6f; 0xa3; 0x44; 0xed; 0xd1; 0xef; 0x9f; 0xde; 0xe7];
  [
  0x8b; 0xa0; 0xdf; 0x15; 0x76; 0x25; 0x92; 0xd9; 0x3c; 0x85; 0xf7; 0xf6; 0x12; 0xdc; 0x42; 0xbe; 0xd8; 0xa7; 0xec;
  0x7c; 0xab; 0x27; 0xb0; 0x7e; 0x53; 0x8d; 0x7d; 0xda; 0xaa; 0x3e; 0xa8; 0xde];
  [
  0xaa; 0x25; 0xce; 0x93; 0xbd; 0x2; 0x69; 0xd8; 0x5a; 0xf6; 0x43; 0xfd; 0x1a; 0x73; 0x8; 0xf9; 0xc0; 0x5f; 0xef;
  0xda; 0x17; 0x4a; 0x19; 0xa5; 0x97; 0x4d; 0x66; 0x33; 0x4c; 0xfd; 0x21; 0x6a];
  [
  0x35; 0xb4; 0x98; 0x31; 0xdb; 0x41; 0x15; 0x70; 0xea; 0x1e; 0xf; 0xbb; 0xed; 0xcd; 0x54; 0x9b; 0x9a; 0xd0; 0x63;
  0xa1; 0x51; 0x97; 0x40; 0x72; 0xf6; 0x75; 0x9d; 0xbf; 0x91; 0x47; 0x6f; 0xe2]].

(** * JH (src/Native/libcryptonote/crypto/jh.c, hash-extra-jh.c) *)

Inductive HashReturn : Type := SUCCESS | FAIL | BAD_HASHLEN.

Record hashState := HashState {
  hashbitlen : Z; databitlen : Z; datasize_in_buffer : Z; x : list Z; buffer : list Z
}.
Definition set_x (v : list Z) (s : hashState) : hashState :=
  HashState (hashbitlen s) (databitlen s) (datasize_in_buffer s) v (buffer s).
Definition set_buffer (v : list Z) (s : hashState) : hashState :=
  HashState (hashbitlen s) (databitlen s) (datasize_in_buffer s) (x s) v.
Definition set_datasize (v : Z) (s : hashState) : hashState :=
  HashState (hashbitlen s) (databitlen s) v (x s) (buffer s).
Definition set_databitlen (v : Z) (s : hashState) : hashState :=
  HashState (hashbitlen s) v (datasize_in_buffer s) (x s) (buffer s).

(** ** Words *)

Definition SWAP1 (x : Z) : Z := Z.lor (u64 (Z.shiftl (Z.land x 0x5555555555555555) 1)) (Z.shiftr (Z.land x 0xaaaaaaaaaaaaaaaa) 1).
Definition SWAP2 (x : Z) : Z := Z.lor (u64 (Z.shiftl (Z.land x 0x3333333333333333) 2)) (Z.shiftr (Z.land x 0xcccccccccccccccc) 2).
Definition SWAP4 (x : Z) : Z := Z.lor (u64 (Z.shiftl (Z.land x 0x0f0f0f0f0f0f0f0f) 4)) (Z.shiftr (Z.land x 0xf0f0f0f0f0f0f0f0) 4).
Definition SWAP8 (x : Z) : Z := Z.lor (u64 (Z.shiftl (Z.land x 0x00ff00ff00ff00ff) 8)) (Z.shiftr (Z.land x 0xff00ff00ff00ff00) 8).
Definition SWAP16 (x : Z) : Z := Z.lor (u64 (Z.shiftl (Z.land x 0x0000ffff0000ffff) 16)) (Z.shiftr (Z.land x 0xffff0000ffff0000) 16).
Definition SWAP32 (x : Z) : Z := Z.lor (u64 (Z.shiftl x 32)) (Z.shiftr x 32).

Definition bit_not (x : Z) : Z := u64 (Z.lnot x).

(** The eight words afterwards. *)
Definition L (m0 m1 m2 m3 m4 m5 m6 m7 : Z) : list Z :=
  let m4 := Z.lxor m4 m1 in
  let m5 := Z.lxor m5 m2 in
  let m6 := Z.lxor m6 (Z.lxor m0 m3) in
  let m7 := Z.lxor m7 m0 in
  let m0 := Z.lxor m0 m5 in
  let m1 := Z.lxor m1 m6 in
  let m2 := Z.lxor m2 (Z.lxor m4 m7) in
  let m3 := Z.lxor m3 m4 in
  [m0; m1; m2; m3; m4; m5; m6; m7].

Definition SS (m0 m1 m2 m3 m4 m5 m6 m7 cc0 cc1 : Z) : list Z :=
  let m3 := bit_not m3 in
  let m7 := bit_not m7 in
  let m0 := Z.lxor m0 (Z.land (bit_not m2) cc0) in
  let m4 := Z.lxor m4 (Z.land (bit_not m6) cc1) in
  let temp0 := Z.lxor cc0 (Z.land m0 m1) in
  let temp1 := Z.lxor cc1 (Z.land m4 m5) in
  let m0 := Z.lxor m0 (Z.land m2 m3) in
  let m4 := Z.lxor m4 (Z.land m6 m7) in
  let m3 := Z.lxor m3 (Z.land (bit_not m1) m2) in
  let m7 := Z.lxor m7 (Z.land (bit_not m5) m6) in
  let m1 := Z.lxor m1 (Z.land m0 m2) in
  let m5 := Z.lxor m5 (Z.land m4 m6) in
  let m2 := Z.lxor m2 (Z.land m0 (bit_not m3)) in
  let m6 := Z.lxor m6 (Z.land m4 (bit_not m7)) in
  let m0 := Z.lxor m0 (Z.lor m1 m3) in
  let m4 := Z.lxor m4 (Z.lor m5 m7) in
  let m3 := Z.lxor m3 (Z.land m1 m2) in
  let m7 := Z.lxor m7 (Z.land m5 m6) in
  let m1 := Z.lxor m1 (Z.land temp0 m0) in
  let m5 := Z.lxor m5 (Z.land temp1 m4) in
  let m2 := Z.lxor m2 temp0 in
  let m6 := Z.lxor m6 temp1 in
  [m0; m1; m2; m3; m4; m5; m6; m7].

(** Word [j] of the constant of round [r]. *)
Definition constant_word (r j : nat) : Z := le_val (take 8 (drop (8 * j) (E8_bitslice_roundconstant !!! r))).

(** ** The permutation *)

(** [SS] and [L] on the rows 0, 2, 4, 6 and 1, 3, 5, 7, the words [i]. *)
Definition rows : list nat := [0; 2; 4; 6; 1; 3; 5; 7]%nat.
Definition at_row (x : list Z) (row i : nat) : Z := x !!! (2 * row + i)%nat.
Definition store_rows (x : list Z) (i : nat) (vs : list Z) : list Z :=
  foldl (fun x '(row, v) => <[(2 * row + i)%nat := v]> x) x (zip rows vs).
Definition sbox_mds (r : nat) (x : list Z) (i : nat) : list Z :=
  let x := store_rows x i (SS (at_row x 0 i) (at_row x 2 i) (at_row x 4 i) (at_row x 6 i) (at_row x 1 i) (at_row x 3 i) (at_row x 5 i) (at_row x 7 i)
    (constant_word r i) (constant_word r (i + 2))) in
  store_rows x i (L (at_row x 0 i) (at_row x 2 i) (at_row x 4 i) (at_row x 6 i) (at_row x 1 i) (at_row x 3 i) (at_row x 5 i) (at_row x 7 i)).
Definition swap_odd (SWAP : Z -> Z) (x : list Z) (i : nat) : list Z :=
  foldl (fun x row => <[(2 * row + i)%nat := SWAP (at_row x row i)]> x) x [1; 3; 5; 7]%nat.
Definition bit_round (SWAP : Z -> Z) (x : list Z) (r : nat) : list Z :=
  foldl (fun x i => swap_odd SWAP (sbox_mds r x i) i) x [0; 1]%nat.
(** The last of seven: the swapping layer exchanges the words of a row. *)
Definition swap_words (x : list Z) : list Z :=
  foldl (fun x i => let temp0 := at_row x i 0 in let x := <[(2 * i)%nat := at_row x i 1]> x in <[(2 * i + 1)%nat := temp0]> x) x [1; 3; 5; 7]%nat.
Definition seven_rounds (x : list Z) (roundnumber : nat) : list Z :=
  let x := bit_round SWAP1 x (roundnumber + 0) in
  let x := bit_round SWAP2 x (roundnumber + 1) in
  let x := bit_round SWAP4 x (roundnumber + 2) in
  let x := bit_round SWAP8 x (roundnumber + 3) in
  let x := bit_round SWAP16 x (roundnumber + 4) in
  let x := bit_round SWAP32 x (roundnumber + 5) in
  swap_words (foldl (sbox_mds (roundnumber + 6)) x [0; 1]%nat).
Definition E8 (x : list Z) : list Z := foldl seven_rounds x [0; 7; 14; 21; 28; 35]%nat.

(** Word [i] of the buffer. *)
Definition buffer_word (buffer : list Z) (i : nat) : Z := le_val (take 8 (drop (8 * i) buffer)).
Definition F8 (state : hashState) : hashState :=
  let v := foldl (fun v i => <[i := Z.lxor (v !!! i) (buffer_word (buffer state) i)]> v) (x state) (seq 0 8) in
  let v := E8 v in
  let v := foldl (fun v i => <[(8 + i)%nat := Z.lxor (v !!! (8 + i)%nat) (buffer_word (buffer state) i)]> v) v (seq 0 8) in
  set_x v state.

(** ** The interface *)

Definition memcpy (dst : list Z) (off : Z) (src : list Z) (idx n : Z) : option (list Z) :=
  if (idx + n <=? Z.of_nat (length src)) && (off + n <=? Z.of_nat (length dst))
  then Some (write_at (Z.to_nat off) (take (Z.to_nat n) (drop (Z.to_nat idx) src)) dst) else None.

Definition words_of (bytes : list Z) : list Z := map (fun i => le_val (take 8 (drop (8 * i) bytes))) (seq 0 16).
Definition bytes_of (x : list Z) : list Z := concat (map (le_bytes 8) x).

(** [state] before: not initialised. *)
Definition Init (state : hashState) (hashbitlen : Z) : hashState :=
  let state := set_datasize 0 (set_databitlen 0 state) in
  let x := if hashbitlen =? 224 then words_of JH224_H0 else if hashbitlen =? 256 then words_of JH256_H0
    else if hashbitlen =? 384 then words_of JH384_H0 else if hashbitlen =? 512 then words_of JH512_H0 else x state in
  HashState hashbitlen (databitlen state) (datasize_in_buffer state) x (buffer state).

(** [for ( ; databitlen >= 512; ...)]: [n] iterations; the state, [index] and
    [databitlen] at the end. *)
Fixpoint update_loop (n : nat) (state : hashState) (data : list Z) (index databitlen : Z) : option (hashState * Z * Z) :=
  match n with
  | O => Some (state, index, databitlen)
  | S n =>
      buffer ← memcpy (buffer state) 0 data index 64;
      update_loop n (F8 (set_buffer buffer state)) data (u64 (index + 64)) (u64 (databitlen - 512))
  end.

Definition Update (state : hashState) (data : list Z) (databitlen0 : Z) : option hashState :=
  let state := set_databitlen (u64 (databitlen state + databitlen0)) state in
  let index := 0 in
  '(state, databitlen1) ←
    (if (0 <? datasize_in_buffer state) && (u64 (datasize_in_buffer state + databitlen0) <? 512) then
       let off := Z.shiftr (datasize_in_buffer state) 3 in
       buffer ← memcpy (buffer state) off data 0 (if Z.land databitlen0 7 =? 0 then u64 (64 - off) else u64 (64 - off + 1));
       Some (set_datasize (u64 (datasize_in_buffer state + databitlen0)) (set_buffer buffer state), 0)
     else Some (state, databitlen0));
  '(state, index, databitlen2) ←
    (if (0 <? datasize_in_buffer state) && (512 <=? u64 (datasize_in_buffer state + databitlen1)) then
       let off := Z.shiftr (datasize_in_buffer state) 3 in
       buffer ← memcpy (buffer state) off data 0 (u64 (64 - off));
       let databitlen1 := u64 (databitlen1 - u64 (512 - datasize_in_buffer state)) in
       Some (set_datasize 0 (F8 (set_buffer buffer state)), u64 (64 - off), databitlen1)
     else Some (state, index, databitlen1));
  '(state, index, databitlen3) ← update_loop (Z.to_nat (databitlen2 / 512)) state data index databitlen2;
  if 0 <? databitlen3 then
    let n := Z.shiftr (Z.land databitlen3 0x1ff) 3 in
    buffer ← memcpy (buffer state) 0 data index (if Z.land databitlen3 7 =? 0 then n else n + 1);
    Some (set_datasize databitlen3 (set_buffer buffer state))
  else Some state.

(** The length in the last eight bytes, its lowest byte last. *)
Definition store_length (n : Z) (buffer : list Z) : list Z :=
  foldl (fun buffer i => <[(63 - i)%nat := Z.land (Z.shiftr n (8 * Z.of_nat i)) 0xff]> buffer) buffer (seq 0 8).
Definition zero_from (i : nat) (buffer : list Z) : list Z := foldl (fun buffer i => <[i := 0]> buffer) buffer (seq i (64 - i)).

(** The padded block or blocks. *)
Definition pad_blocks (state : hashState) : hashState :=
  if Z.land (databitlen state) 0x1ff =? 0 then
    let buffer := replicate 64 0 in
    let buffer := <[0%nat := 0x80]> buffer in
    F8 (set_buffer (store_length (databitlen state) buffer) state)
  else
    let n := Z.to_nat (Z.shiftr (Z.land (databitlen state) 0x1ff) 3) in
    let buffer := if Z.land (datasize_in_buffer state) 7 =? 0 then zero_from n (buffer state) else zero_from (n + 1) (buffer state) in
    let buffer := <[n := Z.lor (buffer !!! n) (Z.shiftl 1 (7 - Z.land (databitlen state) 7))]> buffer in
    let state := F8 (set_buffer buffer state) in
    let buffer := replicate 64 0 in
    F8 (set_buffer (store_length (databitlen state) buffer) state).
(** The digest; for another size [hashval] is not written. *)
Definition truncate (state : hashState) : option (list Z) :=
  let digest skip n := Some (take n (drop (64 + skip) (bytes_of (x state)))) in
  if hashbitlen state =? 224 then digest 36%nat 28%nat else if hashbitlen state =? 256 then digest 32%nat 32%nat
  else if hashbitlen state =? 384 then digest 16%nat 48%nat else if hashbitlen state =? 512 then digest 0%nat 64%nat else None.
Definition Final (state : hashState) : option (list Z) := truncate (pad_blocks state).

(** The result, and [hashval] if it was written. *)
Definition jh_hash (state0 : hashState) (hashbitlen : Z) (data : list Z) (databitlen : Z) : option (HashReturn * option (list Z)) :=
  if (hashbitlen =? 224) || (hashbitlen =? 256) || (hashbitlen =? 384) || (hashbitlen =? 512) then
    let state := Init state0 hashbitlen in
    state ← Update state data databitlen;
    Some (SUCCESS, Final state)
  else Some (BAD_HASHLEN, None).

(** hash-extra-jh.c, with its assertion *)
Definition hash_extra_jh (state0 : hashState) (data : list Z) (length : Z) : option (option (list Z)) :=
  '(r, hash) ← jh_hash state0 (32 * 8) data (u64 (8 * length));
  match r with SUCCESS => Some hash | _ => None end.

(** The digest of the empty message. *)
Example jh_hash_empty : hash_extra_jh (HashState 0 0 0 [] (replicate 64 7)) [] 0 =
  Some (Some (rev (le_bytes 32 0x46e64619c18bb0a92a5e87185a47eef83ca747b8fcc8e1412921357e326df434))).
Proof. vm_compute. reflexivity. Qed.
