(* ===== verification/JhSpec.v ===== *)
(** * JH: the reference

    The rounds on four-bit elements: S-boxes chosen by the bits of the round
    constant, the code over GF(16) on pairs, the permutation of the elements. The
    round constants come from the square root of 2 by the rounds on 64 elements.
    Then the compression function, the initial values, the padding, the hash. *)

From Stdlib Require Import ZArith Lia.
From stdpp Require Import base tactics list numbers.
From S2P Require Import Prelude Radix Words AesSpec AesProofs BitString.
Open Scope Z_scope.

Definition S0 : list Z := [9; 0; 4; 11; 13; 12; 3; 15; 1; 10; 2; 6; 7; 5; 8; 14].
Definition S1 : list Z := [3; 12; 6; 13; 5; 7; 1; 9; 15; 2; 0; 4; 11; 10; 14; 8].
Definition s_layer (C : list bool) (a : list Z) : list Z :=
  zip_with (fun (c : bool) v => (if c then S1 else S0) !!! Z.to_nat v) C a.

(** Times x in GF(16), with x^4 = x + 1. *)
Definition double16 (a : Z) : Z := Z.lxor ((2 * a) mod 16) (if 8 <=? a then 3 else 0).
Definition mix_pair (a b : Z) : Z * Z := let d := Z.lxor b (double16 a) in (Z.lxor a (double16 d), d).
Definition l_layer (a : list Z) : list Z :=
  concat (map (fun k => let '(c, d) := mix_pair (a !!! (2 * k)%nat) (a !!! (2 * k + 1)%nat) in [c; d]) (seq 0 (length a / 2))).

(** The permutations: element [i] afterwards is element [f i] before. *)
Definition permute (f : nat -> nat) (a : list Z) : list Z := map (fun i => a !!! f i) (seq 0 (length a)).
Definition flip1 (i : nat) : nat := if Nat.even i then S i else pred i.
Definition pi_at (i : nat) : nat := if (2 <=? i mod 4)%nat then flip1 i else i.
Definition p'_at (n i : nat) : nat := if (i <? n / 2)%nat then (2 * i)%nat else (2 * (i - n / 2) + 1)%nat.
Definition phi_at (n i : nat) : nat := if (i <? n / 2)%nat then i else flip1 i.
Definition p_layer (a : list Z) : list Z := permute (phi_at (length a)) (permute (p'_at (length a)) (permute pi_at a)).

Definition round (a : list Z) (C : list bool) : list Z := p_layer (l_layer (s_layer C a)).

(** The first constant is the fraction of the square root of 2. *)
Definition nibble_of (v : Z) (i : nat) : Z := (v / 16 ^ Z.of_nat i) mod 16.
Definition C_0 : list Z := map (fun i => nibble_of (Z.sqrt (2 * 2 ^ 512)) (63 - i)) (seq 0 64).
Definition nibble_bits (v : Z) : list bool := [Z.testbit v 3; Z.testbit v 2; Z.testbit v 1; Z.testbit v 0].
Fixpoint constants_from (n : nat) (c : list Z) : list (list bool) :=
  match n with O => [] | S n => concat (map nibble_bits c) :: constants_from n (round c (replicate 64 false)) end.
Definition constants : list (list bool) := constants_from 42 C_0.

(** 1024 bits as 256 elements. *)
Definition group (A : list bool) : list Z :=
  map (fun j => let i := ((j / 2) + 128 * (j mod 2))%nat in
    bits_byte [A !!! i; A !!! (i + 256)%nat; A !!! (i + 512)%nat; A !!! (i + 768)%nat]) (seq 0 256).
Definition degroup (q : list Z) : list bool :=
  map (fun i => Z.testbit (q !!! (2 * (i mod 128) + (i / 128) mod 2)%nat) (3 - Z.of_nat (i / 256))) (seq 0 1024).

(** On the 128 bytes of a state. *)
Definition bijective_E8 (h : list Z) : list Z := pack (degroup (foldl round (group (bits_of h)) constants)).
Definition compress_F8 (h m : list Z) : list Z :=
  xor_bytes (replicate 64 0 ++ m) (bijective_E8 (xor_bytes h (m ++ replicate 64 0))).

(** The hash size in the first two bytes, compressed with the block of zeros. *)
Definition jh_iv (hashbitlen : Z) : list Z :=
  compress_F8 (rev (le_bytes 2 hashbitlen) ++ replicate 126 0) (replicate 64 0).

(** The bit 1, zeros, and the length in 128 bits: at least 512 bits. *)
Definition jh_pad (bits : list bool) : list bool :=
  let l := length bits in
  bits ++ true :: replicate (383 + (512 - l mod 512) mod 512) false ++ bits_of (rev (le_bytes 16 (Z.of_nat l))).

(** The last bits of the state. *)
Definition JH (hashbitlen : Z) (bits : list bool) : list Z :=
  let m := pack (jh_pad bits) in
  drop (Z.to_nat (128 - hashbitlen / 8)) (foldl compress_F8 (jh_iv hashbitlen) (blocks 64 (length m / 64) m)).

(** The digest of the empty message. *)
Example jh256_empty : JH 256 [] = rev (le_bytes 32 0x46e64619c18bb0a92a5e87185a47eef83ca747b8fcc8e1412921357e326df434).
Proof. vm_compute. reflexivity. Qed.
