(* ===== verification/JhProofs.v ===== *)
(** * JH: the bit-sliced rounds are those of the reference

    One bit position of the eight rows of words holds two elements of the state.
    The swaps stand for the permutation of the elements: after [r] rounds the
    element at a position is another one of the reference, after seven rounds the
    same one again. *)

From Stdlib Require Import ZArith Lia.
From stdpp Require Import base tactics list numbers.
From S2P Require Import Prelude Radix Words AesSpec AesProofs BitString Jh JhSpec.
Open Scope Z_scope.

(** ** One bit of the words *)

Definition nib4 (b0 b1 b2 b3 : bool) : Z := bits_byte [b0; b1; b2; b3].
Definition s_of (c : bool) (v : Z) : Z := (if c then S1 else S0) !!! Z.to_nat v.

Lemma bit_not_spec v b : 0 <= b < 64 -> Z.testbit (bit_not v) b = negb (Z.testbit v b).
Proof. intros H. unfold bit_not, u64. by rewrite Z.mod_pow2_bits_low, Z.lnot_spec by lia. Qed.

Lemma s_box_bits c b0 b1 b2 b3 :
  let m3 := negb b3 in let m0 := xorb b0 (negb b2 && c) in let t := xorb c (m0 && b1) in
  let m0 := xorb m0 (b2 && m3) in let m3 := xorb m3 (negb b1 && b2) in let m1 := xorb b1 (m0 && b2) in
  let m2 := xorb b2 (m0 && negb m3) in let m0 := xorb m0 (m1 || m3) in let m3 := xorb m3 (m1 && m2) in
  let m1 := xorb m1 (t && m0) in let m2 := xorb m2 t in
  nib4 m0 m1 m2 m3 = s_of c (nib4 b0 b1 b2 b3).
Proof. by destruct c, b0, b1, b2, b3. Qed.

Lemma SS_spec m0 m1 m2 m3 m4 m5 m6 m7 c0 c1 b : 0 <= b < 64 ->
  let t k := Z.testbit (SS m0 m1 m2 m3 m4 m5 m6 m7 c0 c1 !!! k) b in
  nib4 (t 0%nat) (t 1%nat) (t 2%nat) (t 3%nat) =
    s_of (Z.testbit c0 b) (nib4 (Z.testbit m0 b) (Z.testbit m1 b) (Z.testbit m2 b) (Z.testbit m3 b)) /\
  nib4 (t 4%nat) (t 5%nat) (t 6%nat) (t 7%nat) =
    s_of (Z.testbit c1 b) (nib4 (Z.testbit m4 b) (Z.testbit m5 b) (Z.testbit m6 b) (Z.testbit m7 b)).
Proof.
  intros Hb t. unfold t, SS. cbv zeta. cbn [lookup_total list_lookup_total].
  repeat (rewrite ?Z.lxor_spec, ?Z.land_spec, ?Z.lor_spec, ?bit_not_spec by exact Hb).
  split; [exact (s_box_bits (Z.testbit c0 b) _ _ _ _) | exact (s_box_bits (Z.testbit c1 b) _ _ _ _)].
Qed.

Lemma L_spec m0 m1 m2 m3 m4 m5 m6 m7 b :
  let t k := Z.testbit (L m0 m1 m2 m3 m4 m5 m6 m7 !!! k) b in
  (nib4 (t 0%nat) (t 1%nat) (t 2%nat) (t 3%nat), nib4 (t 4%nat) (t 5%nat) (t 6%nat) (t 7%nat)) =
  mix_pair (nib4 (Z.testbit m0 b) (Z.testbit m1 b) (Z.testbit m2 b) (Z.testbit m3 b))
    (nib4 (Z.testbit m4 b) (Z.testbit m5 b) (Z.testbit m6 b) (Z.testbit m7 b)).
Proof.
  intros t. unfold t, L. cbv zeta. cbn [lookup_total list_lookup_total].
  rewrite !Z.lxor_spec. destruct (Z.testbit m0 b), (Z.testbit m1 b), (Z.testbit m2 b), (Z.testbit m3 b),
    (Z.testbit m4 b), (Z.testbit m5 b), (Z.testbit m6 b), (Z.testbit m7 b); reflexivity.
Qed.

(** The six swaps exchange bits. *)
Definition swaps (SWAP : Z -> Z) (k : Z) : Prop := forall v b, 0 <= v < 2 ^ 64 -> 0 <= b < 64 -> Z.testbit (SWAP v) b = Z.testbit v (Z.lxor b k).
Ltac swap_bits :=
  intros v b Hv Hb; revert b Hb; apply (z_enum 64); let l := eval vm_compute in (map Z.of_nat (seq 0 64)) in change (map Z.of_nat (seq 0 64)) with l;
  repeat (apply Forall_cons_2; [cbv beta;
    match goal with |- _ = Z.testbit v ?k => let j := eval vm_compute in k in change k with j end;
    unfold u64; repeat bit_step; rewrite ?andb_false_r, ?andb_true_r, ?orb_false_r, ?orb_false_l; reflexivity|]);
  apply Forall_nil_2.
Lemma SWAP1_spec : swaps SWAP1 1. Proof. unfold SWAP1. swap_bits. Qed.
Lemma SWAP2_spec : swaps SWAP2 2. Proof. unfold SWAP2. swap_bits. Qed.
Lemma SWAP4_spec : swaps SWAP4 4. Proof. unfold SWAP4. swap_bits. Qed.
Lemma SWAP8_spec : swaps SWAP8 8. Proof. unfold SWAP8. swap_bits. Qed.
Lemma SWAP16_spec : swaps SWAP16 16. Proof. unfold SWAP16. swap_bits. Qed.
Lemma jh_SWAP32_spec : swaps SWAP32 32.
Proof.
  intros v b Hv Hb. unfold SWAP32, u64. change (Z.shiftr v 32) with (Z.shiftr v (64 - 32)).
  rewrite (rot_testbit 64 v 32 b) by lia. f_equal. revert b Hb.
  apply (z_enum 64). vm_compute. repeat constructor.
Qed.

(** ** The rows of words *)

Definition is_word (v : Z) : Prop := 0 <= v < 2 ^ 64.
Definition state_ok (x : list Z) : Prop := length x = 16%nat /\ Forall is_word x.
(** The element in the rows of parity [par], the words [i], the bit [b]. *)
Definition element (x : list Z) (par i : nat) (b : Z) : Z :=
  nib4 (Z.testbit (at_row x par i) b) (Z.testbit (at_row x (2 + par) i) b) (Z.testbit (at_row x (4 + par) i) b) (Z.testbit (at_row x (6 + par) i) b).

Ltac explicit x H := do 16 (destruct x as [|? x]; [discriminate H|]); destruct x; [clear H | discriminate H].

Lemma store_rows_spec x i v0 v1 v2 v3 v4 v5 v6 v7 : length x = 16%nat -> (i < 2)%nat ->
  let y := store_rows x i [v0; v1; v2; v3; v4; v5; v6; v7] in
  (at_row y 0 i = v0 /\ at_row y 2 i = v1 /\ at_row y 4 i = v2 /\ at_row y 6 i = v3) /\
  (at_row y 1 i = v4 /\ at_row y 3 i = v5 /\ at_row y 5 i = v6 /\ at_row y 7 i = v7) /\
  (forall row, (row < 8)%nat -> at_row y row (1 - i) = at_row x row (1 - i)) /\ length y = 16%nat.
Proof.
  intros Hx Hi. explicit x Hx. destruct i as [|[|i]]; [| |lia]; (split_and!; try exact eq_refl);
    intros row Hr; do 8 (destruct row as [|row]; [exact eq_refl|]); lia.
Qed.

Lemma list8 (l : list Z) : length l = 8%nat -> l = [l !!! 0%nat; l !!! 1%nat; l !!! 2%nat; l !!! 3%nat; l !!! 4%nat; l !!! 5%nat; l !!! 6%nat; l !!! 7%nat].
Proof. intros H. do 8 (destruct l as [|? l]; [discriminate H|]). destruct l; [reflexivity | discriminate H]. Qed.

Lemma at_row_word x row i : state_ok x -> (row < 8)%nat -> (i < 2)%nat -> is_word (at_row x row i).
Proof. intros [L F] Hr Hi. unfold at_row. apply (Forall_lookup_total_1 _ _ _ F). lia. Qed.

Lemma Forall_store x i vs : Forall is_word x -> Forall is_word vs -> Forall is_word (store_rows x i vs).
Proof.
  intros Hx. unfold store_rows. generalize rows. intros l. revert x Hx l.
  induction vs as [|v vs IH]; intros x Hx [|row l] Hv; try exact Hx. apply Forall_cons_1 in Hv as [H1 H2]. cbn [zip zip_with foldl].
  apply IH; [by apply Forall_insert | exact H2].
Qed.

Lemma bit_not_word v : is_word (bit_not v).
Proof. apply u64_range. Qed.
Ltac words := repeat first [ apply Forall_cons_2 | apply Forall_nil_2 | assumption | apply bit_not_word
  | apply (lxor_range 64); [lia| |] | apply (land_range 64); [lia| |] | apply (lor_range 64); [lia| |] ].
Lemma SS_words m0 m1 m2 m3 m4 m5 m6 m7 c0 c1 : is_word m0 -> is_word m1 -> is_word m2 -> is_word m3 -> is_word m4 -> is_word m5 ->
  is_word m6 -> is_word m7 -> is_word c0 -> is_word c1 -> Forall is_word (SS m0 m1 m2 m3 m4 m5 m6 m7 c0 c1).
Proof. intros. unfold SS. words. Qed.
Lemma L_words m0 m1 m2 m3 m4 m5 m6 m7 : is_word m0 -> is_word m1 -> is_word m2 -> is_word m3 -> is_word m4 -> is_word m5 ->
  is_word m6 -> is_word m7 -> Forall is_word (L m0 m1 m2 m3 m4 m5 m6 m7).
Proof. intros. unfold L. words. Qed.

Lemma constant_word_ok r j : (r < 42)%nat -> (j < 4)%nat -> is_word (constant_word r j).
Proof.
  intros Hr Hj. assert (P : forallb (fun r => forallb (fun j => (0 <=? constant_word r j) && (constant_word r j <? 2 ^ 64)) (seq 0 4)) (seq 0 42) = true) by (vm_compute; reflexivity).
  rewrite forallb_forall in P. specialize (P r ltac:(apply in_seq; lia)). rewrite forallb_forall in P. specialize (P j ltac:(apply in_seq; lia)).
  apply andb_true_iff in P as [P1 P2]. unfold is_word. lia.
Qed.

(** Both boxes and the code at one position. *)
Definition mixed (r : nat) (x : list Z) (i : nat) (b : Z) : Z * Z :=
  mix_pair (s_of (Z.testbit (constant_word r i) b) (element x 0 i b)) (s_of (Z.testbit (constant_word r (i + 2)) b) (element x 1 i b)).

#[local] Opaque SS L constant_word.

Lemma sbox_mds_spec r x i : state_ok x -> (r < 42)%nat -> (i < 2)%nat ->
  state_ok (sbox_mds r x i) /\
  (forall b, 0 <= b < 64 -> (element (sbox_mds r x i) 0 i b, element (sbox_mds r x i) 1 i b) = mixed r x i b) /\
  (forall row, (row < 8)%nat -> at_row (sbox_mds r x i) row (1 - i) = at_row x row (1 - i)).
Proof.
  intros Hx Hr Hi. unfold sbox_mds. cbv zeta.
  set (ss := SS _ _ _ _ _ _ _ _ _ _).
  assert (Fs : Forall is_word ss) by (apply SS_words; apply at_row_word || apply constant_word_ok; (assumption || lia)).
  assert (Ls : length ss = 8%nat) by exact eq_refl.
  pose proof (Forall_store x i ss (proj2 Hx) Fs) as F1.
  pose proof (store_rows_spec x i (ss !!! 0%nat) (ss !!! 1%nat) (ss !!! 2%nat) (ss !!! 3%nat) (ss !!! 4%nat) (ss !!! 5%nat) (ss !!! 6%nat) (ss !!! 7%nat) (proj1 Hx) Hi) as W1.
  rewrite <- (list8 ss Ls) in W1. set (y := store_rows x i ss) in *. cbv zeta in W1. destruct W1 as ((R0&R2&R4&R6)&(R1&R3&R5&R7)&RO&Ly).
  set (ll := L _ _ _ _ _ _ _ _).
  assert (Fl : Forall is_word ll) by (apply L_words; apply at_row_word; (by split) || lia).
  assert (Ll : length ll = 8%nat) by exact eq_refl.
  pose proof (Forall_store y i ll F1 Fl) as F2.
  pose proof (store_rows_spec y i (ll !!! 0%nat) (ll !!! 1%nat) (ll !!! 2%nat) (ll !!! 3%nat) (ll !!! 4%nat) (ll !!! 5%nat) (ll !!! 6%nat) (ll !!! 7%nat) Ly Hi) as W2.
  rewrite <- (list8 ll Ll) in W2. set (z := store_rows y i ll) in *. cbv zeta in W2. destruct W2 as ((Q0&Q2&Q4&Q6)&(Q1&Q3&Q5&Q7)&QO&Lz).
  split; [by split|]. split; [|intros row Hrow; by rewrite QO, RO].
  intros b Hb. unfold element. cbn [Nat.add]. rewrite Q0, Q1, Q2, Q3, Q4, Q5, Q6, Q7.
  unfold ll. rewrite R0, R1, R2, R3, R4, R5, R6, R7. rewrite L_spec. unfold mixed.
  destruct (SS_spec (at_row x 0 i) (at_row x 2 i) (at_row x 4 i) (at_row x 6 i) (at_row x 1 i) (at_row x 3 i) (at_row x 5 i) (at_row x 7 i)
    (constant_word r i) (constant_word r (i + 2)) b Hb) as [E1 E2]. unfold ss. by rewrite E1, E2.
Qed.

(** * JH: the bit-sliced permutation is E8

    Which element of the reference stands at which position after [e] rounds of
    seven, and the 42 rounds by simulation. *)

#[local] Opaque SS L constant_word.

(** ** The swapping layers *)

Definition keeps (SWAP : Z -> Z) : Prop := forall v, is_word v -> is_word (SWAP v).
Ltac swap_word := intros v Hv; unfold is_word in *; apply (lor_range 64); [lia | apply u64_range | apply shiftr_word; [lia | lia |]; try (apply (land_range 64)); lia].
Lemma SWAP1_word : keeps SWAP1. Proof. swap_word. Qed.
Lemma SWAP2_word : keeps SWAP2. Proof. swap_word. Qed.
Lemma SWAP4_word : keeps SWAP4. Proof. swap_word. Qed.
Lemma SWAP8_word : keeps SWAP8. Proof. swap_word. Qed.
Lemma SWAP16_word : keeps SWAP16. Proof. swap_word. Qed.
Lemma SWAP32_word : keeps SWAP32. Proof. swap_word. Qed.

Lemma swap_odd_rows SWAP x i : length x = 16%nat -> (i < 2)%nat ->
  let y := swap_odd SWAP x i in
  (at_row y 0 i = at_row x 0 i /\ at_row y 2 i = at_row x 2 i /\ at_row y 4 i = at_row x 4 i /\ at_row y 6 i = at_row x 6 i) /\
  (at_row y 1 i = SWAP (at_row x 1 i) /\ at_row y 3 i = SWAP (at_row x 3 i) /\ at_row y 5 i = SWAP (at_row x 5 i) /\ at_row y 7 i = SWAP (at_row x 7 i)) /\
  (forall row, (row < 8)%nat -> at_row y row (1 - i) = at_row x row (1 - i)) /\ length y = 16%nat.
Proof.
  intros Hx Hi. explicit x Hx. destruct i as [|[|i]]; [| |lia]; (split_and!; try exact eq_refl);
    intros row Hr; do 8 (destruct row as [|row]; [exact eq_refl|]); lia.
Qed.
Lemma swap_odd_ok SWAP x i : keeps SWAP -> state_ok x -> (i < 2)%nat -> state_ok (swap_odd SWAP x i).
Proof.
  intros K Hx Hi. destruct (swap_odd_rows SWAP x i (proj1 Hx) Hi) as (_&_&_&Ly). split; [exact Ly|].
  unfold swap_odd. assert (G : forall l x, Forall (fun row => (row < 8)%nat) l -> state_ok x ->
    Forall is_word (foldl (fun x row => <[(2 * row + i)%nat := SWAP (at_row x row i)]> x) x l)).
  { induction l as [|row l IH]; intros y Hl Hy; [exact (proj2 Hy)|]. apply Forall_cons_1 in Hl as [Hr Hl]. cbn [foldl]. apply IH; [exact Hl|].
    split; [rewrite length_insert; exact (proj1 Hy)|]. apply Forall_insert; [exact (proj2 Hy)|]. by apply K, at_row_word. }
  apply G; [repeat constructor; lia | exact Hx].
Qed.

(** The word and the bit that the odd element at [i], [b] comes from. *)
Definition pick (par : nat) (p : Z * Z) : Z := if (par =? 0)%nat then fst p else snd p.

Section Half.
Context (SWAP : Z -> Z) (k : Z) (Ks : keeps SWAP) (Sw : swaps SWAP k) (Hk : 0 <= k < 64).

(** One iteration over the words [i]. *)
Lemma half_round_spec r x i : state_ok x -> (r < 42)%nat -> (i < 2)%nat ->
  let y := swap_odd SWAP (sbox_mds r x i) i in
  state_ok y /\
  (forall b, 0 <= b < 64 -> element y 0 i b = fst (mixed r x i b) /\ element y 1 i b = snd (mixed r x i (Z.lxor b k))) /\
  (forall row, (row < 8)%nat -> at_row y row (1 - i) = at_row x row (1 - i)).
Proof using All.
  intros Hx Hr Hi y. destruct (sbox_mds_spec r x i Hx Hr Hi) as (Hz & E & O). set (z := sbox_mds r x i) in *.
  destruct (swap_odd_rows SWAP z i (proj1 Hz) Hi) as ((R0&R2&R4&R6)&(R1&R3&R5&R7)&RO&_). fold y in R0, R1, R2, R3, R4, R5, R6, R7, RO.
  split; [by apply swap_odd_ok|]. split; [|intros row Hrow; by rewrite RO, O].
  intros b Hb. assert (Hb' : 0 <= Z.lxor b k < 64) by (apply (lxor_range 6); lia).
  pose proof (f_equal fst (E b Hb)) as E0. pose proof (f_equal snd (E _ Hb')) as E1. cbn [fst snd] in E0, E1.
  rewrite <- E0, <- E1. unfold element. cbn [Nat.add]. rewrite R0, R1, R2, R3, R4, R5, R6, R7.
  rewrite !Sw by (exact Hb || (apply at_row_word; [exact Hz | lia | exact Hi])). done.
Qed.

Lemma mixed_other r x y i b : (forall row, (row < 8)%nat -> at_row y row i = at_row x row i) -> mixed r y i b = mixed r x i b.
Proof using. intros H. unfold mixed, element. cbn [Nat.add]. by rewrite !H by lia. Qed.
Lemma element_other x y par i b : (par < 2)%nat -> (forall row, (row < 8)%nat -> at_row y row i = at_row x row i) -> element y par i b = element x par i b.
Proof using. intros Hp H. unfold element. by rewrite !H by lia. Qed.

Lemma bit_round_spec r x : state_ok x -> (r < 42)%nat ->
  state_ok (bit_round SWAP x r) /\
  forall i b, (i < 2)%nat -> 0 <= b < 64 ->
    element (bit_round SWAP x r) 0 i b = fst (mixed r x i b) /\ element (bit_round SWAP x r) 1 i b = snd (mixed r x i (Z.lxor b k)).
Proof using All.
  intros Hx Hr. unfold bit_round. cbn [foldl].
  destruct (half_round_spec r x 0 Hx Hr ltac:(lia)) as (Hy & E0 & O0). set (y := swap_odd SWAP (sbox_mds r x 0) 0) in *.
  destruct (half_round_spec r y 1 Hy Hr ltac:(lia)) as (Hz & E1 & O1). set (z := swap_odd SWAP (sbox_mds r y 1) 1) in *.
  cbn [Nat.sub] in O0, O1. split; [exact Hz|]. intros i b Hi Hb. destruct i as [|[|i]]; [| |lia].
  - rewrite !(element_other y z) by (lia || exact O1). by apply E0.
  - destruct (E1 b Hb) as [-> ->]. rewrite !(mixed_other r x y) by exact O0. done.
Qed.
End Half.

(** The seventh round. *)
Lemma swap_words_rows x : length x = 16%nat ->
  let y := swap_words x in
  (forall i, (i < 2)%nat -> at_row y 0 i = at_row x 0 i /\ at_row y 2 i = at_row x 2 i /\ at_row y 4 i = at_row x 4 i /\ at_row y 6 i = at_row x 6 i /\
    at_row y 1 i = at_row x 1 (1 - i) /\ at_row y 3 i = at_row x 3 (1 - i) /\ at_row y 5 i = at_row x 5 (1 - i) /\ at_row y 7 i = at_row x 7 (1 - i)) /\
  (Forall is_word x -> Forall is_word y) /\ length y = 16%nat.
Proof.
  intros Hx. explicit x Hx. split; [|split; [|reflexivity]].
  - intros i Hi. destruct i as [|[|i]]; [| |lia]; split_and!; exact eq_refl.
  - intros F. do 16 (apply Forall_cons_1 in F as [? F]). cbn. repeat (apply Forall_cons_2; [assumption|]). apply Forall_nil_2.
Qed.
Lemma last_round_spec r x : state_ok x -> (r < 42)%nat ->
  let y := swap_words (foldl (sbox_mds r) x [0; 1]%nat) in
  state_ok y /\
  forall i b, (i < 2)%nat -> 0 <= b < 64 -> element y 0 i b = fst (mixed r x i b) /\ element y 1 i b = snd (mixed r x (1 - i) b).
Proof.
  intros Hx Hr. cbn [foldl].
  destruct (sbox_mds_spec r x 0 Hx Hr ltac:(lia)) as (Hy & E0 & O0). set (y := sbox_mds r x 0) in *.
  destruct (sbox_mds_spec r y 1 Hy Hr ltac:(lia)) as (Hz & E1 & O1). set (z := sbox_mds r y 1) in *. cbn [Nat.sub] in O0, O1.
  destruct (swap_words_rows z (proj1 Hz)) as (R & F & Lw). set (w := swap_words z) in *.
  split; [split; [exact Lw | apply F, Hz]|].
  assert (E : forall i b, (i < 2)%nat -> 0 <= b < 64 -> element z 0 i b = fst (mixed r x i b) /\ element z 1 i b = snd (mixed r x i b)).
  { intros i b Hi Hb. destruct i as [|[|i]]; [| |lia].
    - rewrite !(element_other y z) by (lia || exact O1). pose proof (E0 b Hb) as P. by rewrite <- P.
    - pose proof (E1 b Hb) as P. rewrite (mixed_other r x y) in P by exact O0. by rewrite <- P. }
  intros i b Hi Hb. destruct (E i b Hi Hb) as [<- _]. destruct (E (1 - i)%nat b ltac:(lia) Hb) as [_ <-].
  destruct (R i Hi) as (R0&R2&R4&R6&R1&R3&R5&R7). unfold element. cbn [Nat.add]. by rewrite R0, R1, R2, R3, R4, R5, R6, R7.
Qed.

(** ** The elements of the reference *)

(** Position of the element at parity [par], words [i], bit [b]. *)
Definition slot (par i : nat) (b : Z) : nat := (2 * (64 * i + Z.to_nat (Z.lxor b 7)) + par)%nat.
(** Where an odd element comes from in round [e] of seven. *)
Definition turn (e : nat) (i : nat) (b : Z) : nat * Z := if (e <? 6)%nat then (i, Z.lxor b (2 ^ Z.of_nat e)) else ((1 - i)%nat, b).
Definition moved (e p : nat) : nat := if Nat.even p then p else (2 * (Nat.lxor (p / 2) (2 ^ e)) + 1)%nat.

(** The permutation of the elements, and its inverse as a table. *)
Definition p8 (j : nat) : nat := pi_at (p'_at 256 (phi_at 256 j)).
Definition p8_inv : list nat := foldl (fun t j => <[p8 j := j]> t) (replicate 256 0%nat) (seq 0 256).
(** The element of the reference at each position before round [e] of seven. *)
Fixpoint sigma (e : nat) : list nat :=
  match e with
  | O => seq 0 256
  | S e => let s := sigma e in map (fun p => p8_inv !!! (s !!! moved e p)) (seq 0 256)
  end.

Definition positions_check (p : nat -> Z -> bool) : bool := forallb (fun i => forallb (fun b => p i (Z.of_nat b)) (seq 0 64)) (seq 0 2).
Lemma positions_checked p : positions_check p = true -> forall i b, (i < 2)%nat -> 0 <= b < 64 -> p i b = true.
Proof.
  intros H i b Hi Hb. unfold positions_check in H. rewrite forallb_forall in H. specialize (H i ltac:(apply in_seq; lia)).
  rewrite forallb_forall in H. specialize (H (Z.to_nat b) ltac:(apply in_seq; lia)). by rewrite Z2Nat.id in H by lia.
Qed.

(** The elements side by side are a pair of the code, and move as the permutation says. *)
Definition sigma_ok (e : nat) (s s' : list nat) (i : nat) (b : Z) : bool :=
  let k := (s !!! slot 0 i b / 2)%nat in let '(i', b') := turn e i b in
  (s !!! slot 0 i b =? 2 * k)%nat && (s !!! slot 1 i b =? 2 * k + 1)%nat && (k <? 128)%nat &&
  (p8 (s' !!! slot 0 i b) =? s !!! slot 0 i b)%nat && (p8 (s' !!! slot 1 i b) =? s !!! slot 1 i' b')%nat &&
  (s' !!! slot 0 i b <? 256)%nat && (s' !!! slot 1 i b <? 256)%nat.
Lemma sigma_checked : forallb (fun e => positions_check (sigma_ok e (sigma e) (sigma (S e)))) (seq 0 7) = true.
Proof. vm_compute. reflexivity. Qed.
Lemma sigma_period : sigma 7 = sigma 0.
Proof. vm_compute. reflexivity. Qed.

(** The bits of the constants. *)
Definition constants_ok (C : list bool) (s : list nat) (w w2 : Z) (i : nat) (b : Z) : bool :=
  Bool.eqb (Z.testbit w b) (C !!! (s !!! slot 0 i b)) && Bool.eqb (Z.testbit w2 b) (C !!! (s !!! slot 1 i b)).
Definition constants_check : bool :=
  let cs := constants in let ss := map sigma (seq 0 7) in
  forallb (fun r => let C := cs !!! r in let s := ss !!! (r mod 7)%nat in (length C =? 256)%nat &&
    forallb (fun i => let w := constant_word r i in let w2 := constant_word r (i + 2) in
      forallb (fun b => constants_ok C s w w2 i (Z.of_nat b)) (seq 0 64)) (seq 0 2)) (seq 0 42).
Lemma constants_checked : constants_check = true.
Proof. vm_compute. reflexivity. Qed.
