(* ===== verification/JhE8.v ===== *)
(** * JH: the permutation E8

    The simulation over the 42 rounds, and the state as bytes. *)

From Stdlib Require Import ZArith Lia.
From stdpp Require Import base tactics list numbers.
From S2P Require Import Prelude Radix Words AesSpec AesProofs BitString Jh JhSpec JhProofs.
Open Scope Z_scope.

Lemma length_constants : length constants = 42%nat.
Proof. vm_compute. reflexivity. Qed.

#[local] Opaque SS L constant_word sigma constants p8 p8_inv.

(** ** One round of the reference at one element *)

Lemma lookup_total_map_seq' {A} `{Inhabited A} (f : nat -> A) n i : (i < n)%nat -> map f (seq 0 n) !!! i = f i.
Proof.
  intros Hi. apply list_lookup_total_correct. rewrite list_lookup_fmap. rewrite lookup_seq_lt by exact Hi. reflexivity.
Qed.

Lemma s_layer_at C a i : (i < length C)%nat -> length a = length C -> s_layer C a !!! i = s_of (C !!! i) (a !!! i).
Proof.
  intros Hi L. apply list_lookup_total_correct. unfold s_layer. rewrite lookup_zip_with.
  rewrite (list_lookup_lookup_total_lt C i Hi), (list_lookup_lookup_total_lt a i) by lia. reflexivity.
Qed.
Lemma length_s_layer C a : length a = length C -> length (s_layer C a) = length C.
Proof. intros L. unfold s_layer. rewrite length_zip_with. lia. Qed.

Lemma pairs_at (f : nat -> Z * Z) n : forall o k par, (k < n)%nat -> (par < 2)%nat ->
  concat (map (fun k => let '(c, d) := f k in [c; d]) (seq o n)) !!! (2 * k + par)%nat = pick par (f (o + k)%nat).
Proof.
  induction n as [|n IH]; intros o k par Hk Hp; [lia|]. cbn [seq map concat]. destruct (f o) as [c d] eqn:E.
  destruct k as [|k].
  - rewrite Nat.add_0_r, E. destruct par as [|[|par]]; [reflexivity..|lia].
  - replace (2 * S k + par)%nat with (S (S (2 * k + par))) by lia. change (([c; d] ++ ?l) !!! S (S ?m)) with (l !!! m).
    replace (o + S k)%nat with (S o + k)%nat by lia. apply IH; lia.
Qed.
Lemma length_bit_pairs (f : nat -> Z * Z) l : length (concat (map (fun k => let '(c, d) := f k in [c; d]) l)) = (2 * length l)%nat.
Proof. induction l as [|k l IH]; [reflexivity|]. cbn [map concat]. rewrite length_app, IH. destruct (f k). cbn [length]. lia. Qed.

Lemma permute_at f a i : (i < length a)%nat -> permute f a !!! i = a !!! f i.
Proof. intros H. unfold permute. by rewrite lookup_total_map_seq. Qed.
Lemma length_permute f a : length (permute f a) = length a.
Proof. unfold permute. by rewrite length_map, length_seq. Qed.

Lemma phi_p'_bound j : (j < 256)%nat -> (phi_at 256 j < 256)%nat /\ (p'_at 256 (phi_at 256 j) < 256)%nat.
Proof.
  intros H. assert (P : forallb (fun j => (phi_at 256 j <? 256)%nat && (p'_at 256 (phi_at 256 j) <? 256)%nat) (seq 0 256) = true) by (vm_compute; reflexivity).
  rewrite forallb_forall in P. specialize (P j ltac:(apply in_seq; lia)). apply andb_true_iff in P as [P1 P2]. split; by apply Nat.ltb_lt.
Qed.

Lemma round_at a C j k par : length a = 256%nat -> length C = 256%nat -> (j < 256)%nat -> p8 j = (2 * k + par)%nat -> (k < 128)%nat -> (par < 2)%nat ->
  round a C !!! j = pick par (mix_pair (s_of (C !!! (2 * k)%nat) (a !!! (2 * k)%nat)) (s_of (C !!! (2 * k + 1)%nat) (a !!! (2 * k + 1)%nat))).
Proof.
  intros La LC Hj Hp Hk Hpar. unfold round, p_layer, l_layer.
  assert (LS : length (s_layer C a) = 256%nat) by (rewrite length_s_layer; lia). rewrite LS. change (256 / 2)%nat with 128%nat.
  set (f := fun k : nat => mix_pair (s_layer C a !!! (2 * k)%nat) (s_layer C a !!! (2 * k + 1)%nat)). set (b := concat _).
  assert (Lb : length b = 256%nat) by (exact (length_bit_pairs f (seq 0 128))).
  destruct (phi_p'_bound j Hj) as [B1 B2]. rewrite Lb.
  rewrite permute_at by (rewrite !length_permute; lia). rewrite permute_at by (rewrite length_permute; lia). rewrite permute_at by lia.
  change (pi_at (p'_at 256 (phi_at 256 j))) with (p8 j). rewrite Hp. etransitivity; [exact (pairs_at f 128 0 k par Hk Hpar)|]. cbn [Nat.add]. unfold f.
  by rewrite !s_layer_at by lia.
Qed.
Lemma length_round a C : length a = 256%nat -> length C = 256%nat -> length (round a C) = 256%nat.
Proof.
  intros La LC. unfold round, p_layer, l_layer. rewrite !length_permute, length_bit_pairs, length_seq, length_s_layer by lia. by rewrite LC.
Qed.

#[local] Opaque round bit_round.

(** ** The simulation *)

Definition simulates (e : nat) (x A : list Z) : Prop :=
  state_ok x /\ length A = 256%nat /\
  forall par i b, (par < 2)%nat -> (i < 2)%nat -> 0 <= b < 64 -> element x par i b = A !!! (sigma e !!! slot par i b).

Lemma sigma_facts e i b : (e < 7)%nat -> (i < 2)%nat -> 0 <= b < 64 -> sigma_ok e (sigma e) (sigma (S e)) i b = true.
Proof.
  intros He Hi Hb. pose proof sigma_checked as P. rewrite forallb_forall in P. specialize (P e ltac:(apply in_seq; lia)).
  exact (positions_checked _ P i b Hi Hb).
Qed.
Lemma sigma_pair e i b : (e < 7)%nat -> (i < 2)%nat -> 0 <= b < 64 -> exists k, (k < 128)%nat /\
  sigma e !!! slot 0 i b = (2 * k)%nat /\ sigma e !!! slot 1 i b = (2 * k + 1)%nat.
Proof.
  intros He Hi Hb. pose proof (sigma_facts e i b He Hi Hb) as P. unfold sigma_ok in P. destruct (turn e i b) as [i' b'].
  rewrite !andb_true_iff in P. destruct P as [[[[[[P1 P2] P3] _] _] _] _]. exists (sigma e !!! slot 0 i b / 2)%nat.
  apply Nat.eqb_eq in P1, P2. apply Nat.ltb_lt in P3. auto.
Qed.
Lemma sigma_step e i b : (e < 7)%nat -> (i < 2)%nat -> 0 <= b < 64 ->
  p8 (sigma (S e) !!! slot 0 i b) = sigma e !!! slot 0 i b /\
  p8 (sigma (S e) !!! slot 1 i b) = sigma e !!! slot 1 (fst (turn e i b)) (snd (turn e i b)) /\
  (sigma (S e) !!! slot 0 i b < 256)%nat /\ (sigma (S e) !!! slot 1 i b < 256)%nat.
Proof.
  intros He Hi Hb. pose proof (sigma_facts e i b He Hi Hb) as P. unfold sigma_ok in P. destruct (turn e i b) as [i' b'].
  rewrite !andb_true_iff in P. destruct P as [[[[_ P4] P5] P6] P7]. apply Nat.eqb_eq in P4, P5. apply Nat.ltb_lt in P6, P7. auto.
Qed.
Lemma constants_at r i b : (r < 42)%nat -> (i < 2)%nat -> 0 <= b < 64 ->
  length (constants !!! r) = 256%nat /\
  Z.testbit (constant_word r i) b = (constants !!! r) !!! (sigma (r mod 7) !!! slot 0 i b) /\
  Z.testbit (constant_word r (i + 2)) b = (constants !!! r) !!! (sigma (r mod 7) !!! slot 1 i b).
Proof.
  intros Hr Hi Hb. pose proof constants_checked as P. unfold constants_check in P. cbv zeta in P.
  rewrite forallb_forall in P. specialize (P r ltac:(apply in_seq; lia)). apply andb_true_iff in P as [P0 P].
  rewrite forallb_forall in P. specialize (P i ltac:(apply in_seq; lia)). rewrite forallb_forall in P. specialize (P (Z.to_nat b) ltac:(apply in_seq; lia)).
  rewrite Z2Nat.id in P by lia. rewrite lookup_total_map_seq' in P by (apply Nat.mod_upper_bound; lia).
  apply andb_true_iff in P as [P1 P2]. apply Bool.eqb_prop in P1, P2. apply Nat.eqb_eq in P0. auto.
Qed.

Lemma simulation_step e r x y A : (e < 7)%nat -> (r < 42)%nat -> (r mod 7 = e)%nat -> simulates e x A -> state_ok y ->
  (forall i b, (i < 2)%nat -> 0 <= b < 64 -> element y 0 i b = fst (mixed r x i b) /\
    element y 1 i b = snd (mixed r x (fst (turn e i b)) (snd (turn e i b)))) ->
  simulates (S e) y (round A (constants !!! r)).
Proof.
  intros He Hr Er (Hx & LA & Sx) Hy E.
  assert (LC : length (constants !!! r) = 256%nat) by (apply (constants_at r 0 0 Hr); lia).
  split; [exact Hy|]. split; [by apply length_round|].
  assert (M : forall i b, (i < 2)%nat -> 0 <= b < 64 -> exists k, (k < 128)%nat /\ sigma e !!! slot 0 i b = (2 * k)%nat /\ sigma e !!! slot 1 i b = (2 * k + 1)%nat /\
    mixed r x i b = mix_pair (s_of ((constants !!! r) !!! (2 * k)%nat) (A !!! (2 * k)%nat)) (s_of ((constants !!! r) !!! (2 * k + 1)%nat) (A !!! (2 * k + 1)%nat))).
  { intros i b Hi Hb. destruct (sigma_pair e i b He Hi Hb) as (k & Hk & K0 & K1). exists k. split_and!; [done..|].
    destruct (constants_at r i b Hr Hi Hb) as (_ & C0 & C1). rewrite Er, K0 in C0. rewrite Er, K1 in C1.
    unfold mixed. rewrite C0, C1, !Sx by (assumption || lia). by rewrite K0, K1. }
  assert (T : forall i b, (i < 2)%nat -> 0 <= b < 64 -> (fst (turn e i b) < 2)%nat /\ 0 <= snd (turn e i b) < 64).
  { intros i b Hi Hb. unfold turn. destruct (e <? 6)%nat eqn:E6; cbn [fst snd]; [|lia]. split; [exact Hi|]. apply Nat.ltb_lt in E6.
    apply (lxor_range 6); [lia | lia |]. split; [apply Z.pow_nonneg; lia | apply Z.pow_lt_mono_r; lia]. }
  intros par i b Hp Hi Hb. destruct (E i b Hi Hb) as [E0 E1]. destruct (sigma_step e i b He Hi Hb) as (P0 & P1 & B0 & B1).
  destruct par as [|[|par]]; [| |lia].
  - rewrite E0. destruct (M i b Hi Hb) as (k & Hk & K0 & _ & ->). rewrite K0 in P0.
    rewrite (round_at A _ _ k 0 LA LC B0 ltac:(lia) Hk ltac:(lia)). reflexivity.
  - rewrite E1. destruct (T i b Hi Hb) as [T1 T2]. destruct (M _ _ T1 T2) as (k & Hk & _ & K1 & ->). rewrite K1 in P1.
    rewrite (round_at A _ _ k 1 LA LC B1 P1 Hk ltac:(lia)). reflexivity.
Qed.

(** Seven rounds. *)
Lemma swap_step SWAP e r x A : (e < 6)%nat -> keeps SWAP -> swaps SWAP (2 ^ Z.of_nat e) -> (r < 42)%nat -> (r mod 7 = e)%nat ->
  simulates e x A -> simulates (S e) (bit_round SWAP x r) (round A (constants !!! r)).
Proof.
  intros He K Sw Hr Er Hx. assert (Hk : 0 <= 2 ^ Z.of_nat e < 64) by (split; [apply Z.pow_nonneg; lia | apply (Z.pow_lt_mono_r 2 (Z.of_nat e) 6); lia]).
  destruct (bit_round_spec SWAP _ K Sw Hk r x (proj1 Hx) Hr) as [Hy E].
  apply (simulation_step e r x); try assumption; [lia|]. intros i b Hi Hb. unfold turn.
  replace (e <? 6)%nat with true by (symmetry; apply Nat.ltb_lt; lia). by apply E.
Qed.

Lemma foldl_seven {A} (f : A -> nat -> A) a n : foldl f a (map (Nat.add n) (seq 0 7)) =
  f (f (f (f (f (f (f a (n + 0)%nat) (n + 1)%nat) (n + 2)%nat) (n + 3)%nat) (n + 4)%nat) (n + 5)%nat) (n + 6)%nat.
Proof. reflexivity. Qed.
Lemma mod7 q e : (e < 7)%nat -> ((7 * q + e) mod 7 = e)%nat.
Proof. intros H. rewrite Nat.add_comm, Nat.mul_comm, Nat.Div0.mod_add. by apply Nat.mod_small. Qed.

Lemma last_step q x A : (q < 6)%nat -> simulates 6 x A ->
  simulates 0 (swap_words (foldl (sbox_mds (7 * q + 6)) x [0; 1]%nat)) (round A (constants !!! (7 * q + 6)%nat)).
Proof.
  intros Hq H. assert (Hr : (7 * q + 6 < 42)%nat) by lia. destruct (last_round_spec _ x (proj1 H) Hr) as [Hy E].
  pose proof (simulation_step 6 _ x _ A ltac:(lia) Hr (mod7 q 6 ltac:(lia)) H Hy E) as R.
  unfold simulates in R |- *. by rewrite sigma_period in R.
Qed.

Lemma seven_rounds_spec q x A : (q < 6)%nat -> simulates 0 x A ->
  simulates 0 (seven_rounds x (7 * q)) (foldl (fun A r => round A (constants !!! r)) A (map (Nat.add (7 * q)) (seq 0 7))).
Proof.
  intros Hq H. rewrite foldl_seven. unfold seven_rounds. cbv beta zeta.
  apply last_step; [exact Hq|].
  apply (swap_step SWAP32 5); [lia | exact SWAP32_word | exact jh_SWAP32_spec | lia | apply mod7; lia |].
  apply (swap_step SWAP16 4); [lia | exact SWAP16_word | exact SWAP16_spec | lia | apply mod7; lia |].
  apply (swap_step SWAP8 3); [lia | exact SWAP8_word | exact SWAP8_spec | lia | apply mod7; lia |].
  apply (swap_step SWAP4 2); [lia | exact SWAP4_word | exact SWAP4_spec | lia | apply mod7; lia |].
  apply (swap_step SWAP2 1); [lia | exact SWAP2_word | exact SWAP2_spec | lia | apply mod7; lia |].
  apply (swap_step SWAP1 0); [lia | exact SWAP1_word | exact SWAP1_spec | lia | apply mod7; lia | exact H].
Qed.

Lemma E8_rounds x A : simulates 0 x A -> simulates 0 (E8 x) (foldl round A constants).
Proof.
  intros H. assert (G : forall l x A, Forall (fun q => (q < 6)%nat) l -> simulates 0 x A ->
    simulates 0 (foldl seven_rounds x (map (Nat.mul 7) l)) (foldl (fun A r => round A (constants !!! r)) A (concat (map (fun q => map (Nat.add (7 * q)) (seq 0 7)) l)))).
  { induction l as [|q l IH]; intros x' A' Hl Hx; [exact Hx|]. apply Forall_cons_1 in Hl as [Hq Hl]. cbn [map foldl concat].
    rewrite foldl_app. apply IH; [exact Hl|]. by apply seven_rounds_spec. }
  specialize (G [0; 1; 2; 3; 4; 5]%nat x A ltac:(repeat constructor; lia) H).
  assert (EC : foldl (fun A r => round A (constants !!! r)) A (seq 0 42) = foldl round A constants).
  { assert (F : forall n cs A, length cs = n -> foldl (fun A r => round A (cs !!! r)) A (seq 0 n) = foldl round A cs).
    { clear. induction n as [|n IH]; intros cs A Ln; [by destruct cs|]. destruct cs as [|c cs]; [discriminate Ln|]. cbn [seq foldl].
      rewrite <- seq_shift. etransitivity; [exact (foldl_fmap _ _ _ S)|]. apply (IH cs). by injection Ln. }
    apply F. exact length_constants. }
  rewrite <- EC. exact G.
Qed.

(** ** The state as bytes *)

Lemma byte_bits_at b i : (i < 8)%nat -> byte_bits b !!! i = Z.testbit b (7 - Z.of_nat i).
Proof. intros H. unfold byte_bits. by rewrite lookup_total_map_seq' by exact H. Qed.

Lemma bits_of_le_bytes n : forall v c, (c < 8 * n)%nat ->
  bits_of (le_bytes n v) !!! c = Z.testbit v (8 * Z.of_nat (c / 8) + 7 - Z.of_nat (c mod 8)).
Proof.
  induction n as [|n IH]; intros v c Hc; [lia|]. cbn [le_bytes bits_of map concat]. fold (bits_of (le_bytes n (v / 2 ^ 8))).
  destruct (Nat.lt_ge_cases c 8) as [C|C].
  - rewrite lookup_total_app_l by (rewrite length_byte_bits; lia). rewrite byte_bits_at by exact C.
    rewrite Nat.div_small, Nat.mod_small by exact C. rewrite Z.mod_pow2_bits_low by lia. f_equal; lia.
  - rewrite lookup_total_app_r, length_byte_bits by (rewrite length_byte_bits; lia). rewrite IH by lia.
    assert (H0 : c = (c - 8 + 1 * 8)%nat) by lia. set (c' := (c - 8)%nat) in *. rewrite H0, Nat.div_add, Nat.Div0.mod_add by lia.
    assert (Hm : (c' mod 8 < 8)%nat) by (apply Nat.mod_upper_bound; lia).
    rewrite Z.div_pow2_bits by lia. f_equal. lia.
Qed.
Lemma bit_place c : (c < 64)%nat -> 8 * Z.of_nat (c / 8) + 7 - Z.of_nat (c mod 8) = Z.lxor (Z.of_nat c) 7.
Proof.
  intros H. apply Z.eqb_eq. assert (P : forallb (fun c => 8 * Z.of_nat (c / 8) + 7 - Z.of_nat (c mod 8) =? Z.lxor (Z.of_nat c) 7) (seq 0 64) = true) by (vm_compute; reflexivity).
  rewrite forallb_forall in P. apply P, in_seq. lia.
Qed.

Lemma bits_of_words x : forall w c, (w < length x)%nat -> (c < 64)%nat ->
  bits_of (bytes_of x) !!! (64 * w + c)%nat = Z.testbit (x !!! w) (Z.lxor (Z.of_nat c) 7).
Proof.
  induction x as [|v x IH]; intros w c Hw Hc; [cbn in Hw; lia|]. unfold bytes_of. cbn [map concat]. fold (bytes_of x). rewrite bits_of_app.
  assert (Lb : length (bits_of (le_bytes 8 v)) = 64%nat) by (rewrite length_bits_of, length_le_bytes; lia).
  destruct w as [|w].
  - rewrite lookup_total_app_l by lia. rewrite Nat.mul_0_r, Nat.add_0_l, bits_of_le_bytes by lia. by rewrite bit_place.
  - rewrite lookup_total_app_r by lia. rewrite Lb. replace (64 * S w + c - 64)%nat with (64 * w + c)%nat by lia.
    apply IH; [cbn [length] in Hw; lia | exact Hc].
Qed.
Lemma length_bytes_of x : length (bytes_of x) = (8 * length x)%nat.
Proof. induction x as [|v x IH]; [reflexivity|]. unfold bytes_of in *. cbn [map concat length]. rewrite length_app, length_le_bytes, IH. lia. Qed.
Lemma bytes_of_ok x : byte_ok (bytes_of x).
Proof. induction x as [|v x IH]; [constructor|]. unfold bytes_of in *. cbn [map concat]. apply Forall_app. split; [apply le_bytes_ok | exact IH]. Qed.

Lemma group_at A j : (j < 256)%nat -> let i := (j / 2 + 128 * (j mod 2))%nat in
  group A !!! j = nib4 (A !!! i) (A !!! (i + 256)%nat) (A !!! (i + 512)%nat) (A !!! (i + 768)%nat).
Proof. intros Hj i. unfold group. by rewrite lookup_total_map_seq' by exact Hj. Qed.

Lemma lxor7 b : 0 <= b < 64 -> 0 <= Z.lxor b 7 < 64 /\ Z.lxor (Z.lxor b 7) 7 = b.
Proof. intros H. split; [apply (lxor_range 6); lia|]. by rewrite Z.lxor_assoc, Z.lxor_nilpotent, Z.lxor_0_r. Qed.

Lemma slot_parts par i b : (par < 2)%nat -> (slot par i b / 2 = 64 * i + Z.to_nat (Z.lxor b 7))%nat /\ (slot par i b mod 2 = par)%nat.
Proof.
  intros Hp. unfold slot. rewrite (Nat.mul_comm 2), Nat.div_add_l, Nat.div_small by lia. rewrite (Nat.add_comm _ par), Nat.Div0.mod_add, Nat.mod_small by lia. lia.
Qed.
Lemma sigma_0 : sigma 0 = seq 0 256.
Proof. vm_compute. reflexivity. Qed.

Lemma group_simulates x : state_ok x -> simulates 0 x (group (bits_of (bytes_of x))).
Proof.
  intros Hx. split; [exact Hx|]. split; [unfold group; by rewrite length_map, length_seq|]. intros par i b Hp Hi Hb.
  destruct (lxor7 b Hb) as [Hc Ec]. assert (Hs : (slot par i b < 256)%nat) by (unfold slot; lia).
  rewrite sigma_0. rewrite (list_lookup_total_correct (seq 0 256) (slot par i b) (slot par i b)) by (rewrite lookup_seq_lt by exact Hs; f_equal; lia).
  rewrite group_at by exact Hs. destruct (slot_parts par i b Hp) as [-> ->].
  assert (E : forall k, (k < 4)%nat -> bits_of (bytes_of x) !!! (64 * i + Z.to_nat (Z.lxor b 7) + 128 * par + 256 * k)%nat = Z.testbit (at_row x (2 * k + par) i) b).
  { intros k Hk. replace (64 * i + Z.to_nat (Z.lxor b 7) + 128 * par + 256 * k)%nat with (64 * (2 * (2 * k + par) + i) + Z.to_nat (Z.lxor b 7))%nat by lia.
    rewrite bits_of_words by (destruct Hx as [-> _] || idtac; lia). rewrite Z2Nat.id, Ec by lia. reflexivity. }
  symmetry. unfold element.
  f_equal; [rewrite <- (E 0%nat ltac:(lia) : _ = Z.testbit (at_row x par i) b) | rewrite <- (E 1%nat ltac:(lia) : _ = Z.testbit (at_row x (2 + par) i) b)
    | rewrite <- (E 2%nat ltac:(lia) : _ = Z.testbit (at_row x (4 + par) i) b) | rewrite <- (E 3%nat ltac:(lia) : _ = Z.testbit (at_row x (6 + par) i) b)];
    f_equal; lia.
Qed.

Lemma nib4_bits b0 b1 b2 b3 : Z.testbit (nib4 b0 b1 b2 b3) 3 = b0 /\ Z.testbit (nib4 b0 b1 b2 b3) 2 = b1 /\
  Z.testbit (nib4 b0 b1 b2 b3) 1 = b2 /\ Z.testbit (nib4 b0 b1 b2 b3) 0 = b3.
Proof. by destruct b0, b1, b2, b3. Qed.
Lemma element_bit x par i b k : (k < 4)%nat -> Z.testbit (element x par i b) (3 - Z.of_nat k) = Z.testbit (at_row x (2 * k + par) i) b.
Proof.
  intros Hk. unfold element. match goal with |- context [nib4 ?a ?b ?c ?d] => destruct (nib4_bits a b c d) as (E3 & E2 & E1 & E0) end.
  do 4 (destruct k as [|k]; [assumption|]). lia.
Qed.

Lemma degroup_simulates x A : simulates 0 x A -> degroup A = bits_of (bytes_of x).
Proof.
  intros (Hx & LA & E). assert (Lb : length (bits_of (bytes_of x)) = 1024%nat) by (rewrite length_bits_of, length_bytes_of; destruct Hx as [-> _]; reflexivity).
  apply list_eq_same_length with (n := 1024%nat); [exact Lb | unfold degroup; by rewrite length_map, length_seq|].
  intros n u v Hn Hu Hv. apply list_lookup_total_correct in Hu, Hv. subst u v. unfold degroup. rewrite lookup_total_map_seq' by exact Hn.
  set (c := (n mod 64)%nat). set (w := (n / 64)%nat). assert (Hc : (c < 64)%nat) by (apply Nat.mod_upper_bound; lia).
  assert (En : n = (64 * w + c)%nat) by (apply Nat.div_mod; lia).
  set (i := (w mod 2)%nat). set (row := (w / 2)%nat). assert (Hi : (i < 2)%nat) by (apply Nat.mod_upper_bound; lia).
  assert (Ew : w = (2 * row + i)%nat) by (apply Nat.div_mod; lia).
  set (par := (row mod 2)%nat). set (k := (row / 2)%nat). assert (Hp : (par < 2)%nat) by (apply Nat.mod_upper_bound; lia).
  assert (Er : row = (2 * k + par)%nat) by (apply Nat.div_mod; lia).
  replace (n mod 128)%nat with (64 * i + c)%nat.
  2: { replace n with (64 * i + c + row * 128)%nat by lia. rewrite Nat.Div0.mod_add. symmetry. apply Nat.mod_small. lia. }
  replace (n / 128)%nat with row.
  2: { replace n with (64 * i + c + row * 128)%nat by lia. rewrite Nat.div_add by lia. rewrite Nat.div_small by lia. lia. }
  replace (n / 256)%nat with k.
  2: { replace n with (64 * i + c + 128 * par + k * 256)%nat by lia. rewrite Nat.div_add by lia. rewrite Nat.div_small by lia. lia. }
  fold par. set (b := Z.lxor (Z.of_nat c) 7). assert (Hb : 0 <= b < 64) by (apply (lxor_range 6); lia).
  assert (Es : (2 * (64 * i + c) + par = slot par i b)%nat).
  { unfold slot, b. rewrite Z.lxor_assoc, Z.lxor_nilpotent, Z.lxor_0_r, Nat2Z.id. reflexivity. }
  assert (Hs : (slot par i b < 256)%nat) by (rewrite <- Es; lia).
  rewrite Es. pose proof (E par i b Hp Hi Hb) as EE. rewrite sigma_0 in EE.
  rewrite (list_lookup_total_correct (seq 0 256) (slot par i b) (slot par i b)) in EE by (rewrite lookup_seq_lt by exact Hs; f_equal; lia).
  rewrite <- EE, element_bit by lia. rewrite En. rewrite bits_of_words by (destruct Hx as [-> _] || idtac; lia). unfold at_row. by rewrite <- Er, <- Ew.
Qed.

(** The permutation on words is the one on the bytes of the words. *)
Theorem E8_spec x : state_ok x -> bytes_of (E8 x) = bijective_E8 (bytes_of x) /\ state_ok (E8 x).
Proof.
  intros Hx. pose proof (E8_rounds x _ (group_simulates x Hx)) as S. split; [|exact (proj1 S)].
  unfold bijective_E8. rewrite (degroup_simulates _ _ S). by rewrite pack_bits_of by apply bytes_of_ok.
Qed.
