(* ===== verification/JhCorrect.v ===== *)
(** * JH: the hash is the reference

    The compression function, the blocks of the data, the padding of a message of
    bits, the truncation; and the memory that a short update reads and writes. *)

From Stdlib Require Import ZArith Lia.
From stdpp Require Import base tactics list numbers option.
From S2P Require Import Prelude Radix Words AesSpec AesProofs BitString Jh JhSpec JhProofs JhE8.
Open Scope Z_scope.

#[local] Opaque E8 bijective_E8.

(** ** The compression function *)

Lemma jh_le_bytes_lxor n : forall a b, le_bytes n (Z.lxor a b) = xor_bytes (le_bytes n a) (le_bytes n b).
Proof.
  induction n as [|n IH]; intros a b; [reflexivity|]. unfold xor_bytes in *. cbn [le_bytes zip_with].
  rewrite <- !Z.shiftr_div_pow2, Z.shiftr_lxor by lia. rewrite !Z.shiftr_div_pow2, IH by lia. f_equal.
  rewrite <- !Z.land_ones by lia. apply Z.bits_inj'. intros i Hi. rewrite !Z.lxor_spec, !Z.land_spec, Z.lxor_spec.
  by destruct (Z.testbit a i), (Z.testbit b i), (Z.testbit (Z.ones 8) i).
Qed.
Lemma xor_bytes_app a b c d : length a = length b -> xor_bytes (a ++ c) (b ++ d) = xor_bytes a b ++ xor_bytes c d.
Proof. apply zip_with_app. Qed.
Lemma bytes_of_xor a : forall b, length a = length b -> bytes_of (zip_with Z.lxor a b) = xor_bytes (bytes_of a) (bytes_of b).
Proof.
  induction a as [|x a IH]; intros [|y b] H; try discriminate H; [reflexivity|]. injection H as H. unfold bytes_of in *.
  cbn [zip_with map concat]. rewrite xor_bytes_app by (by rewrite !length_le_bytes). by rewrite jh_le_bytes_lxor, IH.
Qed.

Definition block_words (buffer : list Z) : list Z := map (buffer_word buffer) (seq 0 8).
Lemma bytes_of_block buffer : length buffer = 64%nat -> byte_ok buffer -> bytes_of (block_words buffer) = buffer.
Proof.
  intros L B. unfold bytes_of, block_words, buffer_word. cbn [seq map concat].
  assert (E : forall o, (o <= 56)%nat -> le_bytes 8 (le_val (take 8 (drop o buffer))) = take 8 (drop o buffer)).
  { intros o Ho. replace 8%nat with (length (take 8 (drop o buffer))) at 1 by (rewrite length_take, length_drop; lia).
    apply le_bytes_le_val. by apply Forall_take, Forall_drop. }
  rewrite !E by lia. clear E B. do 64 (destruct buffer as [|? buffer]; [discriminate L|]). destruct buffer; [|discriminate L]. exact eq_refl.
Qed.
Lemma block_words_ok buffer : length buffer = 64%nat -> byte_ok buffer -> Forall is_word (block_words buffer).
Proof.
  intros L B. apply Forall_forall. intros v Hv. apply in_map_iff in Hv as (i & <- & Hi). apply in_seq in Hi. unfold buffer_word, is_word.
  pose proof (le_val_range (take 8 (drop (8 * i) buffer)) ltac:(by apply Forall_take, Forall_drop)) as R.
  rewrite length_take, length_drop, L in R. replace (8 `min` (64 - 8 * i))%nat with 8%nat in R by lia. exact R.
Qed.

Lemma xor_low x w : length x = 16%nat -> length w = 8%nat ->
  foldl (fun v i => <[i := Z.lxor (v !!! i) (w !!! i)]> v) x (seq 0 8) = zip_with Z.lxor x (w ++ replicate 8 0).
Proof.
  intros Lx Lw. explicit x Lx. rewrite (list8 w Lw). generalize (w !!! 0%nat), (w !!! 1%nat), (w !!! 2%nat), (w !!! 3%nat), (w !!! 4%nat), (w !!! 5%nat), (w !!! 6%nat), (w !!! 7%nat).
  intros. cbn. by rewrite !Z.lxor_0_r.
Qed.
Lemma xor_high x w : length x = 16%nat -> length w = 8%nat ->
  foldl (fun v i => <[(8 + i)%nat := Z.lxor (v !!! (8 + i)%nat) (w !!! i)]> v) x (seq 0 8) = zip_with Z.lxor x (replicate 8 0 ++ w).
Proof.
  intros Lx Lw. explicit x Lx. rewrite (list8 w Lw). generalize (w !!! 0%nat), (w !!! 1%nat), (w !!! 2%nat), (w !!! 3%nat), (w !!! 4%nat), (w !!! 5%nat), (w !!! 6%nat), (w !!! 7%nat).
  intros. cbn. by rewrite !Z.lxor_0_r.
Qed.
Lemma xor_state_ok x w : state_ok x -> length w = 16%nat -> Forall is_word w -> state_ok (zip_with Z.lxor x w).
Proof.
  intros [Lx Fx] Lw Fw. split; [rewrite length_zip_with; lia|]. apply Forall_lookup. intros i v Hv.
  apply lookup_zip_with_Some in Hv as (a & b & -> & Ha & Hb). apply (lxor_range 64); [lia | exact (Forall_lookup_1 _ _ _ _ Fx Ha) | exact (Forall_lookup_1 _ _ _ _ Fw Hb)].
Qed.

Lemma F8_spec s : state_ok (x s) -> length (buffer s) = 64%nat -> byte_ok (buffer s) ->
  exists v, F8 s = set_x v s /\ state_ok v /\ bytes_of v = compress_F8 (bytes_of (x s)) (buffer s).
Proof.
  intros Hx Lb Bb. unfold F8. cbv zeta. eexists. split; [reflexivity|].
  assert (G : forall (o : nat) (v : list Z), foldl (fun v i => <[(o + i)%nat := Z.lxor (v !!! (o + i)%nat) (buffer_word (buffer s) i)]> v) v (seq 0 8) =
    foldl (fun v i => <[(o + i)%nat := Z.lxor (v !!! (o + i)%nat) (block_words (buffer s) !!! i)]> v) v (seq 0 8)).
  { intros o v. cbn [seq foldl]. reflexivity. }
  pose proof (G 0%nat (x s)) as G0. cbn [Nat.add] in G0. rewrite G0, (G 8%nat). clear G G0.
  assert (Lw : length (block_words (buffer s)) = 8%nat) by reflexivity.
  pose proof (block_words_ok (buffer s) Lb Bb) as Fw. assert (Z8 : Forall is_word (replicate 8 0)) by (apply Forall_replicate; unfold is_word; lia).
  rewrite xor_low by (exact Lw || apply Hx).
  assert (H1 : state_ok (zip_with Z.lxor (x s) (block_words (buffer s) ++ replicate 8 0))) by (apply xor_state_ok; [exact Hx | reflexivity | by apply Forall_app]).
  destruct (E8_spec _ H1) as [E2 H2]. rewrite xor_high by (exact Lw || apply H2).
  assert (H3 : state_ok (zip_with Z.lxor (E8 (zip_with Z.lxor (x s) (block_words (buffer s) ++ replicate 8 0))) (replicate 8 0 ++ block_words (buffer s)))).
  { apply xor_state_ok; [exact H2 | reflexivity | by apply Forall_app]. }
  split; [exact H3|]. assert (BA : forall a b, bytes_of (a ++ b) = bytes_of a ++ bytes_of b) by (intros; unfold bytes_of; by rewrite map_app, concat_app).
  rewrite bytes_of_xor by (rewrite (proj1 H2); reflexivity). rewrite E2. rewrite bytes_of_xor by (rewrite (proj1 Hx); reflexivity).
  rewrite !BA, bytes_of_block by assumption. change (bytes_of (replicate 8 0)) with (replicate 64 0).
  unfold compress_F8. by rewrite (xor_bytes_comm (bijective_E8 _)).
Qed.

(** ** The blocks of the data *)

(** A state with the chaining value [h]: 128 bytes. *)
Definition holds (h : list Z) (s : hashState) : Prop := state_ok (x s) /\ bytes_of (x s) = h /\ length (buffer s) = 64%nat.

Lemma memcpy_block buf data idx : length buf = 64%nat -> 0 <= idx -> idx + 64 <= Z.of_nat (length data) ->
  memcpy buf 0 data idx 64 = Some (take 64 (drop (Z.to_nat idx) data)).
Proof.
  intros Lb Hi Hl. unfold memcpy. replace (idx + 64 <=? Z.of_nat (length data)) with true by lia.
  replace (0 + 64 <=? Z.of_nat (length buf)) with true by lia. cbn [andb]. f_equal. unfold write_at. cbn [take app]. change (Z.to_nat 0) with 0%nat. change (Z.to_nat 64) with 64%nat.
  cbn [take app Nat.add]. rewrite (drop_ge buf) by (rewrite length_take, length_drop; lia). by rewrite app_nil_r.
Qed.

Lemma F8_holds h s : holds h s -> byte_ok (buffer s) -> exists v, F8 s = set_x v s /\ holds (compress_F8 h (buffer s)) (F8 s).
Proof. intros (Hx & <- & Lb) B. destruct (F8_spec s Hx Lb B) as (v & E & Hv & EB). exists v. split; [exact E|]. rewrite E. exact (conj Hv (conj EB Lb)). Qed.

Lemma update_loop_spec n : forall h s data idx len, holds h s -> byte_ok data -> 0 <= idx -> 8 * idx + len < 2 ^ 64 ->
  512 * Z.of_nat n <= len -> 8 * idx + len <= 8 * Z.of_nat (length data) ->
  exists s', update_loop n s data idx len = Some (s', idx + 64 * Z.of_nat n, len - 512 * Z.of_nat n) /\
    holds (foldl compress_F8 h (blocks 64 n (drop (Z.to_nat idx) data))) s' /\
    hashbitlen s' = hashbitlen s /\ databitlen s' = databitlen s /\ datasize_in_buffer s' = datasize_in_buffer s.
Proof.
  induction n as [|n IH]; intros h s data idx len H B Hi Hw Hn Hl.
  - exists s. cbn [update_loop blocks foldl]. split; [do 2 f_equal; [f_equal|]; lia | by split].
  - cbn [update_loop]. rewrite memcpy_block by (apply H || lia). cbn [mbind option_bind].
    set (buf := take 64 (drop (Z.to_nat idx) data)).
    assert (Hb : length buf = 64%nat) by (unfold buf; rewrite length_take, length_drop; lia).
    assert (Bb : byte_ok buf) by (by apply Forall_take, Forall_drop).
    destruct (F8_holds h (set_buffer buf s)) as (v & E & H'); [by destruct H as (?&?&_) | exact Bb|].
    rewrite !u64_id by lia.
    destruct (IH _ _ data (idx + 64) (len - 512) H' B) as (s' & E' & Hs' & P1 & P2 & P3); [lia..|].
    exists s'. rewrite E'. split; [do 2 f_equal; [f_equal|]; lia|].
    rewrite P1, P2, P3, E. cbn [blocks foldl]. fold buf. rewrite drop_drop. split; [|done].
    replace (Z.to_nat idx + 64)%nat with (Z.to_nat (idx + 64)) by lia. exact Hs'.
Qed.

(** ** The message *)

Lemma store_length_spec b n : 0 <= n < 2 ^ 64 -> store_length n (b :: replicate 63 0) = b :: replicate 55 0 ++ rev (le_bytes 8 n).
Proof.
  intros Hn. unfold store_length. cbn [seq foldl replicate insert list_insert Nat.sub app le_bytes rev].
  assert (U : forall i : nat, Z.land (Z.shiftr n (8 * Z.of_nat i)) 0xff = (n / 2 ^ (8 * Z.of_nat i)) mod 2 ^ 8).
  { intros i. change 0xff with (Z.ones 8). by rewrite Z.land_ones, Z.shiftr_div_pow2 by lia. }
  rewrite !U. change (2 ^ (8 * Z.of_nat 0)) with 1. rewrite Z.div_1_r, !Z.div_div by lia. exact eq_refl.
Qed.

Lemma zero_from_spec i buf : (i <= 64)%nat -> length buf = 64%nat -> zero_from i buf = take i buf ++ replicate (64 - i) 0.
Proof.
  intros Hi Lb. unfold zero_from. pose proof (foldl_copy (fun _ => 0) (64 - i) (take i buf) (drop i buf)) as E.
  rewrite take_drop, length_take, Lb, Nat.min_l, length_drop, Lb, drop_drop in E by lia. rewrite E by lia.
  rewrite (drop_ge buf) by lia. rewrite app_nil_r. f_equal. generalize (64 - i)%nat. intros n. clear. generalize i. induction n as [|n IH]; intros j; [done|]. cbn. by rewrite IH.
Qed.

Lemma words_of_ok l : length l = 128%nat -> byte_ok l -> state_ok (words_of l) /\ bytes_of (words_of l) = l.
Proof.
  intros L B. split.
  - split; [reflexivity|]. apply Forall_forall. intros v Hv. apply in_map_iff in Hv as (i & <- & Hi). apply in_seq in Hi. unfold is_word.
    pose proof (le_val_range (take 8 (drop (8 * i) l)) ltac:(by apply Forall_take, Forall_drop)) as R.
    rewrite length_take, length_drop, L in R. replace (8 `min` (128 - 8 * i))%nat with 8%nat in R by lia. exact R.
  - unfold bytes_of, words_of. rewrite map_map. rewrite (map_ext_in _ (fun i => take 8 (drop (8 * i) l))).
    + cbn [seq map concat]. clear B. do 128 (destruct l as [|? l]; [discriminate L|]). destruct l; [|discriminate L]. exact eq_refl.
    + intros i Hi. apply in_seq in Hi. replace 8%nat with (length (take 8 (drop (8 * i) l))) at 1 by (rewrite length_take, length_drop; lia).
      apply le_bytes_le_val. by apply Forall_take, Forall_drop.
Qed.

Section Message.
Context (state0 : hashState) (size : Z) (data : list Z) (n : Z).
Context (Hs : size = 224 \/ size = 256 \/ size = 384 \/ size = 512).
Context (Bd : byte_ok data) (L0 : length (buffer state0) = 64%nat).
Context (Hn : 0 <= n < 2 ^ 64) (Ld : n <= 8 * Z.of_nat (length data)).
(** Unused bits of the last byte are zeros. *)
Context (Hz : n mod 8 = 0 \/ Z.land (data !!! Z.to_nat (n / 8)) (2 ^ (8 - n mod 8) - 1) = 0).

Let m : nat := Z.to_nat (n / 8).
Let rem : nat := Z.to_nat (n mod 8).
Let q : nat := (m / 64)%nat.
Let k : nat := (m mod 64)%nat.
Let tail : list Z := take k (drop (64 * q) data).
Let chain : list Z := foldl compress_F8 (jh_iv size) (blocks 64 q data).

Lemma jh_msg_numbers : n / 8 = Z.of_nat m /\ n mod 8 = Z.of_nat rem /\ (rem < 8)%nat /\ (k < 64)%nat /\ m = (64 * q + k)%nat /\
  (m <= length data)%nat /\ ((m < length data)%nat \/ rem = 0%nat) /\ Z.of_nat m / 64 = Z.of_nat q /\ n = 8 * Z.of_nat m + Z.of_nat rem.
Proof using All. exact (bit_length_split n data (proj1 Hn) Ld). Qed.

Lemma jh_length_tail : length tail = k.
Proof using All. destruct jh_msg_numbers as (_&_&_&_&E&H&_). unfold tail. rewrite length_take, length_drop. lia. Qed.

Lemma Init_holds : holds (jh_iv size) (Init state0 size) /\ hashbitlen (Init state0 size) = size /\ databitlen (Init state0 size) = 0 /\
  datasize_in_buffer (Init state0 size) = 0.
Proof using All.
  split; [|done]. unfold holds, Init. cbn [x buffer set_datasize set_databitlen].
  assert (G : forall l v, length l = 128%nat -> forallb (fun b => (0 <=? b) && (b <? 2 ^ 8)) l = true -> l = jh_iv v ->
    state_ok (words_of l) /\ bytes_of (words_of l) = jh_iv v /\ length (buffer state0) = 64%nat).
  { intros l v Ll Bl <-. destruct (words_of_ok l Ll) as [H1 H2]; [|by split].
    rewrite forallb_forall in Bl. apply Forall_forall. intros b Hb. specialize (Bl b Hb). apply andb_true_iff in Bl as [B1 B2]. lia. }
  destruct Hs as [-> | [-> | [-> | ->]]]; cbn [Z.eqb Pos.eqb]; apply G; vm_compute; reflexivity.
Qed.

Lemma jh_Update_spec : exists s', Update (Init state0 size) data n = Some s' /\ holds chain s' /\
  hashbitlen s' = size /\ databitlen s' = n /\
  (Z.of_nat k * 8 + Z.of_nat rem = 0 \/ Z.of_nat k * 8 + Z.of_nat rem <> 0 /\ datasize_in_buffer s' = 8 * Z.of_nat k + Z.of_nat rem /\
    exists rest, buffer s' = take (if (rem =? 0)%nat then k else S k) (drop (64 * q) data) ++ rest).
Proof using All.
  destruct jh_msg_numbers as (Em&Er&Hr&Hk&E&H&Hl&Eq&En). destruct Init_holds as (Hi & P1 & P2 & P3).
  unfold Update. rewrite P2, Z.add_0_l, u64_id by lia. cbv zeta. set (s0 := set_databitlen n (Init state0 size)).
  assert (F : holds (jh_iv size) s0 /\ hashbitlen s0 = size /\ databitlen s0 = n /\ datasize_in_buffer s0 = 0) by (split_and!; [exact Hi | exact P1 | done | exact P3]).
  clearbody s0. clear Hi P1 P2 P3. destruct F as (Hi & P1 & P2 & P3). rewrite !P3. change (0 <? 0) with false. cbn [andb mbind option_bind].
  rewrite !P3. change (0 <? 0) with false. cbn [andb mbind option_bind].
  assert (Eq2 : n / 512 = Z.of_nat q).
  { replace n with (8 * Z.of_nat k + Z.of_nat rem + Z.of_nat q * 512) by lia. rewrite Z.div_add, Z.div_small by lia. lia. }
  rewrite Eq2, Nat2Z.id.
  destruct (update_loop_spec q (jh_iv size) s0 data 0 n) as (s' & EL & Hs' & Q1 & Q2 & Q3); [exact Hi | exact Bd | lia..|].
  rewrite EL. cbn [mbind option_bind]. change (Z.to_nat 0) with 0%nat in Hs'. rewrite drop_0 in Hs'. fold chain in Hs'.
  replace (n - 512 * Z.of_nat q) with (8 * Z.of_nat k + Z.of_nat rem) by lia. rewrite Z.add_0_l.
  destruct (0 <? 8 * Z.of_nat k + Z.of_nat rem) eqn:Z0.
  2: { exists s'. split; [done|]. split; [exact Hs'|]. rewrite Q1, Q2. split; [exact P1|]. split; [exact P2|]. left. lia. }
  change 0x1ff with (Z.ones 9). change 7 with (Z.ones 3). rewrite !Z.land_ones by lia. rewrite (Z.mod_small _ (2 ^ 9)) by lia.
  rewrite Z.shiftr_div_pow2 by lia. replace ((8 * Z.of_nat k + Z.of_nat rem) / 2 ^ 3) with (Z.of_nat k).
  2: { replace (8 * Z.of_nat k + Z.of_nat rem) with (Z.of_nat rem + Z.of_nat k * 2 ^ 3) by lia. rewrite Z.div_add, Z.div_small by lia. lia. }
  replace ((8 * Z.of_nat k + Z.of_nat rem) mod 2 ^ 3) with (Z.of_nat rem).
  2: { replace (8 * Z.of_nat k + Z.of_nat rem) with (Z.of_nat rem + Z.of_nat k * 2 ^ 3) by lia. rewrite Z.mod_add, Z.mod_small by lia. lia. }
  replace (if Z.of_nat rem =? 0 then Z.of_nat k else Z.of_nat k + 1) with (Z.of_nat (if (rem =? 0)%nat then k else S k))
    by (destruct (Nat.eqb_spec rem 0); destruct (Z.eqb_spec (Z.of_nat rem) 0); lia).
  set (n0 := (if (rem =? 0)%nat then k else S k)). assert (Hn0 : (n0 <= 64)%nat /\ (64 * q + n0 <= length data)%nat).
  { unfold n0. destruct (Nat.eqb_spec rem 0); destruct Hl; lia. }
  assert (Lb' : length (buffer s') = 64%nat) by apply Hs'.
  unfold memcpy. replace (64 * Z.of_nat q + Z.of_nat n0 <=? Z.of_nat (length data)) with true by lia.
  replace (0 + Z.of_nat n0 <=? Z.of_nat (length (buffer s'))) with true by lia. cbn [andb mbind option_bind].
  eexists. split; [reflexivity|]. unfold set_datasize, set_buffer. cbn [hashbitlen databitlen datasize_in_buffer x buffer].
  replace (Z.to_nat (64 * Z.of_nat q)) with (64 * q)%nat by lia. rewrite Nat2Z.id. change (Z.to_nat 0) with 0%nat.
  split; [|rewrite Q1, Q2; split; [exact P1|]; split; [exact P2|]; right; split; [lia|]; split; [done|]; eexists; reflexivity].
  destruct Hs' as (G1 & G2 & G3). split; [exact G1|]. split; [exact G2|]. cbn [buffer]. unfold write_at. rewrite !length_app, length_drop. cbn [take length Nat.add]. rewrite !length_take, !length_drop. lia.
Qed.

(** Blocks of the end of the message: one if it ends with a block, else two. *)
Let whole : bool := (k =? 0)%nat && (rem =? 0)%nat.
Let z : nat := if whole then 47%nat else (111 - k)%nat.
Let e : nat := if whole then 1%nat else 2%nat.
Let end_bytes : list Z := tail ++ last_byte rem (data !!! m) :: replicate z 0 ++ rev (le_bytes 16 n).

Lemma whole_cases : whole = true /\ k = 0%nat /\ rem = 0%nat \/ whole = false /\ ~ (k = 0%nat /\ rem = 0%nat).
Proof using All. unfold whole. destruct (Nat.eqb_spec k 0), (Nat.eqb_spec rem 0); cbn [andb]; auto; right; split; auto; lia. Qed.

Lemma jh_length_end : length end_bytes = (64 * e)%nat.
Proof using All.
  destruct jh_msg_numbers as (_&_&_&Hk&_). unfold end_bytes. rewrite length_app, jh_length_tail. cbn [length].
  rewrite length_app, length_replicate, length_rev, length_le_bytes. unfold z, e. destruct whole_cases as [(-> & H1 & H2) | (-> & H)]; lia.
Qed.

Lemma jh_pad_spec : pack (jh_pad (message_bits data (Z.to_nat n))) = take (64 * q) data ++ end_bytes.
Proof using All.
  destruct jh_msg_numbers as (_&_&Hr&Hk&E&H&Hl&_&En). unfold jh_pad. cbv zeta. rewrite length_message_bits by exact Ld.
  assert (Ew : (383 + (512 - Z.to_nat n mod 512) mod 512 = 7 - rem + 8 * z)%nat).
  { replace (Z.to_nat n) with (8 * k + rem + q * 512)%nat by lia. rewrite Nat.Div0.mod_add, (Nat.mod_small (8 * k + rem)) by lia.
    unfold z. destruct whole_cases as [(-> & H1 & H2) | (-> & HH)].
    - rewrite H1, H2. change ((512 - (8 * 0 + 0)) mod 512)%nat with 0%nat. lia.
    - rewrite Nat.mod_small by lia. lia. }
  rewrite Ew, Z2Nat.id by lia. replace (Z.to_nat n) with (8 * m + rem)%nat by lia. rewrite pack_padded by assumption.
  rewrite pack_bits_of by (apply Forall_rev, le_bytes_ok). unfold end_bytes. rewrite app_assoc. f_equal.
  unfold tail. rewrite E, <- (take_take_drop data (64 * q) k). reflexivity.
Qed.

Lemma length_bytes : rev (le_bytes 16 n) = replicate 8 0 ++ rev (le_bytes 8 n).
Proof using All. change 16%nat with (8 + 8)%nat. rewrite (le_bytes_zeros 8 8 n) by exact Hn. rewrite rev_app_distr. reflexivity. Qed.
Lemma tail_ok : byte_ok tail.
Proof using All. by apply Forall_take, Forall_drop. Qed.
Lemma length_block_ok b : is_byte b -> byte_ok (b :: replicate 55 0 ++ rev (le_bytes 8 n)).
Proof using All. intros Hb. constructor; [exact Hb|]. apply Forall_app. split; [by apply Forall_replicate | apply Forall_rev, le_bytes_ok]. Qed.

(** The block with the end of the data. *)
Lemma last_data_block rest : length (take (if (rem =? 0)%nat then k else S k) (drop (64 * q) data) ++ rest) = 64%nat -> whole = false ->
  let buf := take (if (rem =? 0)%nat then k else S k) (drop (64 * q) data) ++ rest in
  let buf := if (rem =? 0)%nat then zero_from k buf else zero_from (k + 1) buf in
  <[k := Z.lor (buf !!! k) (Z.shiftl 1 (7 - Z.of_nat rem))]> buf = tail ++ last_byte rem (data !!! m) :: replicate (63 - k) 0.
Proof using All.
  destruct jh_msg_numbers as (Em&Er&Hr&Hk&E&H&Hl&_&_). intros Lb _. pose proof jh_length_tail as LT. cbv zeta. destruct (Nat.eqb_spec rem 0) as [R0 | R0].
  - fold tail in Lb |- *. rewrite zero_from_spec by (exact Lb || lia). rewrite take_app_le, take_ge by lia.
    replace (64 - k)%nat with (S (63 - k)) by lia. cbn [replicate]. rewrite <- LT at 1 2. rewrite lookup_total_app_r, Nat.sub_diag by lia.
    rewrite insert_app_r_alt, Nat.sub_diag by lia. cbn [lookup_total list_lookup_total insert list_insert]. by rewrite R0, last_byte_0.
  - destruct Hl as [Hl | Hl]; [|lia]. rewrite Nat.add_1_r. rewrite zero_from_spec by (exact Lb || lia).
    assert (ET : take (S k) (drop (64 * q) data) = tail ++ [data !!! m]).
    { rewrite (take_S_r _ _ (data !!! m)); [done|]. rewrite lookup_drop, <- E. apply list_lookup_lookup_total_lt. lia. }
    rewrite ET in Lb |- *. rewrite take_app_le, take_ge by (rewrite length_app, LT; cbn [length]; lia).
    replace (64 - S k)%nat with (63 - k)%nat by lia. rewrite <- app_assoc. cbn [app]. rewrite <- LT at 1 2.
    rewrite lookup_total_app_r, Nat.sub_diag by lia. rewrite insert_app_r_alt, Nat.sub_diag by lia.
    cbn [lookup_total list_lookup_total insert list_insert]. do 2 f_equal. apply last_byte_or; [lia | apply (Forall_lookup_total_1 _ _ m Bd); lia|].
    destruct Hz as [Hz0 | Hz0]; [lia|]. by rewrite Er in Hz0.
Qed.

Lemma jh_last_ok : is_byte (last_byte rem (data !!! m)).
Proof using All.
  destruct jh_msg_numbers as (_&_&Hr&_&_&_&[Hl|Hl]&_).
  - apply last_byte_range; [exact Hr|]. apply (Forall_lookup_total_1 _ _ m Bd). lia.
  - rewrite Hl, last_byte_0. unfold is_byte. lia.
Qed.
Lemma last_block_ok : byte_ok (tail ++ last_byte rem (data !!! m) :: replicate (63 - k) 0).
Proof using All.
  apply Forall_app. split; [apply tail_ok|]. constructor; [apply jh_last_ok | by apply Forall_replicate].
Qed.

Lemma truncate_spec h s : holds h s -> hashbitlen s = size -> truncate s = Some (drop (Z.to_nat (128 - size / 8)) h).
Proof using All.
  intros (Hx & <- & _) E. unfold truncate. rewrite E. assert (L : length (bytes_of (x s)) = 128%nat) by (rewrite length_bytes_of; destruct Hx as [-> _]; reflexivity).
  cbv zeta. assert (G : forall a b, (a + b = 128)%nat -> take b (drop a (bytes_of (x s))) = drop a (bytes_of (x s))) by (intros; apply take_ge; rewrite length_drop; lia).
  destruct Hs as [-> | [-> | [-> | ->]]]; (rewrite !G by reflexivity; reflexivity).
Qed.

Lemma pad_blocks_spec s : holds chain s -> hashbitlen s = size -> databitlen s = n ->
  (Z.of_nat k * 8 + Z.of_nat rem = 0 \/ Z.of_nat k * 8 + Z.of_nat rem <> 0 /\ datasize_in_buffer s = 8 * Z.of_nat k + Z.of_nat rem /\
    exists rest, buffer s = take (if (rem =? 0)%nat then k else S k) (drop (64 * q) data) ++ rest) ->
  holds (foldl compress_F8 chain (blocks 64 e end_bytes)) (pad_blocks s) /\ hashbitlen (pad_blocks s) = size.
Proof using All.
  intros Hc P1 P2 HB. destruct jh_msg_numbers as (Em&Er&Hr&Hk&E&H&Hl&Eq&En). unfold pad_blocks. rewrite P2. cbv zeta.
  assert (E9 : Z.land n 0x1ff = 8 * Z.of_nat k + Z.of_nat rem).
  { change 0x1ff with (Z.ones 9). rewrite Z.land_ones by lia.
    replace n with (8 * Z.of_nat k + Z.of_nat rem + Z.of_nat q * 2 ^ 9) by lia. rewrite Z.mod_add, Z.mod_small by lia. lia. }
  assert (E7 : Z.land n 7 = Z.of_nat rem) by (change 7 with (Z.ones 3); rewrite Z.land_ones by lia; exact Er).
  rewrite E9, E7.
  pose proof jh_length_end as LE. unfold end_bytes, e, z in LE |- *. destruct whole_cases as [(HW & Hk0 & Hr0) | (HW & HN)].
  - rewrite HW in LE |- *. rewrite Hk0, Hr0. change (8 * Z.of_nat 0 + Z.of_nat 0 =? 0) with true. cbv iota.
    assert (ET : tail = []) by (apply nil_length_inv; rewrite jh_length_tail; exact Hk0). rewrite ET in LE |- *. cbn [app] in LE |- *. rewrite last_byte_0.
    change (<[0%nat := 0x80]> (replicate 64 0)) with (0x80 :: replicate 63 0). rewrite store_length_spec by exact Hn.
    rewrite length_bytes. rewrite (app_assoc (replicate 47 0)), <- replicate_add. cbn [Nat.add].
    set (buf := 128 :: replicate 55 0 ++ rev (le_bytes 8 n)).
    assert (Lb : length buf = 64%nat) by (unfold buf; cbn [length]; rewrite length_app, length_replicate, length_rev, length_le_bytes; lia).
    destruct (F8_holds chain (set_buffer buf s)) as (v & EF & HF); [destruct Hc as (?&?&_); by split | apply length_block_ok; unfold is_byte; lia|].
    cbn [blocks foldl]. rewrite take_ge by lia. split; [exact HF|]. rewrite EF. exact P1.
  - replace (8 * Z.of_nat k + Z.of_nat rem =? 0) with false by lia. cbv iota. rewrite HW in LE |- *.
    destruct HB as [HB | (_ & PD & rest & EB)]; [lia|]. rewrite PD.
    assert (ER : 8 * Z.of_nat k + Z.of_nat rem = Z.of_nat rem + Z.of_nat k * 2 ^ 3) by lia.
    assert (E3 : Z.land (8 * Z.of_nat k + Z.of_nat rem) 7 = Z.of_nat rem).
    { change 7 with (Z.ones 3). rewrite Z.land_ones by lia. rewrite ER, Z.mod_add, Z.mod_small by lia. lia. }
    assert (ES : Z.shiftr (8 * Z.of_nat k + Z.of_nat rem) 3 = Z.of_nat k).
    { rewrite Z.shiftr_div_pow2 by lia. rewrite ER, Z.div_add, Z.div_small by lia. lia. }
    rewrite E3, ES.
    rewrite Nat2Z.id. replace (Z.of_nat rem =? 0) with (rem =? 0)%nat by (destruct (Nat.eqb_spec rem 0); destruct (Z.eqb_spec (Z.of_nat rem) 0); lia).
    assert (Lb0 : length (buffer s) = 64%nat) by apply Hc. rewrite EB in Lb0 |- *. rewrite (last_data_block rest Lb0 HW).
    set (buf1 := tail ++ last_byte rem (data !!! m) :: replicate (63 - k) 0).
    assert (Lb1 : length buf1 = 64%nat) by (unfold buf1; rewrite length_app, jh_length_tail; cbn [length]; rewrite length_replicate; lia).
    destruct (F8_holds chain (set_buffer buf1 s)) as (v1 & EF1 & HF1); [destruct Hc as (?&?&_); by split | apply last_block_ok|]. cbn [buffer set_buffer] in HF1.
    set (s1 := F8 (set_buffer buf1 s)) in *. assert (D1 : databitlen s1 = n) by (rewrite EF1; exact P2). assert (D2 : hashbitlen s1 = size) by (rewrite EF1; exact P1).
    rewrite D1. change (replicate 64 0) with (0 :: replicate 63 0). rewrite store_length_spec by exact Hn.
    set (buf2 := 0 :: replicate 55 0 ++ rev (le_bytes 8 n)).
    assert (Lb2 : length buf2 = 64%nat) by (unfold buf2; cbn [length]; rewrite length_app, length_replicate, length_rev, length_le_bytes; lia).
    clearbody s1. clear EF1.
    destruct (F8_holds (compress_F8 chain buf1) (set_buffer buf2 s1)) as (v2 & EF2 & HF2); [destruct HF1 as (?&?&_); by split | apply length_block_ok; unfold is_byte; lia|].
    assert (EE : tail ++ last_byte rem (data !!! m) :: replicate (111 - k) 0 ++ rev (le_bytes 16 n) = buf1 ++ buf2).
    { unfold buf1, buf2. rewrite length_bytes, <- app_assoc. cbn [app]. do 2 f_equal.
      change (0 :: replicate 55 0 ++ rev (le_bytes 8 n)) with (replicate 56 0 ++ rev (le_bytes 8 n)). rewrite !app_assoc, <- !replicate_add. do 2 f_equal. lia. }
    rewrite EE. cbn [blocks foldl]. rewrite take_app_length', drop_app_length' by (symmetry; exact Lb1). rewrite take_ge by lia.
    split; [exact HF2|]. rewrite EF2. exact D2.
Qed.

Lemma jh_spec : jh_hash state0 size data n = Some (SUCCESS, Some (JH size (message_bits data (Z.to_nat n)))).
Proof using All.
  unfold jh_hash. replace ((size =? 224) || (size =? 256) || (size =? 384) || (size =? 512)) with true by (by destruct Hs as [-> | [-> | [-> | ->]]]).
  destruct jh_Update_spec as (s' & EU & Hc & P1 & P2 & HB). rewrite EU. cbn [mbind option_bind]. unfold Final.
  destruct (pad_blocks_spec s' Hc P1 P2 HB) as [HF PF]. rewrite (truncate_spec _ _ HF PF). unfold JH. cbv zeta.
  destruct jh_msg_numbers as (_&_&_&_&E&H&_). rewrite jh_pad_spec, (blocks_padded q e) by (lia || exact jh_length_end). by rewrite foldl_app.
Qed.
End Message.

(** C17. For the four sizes [jh_hash] returns SUCCESS and the hash JH of the message of bits, whose
    unused bits in its last byte are zeros; no [memcpy] leaves its buffers, and what the state
    holds before does not matter. Every other size is refused and nothing is written. *)
Theorem jh_hash_correct (state0 : hashState) (size : Z) (data : list Z) (databitlen : Z)
  (Bd : byte_ok data) (L0 : length (buffer state0) = 64%nat)
  (Hn : 0 <= databitlen < 2 ^ 64) (Ld : databitlen <= 8 * Z.of_nat (length data))
  (Hz : databitlen mod 8 = 0 \/ Z.land (data !!! Z.to_nat (databitlen / 8)) (2 ^ (8 - databitlen mod 8) - 1) = 0) :
  jh_hash state0 size data databitlen =
  if bool_decide (size = 224 \/ size = 256 \/ size = 384 \/ size = 512)
  then Some (SUCCESS, Some (JH size (message_bits data (Z.to_nat databitlen)))) else Some (BAD_HASHLEN, None).
Proof.
  destruct (bool_decide_reflect (size = 224 \/ size = 256 \/ size = 384 \/ size = 512)) as [Hs | Hs]; [by apply jh_spec|].
  unfold jh_hash. replace ((size =? 224) || (size =? 256) || (size =? 384) || (size =? 512)) with false; [done | lia].
Qed.

Lemma jh_hash_correct_witness : byte_ok [0x61; 0x62; 0xe0] /\
  jh_hash (HashState 0 0 0 [] (replicate 64 7)) 256 [0x61; 0x62; 0xe0] 19 =
  Some (SUCCESS, Some (JH 256 (message_bits [0x61; 0x62; 0xe0] 19))).
Proof.
  assert (B : byte_ok [0x61; 0x62; 0xe0]) by (repeat constructor; lia). split; [exact B|].
  exact (jh_hash_correct (HashState 0 0 0 [] (replicate 64 7)) 256 [0x61; 0x62; 0xe0] 19 B eq_refl ltac:(lia) ltac:(cbn; lia) ltac:(right; reflexivity)).
Defined.

(** ** Short updates *)

(** An update that leaves the buffer partly filled, after another one that did, copies as many bytes
    as the buffer has left and not as many as there are: it reads past the end of shorter data;
    with a length that is not whole bytes it also writes one byte past the end of the buffer. *)
Theorem jh_update_overrun (state : hashState) (data : list Z) (databitlen0 : Z)
  (Lb : length (buffer state) = 64%nat) (Hd : 8 <= datasize_in_buffer state) (Hn : 0 <= databitlen0)
  (Hs : datasize_in_buffer state + databitlen0 < 512)
  (Ho : Z.of_nat (length data) < 64 - datasize_in_buffer state / 8 \/ databitlen0 mod 8 <> 0) :
  Update state data databitlen0 = None.
Proof.
  unfold Update. cbv zeta. cbn [datasize_in_buffer set_databitlen buffer].
  rewrite (u64_id (datasize_in_buffer state + databitlen0)) by lia.
  replace (0 <? datasize_in_buffer state) with true by lia.
  replace (datasize_in_buffer state + databitlen0 <? 512) with true by lia. cbn [andb].
  rewrite Z.shiftr_div_pow2 by lia. change (2 ^ 3) with 8. set (o := datasize_in_buffer state / 8) in *.
  assert (Ho2 : 1 <= o < 64) by (unfold o; split; [apply Z.div_le_lower_bound; lia | apply Z.div_lt_upper_bound; lia]).
  change 7 with (Z.ones 3). rewrite Z.land_ones by lia. change (2 ^ 3) with 8. rewrite (u64_id (64 - o)), (u64_id (64 - o + 1)) by lia. unfold memcpy. rewrite Lb.
  destruct (Z.eqb_spec (databitlen0 mod 8) 0) as [E | E].
  - destruct Ho as [Ho | Ho]; [|lia]. replace (0 + (64 - o) <=? Z.of_nat (length data)) with false by lia. reflexivity.
  - replace (o + (64 - o + 1) <=? Z.of_nat 64) with false by (symmetry; apply Z.leb_gt; lia). rewrite andb_false_r. reflexivity.
Qed.

Lemma jh_update_overrun_witness :
  let state := HashState 256 8 8 (replicate 16 0) (replicate 64 0) in
  datasize_in_buffer state = 8 /\ Update state [0x61] 8 = None.
Proof.
  split; [reflexivity|]. apply (jh_update_overrun (HashState 256 8 8 (replicate 16 0) (replicate 64 0)) [0x61] 8);
    [reflexivity | cbn; lia | lia | cbn; lia | left; reflexivity].
Defined.
