(* ===== verification/Skein.v ===== *)
(** * Skein (src/Native/libcryptonote/crypto/skein.c, hash-extra-skein.c)

    The block functions for the three sizes, written out as in the code: the words
    of the state are never permuted, the rounds address them in permuted order; the
    tweak and the key schedule share the array [kw] (the tweak [ts] starts at its
    word 0, the key [ks] at its word 3), and the looping version for 1024 bits
    extends both of them in it. [kw0] is that array before, not initialised. The
    functions around the block functions are the same text three times; they are
    stated once and instantiated. Checks of the macro Skein_Assert are compiled out. *)

From Stdlib Require Import ZArith Lia.
From stdpp Require Import base tactics list numbers option.
From S2P Require Import Prelude Radix Words.
Open Scope Z_scope.

(** * Constants of Skein (src/Native/libcryptonote/crypto/skein.c)

    The rotation constants of the rounds and the precomputed initial values. *)

Definition R_256 : list (list Z) := [
  [14; 16];
  [52; 57];
  [23; 40];
  [5; 37];
  [25; 33];
  [46; 12];
  [58; 22];
  [32; 32]].
Definition R_512 : list (list Z) := [
  [46; 36; 19; 37];
  [33; 27; 14; 42];
  [17; 49; 36; 39];
  [44; 9; 54; 56];
  [39; 30; 34; 24];
  [13; 50; 10; 17];
  [25; 29; 39; 43];
  [8; 35; 56; 22]].
Definition R1024 : list (list Z) := [
  [24; 13; 8; 47; 8; 17; 22; 37];
  [38; 19; 10; 55; 49; 18; 23; 52];
  [33; 4; 51; 13; 34; 41; 59; 17];
  [5; 20; 48; 41; 47; 28; 16; 25];
  [41; 9; 37; 31; 12; 47; 44; 30];
  [16; 34; 56; 51; 4; 53; 42; 41];
  [31; 44; 47; 46; 19; 42; 44; 25];
  [9; 48; 35; 52; 23; 31; 37; 20]].

Definition SKEIN_MK_64 (hi32 lo32 : Z) : Z := lo32 + Z.shiftl hi32 32.
Abbreviation MK_64 := SKEIN_MK_64.

Definition SKEIN_256_IV_128 : list Z := [
  MK_64 0xE1111906 0x964D7260; MK_64 0x883DAAA7 0x7C8D811C; MK_64 0x10080DF4 0x91960F7A; MK_64 0xCCF7DDE5 0xB45BC1C2].
Definition SKEIN_256_IV_160 : list Z := [
  MK_64 0x14202314 0x72825E98; MK_64 0x2AC4E9A2 0x5A77E590; MK_64 0xD47A5856 0x8838D63E; MK_64 0x2DD2E496 0x8586AB7D].
Definition SKEIN_256_IV_224 : list Z := [
  MK_64 0xC6098A8C 0x9AE5EA0B; MK_64 0x876D5686 0x08C5191C; MK_64 0x99CB88D7 0xD7F53884; MK_64 0x384BDDB1 0xAEDDB5DE].
Definition SKEIN_256_IV_256 : list Z := [
  MK_64 0xFC9DA860 0xD048B449; MK_64 0x2FCA6647 0x9FA7D833; MK_64 0xB33BC389 0x6656840F; MK_64 0x6A54E920 0xFDE8DA69].
Definition SKEIN_512_IV_128 : list Z := [
  MK_64 0xA8BC7BF3 0x6FBF9F52; MK_64 0x1E9872CE 0xBD1AF0AA; MK_64 0x309B1790 0xB32190D3; MK_64 0xBCFBB854 0x3F94805C;
  MK_64 0x0DA61BCD 0x6E31B11B; MK_64 0x1A18EBEA 0xD46A32E3; MK_64 0xA2CC5B18 0xCE84AA82; MK_64 0x6982AB28 0x9D46982D].
Definition SKEIN_512_IV_160 : list Z := [
  MK_64 0x28B81A2A 0xE013BD91; MK_64 0xC2F11668 0xB5BDF78F; MK_64 0x1760D8F3 0xF6A56F12; MK_64 0x4FB74758 0x8239904F;
  MK_64 0x21EDE07F 0x7EAF5056; MK_64 0xD908922E 0x63ED70B8; MK_64 0xB8EC76FF 0xECCB52FA; MK_64 0x01A47BB8 0xA3F27A6E].
Definition SKEIN_512_IV_224 : list Z := [
  MK_64 0xCCD06162 0x48677224; MK_64 0xCBA65CF3 0xA92339EF; MK_64 0x8CCD69D6 0x52FF4B64; MK_64 0x398AED7B 0x3AB890B4;
  MK_64 0x0F59D1B1 0x457D2BD0; MK_64 0x6776FE65 0x75D4EB3D; MK_64 0x99FBC70E 0x997413E9; MK_64 0x9E2CFCCF 0xE1C41EF7].
Definition SKEIN_512_IV_256 : list Z := [
  MK_64 0xCCD044A1 0x2FDB3E13; MK_64 0xE8359030 0x1A79A9EB; MK_64 0x55AEA061 0x4F816E6F; MK_64 0x2A2767A4 0xAE9B94DB;
  MK_64 0xEC06025E 0x74DD7683; MK_64 0xE7A436CD 0xC4746251; MK_64 0xC36FBAF9 0x393AD185; MK_64 0x3EEDBA18 0x33EDFC13].
Definition SKEIN_512_IV_384 : list Z := [
  MK_64 0xA3F6C6BF 0x3A75EF5F; MK_64 0xB0FEF9CC 0xFD84FAA4; MK_64 0x9D77DD66 0x3D770CFE; MK_64 0xD798CBF3 0xB468FDDA;
  MK_64 0x1BC4A666 0x8A0E4465; MK_64 0x7ED7D434 0xE5807407; MK_64 0x548FC1AC 0xD4EC44D6; MK_64 0x266E1754 0x6AA18FF8].
Definition SKEIN_512_IV_512 : list Z := [
  MK_64 0x4903ADFF 0x749C51CE; MK_64 0x0D95DE39 0x9746DF03; MK_64 0x8FD19341 0x27C79BCE; MK_64 0x9A255629 0xFF352CB1;
  MK_64 0x5DB62599 0xDF6CA7B0; MK_64 0xEABE394C 0xA9D5C3F4; MK_64 0x991112C7 0x1A75B523; MK_64 0xAE18A40B 0x660FCC33].
Definition SKEIN1024_IV_384 : list Z := [
  MK_64 0x5102B6B8 0xC1894A35; MK_64 0xFEEBC9E3 0xFE8AF11A; MK_64 0x0C807F06 0xE32BED71; MK_64 0x60C13A52 0xB41A91F6;
  MK_64 0x9716D35D 0xD4917C38; MK_64 0xE780DF12 0x6FD31D3A; MK_64 0x797846B6 0xC898303A; MK_64 0xB172C2A8 0xB3572A3B;
  MK_64 0xC9BC8203 0xA6104A6C; MK_64 0x65909338 0xD75624F4; MK_64 0x94BCC568 0x4B3F81A0; MK_64 0x3EBBF51E 0x10ECFD46;
  MK_64 0x2DF50F0B 0xEEB08542; MK_64 0x3B5A6530 0x0DBC6516; MK_64 0x484B9CD2 0x167BBCE1; MK_64 0x2D136947 0xD4CBAFEA].
Definition SKEIN1024_IV_512 : list Z := [
  MK_64 0xCAEC0E5D 0x7C1B1B18; MK_64 0xA01B0E04 0x5F03E802; MK_64 0x33840451 0xED912885; MK_64 0x374AFB04 0xEAEC2E1C;
  MK_64 0xDF25A0E2 0x813581F7; MK_64 0xE4004093 0x8B12F9D2; MK_64 0xA662D539 0xC2ED39B6; MK_64 0xFA8B85CF 0x45D8C75A;
  MK_64 0x8316ED8E 0x29EDE796; MK_64 0x053289C0 0x2E9F91B8; MK_64 0xC3F8EF1D 0x6D518B73; MK_64 0xBDCEC3C4 0xD5EF332E;
  MK_64 0x549A7E52 0x22974487; MK_64 0x67070872 0x5B749816; MK_64 0xB9CD28FB 0xF0581BD1; MK_64 0x0E2940B8 0x15804974].
Definition SKEIN1024_IV_1024 : list Z := [
  MK_64 0xD593DA07 0x41E72355; MK_64 0x15B5E511 0xAC73E00C; MK_64 0x5180E5AE 0xBAF2C4F0; MK_64 0x03BD41D3 0xFCBCAFAF;
  MK_64 0x1CAEC6FD 0x1983A898; MK_64 0x6E510B8B 0xCDD0589F; MK_64 0x77E2BDFD 0xC6394ADA; MK_64 0xC11E1DB5 0x24DCB0A3;
  MK_64 0xD6D14AF9 0xC6329AB5; MK_64 0x6A9B0BFC 0x6EB67E0D; MK_64 0x9243C60D 0xCCFF1332; MK_64 0x1A1F1DDE 0x743F02D4;
  MK_64 0x0996753C 0x10ED0BB8; MK_64 0x6572DD22 0xF2B4969A; MK_64 0x61FD3062 0xD00A579A; MK_64 0x1DE0536E 0x8682E539].

(** * Skein (src/Native/libcryptonote/crypto/skein.c, hash-extra-skein.c) *)

Inductive HashReturn : Type := SKEIN_SUCCESS | SKEIN_FAIL | SKEIN_BAD_HASHLEN.

(** The header [h] and the arrays [X] and [b]. *)
Record Skein_Ctxt := Ctxt { hashBitLen : Z; bCnt : Z; T0 : Z; T1 : Z; X : list Z; b : list Z }.
Definition set_bCnt (v : Z) (c : Skein_Ctxt) : Skein_Ctxt := Ctxt (hashBitLen c) v (T0 c) (T1 c) (X c) (b c).
Definition Skein_Set_T0_T1 (t0 t1 : Z) (c : Skein_Ctxt) : Skein_Ctxt := Ctxt (hashBitLen c) (bCnt c) t0 t1 (X c) (b c).
Definition set_X (v : list Z) (c : Skein_Ctxt) : Skein_Ctxt := Ctxt (hashBitLen c) (bCnt c) (T0 c) (T1 c) v (b c).
Definition set_b (v : list Z) (c : Skein_Ctxt) : Skein_Ctxt := Ctxt (hashBitLen c) (bCnt c) (T0 c) (T1 c) (X c) v.
Definition set_hashBitLen (v : Z) (c : Skein_Ctxt) : Skein_Ctxt := Ctxt v (bCnt c) (T0 c) (T1 c) (X c) (b c).

Definition SKEIN_T1_FLAG_FIRST : Z := Z.shiftl 1 (126 - 64).
Definition SKEIN_T1_FLAG_FINAL : Z := Z.shiftl 1 (127 - 64).
Definition SKEIN_T1_FLAG_BIT_PAD : Z := Z.shiftl 1 (119 - 64).
Definition SKEIN_T1_BLK_TYPE (type : Z) : Z := Z.shiftl type (120 - 64).
Definition SKEIN_BLK_TYPE_CFG : Z := 4.
Definition SKEIN_BLK_TYPE_MSG : Z := 48.
Definition SKEIN_BLK_TYPE_OUT : Z := 63.
Definition SKEIN_T1_BLK_TYPE_CFG_FINAL : Z := Z.lor (SKEIN_T1_BLK_TYPE SKEIN_BLK_TYPE_CFG) SKEIN_T1_FLAG_FINAL.
Definition SKEIN_T1_BLK_TYPE_OUT_FINAL : Z := Z.lor (SKEIN_T1_BLK_TYPE SKEIN_BLK_TYPE_OUT) SKEIN_T1_FLAG_FINAL.
Definition SKEIN_ID_STRING_LE : Z := 0x33414853.
Definition SKEIN_VERSION : Z := 1.
Definition SKEIN_SCHEMA_VER : Z := SKEIN_MK_64 SKEIN_VERSION SKEIN_ID_STRING_LE.
Definition SKEIN_KS_PARITY : Z := SKEIN_MK_64 0x1BD11BDA 0xA9FC1A22.
Definition SKEIN_CFG_STR_LEN : Z := 4 * 8.
Definition SKEIN_CFG_TREE_INFO_SEQUENTIAL : Z := 0.

Definition Skein_Start_New_Type (type : Z) (c : Skein_Ctxt) : Skein_Ctxt :=
  set_bCnt 0 (Skein_Set_T0_T1 0 (Z.lor SKEIN_T1_FLAG_FIRST type) c).

(** ** The block functions *)

Definition RotL_64 (x N : Z) : Z := Z.lor (u64 (Z.shiftl x N)) (Z.shiftr x (64 - N)).
Definition Skein_Get64_LSB_First (src : list Z) (wCnt : nat) : list Z := map (fun i => le_val (take 8 (drop (8 * i) src))) (seq 0 wCnt).
Definition Skein_Put64_LSB_First (src : list Z) (bCnt : nat) : list Z := take bCnt (concat (map (le_bytes 8) src)).

Definition KW_TWK_BASE : nat := 0.
Definition KW_KEY_BASE : nat := 3.
Definition ts (kw : list Z) (i : nat) : Z := kw !!! (KW_TWK_BASE + i)%nat.
Definition ks (kw : list Z) (i : nat) : Z := kw !!! (KW_KEY_BASE + i)%nat.
Definition set_ts (i : nat) (v : Z) (kw : list Z) : list Z := <[(KW_TWK_BASE + i)%nat := v]> kw.
Definition set_ks (i : nat) (v : Z) (kw : list Z) : list Z := <[(KW_KEY_BASE + i)%nat := v]> kw.

(** [X##p0 += X##p1; X##p1 = RotL_64(X##p1,ROT); X##p1 ^= X##p0;] *)
Definition mix (p0 p1 : nat) (ROT : Z) (X : list Z) : list Z :=
  let X := <[p0 := u64 (X !!! p0 + X !!! p1)]> X in
  let X := <[p1 := RotL_64 (X !!! p1) ROT]> X in
  <[p1 := Z.lxor (X !!! p1) (X !!! p0)]> X.
Definition add_to (i : nat) (v : Z) (X : list Z) : list Z := <[i := u64 (X !!! i + v)]> X.

Definition Round256 (p0 p1 p2 p3 : nat) (ROT : list Z) (X : list Z) : list Z :=
  let X := mix p0 p1 (ROT !!! 0%nat) X in mix p2 p3 (ROT !!! 1%nat) X.
Definition I256 (kw : list Z) (R : nat) (X : list Z) : list Z :=
  let X := add_to 0 (ks kw ((R + 1) mod 5)) X in
  let X := add_to 1 (u64 (ks kw ((R + 2) mod 5) + ts kw ((R + 1) mod 3))) X in
  let X := add_to 2 (u64 (ks kw ((R + 3) mod 5) + ts kw ((R + 2) mod 3))) X in
  add_to 3 (u64 (ks kw ((R + 4) mod 5) + Z.of_nat R + 1)) X.
Definition R256_8_rounds (kw : list Z) (X : list Z) (R : nat) : list Z :=
  let X := Round256 0 1 2 3 (R_256 !!! 0%nat) X in let X := Round256 0 3 2 1 (R_256 !!! 1%nat) X in
  let X := Round256 0 1 2 3 (R_256 !!! 2%nat) X in let X := Round256 0 3 2 1 (R_256 !!! 3%nat) X in
  let X := I256 kw (2 * R) X in
  let X := Round256 0 1 2 3 (R_256 !!! 4%nat) X in let X := Round256 0 3 2 1 (R_256 !!! 5%nat) X in
  let X := Round256 0 1 2 3 (R_256 !!! 6%nat) X in let X := Round256 0 3 2 1 (R_256 !!! 7%nat) X in
  I256 kw (2 * R + 1) X.

Definition Round512 (p0 p1 p2 p3 p4 p5 p6 p7 : nat) (ROT : list Z) (X : list Z) : list Z :=
  let X := mix p0 p1 (ROT !!! 0%nat) X in let X := mix p2 p3 (ROT !!! 1%nat) X in
  let X := mix p4 p5 (ROT !!! 2%nat) X in mix p6 p7 (ROT !!! 3%nat) X.
Definition I512 (kw : list Z) (R : nat) (X : list Z) : list Z :=
  let X := add_to 0 (ks kw ((R + 1) mod 9)) X in
  let X := add_to 1 (ks kw ((R + 2) mod 9)) X in
  let X := add_to 2 (ks kw ((R + 3) mod 9)) X in
  let X := add_to 3 (ks kw ((R + 4) mod 9)) X in
  let X := add_to 4 (ks kw ((R + 5) mod 9)) X in
  let X := add_to 5 (u64 (ks kw ((R + 6) mod 9) + ts kw ((R + 1) mod 3))) X in
  let X := add_to 6 (u64 (ks kw ((R + 7) mod 9) + ts kw ((R + 2) mod 3))) X in
  add_to 7 (u64 (ks kw ((R + 8) mod 9) + Z.of_nat R + 1)) X.
Definition R512_8_rounds (kw : list Z) (X : list Z) (R : nat) : list Z :=
  let X := Round512 0 1 2 3 4 5 6 7 (R_512 !!! 0%nat) X in
  let X := Round512 2 1 4 7 6 5 0 3 (R_512 !!! 1%nat) X in
  let X := Round512 4 1 6 3 0 5 2 7 (R_512 !!! 2%nat) X in
  let X := Round512 6 1 0 7 2 5 4 3 (R_512 !!! 3%nat) X in
  let X := I512 kw (2 * R) X in
  let X := Round512 0 1 2 3 4 5 6 7 (R_512 !!! 4%nat) X in
  let X := Round512 2 1 4 7 6 5 0 3 (R_512 !!! 5%nat) X in
  let X := Round512 4 1 6 3 0 5 2 7 (R_512 !!! 6%nat) X in
  let X := Round512 6 1 0 7 2 5 4 3 (R_512 !!! 7%nat) X in
  I512 kw (2 * R + 1) X.

Definition Round1024 (p0 p1 p2 p3 p4 p5 p6 p7 p8 p9 pA pB pC pD pE pF : nat) (ROT : list Z) (X : list Z) : list Z :=
  let X := mix p0 p1 (ROT !!! 0%nat) X in let X := mix p2 p3 (ROT !!! 1%nat) X in
  let X := mix p4 p5 (ROT !!! 2%nat) X in let X := mix p6 p7 (ROT !!! 3%nat) X in
  let X := mix p8 p9 (ROT !!! 4%nat) X in let X := mix pA pB (ROT !!! 5%nat) X in
  let X := mix pC pD (ROT !!! 6%nat) X in mix pE pF (ROT !!! 7%nat) X.
(** The looping version: [X] and the extended [kw]. *)
Definition I1024 (r R : nat) (kwX : list Z * list Z) : list Z * list Z :=
  let '(kw, X) := kwX in
  let X := add_to 0 (ks kw (r + R + 0)) X in
  let X := add_to 1 (ks kw (r + R + 1)) X in
  let X := add_to 2 (ks kw (r + R + 2)) X in
  let X := add_to 3 (ks kw (r + R + 3)) X in
  let X := add_to 4 (ks kw (r + R + 4)) X in
  let X := add_to 5 (ks kw (r + R + 5)) X in
  let X := add_to 6 (ks kw (r + R + 6)) X in
  let X := add_to 7 (ks kw (r + R + 7)) X in
  let X := add_to 8 (ks kw (r + R + 8)) X in
  let X := add_to 9 (ks kw (r + R + 9)) X in
  let X := add_to 10 (ks kw (r + R + 10)) X in
  let X := add_to 11 (ks kw (r + R + 11)) X in
  let X := add_to 12 (ks kw (r + R + 12)) X in
  let X := add_to 13 (u64 (ks kw (r + R + 13) + ts kw (r + R + 0))) X in
  let X := add_to 14 (u64 (ks kw (r + R + 14) + ts kw (r + R + 1))) X in
  let X := add_to 15 (u64 (ks kw (r + R + 15) + Z.of_nat r + Z.of_nat R)) X in
  let kw := set_ks (r + R + 16) (ks kw (r + R - 1)) kw in
  let kw := set_ts (r + R + 2) (ts kw (r + R - 1)) kw in
  (kw, X).
Definition on_X (f : list Z -> list Z) (kwX : list Z * list Z) : list Z * list Z := (fst kwX, f (snd kwX)).
Definition R1024_8_rounds (kwX : list Z * list Z) (r R : nat) : list Z * list Z :=
  let kwX := on_X (Round1024 0 1 2 3 4 5 6 7 8 9 10 11 12 13 14 15 (R1024 !!! 0%nat)) kwX in
  let kwX := on_X (Round1024 0 9 2 13 6 11 4 15 10 7 12 3 14 5 8 1 (R1024 !!! 1%nat)) kwX in
  let kwX := on_X (Round1024 0 7 2 5 4 3 6 1 12 15 14 13 8 11 10 9 (R1024 !!! 2%nat)) kwX in
  let kwX := on_X (Round1024 0 15 2 11 6 13 4 9 14 1 8 5 10 3 12 7 (R1024 !!! 3%nat)) kwX in
  let kwX := I1024 r (2 * R) kwX in
  let kwX := on_X (Round1024 0 1 2 3 4 5 6 7 8 9 10 11 12 13 14 15 (R1024 !!! 4%nat)) kwX in
  let kwX := on_X (Round1024 0 9 2 13 6 11 4 15 10 7 12 3 14 5 8 1 (R1024 !!! 5%nat)) kwX in
  let kwX := on_X (Round1024 0 7 2 5 4 3 6 1 12 15 14 13 8 11 10 9 (R1024 !!! 6%nat)) kwX in
  let kwX := on_X (Round1024 0 15 2 11 6 13 4 9 14 1 8 5 10 3 12 7 (R1024 !!! 7%nat)) kwX in
  I1024 r (2 * R + 1) kwX.

(** The key schedule of a block, in [kw]: the chaining variables, their xor with the
    parity, and the third word of the tweak. *)
Definition load_keys (WCNT : nat) (X kw : list Z) : list Z :=
  let kw := foldl (fun kw i => set_ks i (X !!! i) kw) kw (seq 0 WCNT) in
  let kw := set_ks WCNT (Z.lxor (foldl (fun v i => Z.lxor v (ks kw i)) (ks kw 0) (seq 1 (WCNT - 1))) SKEIN_KS_PARITY) kw in
  set_ts 2 (Z.lxor (ts kw 0) (ts kw 1)) kw.

(** What the loop computes from the keys and the block: [kw] and the words before the feedforward. *)
Definition rounds_256 (kw w : list Z) : list Z * list Z :=
  let X := [u64 (w !!! 0%nat + ks kw 0); u64 (u64 (w !!! 1%nat + ks kw 1) + ts kw 0); u64 (u64 (w !!! 2%nat + ks kw 2) + ts kw 1); u64 (w !!! 3%nat + ks kw 3)] in
  (kw, foldl (R256_8_rounds kw) X (seq 0 9)).
Definition rounds_512 (kw w : list Z) : list Z * list Z :=
  let X := [u64 (w !!! 0%nat + ks kw 0); u64 (w !!! 1%nat + ks kw 1); u64 (w !!! 2%nat + ks kw 2); u64 (w !!! 3%nat + ks kw 3); u64 (w !!! 4%nat + ks kw 4);
            u64 (u64 (w !!! 5%nat + ks kw 5) + ts kw 0); u64 (u64 (w !!! 6%nat + ks kw 6) + ts kw 1); u64 (w !!! 7%nat + ks kw 7)] in
  (kw, foldl (R512_8_rounds kw) X (seq 0 9)).
(** [for (r=1;r <= 2*RCNT;r+=2)] *)
Definition rounds_1024 (kw w : list Z) : list Z * list Z :=
  let X := [u64 (w !!! 0%nat + ks kw 0); u64 (w !!! 1%nat + ks kw 1); u64 (w !!! 2%nat + ks kw 2); u64 (w !!! 3%nat + ks kw 3);
            u64 (w !!! 4%nat + ks kw 4); u64 (w !!! 5%nat + ks kw 5); u64 (w !!! 6%nat + ks kw 6); u64 (w !!! 7%nat + ks kw 7);
            u64 (w !!! 8%nat + ks kw 8); u64 (w !!! 9%nat + ks kw 9); u64 (w !!! 10%nat + ks kw 10); u64 (w !!! 11%nat + ks kw 11);
            u64 (w !!! 12%nat + ks kw 12); u64 (u64 (w !!! 13%nat + ks kw 13) + ts kw 0); u64 (u64 (w !!! 14%nat + ks kw 14) + ts kw 1); u64 (w !!! 15%nat + ks kw 15)] in
  foldl (fun kwX r => R1024_8_rounds kwX r 0) (kw, X) [1; 3; 5; 7; 9; 11; 13; 15; 17; 19]%nat.

Section Process.
Context (WCNT : nat) (rounds : list Z -> list Z -> list Z * list Z).

(** One iteration: the chaining variables and [kw]. *)
Definition process_one (Xkw : list Z * list Z) (blkPtr : list Z) (byteCntAdd : Z) : list Z * list Z :=
  let '(X, kw) := Xkw in
  let kw := set_ts 0 (u64 (ts kw 0 + byteCntAdd)) kw in
  let kw := load_keys WCNT X kw in
  let w := Skein_Get64_LSB_First blkPtr WCNT in
  let '(kw, V) := rounds kw w in
  let X := zip_with Z.lxor V w in
  let kw := set_ts 1 (Z.land (ts kw 1) (u64 (Z.lnot SKEIN_T1_FLAG_FIRST))) kw in
  (X, kw).
(** [do ... while (--blkCnt)] *)
Fixpoint process_loop (n : nat) (Xkw : list Z * list Z) (blkPtr : list Z) (byteCntAdd : Z) : list Z * list Z :=
  match n with
  | O => Xkw
  | S n => process_loop n (process_one Xkw blkPtr byteCntAdd) (drop (8 * WCNT) blkPtr) byteCntAdd
  end.
Definition process_blocks (kw0 : list Z) (ctx : Skein_Ctxt) (blkPtr : list Z) (blkCnt byteCntAdd : Z) : Skein_Ctxt :=
  let kw := set_ts 1 (T1 ctx) (set_ts 0 (T0 ctx) kw0) in
  let n := Z.to_nat (if blkCnt =? 0 then 2 ^ 64 else blkCnt) in
  let '(X, kw) := process_loop n (X ctx, kw) blkPtr byteCntAdd in
  Skein_Set_T0_T1 (ts kw 0) (ts kw 1) (set_X X ctx).
End Process.
Definition Skein_256_Process_Block : list Z -> Skein_Ctxt -> list Z -> Z -> Z -> Skein_Ctxt := process_blocks 4 rounds_256.
Definition Skein_512_Process_Block : list Z -> Skein_Ctxt -> list Z -> Z -> Z -> Skein_Ctxt := process_blocks 8 rounds_512.
Definition Skein1024_Process_Block : list Z -> Skein_Ctxt -> list Z -> Z -> Z -> Skein_Ctxt := process_blocks 16 rounds_1024.

(** ** The functions around the block function *)

Section Hash.
Context (BLOCK_BYTES : Z) (Process_Block : Skein_Ctxt -> list Z -> Z -> Z -> Skein_Ctxt) (IV : Z -> option (list Z)).

Definition init_with (ctx : Skein_Ctxt) (hashBitLen : Z) : Skein_Ctxt :=
  let ctx := set_hashBitLen hashBitLen ctx in
  let ctx :=
    match IV hashBitLen with
    | Some iv => set_X iv ctx
    | None =>
        let ctx := Skein_Start_New_Type SKEIN_T1_BLK_TYPE_CFG_FINAL ctx in
        let cfg := le_bytes 8 SKEIN_SCHEMA_VER ++ le_bytes 8 hashBitLen ++ le_bytes 8 SKEIN_CFG_TREE_INFO_SEQUENTIAL ++
          replicate (Z.to_nat (BLOCK_BYTES - 3 * 8)) 0 in
        let ctx := set_X (replicate (Z.to_nat (BLOCK_BYTES / 8)) 0) ctx in
        Process_Block ctx cfg 1 SKEIN_CFG_STR_LEN
    end in
  Skein_Start_New_Type (SKEIN_T1_BLK_TYPE SKEIN_BLK_TYPE_MSG) ctx.

(** [n] bytes at [msg] into [b] at [bCnt]. *)
Definition store_bytes (msg : list Z) (n : Z) (ctx : Skein_Ctxt) : Skein_Ctxt :=
  set_bCnt (bCnt ctx + n) (set_b (write_at (Z.to_nat (bCnt ctx)) (take (Z.to_nat n) msg) (b ctx)) ctx).
Definition update_with (ctx : Skein_Ctxt) (msg : list Z) (msgByteCnt : Z) : Skein_Ctxt :=
  let '(ctx, msg, msgByteCnt) :=
    if BLOCK_BYTES <? u64 (msgByteCnt + bCnt ctx) then
      let '(ctx, msg, msgByteCnt) :=
        if bCnt ctx =? 0 then (ctx, msg, msgByteCnt)
        else
          let n := u64 (BLOCK_BYTES - bCnt ctx) in
          let '(ctx, msg, msgByteCnt) :=
            if n =? 0 then (ctx, msg, msgByteCnt) else (store_bytes msg n ctx, drop (Z.to_nat n) msg, u64 (msgByteCnt - n)) in
          (set_bCnt 0 (Process_Block ctx (b ctx) 1 BLOCK_BYTES), msg, msgByteCnt) in
      if BLOCK_BYTES <? msgByteCnt then
        let n := (msgByteCnt - 1) / BLOCK_BYTES in
        (Process_Block ctx msg n BLOCK_BYTES, drop (Z.to_nat (n * BLOCK_BYTES)) msg, u64 (msgByteCnt - n * BLOCK_BYTES))
      else (ctx, msg, msgByteCnt)
    else (ctx, msg, msgByteCnt) in
  if msgByteCnt =? 0 then ctx else store_bytes msg msgByteCnt ctx.

(** One iteration of the output: the bytes are appended to [hashVal]. *)
Definition output_step (key : list Z) (byteCnt : Z) (s : Skein_Ctxt * list Z) (i : nat) : Skein_Ctxt * list Z :=
  let '(ctx, hashVal) := s in
  let ctx := set_b (write_at 0 (le_bytes 8 (Z.of_nat i)) (b ctx)) ctx in
  let ctx := Skein_Start_New_Type SKEIN_T1_BLK_TYPE_OUT_FINAL ctx in
  let ctx := Process_Block ctx (b ctx) 1 8 in
  let n := byteCnt - Z.of_nat i * BLOCK_BYTES in
  let n := if BLOCK_BYTES <=? n then BLOCK_BYTES else n in
  (set_X key ctx, hashVal ++ Skein_Put64_LSB_First (X ctx) (Z.to_nat n)).
Definition final_with (ctx : Skein_Ctxt) : Skein_Ctxt * list Z :=
  let ctx := Skein_Set_T0_T1 (T0 ctx) (Z.lor (T1 ctx) SKEIN_T1_FLAG_FINAL) ctx in
  let ctx := if bCnt ctx <? BLOCK_BYTES then set_b (write_at (Z.to_nat (bCnt ctx)) (replicate (Z.to_nat (BLOCK_BYTES - bCnt ctx)) 0) (b ctx)) ctx else ctx in
  let ctx := Process_Block ctx (b ctx) 1 (bCnt ctx) in
  let byteCnt := Z.shiftr (u64 (hashBitLen ctx + 7)) 3 in
  let ctx := set_b (replicate (Z.to_nat BLOCK_BYTES) 0) ctx in
  foldl (output_step (X ctx) byteCnt) (ctx, []) (seq 0 (Z.to_nat ((byteCnt + BLOCK_BYTES - 1) / BLOCK_BYTES))).
End Hash.

Definition IV_512 (hashBitLen : Z) : option (list Z) :=
  if hashBitLen =? 512 then Some SKEIN_512_IV_512 else if hashBitLen =? 384 then Some SKEIN_512_IV_384
  else if hashBitLen =? 256 then Some SKEIN_512_IV_256 else if hashBitLen =? 224 then Some SKEIN_512_IV_224 else None.
Definition IV_1024 (hashBitLen : Z) : option (list Z) :=
  if hashBitLen =? 512 then Some SKEIN1024_IV_512 else if hashBitLen =? 384 then Some SKEIN1024_IV_384
  else if hashBitLen =? 1024 then Some SKEIN1024_IV_1024 else None.

Section Interface.
Context (kw0 : list Z).

Definition Skein_512_Init : Skein_Ctxt -> Z -> Skein_Ctxt := init_with 64 (Skein_512_Process_Block kw0) IV_512.
Definition Skein1024_Init : Skein_Ctxt -> Z -> Skein_Ctxt := init_with 128 (Skein1024_Process_Block kw0) IV_1024.
Definition Skein_256_Update : Skein_Ctxt -> list Z -> Z -> Skein_Ctxt := update_with 32 (Skein_256_Process_Block kw0).
Definition Skein_512_Update : Skein_Ctxt -> list Z -> Z -> Skein_Ctxt := update_with 64 (Skein_512_Process_Block kw0).
Definition Skein1024_Update : Skein_Ctxt -> list Z -> Z -> Skein_Ctxt := update_with 128 (Skein1024_Process_Block kw0).
Definition Skein_256_Final : Skein_Ctxt -> Skein_Ctxt * list Z := final_with 32 (Skein_256_Process_Block kw0).
Definition Skein_512_Final : Skein_Ctxt -> Skein_Ctxt * list Z := final_with 64 (Skein_512_Process_Block kw0).
Definition Skein1024_Final : Skein_Ctxt -> Skein_Ctxt * list Z := final_with 128 (Skein1024_Process_Block kw0).

Record hashState := HashState { statebits : Z; ctx : Skein_Ctxt }.

Definition Init (state : hashState) (hashbitlen : Z) : HashReturn * hashState :=
  if hashbitlen <=? 512 then (SKEIN_SUCCESS, HashState (64 * 8) (Skein_512_Init (ctx state) (u64 hashbitlen)))
  else (SKEIN_SUCCESS, HashState (64 * 16) (Skein1024_Init (ctx state) (u64 hashbitlen))).

Definition Update (state : hashState) (data : list Z) (databitlen : Z) : HashReturn * hashState :=
  let case := Z.land (Z.shiftr (statebits state) 8) 3 in
  let on c := HashState (statebits state) c in
  if Z.land databitlen 7 =? 0 then
    let n := Z.shiftr databitlen 3 in
    if case =? 2 then (SKEIN_SUCCESS, on (Skein_512_Update (ctx state) data n))
    else if case =? 1 then (SKEIN_SUCCESS, on (Skein_256_Update (ctx state) data n))
    else if case =? 0 then (SKEIN_SUCCESS, on (Skein1024_Update (ctx state) data n))
    else (SKEIN_FAIL, state)
  else
    let bCnt0 := u64 (Z.shiftr databitlen 3 + 1) in
    let mask := u8 (Z.shiftl 1 (7 - Z.land databitlen 7)) in
    let byte := u8 (Z.lor (Z.land (data !!! Z.to_nat (bCnt0 - 1)) (0 - mask)) mask) in
    let pad c := on (Skein_Set_T0_T1 (T0 c) (Z.lor (T1 c) SKEIN_T1_FLAG_BIT_PAD) c) in
    if case =? 2 then (SKEIN_SUCCESS, pad (Skein_512_Update (Skein_512_Update (ctx state) data (bCnt0 - 1)) [byte] 1))
    else if case =? 1 then (SKEIN_SUCCESS, pad (Skein_256_Update (Skein_256_Update (ctx state) data (bCnt0 - 1)) [byte] 1))
    else if case =? 0 then (SKEIN_SUCCESS, pad (Skein1024_Update (Skein1024_Update (ctx state) data (bCnt0 - 1)) [byte] 1))
    else (SKEIN_FAIL, state).

Definition Final (state : hashState) : HashReturn * option (list Z) :=
  let case := Z.land (Z.shiftr (statebits state) 8) 3 in
  if case =? 2 then (SKEIN_SUCCESS, Some (snd (Skein_512_Final (ctx state))))
  else if case =? 1 then (SKEIN_SUCCESS, Some (snd (Skein_256_Final (ctx state))))
  else if case =? 0 then (SKEIN_SUCCESS, Some (snd (Skein1024_Final (ctx state))))
  else (SKEIN_FAIL, None).

(** [state0] is not initialised; the result and what is written to [hashval]. *)
Definition skein_hash (state0 : hashState) (hashbitlen : Z) (data : list Z) (databitlen : Z) : HashReturn * option (list Z) :=
  let '(r, state) := Init state0 hashbitlen in
  match r with
  | SKEIN_SUCCESS =>
      let '(r, state) := Update state data databitlen in
      (r, snd (Final state))
  | _ => (r, None)
  end.

(** hash-extra-skein.c, with its assertion *)
Definition hash_extra_skein (state0 : hashState) (data : list Z) (length : Z) : option (option (list Z)) :=
  match skein_hash state0 (8 * 32) data (u64 (8 * length)) with (SKEIN_SUCCESS, hash) => Some hash | _ => None end.
End Interface.

(** The digest of the empty message. *)
Example hash_extra_skein_empty :
  hash_extra_skein (replicate 40 5) (HashState 0 (Ctxt 0 0 0 0 [] (replicate 128 7))) [] 0 =
  Some (Some (rev (le_bytes 32 0x39ccc4554a8b31853b9de7a1fe638a24cce6b35a55f2431009e18780335d2621))).
Proof. vm_compute. reflexivity. Qed.
