(* ===== verification/SkeinSpec.v ===== *)
(** * Skein: the reference

    The block cipher Threefish for 4, 8 and 16 words, the chaining mode UBI with its
    tweaks of 128 bits, and the hash with the configuration block and the output
    transformation. *)

From Stdlib Require Import ZArith Lia.
From stdpp Require Import base tactics list numbers.
From S2P Require Import Prelude Radix Words AesSpec AesProofs BitString.
Open Scope Z_scope.

(** ** Threefish *)

Definition tf_rounds (nw : nat) : nat := if (nw =? 16)%nat then 80 else 72.
(** Rotations of the round [d mod 8]. *)
Definition tf_rotations (nw : nat) : list (list Z) :=
  match nw with
  | 4%nat => [[14; 16]; [52; 57]; [23; 40]; [5; 37]; [25; 33]; [46; 12]; [58; 22]; [32; 32]]
  | 8%nat => [[46; 36; 19; 37]; [33; 27; 14; 42]; [17; 49; 36; 39]; [44; 9; 54; 56];
              [39; 30; 34; 24]; [13; 50; 10; 17]; [25; 29; 39; 43]; [8; 35; 56; 22]]
  | _ => [[24; 13; 8; 47; 8; 17; 22; 37]; [38; 19; 10; 55; 49; 18; 23; 52]; [33; 4; 51; 13; 34; 41; 59; 17]; [5; 20; 48; 41; 47; 28; 16; 25];
          [41; 9; 37; 31; 12; 47; 44; 30]; [16; 34; 56; 51; 4; 53; 42; 41]; [31; 44; 47; 46; 19; 42; 44; 25]; [9; 48; 35; 52; 23; 31; 37; 20]]
  end.
(** Word [i] after the permutation is word [pi i] before. *)
Definition tf_perm (nw : nat) : list nat :=
  match nw with
  | 4%nat => [0; 3; 2; 1]
  | 8%nat => [2; 1; 4; 7; 6; 5; 0; 3]
  | _ => [0; 9; 2; 13; 6; 11; 4; 15; 10; 7; 12; 3; 14; 5; 8; 1]
  end%nat.

Definition C240 : Z := 0x1BD11BDAA9FC1A22.
Definition add64 (a b : Z) : Z := (a + b) mod 2 ^ 64.
Definition rotl64 (x n : Z) : Z := Z.lor (Z.shiftl x n mod 2 ^ 64) (Z.shiftr x (64 - n)).

Definition key_words (k : list Z) : list Z := k ++ [foldl Z.lxor C240 k].
Definition tweak_words (t : Z) : list Z := [t mod 2 ^ 64; t / 2 ^ 64; Z.lxor (t mod 2 ^ 64) (t / 2 ^ 64)].
Definition subkey (nw : nat) (key tweak : list Z) (s i : nat) : Z :=
  let k := key !!! ((s + i) mod (nw + 1))%nat in
  if (i =? nw - 3)%nat then add64 k (tweak !!! (s mod 3)%nat)
  else if (i =? nw - 2)%nat then add64 k (tweak !!! ((s + 1) mod 3)%nat)
  else if (i =? nw - 1)%nat then add64 k (Z.of_nat s)
  else k.
Definition add_subkey (nw : nat) (key tweak : list Z) (s : nat) (v : list Z) : list Z :=
  zip_with add64 v (map (subkey nw key tweak s) (seq 0 nw)).

Fixpoint mix_words (rs : list Z) (v : list Z) : list Z :=
  match rs, v with
  | r :: rs, x0 :: x1 :: v => let y0 := add64 x0 x1 in y0 :: Z.lxor (rotl64 x1 r) y0 :: mix_words rs v
  | _, _ => []
  end.
Definition permute_words (nw : nat) (v : list Z) : list Z := map (fun i => v !!! i) (tf_perm nw).
Definition tf_round (nw : nat) (key tweak : list Z) (v : list Z) (d : nat) : list Z :=
  let v := if (d mod 4 =? 0)%nat then add_subkey nw key tweak (d / 4) v else v in
  permute_words nw (mix_words (tf_rotations nw !!! (d mod 8)%nat) v).
Definition threefish (nw : nat) (k : list Z) (t : Z) (p : list Z) : list Z :=
  let key := key_words k in let tweak := tweak_words t in
  add_subkey nw key tweak (tf_rounds nw / 4) (foldl (tf_round nw key tweak) p (seq 0 (tf_rounds nw))).

(** ** UBI *)

Definition words_of_bytes (nw : nat) (l : list Z) : list Z := map (fun i => le_val (take 8 (drop (8 * i) l))) (seq 0 nw).
Definition bytes_of_words (x : list Z) : list Z := concat (map (le_bytes 8) x).

(** Position, type, first and last block, padding of bits. *)
Definition tweak_of (ts position : Z) (first last bitpad : bool) : Z :=
  ts + position + (if first then 2 ^ 126 else 0) + (if last then (if bitpad then 2 ^ 119 else 0) + 2 ^ 127 else 0).
Definition ubi_block (nw : nat) (ts : Z) (bitpad : bool) (m : list Z) (n : nat) (h : list Z) (i : nat) : list Z :=
  let w := words_of_bytes nw (take (8 * nw) (drop (8 * nw * i) m ++ replicate (8 * nw) 0)) in
  let position := Z.min (Z.of_nat (length m)) (Z.of_nat (8 * nw * (i + 1))) in
  zip_with Z.lxor (threefish nw h (tweak_of ts position (i =? 0)%nat (i =? n - 1)%nat bitpad) w) w.
(** Blocks of the message: at least one. *)
Definition ubi_count (nw : nat) (m : list Z) : nat := Nat.max 1 ((length m + 8 * nw - 1) / (8 * nw)).
Definition ubi (nw : nat) (g : list Z) (m : list Z) (bitpad : bool) (ts : Z) : list Z :=
  foldl (ubi_block nw ts bitpad m (ubi_count nw m)) g (seq 0 (ubi_count nw m)).

Definition T_cfg : Z := 4 * 2 ^ 120.
Definition T_msg : Z := 48 * 2 ^ 120.
Definition T_out : Z := 63 * 2 ^ 120.

(** The identifier "SHA3", version 1, the size of the digest, no tree. *)
Definition skein_config (size : Z) : list Z :=
  [0x53; 0x48; 0x41; 0x33; 1; 0; 0; 0] ++ le_bytes 8 size ++ replicate 16 0.
Definition skein_iv (nw : nat) (size : Z) : list Z := ubi nw (replicate nw 0) (skein_config size) false T_cfg.

(** Whole bytes: if there are bits after them, a one and zeros up to a byte. *)
Definition skein_bytes (bits : list bool) : list Z :=
  let rem := (length bits mod 8)%nat in if (rem =? 0)%nat then pack bits else pack (bits ++ true :: replicate (7 - rem) false).
Definition skein_output (nw : nat) (size : Z) (g : list Z) : list Z :=
  let n := Z.to_nat ((size + 7) / 8) in
  take n (concat (map (fun i => bytes_of_words (ubi nw g (le_bytes 8 (Z.of_nat i)) false T_out)) (seq 0 ((n + 8 * nw - 1) / (8 * nw))))).
Definition skein (nw : nat) (size : Z) (bits : list bool) : list Z :=
  skein_output nw size (ubi nw (skein_iv nw size) (skein_bytes bits) (negb (length bits mod 8 =? 0)%nat) T_msg).

(** The digest of the empty message: Skein-512-256. *)
Example skein_512_256_empty : skein 8 256 [] = rev (le_bytes 32 0x39ccc4554a8b31853b9de7a1fe638a24cce6b35a55f2431009e18780335d2621).
Proof. vm_compute. reflexivity. Qed.
