(* ===== verification/SkeinProofs.v ===== *)
(** * Skein: the block functions are Threefish

    The rounds that address the words in permuted order are those that permute the
    words; the key schedule of the unrolled versions, and the extended one of the
    looping version that overwrites its first words with the tweak. *)

From Stdlib Require Import ZArith Lia.
From stdpp Require Import base tactics list numbers.
From S2P Require Import Prelude Radix Words AesSpec AesProofs BitString Skein SkeinSpec.
Open Scope Z_scope.

(** ** Rounds *)

Definition pm (nw : nat) (r : list Z) (v : list Z) : list Z := permute_words nw (mix_words r v).
(** The words in the order [p]. *)
Definition view (p : list nat) (X : list Z) : list Z := map (fun i => X !!! i) p.

Lemma mix_at p0 p1 r X : p0 <> p1 -> (p0 < length X)%nat -> (p1 < length X)%nat ->
  mix p0 p1 r X !!! p0 = add64 (X !!! p0) (X !!! p1) /\
  mix p0 p1 r X !!! p1 = Z.lxor (rotl64 (X !!! p1) r) (add64 (X !!! p0) (X !!! p1)) /\
  (forall i, i <> p0 -> i <> p1 -> mix p0 p1 r X !!! i = X !!! i) /\ length (mix p0 p1 r X) = length X.
Proof.
  intros N H0 H1. unfold mix. cbv zeta. split_and!.
  - rewrite list_lookup_total_insert_ne by congruence. rewrite list_lookup_total_insert_ne by congruence.
    by rewrite list_lookup_total_insert_eq by lia.
  - rewrite list_lookup_total_insert_eq by (rewrite !length_insert; lia).
    rewrite list_lookup_total_insert_eq by (rewrite length_insert; lia).
    rewrite (list_lookup_total_insert_ne (<[p0 := _]> X) p1 p0) by congruence.
    rewrite list_lookup_total_insert_eq by lia. rewrite list_lookup_total_insert_ne by congruence. reflexivity.
  - intros i I0 I1. by rewrite !list_lookup_total_insert_ne by congruence.
  - by rewrite !length_insert.
Qed.

Definition mixes (ps : list (nat * nat)) (rs : list Z) (X : list Z) : list Z :=
  foldl (fun X '((p0, p1), r) => mix p0 p1 r X) X (zip ps rs).
Definition order (ps : list (nat * nat)) : list nat := concat (map (fun '(p0, p1) => [p0; p1]) ps).

Lemma mixes_view ps : forall rs X, NoDup (order ps) -> Forall (fun i => (i < length X)%nat) (order ps) -> length rs = length ps ->
  view (order ps) (mixes ps rs X) = mix_words rs (view (order ps) X) /\ length (mixes ps rs X) = length X /\
  forall i, i ∉ order ps -> mixes ps rs X !!! i = X !!! i.
Proof.
  induction ps as [|[p0 p1] ps IH]; intros [|r rs] X ND Hb L; try discriminate L; [done|]. injection L as L.
  unfold order in *. cbn [map concat app] in *. fold (order ps) in *.
  pose proof (NoDup_cons_1_1 _ _ ND) as N0. apply NoDup_cons_1_2 in ND. pose proof (NoDup_cons_1_1 _ _ ND) as N1. apply NoDup_cons_1_2 in ND. apply Forall_cons_1 in Hb as [B0 Hb]. apply Forall_cons_1 in Hb as [B1 Hb].
  apply not_elem_of_cons in N0 as [N01 N0].
  destruct (mix_at p0 p1 r X N01 B0 B1) as (M0 & M1 & MO & ML).
  unfold mixes. cbn [zip zip_with foldl]. fold (mixes ps rs (mix p0 p1 r X)).
  destruct (IH rs (mix p0 p1 r X) ND) as (IV & IL & IO); [by rewrite ML | exact L|].
  cbn [view map mix_words]. fold (view (order ps) (mixes ps rs (mix p0 p1 r X))) (view (order ps) X).
  split; [|split].
  - rewrite IV, (IO p0 N0), (IO p1 N1), M0, M1. do 2 f_equal. f_equal. unfold view. apply map_ext_in. intros i Hi. apply MO; intros ->.
    + by apply N0, list_elem_of_In.
    + by apply N1, list_elem_of_In.
  - by rewrite IL.
  - intros i Hi. apply not_elem_of_cons in Hi as [I0 Hi]. apply not_elem_of_cons in Hi as [I1 Hi]. rewrite IO by exact Hi. by apply MO.
Qed.

(** A variant: four orders; the next one is the permuted one, the fourth is followed by the first. *)
Definition orders_ok (nw : nat) (o : list (list (nat * nat))) : bool :=
  bool_decide (length o = 4%nat) && forallb (fun ps => bool_decide (length ps = (nw / 2)%nat) && bool_decide (NoDup (order ps)) && forallb (fun i => i <? nw)%nat (order ps)) o &&
  bool_decide (order (o !!! 0%nat) = seq 0 nw) &&
  forallb (fun j => bool_decide (map (fun i => order (o !!! j) !!! i) (tf_perm nw) = order (o !!! ((j + 1) mod 4)%nat))) (seq 0 4) &&
  bool_decide (length (tf_perm nw) = nw) && forallb (fun i => i <? nw)%nat (tf_perm nw).

Definition four (o : list (list (nat * nat))) (r0 r1 r2 r3 : list Z) (X : list Z) : list Z :=
  mixes (o !!! 3%nat) r3 (mixes (o !!! 2%nat) r2 (mixes (o !!! 1%nat) r1 (mixes (o !!! 0%nat) r0 X))).

Lemma length_order ps : length (order ps) = (2 * length ps)%nat.
Proof. induction ps as [|[p0 p1] ps IH]; [reflexivity|]. unfold order in *. cbn [map concat length app]. lia. Qed.

Section Orders.
Context (nw : nat) (o : list (list (nat * nat))) (Ho : orders_ok nw o = true).

Lemma orders_facts : (forall j, (j < 4)%nat -> length (o !!! j) = (nw / 2)%nat /\ NoDup (order (o !!! j)) /\ Forall (fun i => (i < nw)%nat) (order (o !!! j)) /\
    map (fun i => order (o !!! j) !!! i) (tf_perm nw) = order (o !!! ((j + 1) mod 4)%nat)) /\
  order (o !!! 0%nat) = seq 0 nw /\ length (tf_perm nw) = nw /\ Forall (fun i => (i < nw)%nat) (tf_perm nw).
Proof using Ho.
  pose proof Ho as H. unfold orders_ok in H. rewrite !andb_true_iff in H. destruct H as [[[[[H1 H2] H3] H4] H5] H6].
  apply bool_decide_eq_true_1 in H1, H3, H5. rewrite !forallb_forall in H2, H4, H6. split_and!; [|exact H3 | exact H5|].
  - intros j Hj. assert (Hi : In (o !!! j) o) by (apply list_elem_of_In, list_elem_of_lookup_total_2; lia).
    specialize (H2 _ Hi). rewrite !andb_true_iff in H2. destruct H2 as [[P1 P2] P3]. apply bool_decide_eq_true_1 in P1, P2.
    specialize (H4 j ltac:(apply in_seq; lia)). apply bool_decide_eq_true_1 in H4. split_and!; [exact P1 | exact P2 | | exact H4].
    apply Forall_forall. intros i Hi'. rewrite forallb_forall in P3. by apply Nat.ltb_lt, P3.
  - apply Forall_forall. intros i Hi. by apply Nat.ltb_lt, H6.
Qed.

Lemma one_round j r X : (j < 4)%nat -> length r = (nw / 2)%nat -> length X = nw ->
  pm nw r (view (order (o !!! j)) X) = view (order (o !!! ((j + 1) mod 4)%nat)) (mixes (o !!! j) r X) /\ length (mixes (o !!! j) r X) = nw.
Proof using Ho.
  intros Hj Lr L. destruct orders_facts as (F & _ & Lp & Fp). destruct (F j Hj) as (L1 & ND & Fb & E).
  destruct (mixes_view (o !!! j) r X ND) as (V & LM & _); [by rewrite L | lia|].
  split; [|lia]. assert (Lo : length (order (o !!! j)) = nw).
  { destruct orders_facts as (F0 & O0 & _). destruct (F0 0%nat ltac:(lia)) as (L0 & _). pose proof (length_order (o !!! 0%nat)) as Q.
    rewrite O0, length_seq, L0 in Q. rewrite length_order, L1. lia. }
  unfold pm, permute_words. rewrite <- V, <- E. unfold view. rewrite map_map. apply map_ext_in. intros i Hi.
  rewrite Forall_forall in Fp. specialize (Fp i Hi). apply (list_lookup_total_fmap (fun k => mixes (o !!! j) r X !!! k)). lia.
Qed.

Lemma view_all X : length X = nw -> view (order (o !!! 0%nat)) X = X.
Proof using Ho.
  intros L. destruct orders_facts as (_ & -> & _). unfold view. apply list_eq_same_length with (n := nw); [exact L | by rewrite length_map, length_seq|].
  intros i u v Hi Hu Hv. rewrite list_lookup_fmap, lookup_seq_lt in Hu by exact Hi. cbn in Hu. injection Hu as <-. by apply list_lookup_total_correct.
Qed.

Lemma four_spec r0 r1 r2 r3 X : length X = nw -> length r0 = (nw / 2)%nat -> length r1 = (nw / 2)%nat -> length r2 = (nw / 2)%nat -> length r3 = (nw / 2)%nat ->
  four o r0 r1 r2 r3 X = pm nw r3 (pm nw r2 (pm nw r1 (pm nw r0 X))) /\ length (four o r0 r1 r2 r3 X) = nw.
Proof using Ho.
  intros L L0 L1 L2 L3. unfold four. rewrite <- (view_all X L) at 2.
  destruct (one_round 0 r0 X ltac:(lia) L0 L) as [-> M1]. change ((0 + 1) mod 4)%nat with 1%nat.
  destruct (one_round 1 r1 _ ltac:(lia) L1 M1) as [-> M2]. change ((1 + 1) mod 4)%nat with 2%nat.
  destruct (one_round 2 r2 _ ltac:(lia) L2 M2) as [-> M3]. change ((2 + 1) mod 4)%nat with 3%nat.
  destruct (one_round 3 r3 _ ltac:(lia) L3 M3) as [-> M4]. change ((3 + 1) mod 4)%nat with 0%nat.
  rewrite view_all by exact M4. by split.
Qed.
End Orders.

Definition o256 : list (list (nat * nat)) := [[(0, 1); (2, 3)]; [(0, 3); (2, 1)]; [(0, 1); (2, 3)]; [(0, 3); (2, 1)]]%nat.
Definition o512 : list (list (nat * nat)) :=
  [[(0, 1); (2, 3); (4, 5); (6, 7)]; [(2, 1); (4, 7); (6, 5); (0, 3)]; [(4, 1); (6, 3); (0, 5); (2, 7)]; [(6, 1); (0, 7); (2, 5); (4, 3)]]%nat.
Definition o1024 : list (list (nat * nat)) :=
  [[(0, 1); (2, 3); (4, 5); (6, 7); (8, 9); (10, 11); (12, 13); (14, 15)]; [(0, 9); (2, 13); (6, 11); (4, 15); (10, 7); (12, 3); (14, 5); (8, 1)];
   [(0, 7); (2, 5); (4, 3); (6, 1); (12, 15); (14, 13); (8, 11); (10, 9)]; [(0, 15); (2, 11); (6, 13); (4, 9); (14, 1); (8, 5); (10, 3); (12, 7)]]%nat.
Lemma o256_ok : orders_ok 4 o256 = true. Proof. vm_compute. reflexivity. Qed.
Lemma o512_ok : orders_ok 8 o512 = true. Proof. vm_compute. reflexivity. Qed.
Lemma o1024_ok : orders_ok 16 o1024 = true. Proof. vm_compute. reflexivity. Qed.

(** ** The cipher in steps of eight rounds *)

Definition rot_row (nw d : nat) : list Z := tf_rotations nw !!! d.
Definition eight (nw : nat) (key tweak : list Z) (v : list Z) (R : nat) : list Z :=
  let v := pm nw (rot_row nw 3) (pm nw (rot_row nw 2) (pm nw (rot_row nw 1) (pm nw (rot_row nw 0) v))) in
  let v := add_subkey nw key tweak (2 * R + 1) v in
  let v := pm nw (rot_row nw 7) (pm nw (rot_row nw 6) (pm nw (rot_row nw 5) (pm nw (rot_row nw 4) v))) in
  add_subkey nw key tweak (2 * R + 2) v.

Lemma tf_round_at nw key tweak v n j : (j < 8)%nat -> tf_round nw key tweak v (8 * n + j) =
  pm nw (rot_row nw j) (if (j mod 4 =? 0)%nat then add_subkey nw key tweak (2 * n + j / 4) v else v).
Proof.
  intros Hj. unfold tf_round. replace (8 * n + j)%nat with (j + n * 8)%nat by lia. rewrite Nat.Div0.mod_add, (Nat.mod_small j 8) by exact Hj.
  replace (j + n * 8)%nat with (j + (2 * n) * 4)%nat by lia. rewrite Nat.Div0.mod_add, Nat.div_add by lia.
  replace (j / 4 + 2 * n)%nat with (2 * n + j / 4)%nat by lia. reflexivity.
Qed.

Lemma cipher_steps nw key tweak p n :
  add_subkey nw key tweak (2 * n) (foldl (tf_round nw key tweak) p (seq 0 (8 * n))) =
  foldl (eight nw key tweak) (add_subkey nw key tweak 0 p) (seq 0 n).
Proof.
  induction n as [|n IH]; [reflexivity|]. rewrite seq_S, foldl_app. cbn [Nat.add foldl]. rewrite <- IH.
  replace (8 * S n)%nat with (8 * n + 8)%nat by lia. rewrite seq_app, foldl_app. set (v := foldl (tf_round nw key tweak) p (seq 0 (8 * n))).
  change (seq (0 + 8 * n) 8) with [8 * n; S (8 * n); S (S (8 * n)); S (S (S (8 * n))); S (S (S (S (8 * n)))); S (S (S (S (S (8 * n))))); S (S (S (S (S (S (8 * n)))))); S (S (S (S (S (S (S (8 * n)))))))]%nat.
  assert (E : forall w, foldl (tf_round nw key tweak) w [8 * n; S (8 * n); S (S (8 * n)); S (S (S (8 * n))); S (S (S (S (8 * n)))); S (S (S (S (S (8 * n))))); S (S (S (S (S (S (8 * n)))))); S (S (S (S (S (S (S (8 * n)))))))]%nat =
    foldl (tf_round nw key tweak) w [8 * n + 0; 8 * n + 1; 8 * n + 2; 8 * n + 3; 8 * n + 4; 8 * n + 5; 8 * n + 6; 8 * n + 7]%nat) by (intros w; f_equal; repeat (f_equal; [lia|]); f_equal; f_equal; lia).
  rewrite E. cbn [foldl]. rewrite !tf_round_at by lia. unfold eight. cbn -[Nat.mul pm add_subkey rot_row Nat.add].
  rewrite Nat.add_0_r. replace (2 * S n)%nat with (2 * n + 2)%nat by lia. reflexivity.
Qed.

(** ** The key schedule *)

(** Keys and tweak at the offset [s]: [s = 0] for the unrolled versions. *)
Definition keyed (nw s : nat) (kw key tweak : list Z) : Prop :=
  (forall i, (s <= i <= s + nw)%nat -> ks kw i = key !!! (i mod (nw + 1))%nat) /\
  (forall i, (s <= i <= s + 2)%nat -> ts kw i = tweak !!! (i mod 3)%nat).

Tactic Notation "words" ident(X) integer(n) ident(L) := do n (destruct X as [|? X]; [discriminate L|]); destruct X; [clear L | discriminate L].
Ltac evaluate := cbn [lookup_total list_lookup_total insert list_insert seq map zip_with Nat.eqb Nat.sub Nat.add].

Lemma add64_last x k s : u64 (x + u64 (k + Z.of_nat s + 1)) = add64 x (add64 k (Z.of_nat (s + 1))).
Proof. unfold add64, u64. rewrite Nat2Z.inj_add, Z.add_assoc. reflexivity. Qed.

Lemma keyed_mod nw kw key tweak i : keyed nw 0 kw key tweak -> ks kw (i mod (nw + 1)) = key !!! (i mod (nw + 1))%nat.
Proof.
  intros [K _]. assert (H : (i mod (nw + 1) < nw + 1)%nat) by (apply Nat.mod_upper_bound; lia). rewrite K by lia. by rewrite Nat.Div0.mod_mod.
Qed.
Lemma keyed_mod3 nw kw key tweak i : keyed nw 0 kw key tweak -> ts kw (i mod 3) = tweak !!! (i mod 3)%nat.
Proof.
  intros [_ T]. assert (H : (i mod 3 < 3)%nat) by (apply Nat.mod_upper_bound; lia). rewrite T by lia. by rewrite Nat.Div0.mod_mod.
Qed.

Lemma I256_spec kw key tweak R X : keyed 4 0 kw key tweak -> length X = 4%nat -> I256 kw R X = add_subkey 4 key tweak (R + 1) X.
Proof.
  intros K L. words X 4 L. unfold I256, add_to, add_subkey. evaluate. unfold subkey. evaluate.
  pose proof (fun i => keyed_mod 4 kw key tweak i K) as E. cbn [Nat.add] in E. pose proof (fun i => keyed_mod3 4 kw key tweak i K) as F.
  rewrite !E, !F, add64_last. replace (R + 1 + 0)%nat with (R + 1)%nat by lia. replace (R + 1 + 1)%nat with (R + 2)%nat by lia.
  replace (R + 1 + 2)%nat with (R + 3)%nat by lia. replace (R + 1 + 3)%nat with (R + 4)%nat by lia. reflexivity.
Qed.
Lemma I512_spec kw key tweak R X : keyed 8 0 kw key tweak -> length X = 8%nat -> I512 kw R X = add_subkey 8 key tweak (R + 1) X.
Proof.
  intros K L. words X 8 L. unfold I512, add_to, add_subkey. evaluate. unfold subkey. evaluate.
  pose proof (fun i => keyed_mod 8 kw key tweak i K) as E. cbn [Nat.add] in E. pose proof (fun i => keyed_mod3 8 kw key tweak i K) as F.
  rewrite !E, !F, add64_last. replace (R + 1 + 0)%nat with (R + 1)%nat by lia. replace (R + 1 + 1)%nat with (R + 2)%nat by lia.
  replace (R + 1 + 2)%nat with (R + 3)%nat by lia. replace (R + 1 + 3)%nat with (R + 4)%nat by lia.
  replace (R + 1 + 4)%nat with (R + 5)%nat by lia. replace (R + 1 + 5)%nat with (R + 6)%nat by lia.
  replace (R + 1 + 6)%nat with (R + 7)%nat by lia. replace (R + 1 + 7)%nat with (R + 8)%nat by lia. reflexivity.
Qed.

(** The looping version: keys and tweak move on by one word; the new word of the tweak lies
    where a word of the key was that is not used any more. *)
Lemma I1024_spec kw key tweak r R X : let s := (r + R)%nat in keyed 16 (s - 1) kw key tweak -> (1 <= s <= 20)%nat -> length kw = 40%nat -> length X = 16%nat ->
  exists kw', I1024 r R (kw, X) = (kw', add_subkey 16 key tweak s X) /\ keyed 16 s kw' key tweak /\ length kw' = 40%nat /\
    ts kw' 0 = ts kw 0 /\ ts kw' 1 = ts kw 1.
Proof.
  intros s [K T] Hs Lk L. eexists. split; [|split; [|split; [|split]]].
  - unfold I1024. cbv zeta. f_equal. fold s. words X 16 L. unfold add_to, add_subkey. evaluate. unfold subkey. evaluate.
    rewrite !(K (s + _)%nat) by lia. rewrite (T (s + 0)%nat), (T (s + 1)%nat) by lia. rewrite Nat.add_0_r.
    replace (key !!! ((s + 15) mod (16 + 1))%nat + Z.of_nat r + Z.of_nat R) with (key !!! ((s + 15) mod (16 + 1))%nat + Z.of_nat s) by (unfold s; lia).
    reflexivity.
  - fold s. split.
    + intros i Hi. unfold set_ts, set_ks, ks, KW_KEY_BASE, KW_TWK_BASE. rewrite list_lookup_total_insert_ne by lia.
      destruct (decide (i = s + 16)%nat) as [-> | N].
      * rewrite list_lookup_total_insert_eq by lia. pose proof (K (s - 1)%nat ltac:(lia)) as E. unfold ks, KW_KEY_BASE in E. rewrite E. f_equal.
        replace (s + 16)%nat with (s - 1 + 1 * 17)%nat by lia. symmetry. apply Nat.Div0.mod_add.
      * rewrite list_lookup_total_insert_ne by lia. apply K. lia.
    + intros i Hi. unfold set_ts, set_ks, ts, KW_KEY_BASE, KW_TWK_BASE. destruct (decide (i = s + 2)%nat) as [-> | N].
      * rewrite list_lookup_total_insert_eq by (rewrite length_insert; lia). rewrite list_lookup_total_insert_ne by lia.
        pose proof (T (s - 1)%nat ltac:(lia)) as E. unfold ts, KW_TWK_BASE in E. rewrite E. f_equal.
        replace (s + 2)%nat with (s - 1 + 1 * 3)%nat by lia. symmetry. apply Nat.Div0.mod_add.
      * rewrite !list_lookup_total_insert_ne by lia. apply T. lia.
  - unfold set_ts, set_ks. by rewrite !length_insert.
  - unfold set_ts, set_ks, ts, KW_KEY_BASE, KW_TWK_BASE. by rewrite !list_lookup_total_insert_ne by lia.
  - unfold set_ts, set_ks, ts, KW_KEY_BASE, KW_TWK_BASE. by rewrite !list_lookup_total_insert_ne by lia.
Qed.

Lemma length_add_subkey nw key tweak s v : length v = nw -> length (add_subkey nw key tweak s v) = nw.
Proof. intros L. unfold add_subkey. rewrite length_zip_with, length_map, length_seq. lia. Qed.

(** ** Eight rounds *)

#[local] Opaque mix.
Lemma Round256_mixes p0 p1 p2 p3 ROT X : length ROT = 2%nat -> Round256 p0 p1 p2 p3 ROT X = mixes [(p0, p1); (p2, p3)] ROT X.
Proof. intros L. words ROT 2 L. unfold Round256, mixes. cbn [zip zip_with foldl lookup_total list_lookup_total]. reflexivity. Qed.
Lemma Round512_mixes p0 p1 p2 p3 p4 p5 p6 p7 ROT X : length ROT = 4%nat ->
  Round512 p0 p1 p2 p3 p4 p5 p6 p7 ROT X = mixes [(p0, p1); (p2, p3); (p4, p5); (p6, p7)] ROT X.
Proof. intros L. words ROT 4 L. unfold Round512, mixes. cbn [zip zip_with foldl lookup_total list_lookup_total]. reflexivity. Qed.
Lemma Round1024_mixes p0 p1 p2 p3 p4 p5 p6 p7 p8 p9 pA pB pC pD pE pF ROT X : length ROT = 8%nat ->
  Round1024 p0 p1 p2 p3 p4 p5 p6 p7 p8 p9 pA pB pC pD pE pF ROT X =
  mixes [(p0, p1); (p2, p3); (p4, p5); (p6, p7); (p8, p9); (pA, pB); (pC, pD); (pE, pF)] ROT X.
Proof. intros L. words ROT 8 L. unfold Round1024, mixes. cbn [zip zip_with foldl lookup_total list_lookup_total]. reflexivity. Qed.

Lemma four_256 r0 r1 r2 r3 X : length X = 4%nat -> length r0 = 2%nat -> length r1 = 2%nat -> length r2 = 2%nat -> length r3 = 2%nat ->
  let Y := Round256 0 3 2 1 r3 (Round256 0 1 2 3 r2 (Round256 0 3 2 1 r1 (Round256 0 1 2 3 r0 X))) in
  Y = pm 4 r3 (pm 4 r2 (pm 4 r1 (pm 4 r0 X))) /\ length Y = 4%nat.
Proof. intros L L0 L1 L2 L3. cbv zeta. rewrite !Round256_mixes by assumption. exact (four_spec 4 o256 o256_ok r0 r1 r2 r3 X L L0 L1 L2 L3). Qed.
Lemma four_512 r0 r1 r2 r3 X : length X = 8%nat -> length r0 = 4%nat -> length r1 = 4%nat -> length r2 = 4%nat -> length r3 = 4%nat ->
  let Y := Round512 6 1 0 7 2 5 4 3 r3 (Round512 4 1 6 3 0 5 2 7 r2 (Round512 2 1 4 7 6 5 0 3 r1 (Round512 0 1 2 3 4 5 6 7 r0 X))) in
  Y = pm 8 r3 (pm 8 r2 (pm 8 r1 (pm 8 r0 X))) /\ length Y = 8%nat.
Proof. intros L L0 L1 L2 L3. cbv zeta. rewrite !Round512_mixes by assumption. exact (four_spec 8 o512 o512_ok r0 r1 r2 r3 X L L0 L1 L2 L3). Qed.
Lemma four_1024 r0 r1 r2 r3 X : length X = 16%nat -> length r0 = 8%nat -> length r1 = 8%nat -> length r2 = 8%nat -> length r3 = 8%nat ->
  let Y := Round1024 0 15 2 11 6 13 4 9 14 1 8 5 10 3 12 7 r3 (Round1024 0 7 2 5 4 3 6 1 12 15 14 13 8 11 10 9 r2
    (Round1024 0 9 2 13 6 11 4 15 10 7 12 3 14 5 8 1 r1 (Round1024 0 1 2 3 4 5 6 7 8 9 10 11 12 13 14 15 r0 X))) in
  Y = pm 16 r3 (pm 16 r2 (pm 16 r1 (pm 16 r0 X))) /\ length Y = 16%nat.
Proof. intros L L0 L1 L2 L3. cbv zeta. rewrite !Round1024_mixes by assumption. exact (four_spec 16 o1024 o1024_ok r0 r1 r2 r3 X L L0 L1 L2 L3). Qed.

Lemma R_256_row j : (j < 8)%nat -> length (R_256 !!! j) = 2%nat.
Proof. intros H. do 8 (destruct j as [|j]; [reflexivity|]). lia. Qed.
Lemma R_512_row j : (j < 8)%nat -> length (R_512 !!! j) = 4%nat.
Proof. intros H. do 8 (destruct j as [|j]; [reflexivity|]). lia. Qed.
Lemma R1024_row j : (j < 8)%nat -> length (R1024 !!! j) = 8%nat.
Proof. intros H. do 8 (destruct j as [|j]; [reflexivity|]). lia. Qed.

#[local] Opaque Round256 Round512 Round1024 pm add_subkey.

Lemma R256_spec kw key tweak R X : keyed 4 0 kw key tweak -> length X = 4%nat ->
  R256_8_rounds kw X R = eight 4 key tweak X R /\ length (R256_8_rounds kw X R) = 4%nat.
Proof.
  intros K L. unfold R256_8_rounds, eight. cbv zeta.
  destruct (four_256 (R_256 !!! 0%nat) (R_256 !!! 1%nat) (R_256 !!! 2%nat) (R_256 !!! 3%nat) X L (R_256_row 0 ltac:(lia)) (R_256_row 1 ltac:(lia)) (R_256_row 2 ltac:(lia)) (R_256_row 3 ltac:(lia))) as [E1 L1].
  rewrite E1 in L1 |- *. rewrite (I256_spec kw key tweak (2 * R)) by assumption.
  assert (L2 := length_add_subkey 4 key tweak (2 * R + 1) _ L1). set (V := add_subkey 4 key tweak (2 * R + 1) _) in *.
  destruct (four_256 (R_256 !!! 4%nat) (R_256 !!! 5%nat) (R_256 !!! 6%nat) (R_256 !!! 7%nat) V L2 (R_256_row 4 ltac:(lia)) (R_256_row 5 ltac:(lia)) (R_256_row 6 ltac:(lia)) (R_256_row 7 ltac:(lia))) as [E2 L3].
  rewrite E2 in L3 |- *. rewrite (I256_spec kw key tweak (2 * R + 1)) by assumption. replace (2 * R + 1 + 1)%nat with (2 * R + 2)%nat by lia.
  split; [reflexivity | by apply length_add_subkey].
Qed.
Lemma R512_spec kw key tweak R X : keyed 8 0 kw key tweak -> length X = 8%nat ->
  R512_8_rounds kw X R = eight 8 key tweak X R /\ length (R512_8_rounds kw X R) = 8%nat.
Proof.
  intros K L. unfold R512_8_rounds, eight. cbv zeta.
  destruct (four_512 (R_512 !!! 0%nat) (R_512 !!! 1%nat) (R_512 !!! 2%nat) (R_512 !!! 3%nat) X L (R_512_row 0 ltac:(lia)) (R_512_row 1 ltac:(lia)) (R_512_row 2 ltac:(lia)) (R_512_row 3 ltac:(lia))) as [E1 L1].
  rewrite E1 in L1 |- *. rewrite (I512_spec kw key tweak (2 * R)) by assumption.
  assert (L2 := length_add_subkey 8 key tweak (2 * R + 1) _ L1). set (V := add_subkey 8 key tweak (2 * R + 1) _) in *.
  destruct (four_512 (R_512 !!! 4%nat) (R_512 !!! 5%nat) (R_512 !!! 6%nat) (R_512 !!! 7%nat) V L2 (R_512_row 4 ltac:(lia)) (R_512_row 5 ltac:(lia)) (R_512_row 6 ltac:(lia)) (R_512_row 7 ltac:(lia))) as [E2 L3].
  rewrite E2 in L3 |- *. rewrite (I512_spec kw key tweak (2 * R + 1)) by assumption. replace (2 * R + 1 + 1)%nat with (2 * R + 2)%nat by lia.
  split; [reflexivity | by apply length_add_subkey].
Qed.
(** The two halves of eight rounds. *)
Definition half1024 (a c d e : nat) (X : list Z) : list Z :=
  Round1024 0 15 2 11 6 13 4 9 14 1 8 5 10 3 12 7 (R1024 !!! e) (Round1024 0 7 2 5 4 3 6 1 12 15 14 13 8 11 10 9 (R1024 !!! d)
    (Round1024 0 9 2 13 6 11 4 15 10 7 12 3 14 5 8 1 (R1024 !!! c) (Round1024 0 1 2 3 4 5 6 7 8 9 10 11 12 13 14 15 (R1024 !!! a) X))).
Lemma on_X_four f0 f1 f2 f3 p : on_X f3 (on_X f2 (on_X f1 (on_X f0 p))) = on_X (fun X => f3 (f2 (f1 (f0 X)))) p.
Proof. reflexivity. Qed.
Lemma R1024_halves kw X r : R1024_8_rounds (kw, X) r 0 =
  I1024 r 1 (on_X (half1024 4 5 6 7) (I1024 r 0 (on_X (half1024 0 1 2 3) (kw, X)))).
Proof. unfold R1024_8_rounds. cbv zeta. rewrite !on_X_four. change (2 * 0)%nat with 0%nat. change (0 + 1)%nat with 1%nat. unfold half1024. reflexivity. Qed.
Lemma half1024_spec a c d e X : (a < 8)%nat -> (c < 8)%nat -> (d < 8)%nat -> (e < 8)%nat -> length X = 16%nat ->
  half1024 a c d e X = pm 16 (rot_row 16 e) (pm 16 (rot_row 16 d) (pm 16 (rot_row 16 c) (pm 16 (rot_row 16 a) X))) /\ length (half1024 a c d e X) = 16%nat.
Proof.
  intros Ha Hc Hd He L.
  exact (four_1024 (R1024 !!! a) (R1024 !!! c) (R1024 !!! d) (R1024 !!! e) X L (R1024_row a Ha) (R1024_row c Hc) (R1024_row d Hd) (R1024_row e He)).
Qed.
#[local] Opaque half1024.

Lemma R1024_spec kw key tweak n X : keyed 16 (2 * n) kw key tweak -> (n < 10)%nat -> length kw = 40%nat -> length X = 16%nat ->
  exists kw', R1024_8_rounds (kw, X) (2 * n + 1) 0 = (kw', eight 16 key tweak X n) /\ keyed 16 (2 * S n) kw' key tweak /\ length kw' = 40%nat /\
    length (eight 16 key tweak X n) = 16%nat /\ ts kw' 0 = ts kw 0 /\ ts kw' 1 = ts kw 1.
Proof.
  intros K Hn Lk L. rewrite R1024_halves. destruct (half1024_spec 0 1 2 3 X ltac:(lia) ltac:(lia) ltac:(lia) ltac:(lia) L) as [E1 L1].
  unfold on_X at 2. cbn [fst snd]. set (X1 := half1024 0 1 2 3 X) in *. clearbody X1.
  destruct (I1024_spec kw key tweak (2 * n + 1) 0 X1 ltac:(by replace (2 * n + 1 + 0 - 1)%nat with (2 * n)%nat by lia) ltac:(lia) Lk L1) as (kw1 & -> & K1 & Lk1 & A0 & A1).
  rewrite Nat.add_0_r in *. unfold on_X. cbn [fst snd].
  assert (L2 := length_add_subkey 16 key tweak (2 * n + 1) X1 L1).
  destruct (half1024_spec 4 5 6 7 (add_subkey 16 key tweak (2 * n + 1) X1) ltac:(lia) ltac:(lia) ltac:(lia) ltac:(lia) L2) as [E2 L3].
  set (X2 := half1024 4 5 6 7 _) in *. clearbody X2.
  destruct (I1024_spec kw1 key tweak (2 * n + 1) 1 X2 ltac:(by replace (2 * n + 1 + 1 - 1)%nat with (2 * n + 1)%nat by lia) ltac:(lia) Lk1 L3) as (kw2 & -> & K2 & Lk2 & B0 & B1).
  replace (2 * n + 1 + 1)%nat with (2 * n + 2)%nat in * by lia. replace (2 * S n)%nat with (2 * n + 2)%nat by lia.
  assert (E : eight 16 key tweak X n = add_subkey 16 key tweak (2 * n + 2) X2) by (unfold eight; cbv zeta; by rewrite E2, E1).
  exists kw2. rewrite E, B0, B1, A0, A1. split_and!; [done | exact K2 | exact Lk2 | by apply length_add_subkey | done | done].
Qed.

(** * Skein: processed blocks are steps of UBI

    The key schedule in [kw], the three block functions as one property of a
    variant, and any number of blocks. *)

#[local] Opaque add_subkey eight R256_8_rounds R512_8_rounds R1024_8_rounds.

(** ** Loading of the keys *)

Lemma lxor_foldl l : forall a, foldl Z.lxor a l = Z.lxor a (foldl Z.lxor 0 l).
Proof.
  induction l as [|x l IH]; intros a; [cbn; by rewrite Z.lxor_0_r|]. cbn [foldl]. rewrite (IH (Z.lxor a x)), (IH (Z.lxor 0 x)).
  by rewrite Z.lxor_0_l, Z.lxor_assoc.
Qed.

Lemma set_keys_at (X : list Z) n : forall kw, (n + 3 <= length kw)%nat ->
  let kw' := foldl (fun kw i => set_ks i (X !!! i) kw) kw (seq 0 n) in
  length kw' = length kw /\ (forall i, (i < n)%nat -> ks kw' i = X !!! i) /\ (forall i, (i < 3)%nat -> ts kw' i = ts kw i).
Proof.
  induction n as [|n IH]; intros kw L; [split_and!; [done | intros; lia | done]|].
  rewrite seq_S, foldl_app. cbn [Nat.add foldl]. destruct (IH kw ltac:(lia)) as (L' & K & T). cbv zeta.
  set (kw' := foldl _ kw (seq 0 n)) in *. unfold set_ks, ks, ts, KW_KEY_BASE, KW_TWK_BASE in *. split_and!.
  - by rewrite length_insert.
  - intros i Hi. destruct (decide (i = n)) as [-> | N]; [apply list_lookup_total_insert_eq; lia|].
    rewrite list_lookup_total_insert_ne by lia. apply K. lia.
  - intros i Hi. rewrite list_lookup_total_insert_ne by lia. by apply T.
Qed.

Lemma load_keys_spec nw (X kw : list Z) : length X = nw -> (1 <= nw)%nat -> (nw + 4 <= length kw)%nat ->
  let kw' := load_keys nw X kw in
  length kw' = length kw /\ ts kw' 0 = ts kw 0 /\ ts kw' 1 = ts kw 1 /\
  keyed nw 0 kw' (key_words X) [ts kw 0; ts kw 1; Z.lxor (ts kw 0) (ts kw 1)].
Proof.
  intros LX Hn L. unfold load_keys. destruct (set_keys_at X nw kw ltac:(lia)) as (L1 & K1 & T1). cbv zeta in *.
  set (kw1 := foldl _ kw (seq 0 nw)) in *. set (p := Z.lxor (foldl _ _ _) SKEIN_KS_PARITY).
  assert (Ep : p = foldl Z.lxor C240 X).
  { unfold p. change SKEIN_KS_PARITY with C240. rewrite (lxor_foldl X C240), (Z.lxor_comm C240). f_equal.
    assert (G : forall m, (m < nw)%nat -> foldl (fun v i => Z.lxor v (ks kw1 i)) (ks kw1 0) (seq 1 m) = foldl Z.lxor 0 (take (S m) X)).
    { induction m as [|m IH]; intros Hm.
      - cbn [seq foldl]. rewrite K1 by lia. destruct X as [|x X]; [cbn in LX; lia|]. cbn. by rewrite Z.lxor_0_l.
      - rewrite seq_S, foldl_app, IH by lia. cbn [foldl Nat.add]. rewrite K1 by lia.
        rewrite (take_S_r X (S m) (X !!! S m)) by (apply list_lookup_lookup_total_lt; lia). by rewrite foldl_app. }
    rewrite G by lia. f_equal. apply take_ge. lia. }
  unfold set_ts, set_ks, ts, ks, KW_KEY_BASE, KW_TWK_BASE in *. rewrite Ep. clear Ep p.
  assert (A : forall i v, (i < 3)%nat -> <[(3 + nw)%nat := v]> kw1 !!! (0 + i)%nat = kw !!! (0 + i)%nat).
  { intros i v Hi. rewrite list_lookup_total_insert_ne by lia. by apply T1. }
  split_and!.
  - by rewrite !length_insert.
  - rewrite list_lookup_total_insert_ne by lia. apply A. lia.
  - rewrite list_lookup_total_insert_ne by lia. apply A. lia.
  - split.
    + intros i Hi. unfold ks, KW_KEY_BASE. rewrite list_lookup_total_insert_ne by lia. rewrite Nat.mod_small by lia. unfold key_words.
      destruct (decide (i = nw)) as [-> | N].
      * rewrite list_lookup_total_insert_eq by lia. rewrite lookup_total_app_r by lia. by rewrite LX, Nat.sub_diag.
      * rewrite list_lookup_total_insert_ne by lia. rewrite K1 by lia. by rewrite lookup_total_app_l by lia.
    + intros i Hi. unfold ts, KW_TWK_BASE. rewrite Nat.mod_small by lia. destruct i as [|[|[|i]]]; [| | |lia].
      * rewrite list_lookup_total_insert_ne by lia. rewrite (A 0%nat) by lia. reflexivity.
      * rewrite list_lookup_total_insert_ne by lia. rewrite (A 1%nat) by lia. reflexivity.
      * rewrite list_lookup_total_insert_eq by (rewrite length_insert; lia). rewrite (A 0%nat), (A 1%nat) by lia. reflexivity.
Qed.

(** ** The block functions *)

(** [len] words of [kw]. *)
Definition variant_ok (nw len : nat) (rounds : list Z -> list Z -> list Z * list Z) : Prop :=
  (4 <= nw)%nat /\ (nw + 4 <= len)%nat /\
  forall kw X w, length kw = len -> length X = nw -> length w = nw -> 0 <= ts kw 0 < 2 ^ 64 ->
    keyed nw 0 kw (key_words X) [ts kw 0; ts kw 1; Z.lxor (ts kw 0) (ts kw 1)] ->
    exists kw', rounds kw w = (kw', threefish nw X (ts kw 0 + 2 ^ 64 * ts kw 1) w) /\ length kw' = len /\
      ts kw' 0 = ts kw 0 /\ ts kw' 1 = ts kw 1.

Lemma tweak_words_eq t0 t1 : 0 <= t0 < 2 ^ 64 -> tweak_words (t0 + 2 ^ 64 * t1) = [t0; t1; Z.lxor t0 t1].
Proof.
  intros H. unfold tweak_words. rewrite Z.mul_comm, Z.mod_add, Z.div_add by lia. rewrite Z.mod_small, Z.div_small by exact H. reflexivity.
Qed.

Lemma add64_first w k t : u64 (u64 (w + k) + t) = add64 w (add64 k t).
Proof. unfold add64, u64. rewrite Zplus_mod_idemp_l, Zplus_mod_idemp_r. f_equal. lia. Qed.
Lemma add64_zero w k : u64 (w + k) = add64 w (add64 k (Z.of_nat 0)).
Proof. unfold add64, u64. rewrite Zplus_mod_idemp_r. f_equal. lia. Qed.

Lemma rounds_fold {A} (f : A -> nat -> A) (g : A -> nat -> A) (P : A -> Prop) l : (forall v R, P v -> f v R = g v R /\ P (f v R)) ->
  forall v, P v -> foldl f v l = foldl g v l.
Proof. intros H. induction l as [|R l IH]; intros v Hv; [reflexivity|]. cbn [foldl]. destruct (H v R Hv) as [E Hf]. rewrite <- E. by apply IH. Qed.

Lemma subkey_first nw key tweak i : (i < nw)%nat -> subkey nw key tweak 0 i =
  if (i =? nw - 3)%nat then add64 (key !!! i) (tweak !!! 0%nat) else if (i =? nw - 2)%nat then add64 (key !!! i) (tweak !!! 1%nat)
  else if (i =? nw - 1)%nat then add64 (key !!! i) (Z.of_nat 0) else key !!! i.
Proof. intros Hi. unfold subkey. rewrite Nat.add_0_l, Nat.mod_small by lia. reflexivity. Qed.
Lemma keyed_first nw kw key tweak : keyed nw 0 kw key tweak ->
  (forall i, (i <= nw)%nat -> ks kw i = key !!! i) /\ ts kw 0 = tweak !!! 0%nat /\ ts kw 1 = tweak !!! 1%nat.
Proof.
  intros [K T]. split_and!; [| by rewrite (T 0%nat) by lia | by rewrite (T 1%nat) by lia].
  intros i Hi. rewrite K by lia. by rewrite Nat.mod_small by lia.
Qed.
Ltac first_injection E T0 T1 :=
  unfold add_subkey; cbn [seq map]; rewrite !subkey_first by lia; evaluate; rewrite !E by lia; rewrite ?T0, ?T1, ?add64_first, <- add64_zero; reflexivity.

#[local] Transparent add_subkey.
Lemma first_256 kw key tweak (w : list Z) : keyed 4 0 kw key tweak -> length w = 4%nat ->
  rounds_256 kw w = (kw, foldl (R256_8_rounds kw) (add_subkey 4 key tweak 0 w) (seq 0 9)).
Proof.
  intros K L. destruct (keyed_first _ _ _ _ K) as (E & T0 & T1). unfold rounds_256. cbv zeta. do 2 f_equal. words w 4 L. first_injection E T0 T1.
Qed.
Lemma first_512 kw key tweak (w : list Z) : keyed 8 0 kw key tweak -> length w = 8%nat ->
  rounds_512 kw w = (kw, foldl (R512_8_rounds kw) (add_subkey 8 key tweak 0 w) (seq 0 9)).
Proof.
  intros K L. destruct (keyed_first _ _ _ _ K) as (E & T0 & T1). unfold rounds_512. cbv zeta. do 2 f_equal. words w 8 L. first_injection E T0 T1.
Qed.
Lemma first_1024 kw key tweak (w : list Z) : keyed 16 0 kw key tweak -> length w = 16%nat ->
  rounds_1024 kw w = foldl (fun kwX r => R1024_8_rounds kwX r 0) (kw, add_subkey 16 key tweak 0 w) [1; 3; 5; 7; 9; 11; 13; 15; 17; 19]%nat.
Proof.
  intros K L. destruct (keyed_first _ _ _ _ K) as (E & T0 & T1). unfold rounds_1024. cbv zeta. do 2 f_equal. words w 16 L. first_injection E T0 T1.
Qed.
#[local] Opaque add_subkey.

Lemma threefish_steps nw n X t0 t1 w : tf_rounds nw = (8 * n)%nat -> 0 <= t0 < 2 ^ 64 ->
  threefish nw X (t0 + 2 ^ 64 * t1) w =
  foldl (eight nw (key_words X) [t0; t1; Z.lxor t0 t1]) (add_subkey nw (key_words X) [t0; t1; Z.lxor t0 t1] 0 w) (seq 0 n).
Proof.
  intros E H. unfold threefish. rewrite tweak_words_eq by exact H. rewrite E. replace (8 * n / 4)%nat with (2 * n)%nat by (replace (8 * n)%nat with (2 * n * 4)%nat by lia; by rewrite Nat.div_mul). apply cipher_steps.
Qed.

Lemma variant_256 : variant_ok 4 8 rounds_256.
Proof.
  split; [lia|]. split; [lia|]. intros kw X w Lk LX Lw H0 K. exists kw. split; [|done].
  rewrite (first_256 kw _ _ w K Lw), (threefish_steps 4 9) by (done || exact H0). f_equal.
  apply (rounds_fold (R256_8_rounds kw) (eight 4 _ _) (fun v => length v = 4%nat)); [|by apply length_add_subkey].
  intros v R Lv. by apply R256_spec.
Qed.
Lemma variant_512 : variant_ok 8 12 rounds_512.
Proof.
  split; [lia|]. split; [lia|]. intros kw X w Lk LX Lw H0 K. exists kw. split; [|done].
  rewrite (first_512 kw _ _ w K Lw), (threefish_steps 8 9) by (done || exact H0). f_equal.
  apply (rounds_fold (R512_8_rounds kw) (eight 8 _ _) (fun v => length v = 8%nat)); [|by apply length_add_subkey].
  intros v R Lv. by apply R512_spec.
Qed.

(** The loop of the looping version: after [n] iterations keys and tweak are at the offset [2 n]. *)
Lemma loop_1024 n : (n <= 10)%nat -> forall kw key tweak v, keyed 16 0 kw key tweak -> length kw = 40%nat -> length v = 16%nat ->
  exists kw', foldl (fun kwX r => R1024_8_rounds kwX r 0) (kw, v) (map (fun m => (2 * m + 1)%nat) (seq 0 n)) = (kw', foldl (eight 16 key tweak) v (seq 0 n)) /\
    keyed 16 (2 * n) kw' key tweak /\ length kw' = 40%nat /\ length (foldl (eight 16 key tweak) v (seq 0 n)) = 16%nat /\ ts kw' 0 = ts kw 0 /\ ts kw' 1 = ts kw 1.
Proof.
  induction n as [|n IH]; intros Hn kw key tweak v K Lk Lv; [by exists kw|].
  destruct (IH ltac:(lia) kw key tweak v K Lk Lv) as (kw1 & E & K1 & Lk1 & Lv1 & A0 & A1). rewrite seq_S, map_app, !foldl_app, E. cbn [Nat.add map foldl].
  destruct (R1024_spec kw1 key tweak n _ K1 ltac:(lia) Lk1 Lv1) as (kw2 & E2 & K2 & Lk2 & L2 & B0 & B1).
  exists kw2. rewrite E2, <- A0, <- A1. split_and!; done.
Qed.
Lemma variant_1024 : variant_ok 16 40 rounds_1024.
Proof.
  split; [lia|]. split; [lia|]. intros kw X w Lk LX Lw H0 K.
  rewrite (first_1024 kw _ _ w K Lw), (threefish_steps 16 10) by (done || exact H0).
  destruct (loop_1024 10 ltac:(lia) kw _ _ (add_subkey 16 (key_words X) [ts kw 0; ts kw 1; Z.lxor (ts kw 0) (ts kw 1)] 0 w) K Lk) as (kw' & E & _ & Lk' & _ & A); [by apply length_add_subkey|].
  exists kw'. split; [exact E | by split].
Qed.
