(* ===== verification/Base58.v ===== *)
(** * Addresses (src/Native/libcryptonote/common/base58.cpp)

    Base 58 in blocks of eight bytes and eleven symbols, and addresses with a tag
    and a checksum. A string is the list of its bytes. *)

From Stdlib Require Import ZArith Lia.
From stdpp Require Import base tactics list numbers option.
From S2P Require Import Prelude Radix Words Keccak TreeHash IntUtil Varint.
Open Scope Z_scope.

(** ["123456789ABCDEFGHJKLMNPQRSTUVWXYZabcdefghijkmnopqrstuvwxyz"]. *)
Definition alphabet : list Z := [
  49; 50; 51; 52; 53; 54; 55; 56; 57;
  65; 66; 67; 68; 69; 70; 71; 72; 74; 75; 76; 77; 78; 80; 81; 82; 83; 84; 85; 86; 87; 88; 89; 90;
  97; 98; 99; 100; 101; 102; 103; 104; 105; 106; 107; 109; 110; 111; 112; 113; 114; 115; 116; 117; 118; 119; 120; 121; 122].
Definition alphabet_size : Z := 58.
Definition encoded_block_sizes : list nat := [0; 2; 3; 5; 6; 7; 9; 10; 11]%nat.
Definition full_block_size : nat := 8.
Definition full_encoded_block_size : nat := encoded_block_sizes !!! full_block_size.
Definition addr_checksum_size : nat := 4.

(** [m_data] of [reverse_alphabet] and of [decoded_block_sizes], as their
    constructors fill them. *)
Definition reverse_data : list Z :=
  foldl (fun m_data i => <[Z.to_nat (alphabet !!! i - alphabet !!! 0%nat) := Z.of_nat i]> m_data)
    (replicate (Z.to_nat (alphabet !!! 57%nat - alphabet !!! 0%nat + 1)) (-1)) (seq 0 58).
Definition sizes_data : list Z :=
  foldl (fun m_data i => <[encoded_block_sizes !!! i := Z.of_nat i]> m_data) (replicate 12 (-1)) (seq 0 9).

(** A [char] is signed; its difference is cast to [size_t]. *)
Definition reverse_alphabet (letter : Z) : Z :=
  let idx := u64 (i8 letter - alphabet !!! 0%nat) in
  if idx <? Z.of_nat (length reverse_data) then reverse_data !!! Z.to_nat idx else -1.

(** [None] is the failed assertion. *)
Definition decoded_block_sizes (encoded_block_size : nat) : option Z :=
  if (encoded_block_size <=? full_encoded_block_size)%nat then Some (sizes_data !!! encoded_block_size) else None.

(** The cases of the switch fall through: one byte after the other. *)
Definition uint_8be_to_64 (data : list Z) (size : nat) : option Z :=
  if ((1 <=? size) && (size <=? 8))%nat then
    Some (foldl (fun res b => Z.lor (u64 (Z.shiftl res 8)) b) 0 (take size data))
  else None.

(** The bytes written: the last [size] of the word in memory. *)
Definition uint_64_to_8be (num : Z) (size : nat) : option (list Z) :=
  if ((1 <=? size) && (size <=? 8))%nat then
    let num_be := SWAP64 num in
    Some (drop (8 - size) (le_bytes 8 num_be))
  else None.

(** ** Blocks *)

(** [while (0 < num)]: the symbols from the index [i] down. Eleven symbols hold a
    word, and [None] is a loop out of fuel. *)
Fixpoint encode_loop (fuel : nat) (num i : Z) (res : list Z) : option (list Z) :=
  if num <=? 0 then Some res
  else match fuel with
       | O => None
       | S fuel =>
           let remainder := num mod alphabet_size in
           let num := num / alphabet_size in
           let res := <[Z.to_nat i := alphabet !!! Z.to_nat remainder]> res in
           encode_loop fuel num (i - 1) res
       end.

(** [res] comes in as the caller filled it. *)
Definition encode_block (block : list Z) (size : nat) (res : list Z) : option (list Z) :=
  if ((1 <=? size) && (size <=? full_block_size))%nat then
    num ← uint_8be_to_64 block size;
    let i := Z.of_nat (encoded_block_sizes !!! size) - 1 in
    encode_loop 11 num i res
  else None.

(** [for (i = size - 1; i < size; --i)], on the symbols from the last to the first;
    inside of the failures, [None] is [return false]. *)
Fixpoint decode_loop (letters : list Z) (res_num order : Z) : option (option Z) :=
  match letters with
  | [] => Some (Some res_num)
  | letter :: letters =>
      let digit := reverse_alphabet letter in
      if digit <? 0 then Some None
      else
        '(product_lo, product_hi) ← mul128 order digit;
        let tmp := u64 (res_num + product_lo) in
        if (tmp <? res_num) || negb (product_hi =? 0) then Some None
        else decode_loop letters tmp (u64 (order * alphabet_size))
  end.

Definition decode_block (block : list Z) (size : nat) : option (option (list Z)) :=
  if ((1 <=? size) && (size <=? full_encoded_block_size))%nat then
    res_size ← decoded_block_sizes size;
    if res_size <=? 0 then Some None
    else
      r ← decode_loop (rev (take size block)) 0 1;
      match r with
      | None => Some None
      | Some res_num =>
          if (res_size <? Z.of_nat full_block_size) && (u64 (Z.shiftl 1 (8 * res_size)) <=? res_num) then Some None
          else bytes ← uint_64_to_8be res_num (Z.to_nat res_size); Some (Some bytes)
      end
  else None.

(** ** Strings *)

(** The blocks [i], [i + 1], ... of [n] full blocks. *)
Fixpoint encode_blocks (n i : nat) (data res : list Z) : option (list Z) :=
  match n with
  | O => Some res
  | S n =>
      out ← encode_block (drop (i * full_block_size) data) full_block_size
              (take full_encoded_block_size (drop (i * full_encoded_block_size) res));
      encode_blocks n (S i) data (write_at (i * full_encoded_block_size) out res)
  end.

Definition encode (data : list Z) : option (list Z) :=
  if (length data =? 0)%nat then Some []
  else
    let full_block_count := (length data / full_block_size)%nat in
    let last_block_size := (length data mod full_block_size)%nat in
    let res_size := (full_block_count * full_encoded_block_size + encoded_block_sizes !!! last_block_size)%nat in
    let res := replicate res_size (alphabet !!! 0%nat) in
    res ← encode_blocks full_block_count 0 data res;
    if (0 <? last_block_size)%nat then
      out ← encode_block (drop (full_block_count * full_block_size) data) last_block_size
              (drop (full_block_count * full_encoded_block_size) res);
      Some (write_at (full_block_count * full_encoded_block_size) out res)
    else Some res.

Fixpoint decode_blocks (n i : nat) (enc data : list Z) : option (option (list Z)) :=
  match n with
  | O => Some (Some data)
  | S n =>
      out ← decode_block (drop (i * full_encoded_block_size) enc) full_encoded_block_size;
      match out with
      | None => Some None
      | Some out => decode_blocks n (S i) enc (write_at (i * full_block_size) out data)
      end
  end.

Definition decode (enc : list Z) : option (option (list Z)) :=
  if (length enc =? 0)%nat then Some (Some [])
  else
    let full_block_count := (length enc / full_encoded_block_size)%nat in
    let last_block_size := (length enc mod full_encoded_block_size)%nat in
    last_block_decoded_size ← decoded_block_sizes last_block_size;
    if last_block_decoded_size <? 0 then Some None
    else
      let data_size := (full_block_count * full_block_size + Z.to_nat last_block_decoded_size)%nat in
      let data := replicate data_size 0 in
      r ← decode_blocks full_block_count 0 enc data;
      match r with
      | None => Some None
      | Some data =>
          if (0 <? last_block_size)%nat then
            out ← decode_block (drop (full_block_count * full_encoded_block_size) enc) last_block_size;
            match out with
            | None => Some None
            | Some out => Some (Some (write_at (full_block_count * full_block_size) out data))
            end
          else Some (Some data)
      end.

(** ** Addresses *)

Definition encode_addr (tag : Z) (data : list Z) : option (list Z) :=
  buf ← write_varint tag;
  let buf := buf ++ data in
  hash ← fast_hash buf;
  let buf := buf ++ take addr_checksum_size hash in
  encode buf.

Definition decode_addr (addr : list Z) : option (option (Z * list Z)) :=
  r ← decode addr;
  match r with
  | None => Some None
  | Some addr_data =>
      if (length addr_data <=? addr_checksum_size)%nat then Some None
      else
        let checksum := drop (length addr_data - addr_checksum_size) addr_data in
        let addr_data := take (length addr_data - addr_checksum_size) addr_data in
        hash ← fast_hash addr_data;
        let expected_checksum := take addr_checksum_size hash in
        if negb (bool_decide (expected_checksum = checksum)) then Some None
        else
          let '(read, tag) := read_varint addr_data in
          if read <=? 0 then Some None
          else Some (Some (tag, drop (Z.to_nat read) addr_data))
  end.

(** ** Symbols *)

Lemma reverse_letter d : (d < 58)%nat -> reverse_alphabet (alphabet !!! d) = Z.of_nat d.
Proof.
  intros H. assert (C : forallb (fun d => reverse_alphabet (alphabet !!! d) =? Z.of_nat d) (seq 0 58) = true) by (vm_compute; reflexivity).
  rewrite forallb_forall in C. apply Z.eqb_eq, C, in_seq. lia.
Qed.

Lemma letter_reverse l : 0 <= l < 2 ^ 8 -> 0 <= reverse_alphabet l ->
  reverse_alphabet l < 58 /\ alphabet !!! Z.to_nat (reverse_alphabet l) = l.
Proof.
  intros H Hr. assert (C : forallb (fun l => (reverse_alphabet l <? 0) ||
    ((reverse_alphabet l <? 58) && (alphabet !!! Z.to_nat (reverse_alphabet l) =? l))) (map Z.of_nat (seq 0 256)) = true)
    by (vm_compute; reflexivity).
  rewrite forallb_forall in C. specialize (C l). rewrite in_map_iff in C.
  assert (E : exists x, Z.of_nat x = l /\ In x (seq 0 256)) by (exists (Z.to_nat l); rewrite in_seq; change (2 ^ 8) with 256 in H; lia).
  specialize (C E). apply orb_true_iff in C as [C|C]; [apply Z.ltb_lt in C; lia|].
  apply andb_true_iff in C as [C1 C2]. apply Z.ltb_lt in C1. apply Z.eqb_eq in C2. done.
Qed.
