(* ===== verification/Base58Proofs.v ===== *)
(** * Base 58: blocks and strings

    Digits in base 58, what the block functions compute, and that decoding and
    encoding of strings undo each other. *)

From Stdlib Require Import ZArith Lia.
From stdpp Require Import base tactics list numbers option.
From S2P Require Import Prelude Radix Words Keccak TreeHash IntUtil Varint Base58.
Open Scope Z_scope.

(** ** Digits, least significant first *)

Fixpoint digits (n : nat) (v : Z) : list Z := match n with O => [] | S n => v mod 58 :: digits n (v / 58) end.
Fixpoint dval (l : list Z) : Z := match l with [] => 0 | d :: l => d + 58 * dval l end.
Definition digit_ok (d : Z) : Prop := 0 <= d < 58.

Lemma pow_58_S n : 58 ^ Z.of_nat (S n) = 58 * 58 ^ Z.of_nat n.
Proof. rewrite Nat2Z.inj_succ, Z.pow_succ_r by lia. reflexivity. Qed.
Lemma pow_58_pos n : 0 < 58 ^ Z.of_nat n.
Proof. apply Z.pow_pos_nonneg; lia. Qed.

Lemma digits_ok n : forall v, Forall digit_ok (digits n v) /\ length (digits n v) = n.
Proof.
  induction n as [|n IH]; intros v; [done|]. cbn [digits length]. destruct (IH (v / 58)) as [F L].
  split; [|by rewrite L]. constructor; [apply Z.mod_pos_bound; lia | exact F].
Qed.
Lemma dval_digits n : forall v, 0 <= v < 58 ^ Z.of_nat n -> dval (digits n v) = v.
Proof.
  induction n as [|n IH]; intros v H; [change (58 ^ Z.of_nat 0) with 1 in H; cbn; lia|]. rewrite pow_58_S in H. cbn [digits dval].
  rewrite IH; [pose proof (Z.div_mod v 58); lia|]. split; [apply Z.div_pos; lia | apply Z.div_lt_upper_bound; lia].
Qed.
Lemma dval_range l : Forall digit_ok l -> 0 <= dval l < 58 ^ Z.of_nat (length l).
Proof.
  induction 1 as [|d l Hd _ IH]; [cbn; lia|]. cbn [dval length]. rewrite pow_58_S. unfold digit_ok in Hd. lia.
Qed.
Lemma digits_dval l : Forall digit_ok l -> digits (length l) (dval l) = l.
Proof.
  induction 1 as [|d l Hd F IH]; [reflexivity|]. unfold digit_ok in Hd. cbn [length digits dval].
  rewrite (Z.mul_comm 58), Z.mod_add, Z.div_add, (Z.mod_small d), (Z.div_small d) by lia. by rewrite Z.add_0_l, IH.
Qed.

(** The symbols of a number, most significant first. *)
Definition symbols (n : nat) (v : Z) : list Z := rev (map (fun d => alphabet !!! Z.to_nat d) (digits n v)).

Lemma length_symbols n v : length (symbols n v) = n.
Proof. unfold symbols. rewrite length_rev, length_map. apply digits_ok. Qed.

Lemma symbols_0 n : symbols n 0 = replicate n (alphabet !!! 0%nat).
Proof.
  unfold symbols. assert (E : map (fun d => alphabet !!! Z.to_nat d) (digits n 0) = replicate n (alphabet !!! 0%nat)).
  { induction n as [|n IH]; [reflexivity|]. cbn [digits map replicate]. change (0 / 58) with 0. by rewrite IH. }
  rewrite E, rev_alt. apply reverse_replicate.
Qed.

Lemma encode_loop_eq n : forall fuel num suffix, 0 <= num < 58 ^ Z.of_nat n -> (n <= fuel)%nat ->
  encode_loop fuel num (Z.of_nat n - 1) (replicate n (alphabet !!! 0%nat) ++ suffix) = Some (symbols n num ++ suffix).
Proof.
  induction n as [|n IH]; intros fuel num suffix H Hf.
  - change (58 ^ Z.of_nat 0) with 1 in H. assert (num = 0) as -> by lia. destruct fuel; reflexivity.
  - rewrite pow_58_S in H. destruct (Z.leb_spec num 0) as [L|L].
    + assert (num = 0) as -> by lia. rewrite symbols_0. destruct fuel; reflexivity.
    + destruct fuel as [|fuel]; [lia|]. cbn [encode_loop]. rewrite (proj2 (Z.leb_gt num 0) L). cbv zeta.
      replace (Z.to_nat (Z.of_nat (S n) - 1)) with n by lia. replace (Z.of_nat (S n) - 1 - 1) with (Z.of_nat n - 1) by lia.
      rewrite replicate_S_end, <- app_assoc. cbn [app].
      assert (E : <[n := alphabet !!! Z.to_nat (num mod alphabet_size)]> (replicate n (alphabet !!! 0%nat) ++ alphabet !!! 0%nat :: suffix)
        = replicate n (alphabet !!! 0%nat) ++ alphabet !!! Z.to_nat (num mod alphabet_size) :: suffix).
      { rewrite <- (Nat.add_0_r n) at 1. rewrite <- (length_replicate n (alphabet !!! 0%nat)) at 1. by rewrite insert_app_r. }
      rewrite E. unfold alphabet_size. rewrite IH; [|split; [apply Z.div_pos; lia | apply Z.div_lt_upper_bound; lia]|lia].
      unfold symbols. cbn [digits map rev]. by rewrite <- app_assoc.
Qed.

(** ** Blocks *)

(** The sizes of a block and of its symbols. *)
Definition block_size (k sz : nat) : Prop := (1 <= k <= 8)%nat /\ encoded_block_sizes !!! k = sz.

Lemma block_size_facts k sz : block_size k sz ->
  decoded_block_sizes sz = Some (Z.of_nat k) /\ 2 ^ (8 * Z.of_nat k) <= 58 ^ Z.of_nat sz /\ (1 <= sz <= 11)%nat.
Proof.
  intros [Hk <-].
  assert (C : Forall (fun k => decoded_block_sizes (encoded_block_sizes !!! k) = Some (Z.of_nat k) /\
    2 ^ (8 * Z.of_nat k) <= 58 ^ Z.of_nat (encoded_block_sizes !!! k) /\ (1 <= encoded_block_sizes !!! k <= 11)%nat) (seq 1 8)).
  { cbn [seq]. repeat (constructor; [split; [reflexivity|]; split; [vm_compute; discriminate | cbn; lia]|]). constructor. }
  rewrite Forall_forall in C. apply C, in_seq. lia.
Qed.

Lemma be_fold data : byte_ok data -> forall acc, 0 <= acc -> acc * 2 ^ (8 * Z.of_nat (length data)) + 2 ^ (8 * Z.of_nat (length data)) <= 2 ^ 64 ->
  foldl (fun res b => Z.lor (u64 (Z.shiftl res 8)) b) acc data = acc * 2 ^ (8 * Z.of_nat (length data)) + le_val (rev data).
Proof.
  induction 1 as [|b l Hb Hl IH]; intros acc Ha H.
  - cbn. lia.
  - cbn [foldl length rev] in *. replace (8 * Z.of_nat (S (length l))) with (8 + 8 * Z.of_nat (length l)) in * by lia.
    rewrite Z.pow_add_r in * by lia. change (2 ^ 8) with 256 in *. set (p := 2 ^ (8 * Z.of_nat (length l))) in *.
    assert (Hp : 0 < p) by (apply Z.pow_pos_nonneg; lia).
    assert (Es : Z.lor (u64 (Z.shiftl acc 8)) b = acc * 256 + b).
    { rewrite Z.shiftl_mul_pow2 by lia. change (2 ^ 8) with 256. rewrite u64_id by nia. rewrite Z.lor_comm.
      pose proof (lor_shiftl_add b acc 8 ltac:(lia) ltac:(change (2 ^ 8) with 256; lia)) as E.
      rewrite Z.shiftl_mul_pow2 in E by lia. change (2 ^ 8) with 256 in E. lia. }
    rewrite Es, IH by nia. rewrite le_val_app, length_rev. fold p. cbn [le_val]. ring.
Qed.

Lemma uint_8be_eq data size : byte_ok data -> (1 <= size <= 8)%nat -> (size <= length data)%nat ->
  uint_8be_to_64 data size = Some (le_val (rev (take size data))).
Proof.
  intros B Hs L. unfold uint_8be_to_64. rewrite (proj2 (Nat.leb_le 1 size)), (proj2 (Nat.leb_le size 8)) by lia. cbn [andb].
  assert (Lt : length (take size data) = size) by (rewrite length_take; lia).
  rewrite be_fold; [rewrite Z.mul_0_l, Z.add_0_l; reflexivity | by apply Forall_take | lia |].
  rewrite Lt, Z.mul_0_l, Z.add_0_l. apply Z.pow_le_mono_r; lia.
Qed.

Lemma rev_le_bytes_8 v k : 0 <= v < 2 ^ 64 -> (1 <= k <= 8)%nat -> uint_64_to_8be v k = Some (rev (le_bytes k v)).
Proof.
  intros Hv Hk. unfold uint_64_to_8be. rewrite (proj2 (Nat.leb_le 1 k)), (proj2 (Nat.leb_le k 8)) by lia. cbn [andb]. f_equal.
  rewrite SWAP64_spec by exact Hv.
  assert (E : le_bytes 8 (le_val (rev (le_bytes 8 v))) = rev (le_bytes 8 v)).
  { rewrite <- (length_le_bytes 8 v) at 1. rewrite <- length_rev. apply le_bytes_le_val. apply Forall_rev, le_bytes_ok. }
  rewrite E. assert (Ek : le_bytes 8 v = le_bytes k v ++ le_bytes (8 - k) (v / 2 ^ (8 * Z.of_nat k))).
  { clear -Hk. assert (C : forall n m v, le_bytes (n + m) v = le_bytes n v ++ le_bytes m (v / 2 ^ (8 * Z.of_nat n))).
    { induction n as [|n IH]; intros m w; [cbn [Nat.add le_bytes app]; change (2 ^ (8 * Z.of_nat 0)) with 1; by rewrite Z.div_1_r|].
      cbn [Nat.add le_bytes app]. rewrite IH. do 3 f_equal. rewrite Z.div_div by (try lia; apply Z.pow_pos_nonneg; lia). f_equal.
      rewrite <- Z.pow_add_r by lia. f_equal. lia. }
    replace 8%nat with (k + (8 - k))%nat at 1 by lia. apply C. }
  rewrite Ek, rev_app_distr. apply drop_app_length'. rewrite length_rev, length_le_bytes. reflexivity.
Qed.

(** The symbols of a block of bytes; the value of symbols. *)
Definition enc_blk (b : list Z) : list Z := symbols (encoded_block_sizes !!! length b) (le_val (rev b)).
Definition sym_val (s : list Z) : Z := dval (map reverse_alphabet (rev s)).
Definition dec_blk (k : nat) (s : list Z) : option (list Z) :=
  if forallb (fun l => 0 <=? reverse_alphabet l) s && (sym_val s <? 2 ^ (8 * Z.of_nat k)) then Some (rev (le_bytes k (sym_val s))) else None.

Lemma be_range b : byte_ok b -> 0 <= le_val (rev b) < 2 ^ (8 * Z.of_nat (length b)).
Proof. intros B. rewrite <- length_rev. apply le_val_range. by apply Forall_rev. Qed.

Lemma encode_block_eq data k sz suffix : block_size k sz -> byte_ok data -> (k <= length data)%nat ->
  encode_block data k (replicate sz (alphabet !!! 0%nat) ++ suffix) = Some (enc_blk (take k data) ++ suffix).
Proof.
  intros Hs B L. destruct (block_size_facts k sz Hs) as (_ & P & S). destruct Hs as [Hk Es]. unfold encode_block, full_block_size.
  rewrite (proj2 (Nat.leb_le 1 k)), (proj2 (Nat.leb_le k 8)) by lia. cbn [andb].
  rewrite uint_8be_eq by (done || lia). cbn [mbind option_bind]. rewrite Es.
  assert (Lt : length (take k data) = k) by (rewrite length_take; lia).
  rewrite encode_loop_eq; [| | lia].
  - unfold enc_blk. by rewrite Lt, Es.
  - pose proof (be_range (take k data) (Forall_take _ _ _ B)) as R. rewrite Lt in R. lia.
Qed.

Lemma reverse_range l : byte_ok l -> Forall (fun c => reverse_alphabet c < 58) l.
Proof.
  intros B. eapply Forall_impl; [|exact B]. intros c Hc. cbn beta in *.
  destruct (Z.lt_ge_cases (reverse_alphabet c) 0); [lia|]. by destruct (letter_reverse c Hc).
Qed.

Lemma valid_digits l : byte_ok l -> forallb (fun c => 0 <=? reverse_alphabet c) l = true -> Forall digit_ok (map reverse_alphabet l).
Proof.
  intros B V. pose proof (reverse_range l B) as R. rewrite forallb_forall in V. apply Forall_forall. intros d Hd.
  apply in_map_iff in Hd as (c & <- & Hc). split; [by apply Z.leb_le, V|]. rewrite Forall_forall in R. by apply R.
Qed.

Lemma decode_loop_eq l : forall j res, byte_ok l -> (j + length l <= 11)%nat -> 0 <= res < 2 ^ 64 ->
  decode_loop l res (u64 (58 ^ Z.of_nat j)) =
  Some (if forallb (fun c => 0 <=? reverse_alphabet c) l && (res + 58 ^ Z.of_nat j * dval (map reverse_alphabet l) <? 2 ^ 64)
        then Some (res + 58 ^ Z.of_nat j * dval (map reverse_alphabet l)) else None).
Proof.
  induction l as [|c l IH]; intros j res B L Hr.
  - cbn [decode_loop forallb map dval andb]. rewrite Z.mul_0_r, Z.add_0_r. destruct (Z.ltb_spec res (2 ^ 64)); [reflexivity | lia].
  - apply Forall_cons_1 in B as [Hc B]. cbn [length] in L. cbn [decode_loop forallb map dval]. set (d := reverse_alphabet c).
    assert (Hd58 : d < 58) by (pose proof (reverse_range [c] ltac:(by constructor)) as R; by inversion R).
    destruct (Z.ltb_spec d 0) as [N|N]; [by rewrite (proj2 (Z.leb_gt 0 d) N)|].
    rewrite (proj2 (Z.leb_le 0 d) N). cbn [andb]. set (p := 58 ^ Z.of_nat j).
    assert (Hp : 0 < p < 2 ^ 64).
    { split; [apply pow_58_pos|]. apply (Z.le_lt_trans _ (58 ^ 10)); [apply Z.pow_le_mono_r; lia | reflexivity]. }
    rewrite (u64_id p), mul128_spec by lia. cbn [mbind option_bind].
    assert (Ep : p * 58 = 58 ^ Z.of_nat (S j)) by (rewrite pow_58_S; fold p; lia).
    assert (D : forallb (fun c => 0 <=? reverse_alphabet c) l = true -> 0 <= dval (map reverse_alphabet l)).
    { intros V. by apply dval_range, valid_digits. }
    destruct (Z.lt_ge_cases (res + p * d) (2 ^ 64)) as [Lt|Ge].
    + rewrite (Z.mod_small (p * d)), (Z.div_small (p * d)) by nia. rewrite u64_id by nia.
      destruct (Z.ltb_spec (res + p * d) res); [nia|]. cbn [orb negb Z.eqb]. unfold alphabet_size. rewrite Ep, IH by (done || lia || nia).
      replace (res + p * d + 58 ^ Z.of_nat (S j) * dval (map reverse_alphabet l)) with (res + p * (d + 58 * dval (map reverse_alphabet l)))
        by (rewrite <- Ep; ring). reflexivity.
    + assert (O : (u64 (res + (p * d) mod 2 ^ 64) <? res) || negb (p * d / 2 ^ 64 =? 0) = true).
      { apply orb_true_iff. destruct (Z.eqb_spec (p * d / 2 ^ 64) 0) as [Z0|]; [left | by right].
        pose proof (Z.div_mod (p * d) (2 ^ 64) ltac:(lia)) as E. rewrite Z0 in E. rewrite <- (Z.mul_0_r (2 ^ 64)), <- Z0 in E. 
        pose proof (Z.mod_pos_bound (p * d) (2 ^ 64) ltac:(lia)). apply Z.ltb_lt. unfold u64.
        rewrite <- (Z.mod_unique (res + (p * d) mod 2 ^ 64) (2 ^ 64) 1 (res + (p * d) mod 2 ^ 64 - 2 ^ 64)); lia. }
      rewrite O. destruct (forallb _ l) eqn:V; [|reflexivity]. specialize (D eq_refl). cbn [andb].
      destruct (Z.ltb_spec (res + p * (d + 58 * dval (map reverse_alphabet l))) (2 ^ 64)); [nia | reflexivity].
Qed.

Lemma sym_val_digits s : byte_ok s -> forallb (fun l => 0 <=? reverse_alphabet l) s = true ->
  Forall digit_ok (map reverse_alphabet (rev s)) /\ 0 <= sym_val s < 58 ^ Z.of_nat (length s).
Proof.
  intros B V. assert (F : Forall digit_ok (map reverse_alphabet (rev s))).
  { apply valid_digits; [by apply Forall_rev|]. rewrite forallb_forall in *. intros c Hc. apply V. by apply in_rev. }
  split; [exact F|]. pose proof (dval_range _ F) as R. by rewrite length_map, length_rev in R.
Qed.

Lemma forallb_rev {A} (p : A -> bool) l : forallb p (rev l) = forallb p l.
Proof.
  induction l as [|x l IH]; [reflexivity|]. cbn [rev forallb]. rewrite forallb_app, IH. cbn [forallb].
  rewrite andb_true_r. apply andb_comm.
Qed.

Lemma decode_block_eq s k sz : block_size k sz -> byte_ok s -> (sz <= length s)%nat ->
  decode_block s sz = Some (dec_blk k (take sz s)).
Proof.
  intros Hs B L. destruct (block_size_facts k sz Hs) as (D & P & S). destruct Hs as [Hk Es]. unfold decode_block.
  change full_encoded_block_size with 11%nat. rewrite (proj2 (Nat.leb_le 1 sz)), (proj2 (Nat.leb_le sz 11)) by lia. cbn [andb].
  rewrite D. cbn [mbind option_bind]. rewrite (proj2 (Z.leb_gt (Z.of_nat k) 0)) by lia.
  set (t := take sz s). assert (Bt : byte_ok t) by (by apply Forall_take).
  assert (Lt : length t = sz) by (unfold t; rewrite length_take; lia).
  pose proof (decode_loop_eq (rev t) 0 0) as E. change (u64 (58 ^ Z.of_nat 0)) with 1 in E. change (58 ^ Z.of_nat 0) with 1 in E.
  rewrite E; [|by apply Forall_rev | rewrite length_rev; lia | lia]. clear E. cbn [mbind option_bind].
  rewrite forallb_rev, Z.add_0_l, Z.mul_1_l. fold (sym_val t). unfold dec_blk.
  destruct (forallb _ t) eqn:V; [|reflexivity]. cbn [andb].
  destruct (sym_val_digits t Bt V) as [_ R].
  destruct (Z.ltb_spec (sym_val t) (2 ^ 64)) as [H64|H64].
  2: { destruct (Z.ltb_spec (sym_val t) (2 ^ (8 * Z.of_nat k))) as [H|H]; [|reflexivity].
       assert (2 ^ (8 * Z.of_nat k) <= 2 ^ 64) by (apply Z.pow_le_mono_r; lia). lia. }
  change (Z.of_nat full_block_size) with 8. rewrite Nat2Z.id, rev_le_bytes_8 by lia. cbn [mbind option_bind].
  destruct (Z.ltb_spec (Z.of_nat k) 8) as [K8|K8]; cbn [andb].
  - assert (2 ^ (8 * Z.of_nat k) < 2 ^ 64) by (apply Z.pow_lt_mono_r; lia).
    rewrite Z.shiftl_1_l, u64_id by (split; [apply Z.pow_nonneg; lia | done]).
    destruct (Z.leb_spec (2 ^ (8 * Z.of_nat k)) (sym_val t)), (Z.ltb_spec (sym_val t) (2 ^ (8 * Z.of_nat k))); lia || reflexivity.
  - assert (k = 8%nat) as -> by lia. change (2 ^ (8 * Z.of_nat 8)) with (2 ^ 64).
    by rewrite (proj2 (Z.ltb_lt _ _) H64).
Qed.

(** Encoding and decoding of a block undo each other. *)
Lemma symbols_valid n v : forallb (fun l => 0 <=? reverse_alphabet l) (symbols n v) = true /\
  map reverse_alphabet (rev (symbols n v)) = digits n v /\ byte_ok (symbols n v).
Proof.
  destruct (digits_ok n v) as [F _]. unfold symbols. rewrite forallb_rev, rev_involutive.
  induction F as [|d l [H1 H2] F (I1 & I2 & I3)]; [by split; [|split; [|constructor]]|]. cbn [map forallb rev].
  assert (Ed : reverse_alphabet (alphabet !!! Z.to_nat d) = d) by (rewrite reverse_letter by lia; lia).
  assert (Bd : 0 <= alphabet !!! Z.to_nat d < 2 ^ 8).
  { assert (C : Forall (fun c => 0 <= c < 2 ^ 8) alphabet) by (apply (bool_decide_unpack _); vm_compute; exact I).
    apply (Forall_lookup_total_1 (fun c => 0 <= c < 2 ^ 8) alphabet); [exact C | cbn; lia]. }
  rewrite Ed, I1, I2. split; [by rewrite (proj2 (Z.leb_le 0 d) H1)|]. split; [reflexivity|].
  apply Forall_app. split; [exact I3 | by constructor].
Qed.

Lemma dec_enc_blk k b : block_size k (encoded_block_sizes !!! k) -> length b = k -> byte_ok b -> dec_blk k (enc_blk b) = Some b.
Proof.
  intros Hs L B. destruct (block_size_facts _ _ Hs) as (_ & P & S). unfold dec_blk, enc_blk, sym_val. rewrite L.
  destruct (symbols_valid (encoded_block_sizes !!! k) (le_val (rev b))) as (-> & -> & _). cbn [andb].
  pose proof (be_range b B) as R. rewrite L in R. rewrite dval_digits by lia. rewrite (proj2 (Z.ltb_lt _ _)) by lia.
  rewrite <- L, <- length_rev, le_bytes_le_val, rev_involutive by (by apply Forall_rev). reflexivity.
Qed.

Lemma enc_dec_blk k s b : block_size k (length s) -> byte_ok s -> dec_blk k s = Some b ->
  length b = k /\ byte_ok b /\ enc_blk b = s.
Proof.
  intros Hs B E. destruct Hs as [Hk Es]. unfold dec_blk in E. destruct (forallb _ s) eqn:V; [|discriminate]. cbn [andb] in E.
  destruct (Z.ltb_spec (sym_val s) (2 ^ (8 * Z.of_nat k))) as [H|H]; [|discriminate]. injection E as <-.
  destruct (sym_val_digits s B V) as [F R]. rewrite length_rev, length_le_bytes. split; [reflexivity|].
  split; [apply Forall_rev, le_bytes_ok|]. unfold enc_blk. rewrite length_rev, length_le_bytes, rev_involutive, le_val_le_bytes, Es.
  rewrite Z.mod_small by lia. unfold symbols, sym_val. rewrite <- length_rev, <- (length_map reverse_alphabet).
  rewrite digits_dval by exact F. rewrite map_map. rewrite forallb_forall in V.
  assert (C : forall c, In c (rev s) -> alphabet !!! Z.to_nat (reverse_alphabet c) = c).
  { intros c Hc. apply in_rev in Hc. specialize (V c Hc). apply Z.leb_le in V.
    apply letter_reverse; [|exact V]. by eapply Forall_forall in B; [|exact Hc]. }
  rewrite (map_ext_in _ id _ C), map_id. apply rev_involutive.
Qed.

(** ** Strings *)

Fixpoint enc_full (n : nat) (data : list Z) : list Z :=
  match n with O => [] | S n => enc_blk (take 8 data) ++ enc_full n (drop 8 data) end.
Fixpoint dec_full (n : nat) (s : list Z) : option (list Z) :=
  match n with
  | O => Some []
  | S n => b ← dec_blk 8 (take 11 s); l ← dec_full n (drop 11 s); Some (b ++ l)
  end.

Lemma size_8 : block_size 8 11.
Proof. split; [lia | reflexivity]. Qed.

Lemma length_enc_blk b : length (enc_blk b) = encoded_block_sizes !!! length b.
Proof. apply length_symbols. Qed.
Lemma length_enc_full n : forall data, (8 * n <= length data)%nat -> length (enc_full n data) = (11 * n)%nat.
Proof.
  induction n as [|n IH]; intros data H; [reflexivity|]. cbn [enc_full]. rewrite length_app, length_enc_blk, IH.
  - rewrite length_take, Nat.min_l by lia. change (encoded_block_sizes !!! 8%nat) with 11%nat. lia.
  - rewrite length_drop. lia.
Qed.

Lemma encode_blocks_eq n : forall i data pre suf, byte_ok data -> length pre = (11 * i)%nat -> (8 * (i + n) <= length data)%nat ->
  encode_blocks n i data (pre ++ replicate (11 * n) (alphabet !!! 0%nat) ++ suf) = Some (pre ++ enc_full n (drop (8 * i) data) ++ suf).
Proof.
  induction n as [|n IH]; intros i data pre suf B L H; [reflexivity|]. cbn [encode_blocks enc_full].
  change full_block_size with 8%nat. change full_encoded_block_size with 11%nat. rewrite (Nat.mul_comm i 8), (Nat.mul_comm i 11), <- L.
  rewrite drop_app_length. replace (11 * S n)%nat with (11 + 11 * n)%nat by lia. rewrite replicate_add, <- app_assoc.
  rewrite take_app_length' by (by rewrite length_replicate). rewrite <- (app_nil_r (replicate 11 _)).
  rewrite (encode_block_eq _ 8 11 [] size_8); [|by apply Forall_drop | rewrite length_drop; lia]. cbn [mbind option_bind].
  rewrite !app_nil_r, write_at_app.
  assert (Lo : length (enc_blk (take 8 (drop (8 * i) data))) = 11%nat).
  { rewrite length_enc_blk, length_take, length_drop, Nat.min_l by lia. reflexivity. }
  rewrite Lo, drop_app_length' by (by rewrite length_replicate). rewrite app_assoc, IH; [|exact B | rewrite length_app; lia | lia].
  rewrite drop_drop. replace (8 * i + 8)%nat with (8 * S i)%nat by lia. by rewrite <- !app_assoc.
Qed.

(** What [encode] computes, for the empty string as well. *)
Lemma encode_eq data : byte_ok data -> encode data = Some (enc_full (length data / 8) data ++ enc_blk (drop (8 * (length data / 8)) data)).
Proof.
  intros B. unfold encode. destruct (Nat.eqb_spec (length data) 0) as [L0|L0].
  { apply nil_length_inv in L0 as ->. reflexivity. }
  change full_block_size with 8%nat. change full_encoded_block_size with 11%nat. cbv zeta.
  set (n := (length data / 8)%nat). pose proof (Nat.div_mod (length data) 8 ltac:(lia)) as E. fold n in E.
  pose proof (Nat.mod_upper_bound (length data) 8 ltac:(lia)) as M. set (m := (length data mod 8)%nat) in *.
  rewrite (Nat.mul_comm n 11), replicate_add.
  pose proof (encode_blocks_eq n 0 data [] (replicate (encoded_block_sizes !!! m) (alphabet !!! 0%nat)) B eq_refl ltac:(lia)) as Eb.
  change (8 * 0)%nat with 0%nat in Eb. cbn [app] in Eb. rewrite drop_0 in Eb. rewrite Eb. cbn [mbind option_bind].
  assert (Lf : length (enc_full n data) = (11 * n)%nat) by (apply length_enc_full; lia).
  assert (Lt : length (drop (8 * n) data) = m) by (rewrite length_drop; lia).
  destruct (Nat.ltb_spec 0 m) as [Hm|Hm].
  - rewrite (Nat.mul_comm n 8), <- Lf, drop_app_length.
    assert (Hs : block_size m (encoded_block_sizes !!! m)) by (split; [lia | reflexivity]).
    rewrite <- (app_nil_r (replicate _ _)).
    rewrite (encode_block_eq _ m _ [] Hs); [|by apply Forall_drop | lia]. cbn [mbind option_bind].
    rewrite !app_nil_r, write_at_app, (take_ge (drop _ _)) by lia.
    rewrite (drop_ge (replicate _ _)); [by rewrite app_nil_r|]. rewrite length_enc_blk, Lt, length_replicate. lia.
  - assert (m = 0%nat) as Em by lia. rewrite Em in *. apply nil_length_inv in Lt as ->. reflexivity.
Qed.

Lemma decode_blocks_eq n : forall i enc pre rest, byte_ok enc -> length pre = (8 * i)%nat -> (11 * (i + n) <= length enc)%nat ->
  (8 * n <= length rest)%nat ->
  decode_blocks n i enc (pre ++ rest) = Some (l ← dec_full n (drop (11 * i) enc); Some (pre ++ l ++ drop (8 * n) rest)).
Proof.
  induction n as [|n IH]; intros i enc pre rest B L H Hr; [reflexivity|]. cbn [decode_blocks dec_full].
  change full_encoded_block_size with 11%nat. change full_block_size with 8%nat. rewrite (Nat.mul_comm i 8), (Nat.mul_comm i 11), <- L.
  rewrite (decode_block_eq _ 8 11 size_8); [|by apply Forall_drop | rewrite length_drop; lia]. cbn [mbind option_bind].
  assert (Lt : length (take 11 (drop (11 * i) enc)) = 11%nat) by (rewrite length_take, length_drop; lia).
  destruct (dec_blk 8 _) as [b|] eqn:Eb; [|reflexivity]. cbn [mbind option_bind].
  assert (Lb : length b = 8%nat).
  { apply (enc_dec_blk 8 _ b) in Eb as [Lb _]; [exact Lb | rewrite Lt; exact size_8 | by apply Forall_take, Forall_drop]. }
  rewrite write_at_app, Lb, app_assoc, IH; [|exact B | rewrite length_app; lia | lia | rewrite length_drop; lia].
  assert (Ed : drop 11 (drop (11 * i) enc) = drop (11 * S i) enc) by (rewrite drop_drop; f_equal; lia). rewrite Ed.
  destruct (dec_full n (drop (11 * S i) enc)) as [l|]; [|reflexivity]. cbn [mbind option_bind]. rewrite drop_drop, <- !app_assoc.
  replace (8 + 8 * n)%nat with (8 * S n)%nat by lia. reflexivity.
Qed.

(** Full blocks undo each other, whatever follows them. *)
Lemma dec_full_enc n : forall s l, byte_ok s -> (11 * n <= length s)%nat -> dec_full n s = Some l ->
  length l = (8 * n)%nat /\ byte_ok l /\ enc_full n l = take (11 * n) s.
Proof.
  induction n as [|n IH]; intros s l B L E; [injection E as <-; by split; [|split; [constructor|]]|].
  cbn [dec_full] in E. destruct (dec_blk 8 (take 11 s)) as [b|] eqn:Eb; [|discriminate]. cbn [mbind option_bind] in E.
  destruct (dec_full n (drop 11 s)) as [l'|] eqn:El; [|discriminate]. cbn [mbind option_bind] in E. apply (inj Some) in E as <-.
  destruct (IH (drop 11 s) l') as (L1 & B1 & E1); [by apply Forall_drop | rewrite length_drop; lia | exact El |].
  apply (enc_dec_blk 8 _ b) in Eb as (L2 & B2 & E2); [| rewrite length_take, Nat.min_l by lia; exact size_8 | by apply Forall_take].
  rewrite length_app. split; [lia|]. split; [by apply Forall_app|]. cbn [enc_full].
  rewrite take_app_length', drop_app_length' by done. rewrite E1, E2, take_take_drop. f_equal. lia.
Qed.

Lemma enc_dec_full n : forall d rest, byte_ok d -> (8 * n <= length d)%nat ->
  dec_full n (enc_full n d ++ rest) = Some (take (8 * n) d).
Proof.
  induction n as [|n IH]; intros d rest B L; [reflexivity|]. cbn [dec_full enc_full].
  assert (L8 : length (take 8 d) = 8%nat) by (rewrite length_take; lia).
  assert (Lb : length (enc_blk (take 8 d)) = 11%nat) by (rewrite length_enc_blk, L8; reflexivity).
  rewrite <- app_assoc, take_app_length', drop_app_length' by done.
  rewrite (dec_enc_blk 8); [|exact size_8 | exact L8 | by apply Forall_take]. cbn [mbind option_bind].
  rewrite IH by (by apply Forall_drop || (rewrite length_drop; lia)). cbn [mbind option_bind].
  rewrite take_take_drop. do 2 f_equal. lia.
Qed.

Lemma enc_full_take n : forall d m, (8 * n <= m)%nat -> enc_full n (take m d) = enc_full n d.
Proof.
  induction n as [|n IH]; intros d m H; [reflexivity|]. cbn [enc_full].
  rewrite take_take, Nat.min_l by lia. rewrite skipn_firstn_comm. rewrite IH by lia. reflexivity.
Qed.

(** What [decode] answers. *)
Definition dec_str (s : list Z) : option (list Z) :=
  let n := (length s / 11)%nat in
  let m := (length s mod 11)%nat in
  if sizes_data !!! m <? 0 then None
  else l ← dec_full n s;
       if (0 <? m)%nat then b ← dec_blk (Z.to_nat (sizes_data !!! m)) (drop (11 * n) s); Some (l ++ b) else Some l.

(** The sizes of a last block. *)
Lemma sizes_of m : (m < 11)%nat -> sizes_data !!! m < 0 \/ sizes_data !!! m = 0 /\ m = 0%nat \/
  block_size (Z.to_nat (sizes_data !!! m)) m /\ (Z.to_nat (sizes_data !!! m) < 8)%nat.
Proof.
  intros H. assert (C : forall m, In m (seq 0 11) -> sizes_data !!! m < 0 \/ sizes_data !!! m = 0 /\ m = 0%nat \/
    ((1 <= Z.to_nat (sizes_data !!! m) <= 8)%nat /\ encoded_block_sizes !!! Z.to_nat (sizes_data !!! m) = m) /\ (Z.to_nat (sizes_data !!! m) < 8)%nat).
  { intros k Hk. assert (P : forallb (fun m => (sizes_data !!! m <? 0) || ((sizes_data !!! m =? 0) && (m =? 0)%nat) ||
      ((1 <=? Z.to_nat (sizes_data !!! m)) && (Z.to_nat (sizes_data !!! m) <? 8) && (encoded_block_sizes !!! Z.to_nat (sizes_data !!! m) =? m))%nat) (seq 0 11) = true)
      by (vm_compute; reflexivity).
    rewrite forallb_forall in P. specialize (P k Hk). rewrite !orb_true_iff, !andb_true_iff, Z.ltb_lt, Z.eqb_eq, !Nat.eqb_eq, Nat.leb_le, Nat.ltb_lt in P.
    destruct P as [[P|P]|P]; [by left | right; by left | right; right]. destruct P as [[P1 P2] P3]. repeat split; lia. }
  apply C, in_seq. lia.
Qed.

Lemma decode_eq s : byte_ok s -> decode s = Some (dec_str s).
Proof.
  intros B. unfold decode, dec_str. destruct (Nat.eqb_spec (length s) 0) as [L0|L0].
  { apply nil_length_inv in L0 as ->. reflexivity. }
  change full_block_size with 8%nat. change full_encoded_block_size with 11%nat. cbv zeta.
  set (n := (length s / 11)%nat). pose proof (Nat.div_mod (length s) 11 ltac:(lia)) as E. fold n in E.
  pose proof (Nat.mod_upper_bound (length s) 11 ltac:(lia)) as M. set (m := (length s mod 11)%nat) in *.
  unfold decoded_block_sizes. change full_encoded_block_size with 11%nat. rewrite (proj2 (Nat.leb_le m 11)) by lia. cbn [mbind option_bind].
  destruct (Z.ltb_spec (sizes_data !!! m) 0) as [N|N]; [reflexivity|].
  pose proof (decode_blocks_eq n 0 s [] (replicate (n * 8 + Z.to_nat (sizes_data !!! m)) 0) B eq_refl ltac:(lia)) as Ed.
  change (11 * 0)%nat with 0%nat in Ed. cbn [app] in Ed. rewrite drop_0 in Ed. rewrite Ed by (rewrite length_replicate; lia). cbn [mbind option_bind].
  destruct (dec_full n s) as [l|] eqn:El; [|reflexivity]. cbn [mbind option_bind].
  destruct (dec_full_enc n s l B ltac:(lia) El) as [Ll _].
  rewrite drop_replicate. replace (n * 8 + Z.to_nat (sizes_data !!! m) - 8 * n)%nat with (Z.to_nat (sizes_data !!! m)) by lia.
  destruct (sizes_of m M) as [C|[[C1 C2]|[C1 C2]]]; [lia| |].
  - rewrite C1, C2. cbn [Nat.ltb Nat.leb]. cbn [Z.to_nat replicate]. by rewrite app_nil_r.
  - rewrite (proj2 (Nat.ltb_lt 0 m)) by (destruct (block_size_facts _ _ C1); lia). rewrite (Nat.mul_comm n 11), (Nat.mul_comm n 8).
    rewrite (decode_block_eq _ _ m C1); [|by apply Forall_drop | rewrite length_drop; lia]. cbn [mbind option_bind].
    assert (Lt : length (drop (11 * n) s) = m) by (rewrite length_drop; lia). rewrite take_ge by lia.
    destruct (dec_blk _ (drop (11 * n) s)) as [b|] eqn:Eb; [|reflexivity]. cbn [mbind option_bind]. rewrite <- Ll, write_at_app.
    apply (enc_dec_blk _ _ b) in Eb as [Lb _]; [|by rewrite Lt | by apply Forall_drop].
    rewrite (drop_ge (replicate _ _)); [by rewrite app_nil_r|]. rewrite length_replicate. lia.
Qed.

(** The string functions undo each other. *)
Lemma length_mod_div (n m k : nat) : (m < k)%nat -> ((k * n + m) / k = n /\ (k * n + m) mod k = m)%nat.
Proof.
  intros H. rewrite (Nat.add_comm _ m), (Nat.mul_comm k). split; [rewrite Nat.div_add, Nat.div_small by lia; lia|].
  rewrite Nat.Div0.mod_add. apply Nat.mod_small. lia.
Qed.

Lemma tail_sizes m : (0 < m < 8)%nat -> (0 < encoded_block_sizes !!! m < 11)%nat /\
  sizes_data !!! (encoded_block_sizes !!! m) = Z.of_nat m.
Proof.
  intros H. assert (P : forallb (fun m => (0 <? encoded_block_sizes !!! m)%nat && (encoded_block_sizes !!! m <? 11)%nat &&
    (sizes_data !!! (encoded_block_sizes !!! m) =? Z.of_nat m)) (seq 1 7) = true) by (vm_compute; reflexivity).
  rewrite forallb_forall in P. specialize (P m ltac:(apply in_seq; lia)).
  rewrite !andb_true_iff, !Nat.ltb_lt, Z.eqb_eq in P. lia.
Qed.

Lemma byte_ok_enc_full n : forall d, byte_ok (enc_full n d).
Proof.
  induction n as [|n IH]; intros d; [constructor|]. cbn [enc_full]. apply Forall_app. split; [apply symbols_valid | apply IH].
Qed.

Lemma decode_encode_bytes d : byte_ok d -> exists s, encode d = Some s /\ byte_ok s /\ decode s = Some (Some d).
Proof.
  intros B. rewrite encode_eq by exact B. eexists. split; [reflexivity|].
  set (n := (length d / 8)%nat). pose proof (Nat.div_mod (length d) 8 ltac:(lia)) as E. fold n in E.
  pose proof (Nat.mod_upper_bound (length d) 8 ltac:(lia)) as M. set (m := (length d mod 8)%nat) in *.
  assert (Lf : length (enc_full n d) = (11 * n)%nat) by (apply length_enc_full; lia).
  assert (Lt : length (drop (8 * n) d) = m) by (rewrite length_drop; lia).
  assert (Bs : byte_ok (enc_full n d ++ enc_blk (drop (8 * n) d))).
  { apply Forall_app. split; [apply byte_ok_enc_full | apply symbols_valid]. }
  split; [exact Bs|]. rewrite decode_eq by exact Bs. unfold dec_str.
  rewrite length_app, Lf, length_enc_blk, Lt. destruct (Nat.eq_dec m 0%nat) as [Z0|Z0].
  - rewrite Z0 in *. apply nil_length_inv in Lt. rewrite Lt. change (encoded_block_sizes !!! 0%nat) with 0%nat.
    destruct (length_mod_div n 0 11 ltac:(lia)) as [-> ->]. change (sizes_data !!! 0%nat) with 0. cbn [Z.ltb Z.compare Nat.ltb Nat.leb].
    rewrite enc_dec_full by (done || lia). cbn [mbind option_bind]. rewrite take_ge by lia. reflexivity.
  - destruct (tail_sizes m ltac:(lia)) as [[P1 P2] Es]. destruct (length_mod_div n _ 11 P2) as [-> ->]. rewrite Es.
    rewrite (proj2 (Z.ltb_ge (Z.of_nat m) 0)), (proj2 (Nat.ltb_lt 0 _)) by lia. rewrite enc_dec_full by (done || lia).
    cbn [mbind option_bind]. rewrite <- Lf, drop_app_length, Nat2Z.id.
    rewrite dec_enc_blk; [| split; [lia | reflexivity] | exact Lt | by apply Forall_drop]. cbn [mbind option_bind].
    by rewrite take_drop.
Qed.

Lemma encode_decode_bytes s d : byte_ok s -> decode s = Some (Some d) -> byte_ok d /\ encode d = Some s.
Proof.
  intros B E. rewrite decode_eq in E by exact B. apply (inj Some) in E. unfold dec_str in E.
  set (n := (length s / 11)%nat) in *. pose proof (Nat.div_mod (length s) 11 ltac:(lia)) as El. fold n in El.
  pose proof (Nat.mod_upper_bound (length s) 11 ltac:(lia)) as M. set (m := (length s mod 11)%nat) in *.
  destruct (Z.ltb_spec (sizes_data !!! m) 0) as [N|N]; [discriminate|].
  destruct (dec_full n s) as [l|] eqn:Ed; [|discriminate]. cbn [mbind option_bind] in E.
  destruct (dec_full_enc n s l B ltac:(lia) Ed) as (L1 & B1 & E1).
  destruct (sizes_of m M) as [C|[[C1 C2]|[C1 C2]]]; [lia| |].
  - rewrite C2 in *. cbn [Nat.ltb Nat.leb] in E. apply (inj Some) in E as <-. split; [exact B1|].
    rewrite encode_eq by exact B1. rewrite L1. destruct (length_mod_div n 0 8 ltac:(lia)) as [D _].
    rewrite Nat.add_0_r in D. rewrite D, E1, take_ge, drop_ge by lia. change (enc_blk []) with (@nil Z). by rewrite app_nil_r.
  - destruct (block_size_facts _ _ C1) as (_ & _ & Sm). rewrite (proj2 (Nat.ltb_lt 0 m)) in E by lia.
    destruct (dec_blk _ (drop (11 * n) s)) as [b|] eqn:Eb; [|discriminate]. cbn [mbind option_bind] in E. apply (inj Some) in E as <-.
    assert (Lt : length (drop (11 * n) s) = m) by (rewrite length_drop; lia).
    apply (enc_dec_blk _ _ b) in Eb as (L2 & B2 & E2); [| by rewrite Lt | by apply Forall_drop].
    assert (Bb : byte_ok (l ++ b)) by (by apply Forall_app). split; [exact Bb|].
    rewrite encode_eq by exact Bb. rewrite length_app, L1, L2. destruct (length_mod_div n _ 8 C2) as [-> _].
    rewrite <- (enc_full_take n (l ++ b) (8 * n)), <- L1, take_app_length, drop_app_length by lia.
    rewrite E1, E2. by rewrite take_drop.
Qed.
