(* ===== verification/Base58Correct.v ===== *)
(** * Base 58 and addresses: the properties

    The codec of strings is a bijection on its image, and addresses are read back
    as they were written. *)

From Stdlib Require Import ZArith Lia.
From stdpp Require Import base tactics list numbers option.
From S2P Require Import Prelude Radix Words Keccak TreeHash TreeProofs CryptoProofs IntUtil Varint Base58 Base58Proofs.
Open Scope Z_scope.

#[local] Opaque fast_hash digest.

(** What an address holds before it is encoded, and its checksum. *)
Definition checksum (buf : list Z) : list Z := take addr_checksum_size (digest buf).

Lemma checksum_ok buf : byte_ok (checksum buf) /\ length (checksum buf) = addr_checksum_size.
Proof.
  unfold checksum. destruct (digest_ok buf) as (B & L & _). split; [by apply Forall_take|].
  rewrite length_take, L. reflexivity.
Qed.

Lemma encode_addr_eq tag data buf : write_varint tag = Some buf ->
  encode_addr tag data = encode ((buf ++ data) ++ checksum (buf ++ data)).
Proof.
  intros E. unfold encode_addr. rewrite E. cbn [mbind option_bind].
  destruct (digest_ok (buf ++ data)) as (_ & _ & ->). reflexivity.
Qed.

(** The bytes an accepted string holds. *)
Lemma decode_addr_eq s a : byte_ok s -> decode s = Some (Some a) -> decode_addr s =
  Some (let buf := take (length a - 4) a in
        if (length a <=? 4)%nat then None
        else if bool_decide (a = buf ++ checksum buf) then
          let '(read, tag) := read_varint buf in
          if read <=? 0 then None else Some (tag, drop (Z.to_nat read) buf)
        else None).
Proof.
  intros B E. unfold decode_addr. rewrite E. cbn [mbind option_bind]. change addr_checksum_size with 4%nat.
  destruct (Nat.leb_spec (length a) 4) as [L|L]; [reflexivity|]. cbv zeta. set (buf := take (length a - 4) a).
  destruct (digest_ok buf) as (_ & _ & ->). cbn [mbind option_bind].
  change (take 4 (digest buf)) with (checksum buf).
  assert (Q : checksum buf = drop (length a - 4) a <-> a = buf ++ checksum buf).
  { split; intros Q.
    - rewrite Q. unfold buf. by rewrite take_drop.
    - rewrite Q at 2. rewrite drop_app_length'; [reflexivity|]. unfold buf. rewrite length_take. lia. }
  rewrite (bool_decide_ext _ _ Q). destruct (bool_decide _); [|reflexivity]. cbn [negb].
  destruct (read_varint buf) as [read tag]. destruct (read <=? 0); reflexivity.
Qed.

Lemma decode_total s : byte_ok s -> exists r, decode s = Some r.
Proof. intros B. rewrite decode_eq by exact B. by eexists. Qed.

(** A buffer with its checksum. *)
Lemma encode_checked buf : byte_ok buf ->
  exists s, encode (buf ++ checksum buf) = Some s /\ byte_ok s /\ decode s = Some (Some (buf ++ checksum buf)).
Proof. intros B. apply decode_encode_bytes, Forall_app. split; [exact B | apply checksum_ok]. Qed.

(** Buffers with one encoding are equal. *)
Lemma encode_checked_inj a b s : byte_ok a -> byte_ok b ->
  encode (a ++ checksum a) = Some s -> encode (b ++ checksum b) = Some s -> a = b.
Proof.
  intros Ba Bb Ea Eb. destruct (encode_checked a Ba) as (sa & Ea' & _ & Da), (encode_checked b Bb) as (sb & Eb' & _ & Db).
  rewrite Ea in Ea'. apply (inj Some) in Ea' as <-. rewrite Eb in Eb'. apply (inj Some) in Eb' as <-.
  rewrite Da in Db. apply (inj Some) in Db. apply (inj Some) in Db. apply app_inj_2 in Db; [apply Db|].
  destruct (checksum_ok a) as [_ ->], (checksum_ok b) as [_ ->]. reflexivity.
Qed.

(** An accepted buffer. *)
Lemma decode_addr_buf buf s : byte_ok buf -> (0 < length buf)%nat -> encode (buf ++ checksum buf) = Some s -> byte_ok s /\
  decode_addr s = Some (let '(read, tag) := read_varint buf in
                        if read <=? 0 then None else Some (tag, drop (Z.to_nat read) buf)).
Proof.
  intros B L E. destruct (checksum_ok buf) as [Bc Lc]. change addr_checksum_size with 4%nat in Lc.
  destruct (encode_checked buf B) as (s' & E' & Bs & D).
  rewrite E in E'. apply (inj Some) in E' as <-. split; [exact Bs|]. rewrite (decode_addr_eq s _ Bs D). rewrite length_app, Lc.
  destruct (Nat.leb_spec (length buf + 4) 4); [lia|]. cbv zeta.
  rewrite take_app_length' by lia. rewrite bool_decide_true by reflexivity. reflexivity.
Qed.

(** ** The properties *)

(** C19. Neither assertion of the codec can fail and no index leaves a buffer:
    [encode] answers for every string, [decode] gives the string back, and
    whatever [decode] accepts is the encoding of what it answers, so two strings
    never decode to the same bytes. Eight bytes take eleven symbols, and
    one to seven last bytes two to ten. *)
Theorem base58_correct :
  (forall d, byte_ok d -> exists s, encode d = Some s /\ byte_ok s /\ decode s = Some (Some d) /\
    length s = (11 * (length d / 8) + encoded_block_sizes !!! (length d mod 8))%nat) /\
  (forall s, byte_ok s -> exists r, decode s = Some r) /\
  (forall s d, byte_ok s -> decode s = Some (Some d) -> byte_ok d /\ encode d = Some s).
Proof.
  split; [|split; [exact decode_total | exact encode_decode_bytes]].
  intros d B. destruct (decode_encode_bytes d B) as (s & E & Bs & D). exists s. split; [exact E|].
  split; [exact Bs|]. split; [exact D|]. rewrite encode_eq in E by exact B. apply (inj Some) in E as <-.
  pose proof (Nat.div_mod (length d) 8 ltac:(lia)) as El.
  rewrite length_app, length_enc_full, length_enc_blk, length_drop by lia. do 2 f_equal. lia.
Qed.

(** C20. An address is read back with its tag and its data. Every string has an
    answer. What is accepted with some data is the address [encode_addr] makes of
    the answer; without data it need not be: a tag that stops before its last byte
    is accepted, in a string that no tag is written as. *)
Theorem address_correct :
  (forall tag data, 0 <= tag < 2 ^ 64 -> byte_ok data -> exists s,
    encode_addr tag data = Some s /\ byte_ok s /\ decode_addr s = Some (Some (tag, data))) /\
  (forall s, byte_ok s -> exists r, decode_addr s = Some r) /\
  (forall s tag data, byte_ok s -> decode_addr s = Some (Some (tag, data)) -> data <> [] ->
    0 <= tag < 2 ^ 64 /\ encode_addr tag data = Some s) /\
  (exists s, byte_ok s /\ decode_addr s = Some (Some (0, [])) /\
    forall tag, 0 <= tag < 2 ^ 64 -> encode_addr tag [] <> Some s).
Proof.
  split; [|split; [|split]].
  - intros tag data Ht B. destruct (write_varint_total tag Ht) as (buf & E & L & Bb).
    assert (Bd : byte_ok (buf ++ data)) by (by apply Forall_app). destruct (encode_checked (buf ++ data) Bd) as (s & Es & Bs & _).
    exists s. rewrite (encode_addr_eq tag data buf E). split; [exact Es|]. split; [exact Bs|].
    destruct (decode_addr_buf (buf ++ data) s Bd ltac:(rewrite length_app; lia) Es) as [_ ->].
    rewrite (read_write_varint tag buf data Ht E). destruct (Z.leb_spec (Z.of_nat (length buf)) 0); [lia|].
    by rewrite Nat2Z.id, drop_app_length.
  - intros s B. destruct (decode_total s B) as [[a|] D].
    + rewrite (decode_addr_eq s a B D). by eexists.
    + exists None. unfold decode_addr. by rewrite D.
  - intros s tag data B E Hd. destruct (decode_total s B) as [[a|] D]; [|unfold decode_addr in E; by rewrite D in E].
    rewrite (decode_addr_eq s a B D) in E. apply (inj Some) in E. cbv zeta in E. set (buf := take (length a - 4) a) in *.
    destruct (length a <=? 4)%nat; [discriminate|]. destruct (bool_decide_reflect (a = buf ++ checksum buf)) as [Ea|]; [|discriminate].
    destruct (encode_decode_bytes s a B D) as [Ba Ea'].
    assert (Bb : byte_ok buf) by (by apply Forall_take).
    destruct (read_varint buf) as [n v] eqn:R. destruct (Z.leb_spec n 0); [discriminate|]. apply (inj Some) in E. injection E as <- <-.
    assert (Te : varint_ended buf).
    { destruct (decide (Exists (fun b => b < 128) buf)) as [Te|Te]; [exact Te|]. exfalso.
      pose proof (read_varint_loop_open buf 0 0 0 Bb Te ltac:(lia)) as F. change (7 * Z.of_nat 0) with 0 in F. fold (read_varint buf) in F. rewrite R in F. cbn [fst] in F.
      destruct (length buf <? 10 - 0)%nat; [|unfold EVARINT_OVERFLOW in F; lia].
      apply Hd. rewrite F, Z.add_0_l, Nat2Z.id. apply drop_all. }
    destruct (read_varint_write buf n v Bb Te R ltac:(lia)) as [Hv W]. split; [exact Hv|].
    rewrite (encode_addr_eq _ _ _ W), take_drop, <- Ea. exact Ea'.
  - assert (Bb : byte_ok [128]) by (constructor; [lia | constructor]).
    destruct (encode_checked [128] Bb) as (s & Es & Bs & _). exists s. split; [exact Bs|].
    destruct (decode_addr_buf [128] s Bb ltac:(cbn; lia) Es) as [_ ->].
    split; [exact eq_refl|]. intros tag Ht E. destruct (write_varint_total tag Ht) as (b & W & L & B).
    rewrite (encode_addr_eq tag [] b W), app_nil_r in E. pose proof (encode_checked_inj b [128] s B Bb E Es) as ->.
    pose proof (read_write_varint tag [128] [] Ht W) as R. change (read_varint ([128] ++ [])) with (1, 0) in R.
    apply (f_equal snd) in R. cbn [snd] in R. rewrite <- R in W. discriminate W.
Qed.

Lemma base58_correct_witness : exists s, encode [1; 2; 3] = Some s /\ decode s = Some (Some [1; 2; 3]) /\ length s = 5%nat.
Proof.
  destruct (proj1 base58_correct [1; 2; 3]) as (s & E & _ & D & L); [repeat constructor; done|].
  exists s. split; [exact E|]. split; [exact D | exact L].
Defined.

Lemma address_correct_witness : exists s, encode_addr 18 [1; 2; 3] = Some s /\ decode_addr s = Some (Some (18, [1; 2; 3])).
Proof.
  destruct (proj1 address_correct 18 [1; 2; 3]) as (s & E & _ & D); [lia | repeat constructor; done|].
  exists s. split; [exact E | exact D].
Defined.
